(* ===== verification/_CoqProject ===== *)
-Q . S2P
Prelude.v
Text.v
Types.v
Layout.v
Constants.v
Instr.v
Traits.v
Display.v
Locations.v
Llvm.v
ReadSamples.v
ReadTypes.v
ReadConst.v
ReadAttr.v
ReadInstr.v
ReadModule.v
ReadNames.v
ReadRefs.v
ReadFaith.v
ReadInv.v
ReadTotal.v
Smt.v
Gate.v
Analyzer.v
Samples.v
Sizes.v
AnalyzerInv.v
Termination.v
MemSafety.v
MemSim.v
MemLoops.v
MemSound.v
Fs.v
Bridge.v
Zig.v
Validator.v
Build.v
Attest.v
Json.v
Verdict.v
Console.v
Cli.v
Load.v
