(* ===== verification/Prelude.v ===== *)
(** * Sentinel-KV: a verification development

    Sentinel-KV's [skv-analyzer] reads the LLVM IR of a kernel module, checks its
    memory operations with an SMT solver behind a human approval gate, applies the
    policy of a protection ring (signed attestation on rings -1 and -2), and
    reports a verdict as exit code and JSON.  This library models the analyzer
    ([src/skv-analyzer/src/main.rs]), the attestation validator it calls in its two
    implementations ([src/skv-analyzer/src/c/attestation_bridge.c] and
    [src/skv-analyzer/src/zig/attestation_bridge.zig]) and the IR library it works
    with ([src/skv-analyzer/llvm-ir-patched/src], built for LLVM 19): the data model
    and the readers that make it from a module of LLVM.  It proves what makes them
    correct.

    ** How the program is put together

    [main] calls [run], which dispatches the subcommands or runs the analysis:
    [Module::from_ir_path] loads the IR; [analyze] walks functions, blocks and
    instructions with one mutable state, asking [check_access] about each access;
    [check_access] first asks the gate ([HitlGate::should_run_solver]) and only then
    the solver; [enforce_hitl_policy] and [apply_ring_policy] turn the outcome into
    the final result; [verdict_from_result] and [Verdict::to_json] report it, and
    [write_output_file] writes it.  [apply_ring_policy] verifies a signature
    ([verify_attestation_signature]) and calls [skv_validate_attestation_token],
    which keeps the replay counter; the build script [src/skv-analyzer/build.rs]
    decides whether that is the C or the Zig function.

    ** Files

    - [Prelude]: the monads [exec] (done, panic, diverge) and [result]
      ([anyhow::Result], an error being its displayed text), [u64] arithmetic with
      its checked, saturating and wrapping operations, tactics, the hint database
      [skv], [enumerate].
    - [Text]: the string operations of Rust's standard library that are used.
    - [Types], [Constants], [Instr]: [types.rs] and [name.rs] (types, the interning
      tables of [TypesBuilder] and [Types]); [constant.rs] and [operand.rs] with
      their typing; [instruction.rs], [instruction/groups.rs], [terminator.rs],
      [basicblock.rs], [function.rs], [module.rs], [predicates.rs], [debugloc.rs].
      The fields of a struct of [terminator.rs] or of a constant expression are the
      arguments of its constructor of [Terminator] or [Constant].
    - [Traits]: those structs as records, and for every struct the conversions and
      trait implementations its macros generate, as instances of classes.
    - [Layout]: [DataLayout] and [Alignments] of [module.rs], the parser of layout
      strings and the alignment lookups.
    - [Display]: the text of constants, operands, instructions and terminators,
      floating-point numbers included; [Locations]: the order and text of [DebugLoc].
    - [Llvm]: the functions of the LLVM C API as the class [LLVM], the state monad
      of the readers, [from_llvm.rs] and [iterators.rs].  [ReadSamples] instantiates
      the class by tables of objects.
    - [ReadTypes], [ReadConst], [ReadAttr], [ReadInstr], [ReadModule]: every
      [from_llvm_ref] of the library: types, constants and operands, enumerations
      and attributes, instructions and terminators, blocks, functions, global
      objects and modules.
    - [ReadNames], [ReadRefs], [ReadFaith], [ReadInv], [ReadTotal]: what the readers
      guarantee: the names the two passes give, the references inside a function, that
      constants and operands are read as what they mean, the tables of types, and that
      every well-formed module is read.
    - [Smt]: the Z3 terms the analyzer builds, with their meaning, and the solver's
      scopes.  The solver itself is the class [SmtSolver]; what Z3 documents of its
      answers is the class [SoundSolver]; clients are proved against the classes and
      the instance [eval_solver] discharges them.
    - [Gate]: results ordered by severity, [HitlGate], [check_access], the
      identifiers of verification conditions, approvals, their emission and policy.
    - [Analyzer]: the state [AState] and one function per arm of the big [match] of
      [analyze], composed as [step], [run_instrs], [run_blocks], [run_functions],
      [analyze].  [Samples] has small IR programs.
    - [Sizes]: [type_size] against a reference size; [AnalyzerInv]: the invariant of
      the analysis and what a Pass, a counter and a solver query mean;
      [Termination]: the analysis terminates.
    - [MemSafety], [MemSim], [MemLoops], [MemSound]: a concrete semantics of the IR
      that knows nothing of the analysis and the shape of the covered programs; the
      simulation, instruction by instruction; what lets it go back to a block it has
      been through; the walk that makes a Pass a proof of memory safety, and at the
      end programs outside the covered shape that the analysis passes although they
      misbehave.
    - [Fs]: files, users, failures ([World]); [ensure_secure_owned_file],
      [nix_like_euid], [write_output_file], [load_hitl_approvals], [emit_hitl_vcs].
    - [Bridge]: the C validator, byte for byte over the [World]; [Zig]: the Zig
      validator that [build.rs] takes on request, and the specification both meet.
    - [Validator]: the function [main.rs] is linked with as the class [Validator], its
      promise as the class [ValidatorLaws], and the instances for C and Zig;
      [Build]: [build.rs], its choice of an instance and its fall back.
    - [Attest]: rings, fingerprints, signatures, [apply_ring_policy], for any
      [Validator].  Base64, Ed25519, SHA-256 and hex are the class [Crypto], of which
      nothing is assumed.
    - [Json]: a reference JSON reader with its round trip; [Verdict]: [Verdict],
      [to_json], [verdict_from_result].
    - [Console]: catalogue, [run_doctor], [print_token_template], [run_tui];
      [Cli]: [Args], [run], [main], for any loader of IR files.
    - [Load]: [from_ir_path] and its relatives of [module.rs] over LLVM's parsers
      (the class [LLVMParsers]), and with them the analyzer from the file to the
      exit code.

    ** What the theorems show

    - Soundness.  A Pass means that every execution of every covered function is
      memory safe (C1); exit code 0 of the analysis command means that, and that the
      approvals and the attestation hold (C2).  Executions take any branches and any
      number of rounds of a loop, though the analysis visits a block once.  Covered
      means [cov_module]: names assigned once and, on every path, before they are
      used; loops that free only what they allocate; addresses derived from tracked
      allocations; pointers spilled in the entry block.  [MemSound] ends with one
      example for each condition that a program outside can violate.
    - The analysis.  Its invariant (C3), the solver runs only on approved conditions
      (C4), require mode end to end (C5), a Pass means no unrecognised operation
      (C6), the counters of a Pass (C12), type sizes (C14), termination (C15),
      [check_access] decides the bounds (C10).
    - The gate.  Fail closed (C11), approvals round trip (C20), the emission reads
      back (C22).
    - Attestation.  Replay protection over any sequence of validations (C7), the
      ring policy (C8: it panics only if the validator stops, and passes a strict ring
      only when the validator accepted), what the validators accept (C9 in C, C30 in
      Zig), that they agree on well-formed tokens (C21), signatures (C13),
      [attest-check] (C19), templates are accepted (C28).  C2, C8, C16 and C19 hold
      for every validator with the laws.  Liveness: whatever sequence of accepted and
      refused validations, by either implementation, a replay state has been through,
      a presentable token with a larger counter is accepted (C24).
    - Outputs.  Exit code, console and verdict file agree (C16), the JSON reads back
      (C17), writes replace exactly one secure file (C18), the menu returns only
      when asked (C27).
    - The data model.  Interning is transparent (C25), the enums agree with the trait
      implementations of their structs, and the operand groups round trip (C26), the
      text of integers reads back (C31).
    - The data layout.  Lookups never fail on a parsed layout and integers get the
      entry they should (C32), the language of layouts round trips (C33).
    - The readers.  The two passes agree (C34), names are unique (C35), references
      to global objects have the names of the objects (C36), types, and constants and
      operands, are read as what they mean (C37, C23), attributes are decoded (C38),
      functions are closed (C39), and a well-formed module is read without a panic and
      within the bounds, whatever the profile (C29).
    - The whole.  From the file to the exit code (C40): C2 with the module being the
      one the readers made of what LLVM parsed, and the validator the one the build
      script linked.

    ** Bounds, fuel, overflow

    [u64] values are integers with the operation's own overflow written out; the
    plain [*] of [type_size] panics or wraps depending on the build ([dbg]).  The
    recursion of [type_size] and [resolve_named_type] through named structs is not
    structural: it takes a [fuel], running out is [Diverge], and [Termination] shows
    that for structs that do not contain themselves every larger fuel gives the same
    answer.  [run_tui] is a [loop]: its fuel counts rounds, and C27 says exactly when
    it returns.  Links are followed forty times as the kernel does.  [strtoll] clamps
    and [(int)] truncates as in C; the one signed subtraction that can overflow
    yields whatever the [World] says.

    The readers recurse and iterate through references of LLVM, which no measure of
    the program bounds: the class [Bounds] has the number of elements an iterator
    follows and the depths to which types and constants are read.  Running out is
    [Diverge], so what a theorem says of a reader that returned holds for any
    bounds, and C37, C23 and C29, which say that the readers return, need a depth that
    reaches theirs ([ReadTotal.module_ok] says how far a module may go).  The search
    for the shortest decimal of a floating-point number tries thirty digits; seventeen
    are enough for a [double].

    ** What is not modelled

    LLVM itself, Z3 and the cryptographic crates, which are classes; the programs and
    the [cc] crate the build script starts (the class [BuildHost]); [metadata.rs],
    which [lib.rs] does not compile, and the metadata the sources leave as future
    work; the C programs under [src/tests], which are inputs of the analyzer; code
    that only other versions of LLVM enable; reference counting and the [unsafe]
    lifetimes of LLVM objects; argument parsing by clap.  Writing to standard
    output does not fail.  Between the lines of one function the files do not change
    under the program's feet: races with other processes are out of the model except
    across validations (C7).

    ** Plan

    Next: pointers spilled outside the entry block, and addresses merged by a phi, in
    the covered shape of C1; that the texts of two different instructions differ. *)

From stdpp Require Import base gmap sets list strings pretty.
From Stdlib Require Import ZArith Lia.

#[global] Set Default Proof Using "Type".

(** ** Outcomes of code that may panic or recurse without bound *)

Inductive exec (A : Type) : Type :=
  | Done (a : A)
  | Panic
  | Diverge.
Arguments Done {A} a.
Arguments Panic {A}.
Arguments Diverge {A}.

#[export] Instance exec_ret : MRet exec := fun A a => Done a.
#[export] Instance exec_bind : MBind exec := fun A B f m =>
  match m with Done a => f a | Panic => Panic | Diverge => Diverge end.
#[export] Instance exec_fmap : FMap exec := fun A B f m =>
  match m with Done a => Done (f a) | Panic => Panic | Diverge => Diverge end.

(** [Option::expect] and [unwrap] *)
Definition expect {A} (o : option A) : exec A := match o with Some a => Done a | None => Panic end.

Declare Scope skv_scope.
Delimit Scope skv_scope with skv.

(** [let!] sequences computations that may panic, [let?] leaves the enclosing
    computation early with the given value when the scrutinee is [None]. *)
Notation "'let!' x ':=' m 'in' k" := (mbind (M := exec) (fun x => k) m)
  (at level 10, x pattern, m at level 100, k at level 200) : skv_scope.
Notation "'let?' x ':=' m 'else' d 'in' k" :=
  (match m with Some x => k | None => d end)
  (at level 10, x pattern, m at level 100, d at level 100, k at level 200) : skv_scope.
#[global] Open Scope skv_scope.

Lemma Done_inj {A} (a b : A) : Done a = Done b -> a = b.
Proof. by intros [= ->]. Qed.

Lemma exec_bind_done {A B} (f : A -> exec B) (m : exec A) b :
  (m ≫= f) = Done b <-> exists a, m = Done a /\ f a = Done b.
Proof. destruct m; simpl; naive_solver. Qed.

(** ** Fallible code: [anyhow::Result], an error being its displayed text *)

Inductive result (A : Type) : Type :=
  | Ok (a : A)
  | Err (e : string).
Arguments Ok {A} a.
Arguments Err {A} e.

#[export] Instance result_ret : MRet result := fun A a => Ok a.
#[export] Instance result_bind : MBind result := fun A B f m =>
  match m with Ok a => f a | Err e => Err e end.

(** [.with_context(..)] replaces the displayed text of an error. *)
Definition with_context {A} (ctx : string) (m : result A) : result A :=
  match m with Ok a => Ok a | Err _ => Err ctx end.

Definition is_ok {A} (m : result A) : bool :=
  match m with Ok _ => true | Err _ => false end.

Lemma result_bind_ok {A B} (f : A -> result B) (m : result A) b :
  (m ≫= f) = Ok b <-> exists a, m = Ok a /\ f a = Ok b.
Proof. destruct m; simpl; naive_solver. Qed.

Lemma with_context_ok {A} ctx (m : result A) a : with_context ctx m = Ok a <-> m = Ok a.
Proof. destruct m; simpl; naive_solver. Qed.

(** ** Machine integers: [u64] and its checked, saturating and wrapping operations *)

Definition u64_modulus : Z := 2 ^ 64.
Definition u64_max : Z := u64_modulus - 1.
Definition in_u64 (z : Z) : Prop := (0 <= z <= u64_max)%Z.
#[export] Instance in_u64_dec z : Decision (in_u64 z).
Proof. unfold in_u64. apply _. Defined.

Definition u64_checked_mul (a b : Z) : option Z :=
  if decide (a * b <= u64_max)%Z then Some (a * b)%Z else None.
Definition u64_checked_add (a b : Z) : option Z :=
  if decide (a + b <= u64_max)%Z then Some (a + b)%Z else None.
Definition u64_saturating_mul (a b : Z) : Z := Z.min (a * b) u64_max.
Definition u64_div_ceil (a b : Z) : Z :=
  (let q := a / b in if decide (0 < a mod b) then q + 1 else q)%Z.

(** The plain [*] of the language: it panics when the build has overflow
    checks (the debug profile) and wraps when it does not (release). *)
Definition u64_mul (overflow_checks : bool) (a b : Z) : exec Z :=
  if decide (a * b <= u64_max)%Z then Done (a * b)%Z
  else if overflow_checks then Panic else Done ((a * b) mod u64_modulus)%Z.

Lemma u64_checked_mul_some a b c :
  u64_checked_mul a b = Some c <-> c = (a * b)%Z /\ (a * b <= u64_max)%Z.
Proof. unfold u64_checked_mul. case_decide; naive_solver. Qed.

Lemma u64_checked_add_some a b c :
  u64_checked_add a b = Some c <-> c = (a + b)%Z /\ (a + b <= u64_max)%Z.
Proof. unfold u64_checked_add. case_decide; naive_solver. Qed.

Lemma u64_saturating_mul_exact a b :
  (a * b <= u64_max)%Z -> u64_saturating_mul a b = (a * b)%Z.
Proof. unfold u64_saturating_mul. lia. Qed.

Lemma u64_saturating_mul_range a b :
  (0 <= a)%Z -> (0 <= b)%Z -> in_u64 (u64_saturating_mul a b).
Proof. unfold u64_saturating_mul, in_u64, u64_max, u64_modulus. nia. Qed.

Lemma u64_div_ceil_spec a b :
  (0 <= a)%Z -> (0 < b)%Z ->
  (b * (u64_div_ceil a b - 1) < a <= b * u64_div_ceil a b)%Z
  \/ (a = 0 /\ u64_div_ceil a b = 0)%Z.
Proof.
  intros Ha Hb. unfold u64_div_ceil.
  pose proof (Z.div_mod a b ltac:(lia)) as Hdm.
  pose proof (Z.mod_pos_bound a b ltac:(lia)).
  case_decide; [left; nia|]. destruct (decide (a = 0%Z)) as [->|]; [|left; nia].
  right. rewrite Z.div_0_l by lia. auto.
Qed.

(** ** Automation shared by the component files *)

Create HintDb skv.
#[export] Hint Resolve u64_saturating_mul_range : skv.

(** Split every [match]/[if] the goal or a hypothesis is stuck on. *)
Ltac case_all :=
  repeat (case_match || case_decide || case_bool_decide); simplify_eq.

(** Invert monadic successes down to their steps. *)
Ltac inv_ok :=
  repeat match goal with
  | H : (_ ≫= _) = Ok _ |- _ => apply result_bind_ok in H as (? & ? & ?)
  | H : (_ ≫= _) = Done _ |- _ => apply exec_bind_done in H as (? & ? & ?)
  | H : with_context _ _ = Ok _ |- _ => apply with_context_ok in H
  | _ => progress simplify_eq/=
  end.

(** ** Lists *)

(** [iter().enumerate()] *)
Definition enumerate {A} (l : list A) : list (nat * A) := zip (seq 0 (length l)) l.

Lemma enumerate_lookup {A} (l : list A) i p :
  enumerate l !! i = Some p <-> exists x, l !! i = Some x /\ p = (i, x).
Proof.
  unfold enumerate. rewrite lookup_zip_with_Some. split.
  - intros (k & x & -> & Hk & Hx). apply lookup_seq in Hk as [-> ?]. eauto.
  - intros (x & Hx & ->). exists i, x. split_and!; [done| |done].
    apply lookup_seq. apply lookup_lt_Some in Hx. lia.
Qed.

Lemma elem_of_enumerate {A} (l : list A) i x :
  (i, x) ∈ enumerate l <-> l !! i = Some x.
Proof.
  rewrite list_elem_of_lookup. setoid_rewrite enumerate_lookup. naive_solver.
Qed.
