(* ===== verification/Text.v ===== *)
(** * Text: the string operations of Rust's standard library the program uses

    A [str] is its UTF-8 bytes.  [str_trim] strips the code points with the
    Unicode White_Space property, recognised by their encodings; the ASCII
    operations work byte-wise as in the standard library.  Decimal output of
    integers ([{}]) is stdpp's [pretty]. *)

From S2P Require Import Prelude.
From stdpp Require Import base list strings pretty.
From Stdlib Require Import Ascii String ZArith Lia.
#[local] Open Scope string_scope.

Definition byte_of (a : ascii) : N := N_of_ascii a.
Definition nl : ascii := Eval cbv in ascii_of_N 10.
Definition cr : ascii := Eval cbv in ascii_of_N 13.
Definition dquote : ascii := Eval cbv in ascii_of_N 34.
Definition backslash : ascii := Eval cbv in ascii_of_N 92.
Definition nul : ascii := Eval cbv in ascii_of_N 0.
Definition chr (a : ascii) : string := String a EmptyString.

(** ** White space *)

Definition ws1 (a : ascii) : bool :=
  (let b := byte_of a in (9 <=? b) && (b <=? 13) || (b =? 32))%N.
Definition ws2 (a1 a2 : ascii) : bool :=
  ((byte_of a1 =? 194) && ((byte_of a2 =? 133) || (byte_of a2 =? 160)))%N.
Definition ws3 (a1 a2 a3 : ascii) : bool :=
  (let b1 := byte_of a1 in let b2 := byte_of a2 in let b3 := byte_of a3 in
   (b1 =? 225) && (b2 =? 154) && (b3 =? 128)
   || (b1 =? 226) && (b2 =? 128)
      && ((128 <=? b3) && (b3 <=? 138) || (b3 =? 168) || (b3 =? 169) || (b3 =? 175))
   || (b1 =? 226) && (b2 =? 129) && (b3 =? 159)
   || (b1 =? 227) && (b2 =? 128) && (b3 =? 128))%N.

Fixpoint str_trim_start (s : string) : string :=
  match s with
  | "" => ""
  | String a s1 =>
      if ws1 a then str_trim_start s1 else
      match s1 with
      | "" => s
      | String b s2 =>
          if ws2 a b then str_trim_start s2 else
          match s2 with
          | "" => s
          | String c s3 => if ws3 a b c then str_trim_start s3 else s
          end
      end
  end.

(** [str_trim_start] on a reversed string: the encodings come backwards. *)
Fixpoint str_trim_rev (s : string) : string :=
  match s with
  | "" => ""
  | String a s1 =>
      if ws1 a then str_trim_rev s1 else
      match s1 with
      | "" => s
      | String b s2 =>
          if ws2 b a then str_trim_rev s2 else
          match s2 with
          | "" => s
          | String c s3 => if ws3 c b a then str_trim_rev s3 else s
          end
      end
  end.

Definition str_trim_end (s : string) : string := String.rev (str_trim_rev (String.rev s)).
Definition str_trim (s : string) : string := str_trim_end (str_trim_start s).

(** ** Characters *)

Definition to_lower (a : ascii) : ascii :=
  (let b := byte_of a in if (65 <=? b) && (b <=? 90) then ascii_of_N (b + 32) else a)%N.
Definition is_hexdigit (a : ascii) : bool :=
  (let b := byte_of a in
   (48 <=? b) && (b <=? 57) || (97 <=? b) && (b <=? 102) || (65 <=? b) && (b <=? 70))%N.
Definition is_digit (a : ascii) : bool :=
  (let b := byte_of a in (48 <=? b) && (b <=? 57))%N.

Fixpoint str_map (f : ascii -> ascii) (s : string) : string :=
  match s with "" => "" | String a s' => String (f a) (str_map f s') end.
Fixpoint str_all (p : ascii -> bool) (s : string) : bool :=
  match s with "" => true | String a s' => p a && str_all p s' end.
Fixpoint str_mem (c : ascii) (s : string) : bool :=
  match s with "" => false | String a s' => Ascii.eqb a c || str_mem c s' end.
Definition to_ascii_lowercase (s : string) : string := str_map to_lower s.

(** [s.replace(c, by)] for a one-character pattern *)
Fixpoint str_replace (c : ascii) (by_ : string) (s : string) : string :=
  match s with
  | "" => ""
  | String a s' => (if Ascii.eqb a c then by_ else chr a) +:+ str_replace c by_ s'
  end.

(** ** Prefixes, lines, words *)

Definition starts_with (p s : string) : bool := String.prefix p s.

Fixpoint strip_prefix (p s : string) : option string :=
  match p, s with
  | "", _ => Some s
  | String a p', String b s' => if Ascii.eqb a b then strip_prefix p' s' else None
  | String _ _, "" => None
  end.

(** [cur] is the reversed text of the current piece. *)
Fixpoint split_on (p : ascii -> bool) (cur s : string) : list string :=
  match s with
  | "" => [String.rev cur]
  | String a s' =>
      if p a then String.rev cur :: split_on p "" s' else split_on p (String a cur) s'
  end.

Definition strip_cr (s : string) : string :=
  match String.rev s with
  | String a r => if Ascii.eqb a cr then String.rev r else s
  | "" => s
  end.

(** [str::lines]: the text between line feeds, a trailing carriage return
    removed; a final line feed does not open another line. *)
Fixpoint lines_from (cur s : string) : list string :=
  match s with
  | "" => if decide (cur = "") then [] else [String.rev cur]
  | String a s' =>
      if Ascii.eqb a nl then strip_cr (String.rev cur) :: lines_from "" s'
      else lines_from (String a cur) s'
  end.
Definition str_lines (s : string) : list string := lines_from "" s.

(** [split_whitespace] on ASCII white space, for the kernel's [/proc] text *)
Definition split_whitespace (s : string) : list string :=
  filter (fun w => w ≠ "") (split_on ws1 "" s).

Definition has_nul (s : string) : bool := str_mem nul s.

(** [str::parse::<u32>]: an optional plus sign, then one or more digits, in range *)
Fixpoint digits_value (acc : Z) (s : string) : option Z :=
  match s with
  | "" => Some acc
  | String a s' =>
      if is_digit a then digits_value (10 * acc + (Z.of_N (byte_of a) - 48))%Z s' else None
  end.
Definition parse_u32 (s : string) : option Z :=
  let body := match s with String a s' => if Ascii.eqb a "+" then s' else s | "" => s end in
  match body with
  | "" => None
  | _ => match digits_value 0 body with
         | Some v => if decide (v < 2 ^ 32)%Z then Some v else None
         | None => None
         end
  end.

Definition str_concat (l : list string) : string := foldr String.append "" l.

(** [out.push(',')] before every item but the first *)
Fixpoint comma_join (l : list string) : string :=
  match l with
  | [] => ""
  | [x] => x
  | x :: l' => x +:+ "," +:+ comma_join l'
  end.

(** ** Lemmas *)

#[local] Arguments String.append !_ _ / : simpl nomatch.

Lemma str_all_app p s1 s2 : str_all p (s1 +:+ s2) = str_all p s1 && str_all p s2.
Proof. induction s1 as [|a s1 IH]; simpl; [done|]. by rewrite IH, andb_assoc. Qed.

Lemma str_mem_app c s1 s2 : str_mem c (s1 +:+ s2) = str_mem c s1 || str_mem c s2.
Proof. induction s1 as [|a s1 IH]; simpl; [done|]. by rewrite IH, orb_assoc. Qed.

Lemma str_app_assoc (s1 s2 s3 : string) : (s1 +:+ s2) +:+ s3 = s1 +:+ (s2 +:+ s3).
Proof. induction s1 as [|a s1 IH]; simpl; [done|]. f_equal. exact IH. Qed.

Lemma str_app_nil_r (s : string) : s +:+ "" = s.
Proof. induction s as [|a s IH]; simpl; [done|]. f_equal. exact IH. Qed.

Lemma str_length_app s1 s2 :
  String.length (s1 +:+ s2) = (String.length s1 + String.length s2)%nat.
Proof. induction s1; simpl; congruence. Qed.

Lemma str_app_inj_l (s s1 s2 : string) : s +:+ s1 = s +:+ s2 -> s1 = s2.
Proof. induction s as [|a s IH]; simpl; [done|]. intros [= H]. auto. Qed.

(** A separator that the left parts cannot contain splits uniquely. *)
Lemma str_split_unique (p : ascii -> bool) c (d1 d2 r1 r2 : string) :
  p c = false -> str_all p d1 = true -> str_all p d2 = true ->
  d1 +:+ String c r1 = d2 +:+ String c r2 -> d1 = d2 /\ r1 = r2.
Proof.
  intros Hc. revert d2. induction d1 as [|a d1 IH]; intros [|b d2]; simpl;
    rewrite ?andb_true_iff; intros H1 H2 Heq; simplify_eq.
  - done.
  - destruct H2; congruence.
  - destruct H1; congruence.
  - destruct H1, H2, (IH d2) as [-> ->]; auto.
Qed.

Lemma pretty_char_digit n : is_digit (pretty_N_char n) = true.
Proof. unfold pretty_N_char. by repeat case_match. Qed.

Lemma pretty_N_go_digits n s :
  str_all is_digit s = true -> str_all is_digit (pretty_N_go n s) = true.
Proof.
  revert s. induction (N.lt_wf_0 n) as [n _ IH]; intros s Hs.
  assert (n = 0 ∨ 0 < n)%N as [->|?] by lia; [by rewrite pretty_N_go_0|].
  rewrite pretty_N_go_step by done. apply IH; [by apply N.div_lt|].
  simpl. by rewrite pretty_char_digit.
Qed.

Lemma pretty_N_digits (n : N) : str_all is_digit (pretty n) = true.
Proof.
  unfold pretty, pretty_N. case_decide; [done|]. by apply pretty_N_go_digits.
Qed.

Lemma pretty_nat_digits (n : nat) : str_all is_digit (pretty n) = true.
Proof. apply pretty_N_digits. Qed.

Lemma pretty_N_nonempty (n : N) : pretty n ≠ "".
Proof.
  unfold pretty, pretty_N. case_decide as Hn; [done|].
  assert (forall m s, s <> "" -> pretty_N_go m s <> "") as Hgo.
  { intros m. induction (N.lt_wf_0 m) as [m _ IH]; intros s Hs.
    assert (m = 0 ∨ 0 < m)%N as [->|?] by lia; [by rewrite pretty_N_go_0|].
    rewrite pretty_N_go_step by done. by apply IH; [apply N.div_lt|]. }
  rewrite pretty_N_go_step by lia. by apply Hgo.
Qed.

Lemma pretty_char_value n :
  (n < 10)%N -> (Z.of_N (byte_of (pretty_N_char n)) - 48 = Z.of_N n)%Z.
Proof.
  intros Hn.
  assert (n = 0 ∨ n = 1 ∨ n = 2 ∨ n = 3 ∨ n = 4 ∨ n = 5 ∨ n = 6 ∨ n = 7 ∨ n = 8 ∨ n = 9)%N
    as Hc by lia.
  by repeat destruct Hc as [->|Hc]; [..|subst].
Qed.

(** Reading decimal digits back gives the number printed. *)
Lemma digits_value_go n s acc :
  digits_value acc (pretty_N_go n s)
  = digits_value (acc * 10 ^ Z.of_nat (String.length (pretty_N_go n s) - String.length s)
                  + Z.of_N n)%Z s.
Proof.
  revert s acc. induction (N.lt_wf_0 n) as [n _ IH]; intros s acc.
  assert (n = 0 ∨ 0 < n)%N as [->|Hpos] by lia.
  { rewrite pretty_N_go_0, Nat.sub_diag. f_equal. simpl. lia. }
  rewrite pretty_N_go_step by done.
  rewrite IH by (by apply N.div_lt). simpl digits_value.
  rewrite pretty_char_digit, pretty_char_value by (by apply N.mod_lt).
  f_equal.
  set (t := pretty_N_go _ _).
  assert (String.length s < String.length t)%nat as Hlen.
  { subst t. clear.
    assert (forall m u, String.length u <= String.length (pretty_N_go m u))%nat as Hge.
    { intros m. induction (N.lt_wf_0 m) as [m _ IH]; intros u.
      assert (m = 0 ∨ 0 < m)%N as [->|?] by lia; [by rewrite pretty_N_go_0|].
      rewrite pretty_N_go_step by done.
      etrans; [|apply IH; by apply N.div_lt]. simpl. lia. }
    eapply Nat.lt_le_trans; [|apply Hge]. simpl. lia. }
  replace (String.length t - String.length s)%nat
    with (S (String.length t - String.length (String (pretty_N_char (n `mod` 10)) s)))
    by (simpl; lia).
  rewrite Nat2Z.inj_succ, Z.pow_succ_r by lia.
  rewrite N2Z.inj_div, N2Z.inj_mod.
  pose proof (Z.div_mod (Z.of_N n) 10 ltac:(lia)). simpl. lia.
Qed.

Lemma digits_value_pretty (n : N) : digits_value 0 (pretty n) = Some (Z.of_N n).
Proof.
  unfold pretty, pretty_N. case_decide as Hn; [by subst|].
  rewrite digits_value_go. simpl. by rewrite Z.mul_0_l.
Qed.

#[export] Hint Rewrite str_all_app str_mem_app pretty_nat_digits pretty_N_digits : skv.

(** ** Reversal, trimming and lines *)

Lemma str_rev_app_rev_app s t u :
  String.rev_app (String.rev_app s t) u = String.rev_app t (s +:+ u).
Proof. revert t u. induction s as [|a s IH]; intros t u; simpl; [done|]. by rewrite IH. Qed.

Lemma str_rev_involutive s : String.rev (String.rev s) = s.
Proof. unfold String.rev. rewrite str_rev_app_rev_app. simpl. apply str_app_nil_r. Qed.

Lemma str_rev_app_length s t :
  String.length (String.rev_app s t) = (String.length s + String.length t)%nat.
Proof. revert t. induction s as [|a s IH]; intros t; simpl; [done|]. rewrite IH. simpl. lia. Qed.

Lemma str_rev_length s : String.length (String.rev s) = String.length s.
Proof. unfold String.rev. rewrite str_rev_app_length. simpl. lia. Qed.

(** Trimming either leaves a text alone or makes it shorter. *)
Lemma str_trim_start_shrinks s :
  str_trim_start s = s \/ String.length (str_trim_start s) < String.length s.
Proof.
  enough (forall n s, String.length s <= n ->
    str_trim_start s = s \/ String.length (str_trim_start s) < String.length s) by eauto.
  clear s. induction n as [|n IH]; intros [|a s1] Hn; simpl in *; [by left| lia |by left|].
  destruct (ws1 a). { destruct (IH s1); [lia|right; rewrite H; lia|right; lia]. }
  destruct s1 as [|b s2]; [by left|]. simpl in *.
  destruct (ws2 a b). { destruct (IH s2); [lia|right; rewrite H; lia|right; lia]. }
  destruct s2 as [|c s3]; [by left|]. simpl in *.
  destruct (ws3 a b c); [|by left]. destruct (IH s3); [lia|right; rewrite H; lia|right; lia].
Qed.

Lemma str_trim_rev_shrinks s :
  str_trim_rev s = s \/ String.length (str_trim_rev s) < String.length s.
Proof.
  enough (forall n s, String.length s <= n ->
    str_trim_rev s = s \/ String.length (str_trim_rev s) < String.length s) by eauto.
  clear s. induction n as [|n IH]; intros [|a s1] Hn; simpl in *; [by left| lia |by left|].
  destruct (ws1 a). { destruct (IH s1); [lia|right; rewrite H; lia|right; lia]. }
  destruct s1 as [|b s2]; [by left|]. simpl in *.
  destruct (ws2 b a). { destruct (IH s2); [lia|right; rewrite H; lia|right; lia]. }
  destruct s2 as [|c s3]; [by left|]. simpl in *.
  destruct (ws3 c b a); [|by left]. destruct (IH s3); [lia|right; rewrite H; lia|right; lia].
Qed.

Lemma str_trim_fixed s :
  str_trim s = s -> str_trim_start s = s /\ str_trim_rev (String.rev s) = String.rev s.
Proof.
  unfold str_trim, str_trim_end. intros H.
  destruct (str_trim_start_shrinks s) as [Hs|Hs].
  - split; [done|]. rewrite Hs in H. apply (f_equal String.rev) in H.
    by rewrite str_rev_involutive in H.
  - exfalso. apply (f_equal String.length) in H. rewrite str_rev_length in H.
    destruct (str_trim_rev_shrinks (String.rev (str_trim_start s))) as [E|E];
      [rewrite E in H|]; rewrite ?str_rev_length in *; lia.
Qed.

Lemma strip_cr_fixed s : str_trim s = s -> strip_cr s = s.
Proof.
  intros [_ H]%str_trim_fixed. unfold strip_cr.
  destruct (String.rev s) as [|a r] eqn:E; [done|].
  destruct (Ascii.eqb_spec a cr) as [->|]; [|done]. simpl in H.
  destruct (str_trim_rev_shrinks r) as [Hr|Hr]; apply (f_equal String.length) in H;
    [rewrite Hr in H|]; simpl in H; lia.
Qed.

Lemma lines_from_line s cur rest :
  str_mem nl s = false ->
  lines_from cur (s +:+ String nl rest)
  = strip_cr (String.rev (String.rev_app s cur)) :: lines_from "" rest.
Proof.
  revert cur. induction s as [|a s IH]; intros cur; simpl; [done|].
  rewrite orb_false_iff. intros [-> Hs]. by apply IH.
Qed.

Lemma str_lines_line s rest :
  str_mem nl s = false -> str_lines (s +:+ String nl rest) = strip_cr s :: str_lines rest.
Proof.
  intros Hs. unfold str_lines. rewrite lines_from_line by done.
  by rewrite <- (str_rev_involutive s) at 2.
Qed.

(** ** UTF-8 *)

(** Well-formed UTF-8: the lead byte's range, and that of the byte after it,
    then continuation bytes. *)
Definition in_range (lo hi : N) (a : ascii) : bool :=
  ((lo <=? byte_of a) && (byte_of a <=? hi))%N.
Fixpoint utf8_cont (s : string) (k : nat) : option string :=
  match k with
  | O => Some s
  | S k' => match s with
            | String a s' => if in_range 128%N 191%N a then utf8_cont s' k' else None
            | "" => None
            end
  end.
Fixpoint utf8_valid_fuel (fuel : nat) (s : string) : bool :=
  match fuel, s with
  | _, "" => true
  | O, _ => false
  | S f, String a s1 =>
      let next (lo hi : N) (k : nat) := match s1 with
                          | String b s2 => in_range lo hi b &&
                              match utf8_cont s2 k with Some s3 => utf8_valid_fuel f s3 | None => false end
                          | "" => false
                          end in
      if in_range 0%N 127%N a then utf8_valid_fuel f s1
      else if in_range 194%N 223%N a then next 128%N 191%N 0
      else if in_range 224%N 224%N a then next 160%N 191%N 1
      else if in_range 225%N 236%N a || in_range 238%N 239%N a then next 128%N 191%N 1
      else if in_range 237%N 237%N a then next 128%N 159%N 1
      else if in_range 240%N 240%N a then next 144%N 191%N 2
      else if in_range 241%N 243%N a then next 128%N 191%N 2
      else if in_range 244%N 244%N a then next 128%N 143%N 2
      else false
  end.
Definition utf8_valid (s : string) : bool := utf8_valid_fuel (String.length s) s.

(** [CStr::to_string_lossy]: each maximal piece of an ill-formed sequence becomes
    U+FFFD. *)
Definition replacement : string :=
  String (ascii_of_N 239) (String (ascii_of_N 191) (String (ascii_of_N 189) "")).
(** Up to [k] continuation bytes, what follows them, and whether all were there *)
Fixpoint take_cont (k : nat) (s : string) : string * string * bool :=
  match k, s with
  | S k', String a s' =>
      if in_range 128%N 191%N a
      then let '(t, r, ok) := take_cont k' s' in (String a t, r, ok)
      else ("", s, false)
  | S _, "" => ("", s, false)
  | O, _ => ("", s, true)
  end.
Fixpoint lossy_fuel (fuel : nat) (s : string) : string :=
  match fuel, s with
  | S f, String a s1 =>
      let bad (rest : string) := replacement +:+ lossy_fuel f rest in
      let next (lo hi : N) (k : nat) :=
        match s1 with
        | String b s2 =>
            if in_range lo hi b then
              let '(t, r, ok) := take_cont k s2 in
              if (ok : bool) then String a (String b (t +:+ lossy_fuel f r)) else bad r
            else bad s1
        | "" => bad s1
        end in
      if in_range 0%N 127%N a then String a (lossy_fuel f s1)
      else if in_range 194%N 223%N a then next 128%N 191%N 0
      else if in_range 224%N 224%N a then next 160%N 191%N 1
      else if in_range 225%N 236%N a || in_range 238%N 239%N a then next 128%N 191%N 1
      else if in_range 237%N 237%N a then next 128%N 159%N 1
      else if in_range 240%N 240%N a then next 144%N 191%N 2
      else if in_range 241%N 243%N a then next 128%N 191%N 2
      else if in_range 244%N 244%N a then next 128%N 143%N 2
      else bad s1
  | _, _ => ""
  end.
Definition to_string_lossy (s : string) : string := lossy_fuel (String.length s) s.

Lemma take_cont_valid k s r : utf8_cont s k = Some r -> exists t, take_cont k s = (t, r, true) /\ s = t +:+ r.
Proof.
  revert s. induction k as [|k IH]; intros [|a s]; simpl; try (intros [= <-]; by exists ""). destruct (in_range _ _ a); [|done]. intros Hs.
  destruct (IH s Hs) as (t & -> & ->). by exists (String a t).
Qed.

(** Well-formed text is kept as it is. *)
Lemma lossy_valid_fuel fuel s : utf8_valid_fuel fuel s = true -> lossy_fuel fuel s = s.
Proof.
  revert s. induction fuel as [|fuel IH]; intros [|a s1]; try done. cbn [utf8_valid_fuel lossy_fuel].
  assert (forall lo hi k,
    match s1 with
    | String b s2 => in_range lo hi b &&
        match utf8_cont s2 k with Some s3 => utf8_valid_fuel fuel s3 | None => false end
    | "" => false
    end = true ->
    match s1 with
    | String b s2 =>
        if in_range lo hi b then
          let '(t, r, ok) := take_cont k s2 in
          if (ok : bool) then String a (String b (t +:+ lossy_fuel fuel r))
          else replacement +:+ lossy_fuel fuel r
        else replacement +:+ lossy_fuel fuel s1
    | "" => replacement +:+ lossy_fuel fuel s1
    end = String a s1) as Hnext.
  { intros lo hi k. destruct s1 as [|b s2]; [done|]. destruct (in_range lo hi b); [|done]. simpl.
    destruct (utf8_cont s2 k) as [s3|] eqn:E; [|done]. intros Hv.
    destruct (take_cont_valid _ _ _ E) as (t & -> & ->). by rewrite IH. }
  destruct (in_range 0%N 127%N a); [by intros ->%IH|].
  repeat match goal with |- context [if ?b then _ else _] => destruct b; [apply Hnext|] end. done.
Qed.

Lemma to_string_lossy_valid s : utf8_valid s = true -> to_string_lossy s = s.
Proof. apply lossy_valid_fuel. Qed.
