(* ===== verification/Types.v ===== *)
(** * Types: [llvm-ir-patched/src/name.rs] and [types.rs]

    Names, the [Type] enum with its [Display], and the interning tables
    [TypesBuilder] and [Types] as built with the feature [llvm-19] (opaque
    pointers).  A [TypeRef] is an [Arc<Type>] compared by value, so it is the
    type itself here; sharing of the allocation is not observable. *)

From S2P Require Import Prelude Text.
From stdpp Require Import base gmap countable list strings pretty.
From Stdlib Require Import ZArith Lia.
#[local] Open Scope string_scope.

(** ** [name.rs] *)

Inductive Name :=
  | NameStr (s : string)
  | Number (n : nat).

#[export] Instance Name_eq_dec : EqDecision Name.
Proof. solve_decision. Defined.
#[export] Instance Name_countable : Countable Name.
Proof.
  refine (inj_countable'
    (fun n => match n with NameStr s => inl s | Number k => inr k end)
    (fun x => match x with inl s => NameStr s | inr k => Number k end) _).
  by intros [].
Defined.

(** [Name::name_or_num]: an unnamed value takes the next number. *)
Definition name_or_num (s : string) (ctr : nat) : Name * nat :=
  if decide (s = "") then (Number ctr, S ctr) else (NameStr s, ctr).

Definition Name_display (n : Name) : string :=
  match n with NameStr s => "%" +:+ s | Number k => "%" +:+ pretty k end.

(** ** The [Type] enum *)

Inductive FPType :=
  | FPHalf | FPBFloat | FPSingle | FPDouble | FP128 | X86_FP80 | PPC_FP128.

Inductive Ty :=
  | VoidType
  | IntegerType (bits : Z)
  | PointerType (addr_space : Z)
  | FPTy (fpt : FPType)
  | FuncType (result_type : Ty) (param_types : list Ty) (is_var_arg : bool)
  | VectorType (element_type : Ty) (num_elements : Z) (scalable : bool)
  | ArrayType (element_type : Ty) (num_elements : Z)
  | StructType (element_types : list Ty) (is_packed : bool)
  | NamedStructType (name : string)
  | X86_MMXType
  | X86_AMXType
  | MetadataType
  | LabelType
  | TokenType
  | TargetExtType.

Definition FPType_display (f : FPType) : string :=
  match f with
  | FPHalf => "half" | FPBFloat => "bfloat" | FPSingle => "float" | FPDouble => "double"
  | FP128 => "fp128" | X86_FP80 => "x86_fp80" | PPC_FP128 => "ppc_fp128"
  end.

(** The loops of the [Display] instances: a separator after all but the last. *)
Fixpoint display_list {A} (d : A -> string) (l : list A) : string :=
  match l with
  | [] => ""
  | [x] => d x
  | x :: l' => d x +:+ ", " +:+ display_list d l'
  end.

Fixpoint Ty_display (t : Ty) : string :=
  match t with
  | VoidType => "void"
  | IntegerType bits => "i" +:+ pretty bits
  | PointerType _ => "ptr"
  | FPTy f => FPType_display f
  | FuncType r ps va =>
      Ty_display r +:+ " (" +:+ display_list Ty_display ps
        +:+ (if va then ", ..." else "") +:+ ")"
  | VectorType e n sc =>
      if sc then "<vscale x " +:+ pretty n +:+ " x " +:+ Ty_display e +:+ ">"
      else "<" +:+ pretty n +:+ " x " +:+ Ty_display e +:+ ">"
  | ArrayType e n => "[" +:+ pretty n +:+ " x " +:+ Ty_display e +:+ "]"
  | StructType es packed =>
      (if packed then "<" else "") +:+ "{ " +:+ display_list Ty_display es +:+ " }"
        +:+ (if packed then ">" else "")
  | NamedStructType name => "%" +:+ name
  | X86_MMXType => "x86_mmx"
  | X86_AMXType => "x86_amx"
  | MetadataType => "metadata"
  | LabelType => "label"
  | TokenType => "token"
  | TargetExtType => "target()"
  end.

(** Induction with the hypothesis for every member of a list of types. *)
Section Ty_induction.
Variable P : Ty -> Prop.
Hypothesis Hfunc : forall r ps va, P r -> Forall P ps -> P (FuncType r ps va).
Hypothesis Hvec : forall e n sc, P e -> P (VectorType e n sc).
Hypothesis Harr : forall e n, P e -> P (ArrayType e n).
Hypothesis Hstruct : forall es pk, Forall P es -> P (StructType es pk).
Hypothesis Hleaf : forall t,
  match t with
  | FuncType _ _ _ | VectorType _ _ _ | ArrayType _ _ | StructType _ _ => True
  | _ => P t
  end.

Fixpoint Ty_ind_list (t : Ty) : P t :=
  let all := fix all (l : list Ty) : Forall P l :=
    match l with [] => Forall_nil_2 P | x :: l' => Forall_cons_2 P x l' (Ty_ind_list x) (all l') end in
  match t with
  | FuncType r ps va => Hfunc r ps va (Ty_ind_list r) (all ps)
  | VectorType e n sc => Hvec e n sc (Ty_ind_list e)
  | ArrayType e n => Harr e n (Ty_ind_list e)
  | StructType es pk => Hstruct es pk (all es)
  | t => Hleaf t
  end.
End Ty_induction.

(** ** Decidable equality and countability, through trees *)

#[export] Instance FPType_eq_dec : EqDecision FPType.
Proof. solve_decision. Defined.
#[export] Instance FPType_countable : Countable FPType.
Proof.
  refine (inj_countable'
    (fun f => match f with FPHalf => 0 | FPBFloat => 1 | FPSingle => 2 | FPDouble => 3
              | FP128 => 4 | X86_FP80 => 5 | PPC_FP128 => 6 end)
    (fun n => match n with 0 => FPHalf | 1 => FPBFloat | 2 => FPSingle | 3 => FPDouble
              | 4 => FP128 | 5 => X86_FP80 | _ => PPC_FP128 end) _).
  by intros [].
Defined.

Fixpoint Ty_encode (t : Ty) : gen_tree (Z + string + bool + FPType) :=
  let z (n : Z) := GenLeaf (inl (inl (inl n))) in
  let b (x : bool) := GenLeaf (inl (inr x)) in
  match t with
  | VoidType => GenNode 0 []
  | IntegerType n => GenNode 1 [z n]
  | PointerType n => GenNode 2 [z n]
  | FPTy f => GenNode 3 [GenLeaf (inr f)]
  | FuncType r ps va => GenNode 4 (b va :: Ty_encode r :: map Ty_encode ps)
  | VectorType e n sc => GenNode 5 [z n; b sc; Ty_encode e]
  | ArrayType e n => GenNode 6 [z n; Ty_encode e]
  | StructType es pk => GenNode 7 (b pk :: map Ty_encode es)
  | NamedStructType s => GenNode 8 [GenLeaf (inl (inl (inr s)))]
  | X86_MMXType => GenNode 9 []
  | X86_AMXType => GenNode 10 []
  | MetadataType => GenNode 11 []
  | LabelType => GenNode 12 []
  | TokenType => GenNode 13 []
  | TargetExtType => GenNode 14 []
  end.

Fixpoint Ty_decode (g : gen_tree (Z + string + bool + FPType)) : Ty :=
  match g with
  | GenNode 1 [GenLeaf (inl (inl (inl n)))] => IntegerType n
  | GenNode 2 [GenLeaf (inl (inl (inl n)))] => PointerType n
  | GenNode 3 [GenLeaf (inr f)] => FPTy f
  | GenNode 4 (GenLeaf (inl (inr va)) :: r :: ps) => FuncType (Ty_decode r) (map Ty_decode ps) va
  | GenNode 5 [GenLeaf (inl (inl (inl n))); GenLeaf (inl (inr sc)); e] => VectorType (Ty_decode e) n sc
  | GenNode 6 [GenLeaf (inl (inl (inl n))); e] => ArrayType (Ty_decode e) n
  | GenNode 7 (GenLeaf (inl (inr pk)) :: es) => StructType (map Ty_decode es) pk
  | GenNode 8 [GenLeaf (inl (inl (inr s)))] => NamedStructType s
  | GenNode 9 _ => X86_MMXType
  | GenNode 10 _ => X86_AMXType
  | GenNode 11 _ => MetadataType
  | GenNode 12 _ => LabelType
  | GenNode 13 _ => TokenType
  | GenNode 14 _ => TargetExtType
  | _ => VoidType
  end.

Lemma Ty_decode_encode t : Ty_decode (Ty_encode t) = t.
Proof.
  assert (forall l, Forall (fun t => Ty_decode (Ty_encode t) = t) l ->
    map Ty_decode (map Ty_encode l) = l) as Hmap.
  { induction 1; simpl; congruence. }
  revert t. apply (Ty_ind_list (fun t => Ty_decode (Ty_encode t) = t));
    intros; simpl; rewrite ?Hmap by done; try congruence.
  by destruct t.
Qed.

#[export] Instance Ty_eq_dec : EqDecision Ty.
Proof.
  refine (fun x y => cast_if (decide (Ty_encode x = Ty_encode y))); [|congruence].
  by rewrite <- (Ty_decode_encode x), <- (Ty_decode_encode y), e.
Defined.
#[export] Instance Ty_countable : Countable Ty :=
  inj_countable' Ty_encode Ty_decode Ty_decode_encode.

(** ** Interning tables *)

Inductive NamedStructDef :=
  | Opaque_
  | Defined_ (ty : Ty).

(** [TypeCache<K>]: a map from the key of a type to its [TypeRef]. *)
Definition cache_lookup `{Countable K} (key : K) (c : gmap K Ty) : option Ty := c !! key.

Definition cache_lookup_or_insert `{Countable K} (key : K) (if_missing : Ty)
    (c : gmap K Ty) : Ty * gmap K Ty :=
  match c !! key with
  | Some t => (t, c)
  | None => (if_missing, <[key := if_missing]> c)
  end.

Definition cache_contains_key `{Countable K} (key : K) (c : gmap K Ty) : bool :=
  bool_decide (is_Some (c !! key)).

(** [Types]; [TypesBuilder] has the same tables, and besides them the cache of
    LLVM references, which only [from_llvm] code touches. *)
Record Types := mkTypes {
  void_type : Ty;
  int_types : gmap Z Ty;
  pointer_types : gmap Z Ty;
  fp_types : gmap FPType Ty;
  func_types : gmap (Ty * list Ty * bool) Ty;
  vec_types : gmap (Ty * Z * bool) Ty;
  arr_types : gmap (Ty * Z) Ty;
  struct_types : gmap (list Ty * bool) Ty;
  named_struct_types : gmap string Ty;
  named_struct_defs : gmap string NamedStructDef;
  x86_mmx_type : Ty;
  x86_amx_type : Ty;
  metadata_type : Ty;
  label_type : Ty;
  token_type : Ty;
  target_ext_type : Ty
}.

Definition TypesBuilder_new : Types :=
  {| void_type := VoidType;
     int_types := ∅; pointer_types := ∅; fp_types := ∅; func_types := ∅;
     vec_types := ∅; arr_types := ∅; struct_types := ∅;
     named_struct_types := ∅; named_struct_defs := ∅;
     x86_mmx_type := X86_MMXType; x86_amx_type := X86_AMXType;
     metadata_type := MetadataType; label_type := LabelType;
     token_type := TokenType; target_ext_type := TargetExtType |}.

Definition blank_for_testing : Types := TypesBuilder_new.

(** *** Lookups without mutation: [impl Types] *)

Definition types_int (T : Types) (bits : Z) : Ty :=
  default (IntegerType bits) (cache_lookup bits (int_types T)).
Definition types_bool (T : Types) : Ty := types_int T 1.
Definition types_i8 (T : Types) : Ty := types_int T 8.
Definition types_i16 (T : Types) : Ty := types_int T 16.
Definition types_i32 (T : Types) : Ty := types_int T 32.
Definition types_i64 (T : Types) : Ty := types_int T 64.
Definition types_pointer_in_addr_space (T : Types) (a : Z) : Ty :=
  default (PointerType a) (cache_lookup a (pointer_types T)).
Definition types_pointer (T : Types) : Ty := types_pointer_in_addr_space T 0.
Definition types_fp (T : Types) (f : FPType) : Ty :=
  default (FPTy f) (cache_lookup f (fp_types T)).
Definition types_single (T : Types) : Ty := types_fp T FPSingle.
Definition types_double (T : Types) : Ty := types_fp T FPDouble.
Definition types_func_type (T : Types) (r : Ty) (ps : list Ty) (va : bool) : Ty :=
  default (FuncType r ps va) (cache_lookup (r, ps, va) (func_types T)).
Definition types_vector_of (T : Types) (e : Ty) (n : Z) (sc : bool) : Ty :=
  default (VectorType e n sc) (cache_lookup (e, n, sc) (vec_types T)).
Definition types_array_of (T : Types) (e : Ty) (n : Z) : Ty :=
  default (ArrayType e n) (cache_lookup (e, n) (arr_types T)).
Definition types_struct_of (T : Types) (es : list Ty) (pk : bool) : Ty :=
  default (StructType es pk) (cache_lookup (es, pk) (struct_types T)).
Definition types_named_struct (T : Types) (name : string) : Ty :=
  default (NamedStructType name) (cache_lookup name (named_struct_types T)).
Definition types_named_struct_def (T : Types) (name : string) : option NamedStructDef :=
  named_struct_defs T !! name.
Definition all_struct_names (T : Types) : list string := (map_to_list (named_struct_defs T)).*1.

Definition get_for_type (T : Types) (ty : Ty) : Ty :=
  match ty with
  | VoidType => void_type T
  | IntegerType bits => types_int T bits
  | PointerType a => types_pointer_in_addr_space T a
  | FPTy f => types_fp T f
  | FuncType r ps va => types_func_type T r ps va
  | VectorType e n sc => types_vector_of T e n sc
  | ArrayType e n => types_array_of T e n
  | StructType es pk => types_struct_of T es pk
  | NamedStructType name => types_named_struct T name
  | X86_MMXType => x86_mmx_type T
  | X86_AMXType => x86_amx_type T
  | MetadataType => metadata_type T
  | LabelType => label_type T
  | TokenType => token_type T
  | TargetExtType => target_ext_type T
  end.

(** Functional update of one table. *)
Definition with_int_types (T : Types) c : Types :=
  mkTypes (void_type T) c (pointer_types T) (fp_types T) (func_types T) (vec_types T) (arr_types T) (struct_types T) (named_struct_types T) (named_struct_defs T) (x86_mmx_type T) (x86_amx_type T) (metadata_type T) (label_type T) (token_type T) (target_ext_type T).
Definition with_pointer_types (T : Types) c : Types :=
  mkTypes (void_type T) (int_types T) c (fp_types T) (func_types T) (vec_types T) (arr_types T) (struct_types T) (named_struct_types T) (named_struct_defs T) (x86_mmx_type T) (x86_amx_type T) (metadata_type T) (label_type T) (token_type T) (target_ext_type T).
Definition with_fp_types (T : Types) c : Types :=
  mkTypes (void_type T) (int_types T) (pointer_types T) c (func_types T) (vec_types T) (arr_types T) (struct_types T) (named_struct_types T) (named_struct_defs T) (x86_mmx_type T) (x86_amx_type T) (metadata_type T) (label_type T) (token_type T) (target_ext_type T).
Definition with_func_types (T : Types) c : Types :=
  mkTypes (void_type T) (int_types T) (pointer_types T) (fp_types T) c (vec_types T) (arr_types T) (struct_types T) (named_struct_types T) (named_struct_defs T) (x86_mmx_type T) (x86_amx_type T) (metadata_type T) (label_type T) (token_type T) (target_ext_type T).
Definition with_vec_types (T : Types) c : Types :=
  mkTypes (void_type T) (int_types T) (pointer_types T) (fp_types T) (func_types T) c (arr_types T) (struct_types T) (named_struct_types T) (named_struct_defs T) (x86_mmx_type T) (x86_amx_type T) (metadata_type T) (label_type T) (token_type T) (target_ext_type T).
Definition with_arr_types (T : Types) c : Types :=
  mkTypes (void_type T) (int_types T) (pointer_types T) (fp_types T) (func_types T) (vec_types T) c (struct_types T) (named_struct_types T) (named_struct_defs T) (x86_mmx_type T) (x86_amx_type T) (metadata_type T) (label_type T) (token_type T) (target_ext_type T).
Definition with_struct_types (T : Types) c : Types :=
  mkTypes (void_type T) (int_types T) (pointer_types T) (fp_types T) (func_types T) (vec_types T) (arr_types T) c (named_struct_types T) (named_struct_defs T) (x86_mmx_type T) (x86_amx_type T) (metadata_type T) (label_type T) (token_type T) (target_ext_type T).
Definition with_named_struct_types (T : Types) c : Types :=
  mkTypes (void_type T) (int_types T) (pointer_types T) (fp_types T) (func_types T) (vec_types T) (arr_types T) (struct_types T) c (named_struct_defs T) (x86_mmx_type T) (x86_amx_type T) (metadata_type T) (label_type T) (token_type T) (target_ext_type T).
Definition with_named_struct_defs (T : Types) c : Types :=
  mkTypes (void_type T) (int_types T) (pointer_types T) (fp_types T) (func_types T) (vec_types T) (arr_types T) (struct_types T) (named_struct_types T) c (x86_mmx_type T) (x86_amx_type T) (metadata_type T) (label_type T) (token_type T) (target_ext_type T).

(** *** Lookups that intern: [impl TypesBuilder] *)

Definition tb_int (bits : Z) (T : Types) : Ty * Types :=
  let '(t, c) := cache_lookup_or_insert bits (IntegerType bits) (int_types T) in
  (t, with_int_types T c).
Definition tb_bool : Types -> Ty * Types := tb_int 1.
Definition tb_i8 : Types -> Ty * Types := tb_int 8.
Definition tb_i16 : Types -> Ty * Types := tb_int 16.
Definition tb_i32 : Types -> Ty * Types := tb_int 32.
Definition tb_i64 : Types -> Ty * Types := tb_int 64.
Definition tb_pointer_in_addr_space (a : Z) (T : Types) : Ty * Types :=
  let '(t, c) := cache_lookup_or_insert a (PointerType a) (pointer_types T) in
  (t, with_pointer_types T c).
Definition tb_pointer : Types -> Ty * Types := tb_pointer_in_addr_space 0.
Definition tb_fp (f : FPType) (T : Types) : Ty * Types :=
  let '(t, c) := cache_lookup_or_insert f (FPTy f) (fp_types T) in
  (t, with_fp_types T c).
Definition tb_single : Types -> Ty * Types := tb_fp FPSingle.
Definition tb_double : Types -> Ty * Types := tb_fp FPDouble.
Definition tb_func_type (r : Ty) (ps : list Ty) (va : bool) (T : Types) : Ty * Types :=
  let '(t, c) := cache_lookup_or_insert (r, ps, va) (FuncType r ps va) (func_types T) in
  (t, with_func_types T c).
Definition tb_vector_of (e : Ty) (n : Z) (sc : bool) (T : Types) : Ty * Types :=
  let '(t, c) := cache_lookup_or_insert (e, n, sc) (VectorType e n sc) (vec_types T) in
  (t, with_vec_types T c).
Definition tb_array_of (e : Ty) (n : Z) (T : Types) : Ty * Types :=
  let '(t, c) := cache_lookup_or_insert (e, n) (ArrayType e n) (arr_types T) in
  (t, with_arr_types T c).
Definition tb_struct_of (es : list Ty) (pk : bool) (T : Types) : Ty * Types :=
  let '(t, c) := cache_lookup_or_insert (es, pk) (StructType es pk) (struct_types T) in
  (t, with_struct_types T c).
Definition tb_named_struct (name : string) (T : Types) : Ty * Types :=
  let '(t, c) := cache_lookup_or_insert name (NamedStructType name) (named_struct_types T) in
  (t, with_named_struct_types T c).

(** Asking for a definition that was not added panics, and so does redefining. *)
Definition tb_named_struct_def (name : string) (T : Types) : exec NamedStructDef :=
  expect (named_struct_defs T !! name).
Definition tb_add_named_struct_def (name : string) (def : NamedStructDef) (T : Types) : exec Types :=
  match named_struct_defs T !! name with
  | Some _ => Panic
  | None => Done (with_named_struct_defs T (<[name := def]> (named_struct_defs T)))
  end.

(** [Types::remove_named_struct_def] *)
Definition remove_named_struct_def (name : string) (T : Types) : bool * Types :=
  (bool_decide (is_Some (named_struct_defs T !! name)),
   with_named_struct_defs T (delete name (named_struct_defs T))).

(** ** The tables are transparent *)

Definition cache_ok `{Countable K} (mk : K -> Ty) (c : gmap K Ty) : Prop :=
  map_Forall (fun k t => t = mk k) c.

Record types_ok (T : Types) : Prop := {
  ok_void : void_type T = VoidType;
  ok_int : cache_ok IntegerType (int_types T);
  ok_pointer : cache_ok PointerType (pointer_types T);
  ok_fp : cache_ok FPTy (fp_types T);
  ok_func : cache_ok (fun '(r, ps, va) => FuncType r ps va) (func_types T);
  ok_vec : cache_ok (fun '(e, n, sc) => VectorType e n sc) (vec_types T);
  ok_arr : cache_ok (fun '(e, n) => ArrayType e n) (arr_types T);
  ok_struct : cache_ok (fun '(es, pk) => StructType es pk) (struct_types T);
  ok_named : cache_ok NamedStructType (named_struct_types T);
  ok_mmx : x86_mmx_type T = X86_MMXType;
  ok_amx : x86_amx_type T = X86_AMXType;
  ok_metadata : metadata_type T = MetadataType;
  ok_label : label_type T = LabelType;
  ok_token : token_type T = TokenType;
  ok_target : target_ext_type T = TargetExtType
}.

Lemma cache_default `{Countable K} (mk : K -> Ty) c k :
  cache_ok mk c -> default (mk k) (cache_lookup k c) = mk k.
Proof. intros Hc. unfold cache_lookup. destruct (c !! k) eqn:E; [exact (Hc _ _ E)|done]. Qed.

Lemma cache_insert_ok `{Countable K} (mk : K -> Ty) c k :
  cache_ok mk c ->
  fst (cache_lookup_or_insert k (mk k) c) = mk k /\
  cache_ok mk (snd (cache_lookup_or_insert k (mk k) c)).
Proof.
  intros Hc. unfold cache_lookup_or_insert. destruct (c !! k) eqn:E; simpl.
  - split; [exact (Hc _ _ E)|done].
  - split; [done|]. by apply map_Forall_insert_2.
Qed.

Lemma types_ok_new : types_ok TypesBuilder_new.
Proof. split; try done; apply map_Forall_empty. Qed.

(** One step of building the tables, in any order. *)
Inductive tb_step : Types -> Types -> Prop :=
  | step_int b T : tb_step T (tb_int b T).2
  | step_pointer a T : tb_step T (tb_pointer_in_addr_space a T).2
  | step_fp f T : tb_step T (tb_fp f T).2
  | step_func r ps va T : tb_step T (tb_func_type r ps va T).2
  | step_vec e n sc T : tb_step T (tb_vector_of e n sc T).2
  | step_arr e n T : tb_step T (tb_array_of e n T).2
  | step_struct es pk T : tb_step T (tb_struct_of es pk T).2
  | step_named name T : tb_step T (tb_named_struct name T).2
  | step_def name def T T' : tb_add_named_struct_def name def T = Done T' -> tb_step T T'
  | step_undef name T : tb_step T (remove_named_struct_def name T).2.

Definition tb_reachable (T : Types) : Prop := rtc tb_step TypesBuilder_new T.

(** Every interning operation answers with the type asked for and keeps the
    tables well formed; the tactic proves it for one table. *)
Ltac tb_op mk k fld :=
  let H := fresh "H" in intros H;
  destruct (cache_insert_ok mk fld k ltac:(by destruct H)) as [? ?];
  simpl in *;
  match goal with |- context [cache_lookup_or_insert ?k' ?t ?c] =>
    destruct (cache_lookup_or_insert k' t c) as [? ?] end;
  simpl in *; split; [done|destruct H; split; done].

Section tb_ops.
Context (T : Types).

Lemma tb_int_ok b : types_ok T ->
  (tb_int b T).1 = IntegerType b /\ types_ok (tb_int b T).2.
Proof. unfold tb_int. tb_op IntegerType b (int_types T). Qed.
Lemma tb_pointer_ok a : types_ok T ->
  (tb_pointer_in_addr_space a T).1 = PointerType a /\
  types_ok (tb_pointer_in_addr_space a T).2.
Proof. unfold tb_pointer_in_addr_space. tb_op PointerType a (pointer_types T). Qed.
Lemma tb_fp_ok f : types_ok T -> (tb_fp f T).1 = FPTy f /\ types_ok (tb_fp f T).2.
Proof. unfold tb_fp. tb_op FPTy f (fp_types T). Qed.
Lemma tb_func_ok r ps va : types_ok T ->
  (tb_func_type r ps va T).1 = FuncType r ps va /\ types_ok (tb_func_type r ps va T).2.
Proof.
  unfold tb_func_type.
  tb_op (fun '(r, ps, va) => FuncType r ps va) (r, ps, va) (func_types T).
Qed.
Lemma tb_vec_ok e n sc : types_ok T ->
  (tb_vector_of e n sc T).1 = VectorType e n sc /\ types_ok (tb_vector_of e n sc T).2.
Proof.
  unfold tb_vector_of.
  tb_op (fun '(e, n, sc) => VectorType e n sc) (e, n, sc) (vec_types T).
Qed.
Lemma tb_arr_ok e n : types_ok T ->
  (tb_array_of e n T).1 = ArrayType e n /\ types_ok (tb_array_of e n T).2.
Proof. unfold tb_array_of. tb_op (fun '(e, n) => ArrayType e n) (e, n) (arr_types T). Qed.
Lemma tb_struct_ok es pk : types_ok T ->
  (tb_struct_of es pk T).1 = StructType es pk /\ types_ok (tb_struct_of es pk T).2.
Proof.
  unfold tb_struct_of.
  tb_op (fun '(es, pk) => StructType es pk) (es, pk) (struct_types T).
Qed.
Lemma tb_named_ok name : types_ok T ->
  (tb_named_struct name T).1 = NamedStructType name /\ types_ok (tb_named_struct name T).2.
Proof. unfold tb_named_struct. tb_op NamedStructType name (named_struct_types T). Qed.
End tb_ops.

Lemma tb_step_ok T T' : tb_step T T' -> types_ok T -> types_ok T'.
Proof.
  destruct 1 as [b T|a T|f T|r ps va T|e n sc T|e n T|es pk T|name T|name d T T' Hd|name T];
    intros HT.
  1: by apply tb_int_ok. 1: by apply tb_pointer_ok. 1: by apply tb_fp_ok.
  1: by apply tb_func_ok. 1: by apply tb_vec_ok. 1: by apply tb_arr_ok.
  1: by apply tb_struct_ok. 1: by apply tb_named_ok.
  - unfold tb_add_named_struct_def in Hd. case_match; simplify_eq. by destruct HT.
  - by destruct HT.
Qed.

Lemma tb_reachable_ok T : tb_reachable T -> types_ok T.
Proof.
  intros H. pattern T. eapply (rtc_ind_r (R := tb_step)); [| |exact H];
    eauto using tb_step_ok, types_ok_new.
Qed.

Lemma get_for_type_ok T ty : types_ok T -> get_for_type T ty = ty.
Proof.
  intros []. destruct ty; simpl; try done.
  - by apply (cache_default IntegerType).
  - by apply (cache_default PointerType).
  - by apply (cache_default FPTy).
  - by apply (cache_default (fun '(r, ps, va) => FuncType r ps va) _ (_, _, _)).
  - by apply (cache_default (fun '(e, n, sc) => VectorType e n sc) _ (_, _, _)).
  - by apply (cache_default (fun '(e, n) => ArrayType e n) _ (_, _)).
  - by apply (cache_default (fun '(es, pk) => StructType es pk) _ (_, _)).
  - by apply (cache_default NamedStructType).
Qed.

(** Every way to ask for a type, of [TypesBuilder] and of [Types] *)
Inductive TypeCall :=
  | call_void | call_int (bits : Z) | call_bool | call_i8 | call_i16 | call_i32 | call_i64
  | call_pointer | call_pointer_in (addr_space : Z) | call_fp (f : FPType) | call_single | call_double
  | call_func (r : Ty) (ps : list Ty) (va : bool) | call_vector (e : Ty) (n : Z) (scalable : bool)
  | call_array (e : Ty) (n : Z) | call_struct (es : list Ty) (packed : bool) | call_named (name : string)
  | call_x86_mmx | call_x86_amx | call_metadata | call_label | call_token | call_target_ext.

Definition tb_call (c : TypeCall) (T : Types) : Ty * Types :=
  match c with
  | call_void => (void_type T, T)
  | call_int bits => tb_int bits T
  | call_bool => tb_bool T
  | call_i8 => tb_i8 T
  | call_i16 => tb_i16 T
  | call_i32 => tb_i32 T
  | call_i64 => tb_i64 T
  | call_pointer => tb_pointer T
  | call_pointer_in a => tb_pointer_in_addr_space a T
  | call_fp f => tb_fp f T
  | call_single => tb_single T
  | call_double => tb_double T
  | call_func r ps va => tb_func_type r ps va T
  | call_vector e n sc => tb_vector_of e n sc T
  | call_array e n => tb_array_of e n T
  | call_struct es pk => tb_struct_of es pk T
  | call_named name => tb_named_struct name T
  | call_x86_mmx => (x86_mmx_type T, T)
  | call_x86_amx => (x86_amx_type T, T)
  | call_metadata => (metadata_type T, T)
  | call_label => (label_type T, T)
  | call_token => (token_type T, T)
  | call_target_ext => (target_ext_type T, T)
  end.

Definition types_call (c : TypeCall) (T : Types) : Ty :=
  match c with
  | call_void => void_type T
  | call_int bits => types_int T bits
  | call_bool => types_bool T
  | call_i8 => types_i8 T
  | call_i16 => types_i16 T
  | call_i32 => types_i32 T
  | call_i64 => types_i64 T
  | call_pointer => types_pointer T
  | call_pointer_in a => types_pointer_in_addr_space T a
  | call_fp f => types_fp T f
  | call_single => types_single T
  | call_double => types_double T
  | call_func r ps va => types_func_type T r ps va
  | call_vector e n sc => types_vector_of T e n sc
  | call_array e n => types_array_of T e n
  | call_struct es pk => types_struct_of T es pk
  | call_named name => types_named_struct T name
  | call_x86_mmx => x86_mmx_type T
  | call_x86_amx => x86_amx_type T
  | call_metadata => metadata_type T
  | call_label => label_type T
  | call_token => token_type T
  | call_target_ext => target_ext_type T
  end.

(** The type a call asks for *)
Definition asked (c : TypeCall) : Ty :=
  match c with
  | call_void => VoidType
  | call_int bits => IntegerType bits
  | call_bool => IntegerType 1
  | call_i8 => IntegerType 8
  | call_i16 => IntegerType 16
  | call_i32 => IntegerType 32
  | call_i64 => IntegerType 64
  | call_pointer => PointerType 0
  | call_pointer_in a => PointerType a
  | call_fp f => FPTy f
  | call_single => FPTy FPSingle
  | call_double => FPTy FPDouble
  | call_func r ps va => FuncType r ps va
  | call_vector e n sc => VectorType e n sc
  | call_array e n => ArrayType e n
  | call_struct es pk => StructType es pk
  | call_named name => NamedStructType name
  | call_x86_mmx => X86_MMXType
  | call_x86_amx => X86_AMXType
  | call_metadata => MetadataType
  | call_label => LabelType
  | call_token => TokenType
  | call_target_ext => TargetExtType
  end.

Lemma tb_call_asked c T : types_ok T -> (tb_call c T).1 = asked c /\ types_ok (tb_call c T).2.
Proof.
  intros HT. destruct c; simpl; try (split; [by destruct HT|done]);
    first [ by apply tb_int_ok | by apply tb_pointer_ok | by apply tb_fp_ok | by apply tb_func_ok | by apply tb_vec_ok
          | by apply tb_arr_ok | by apply tb_struct_ok | by apply tb_named_ok ].
Qed.
Lemma types_call_asked c T : types_ok T -> types_call c T = asked c.
Proof.
  intros HT. destruct c as [|bits| | | | | | |a|f| | |r ps va|e n sc|e n|es pk|name| | | | | |];
    try (by destruct HT);
    first [ exact (get_for_type_ok T (IntegerType _) HT) | exact (get_for_type_ok T (PointerType _) HT)
          | exact (get_for_type_ok T (FPTy _) HT) | exact (get_for_type_ok T (FuncType r ps va) HT)
          | exact (get_for_type_ok T (VectorType e n sc) HT) | exact (get_for_type_ok T (ArrayType e n) HT)
          | exact (get_for_type_ok T (StructType es pk) HT) | exact (get_for_type_ok T (NamedStructType name) HT) ].
Qed.

(** C25. Interning is invisible: whatever sequence of [TypesBuilder] calls (and later
    definitions or removals of named structs) produced the tables, [Types] answers
    every request and every type with exactly the type asked for, a further request
    to the builder does too, and leaves such tables.  The definitions of named
    structs are a map: a name is defined once, found as defined and among the names
    until it is removed, whatever is done with other names. *)
Theorem interning_transparent T c ty name d :
  tb_reachable T ->
  get_for_type T ty = ty /\ types_call c T = asked c /\
  (tb_call c T).1 = asked c /\ types_ok (tb_call c T).2 /\
  named_struct_defs (tb_call c T).2 = named_struct_defs T /\
  (name ∈ all_struct_names T <-> exists d', types_named_struct_def T name = Some d') /\
  match tb_add_named_struct_def name d T with
  | Done T' => types_named_struct_def T name = None /\ tb_named_struct_def name T' = Done d /\
      (forall other, other <> name -> types_named_struct_def T' other = types_named_struct_def T other) /\
      (remove_named_struct_def name T').1 = true /\
      named_struct_defs (remove_named_struct_def name T').2 = named_struct_defs T
  | Panic => exists d', tb_named_struct_def name T = Done d'
  | Diverge => False
  end.
Proof.
  intros HT%tb_reachable_ok. destruct (tb_call_asked c T HT) as [Hc HcT]. split_and!; try done.
  - by apply get_for_type_ok.
  - by apply types_call_asked.
  - destruct c; simpl; try done;
      unfold tb_bool, tb_i8, tb_i16, tb_i32, tb_i64, tb_pointer, tb_single, tb_double, tb_int, tb_pointer_in_addr_space,
        tb_fp, tb_func_type, tb_vector_of, tb_array_of, tb_struct_of, tb_named_struct, cache_lookup_or_insert;
      by case_match.
  - unfold all_struct_names, types_named_struct_def. rewrite list_elem_of_fmap. split.
    + intros ([n' d'] & -> & Hin%elem_of_map_to_list). eauto.
    + intros [d' Hd']. exists (name, d'). split; [done|]. by apply elem_of_map_to_list.
  - unfold tb_add_named_struct_def, tb_named_struct_def, types_named_struct_def.
    destruct (named_struct_defs T !! name) as [d'|] eqn:E; simpl; [eauto|]. rewrite lookup_insert_eq.
    split_and!; [done..| | |].
    + intros other Ho. by rewrite lookup_insert_ne.
    + by apply bool_decide_eq_true_2.
    + by apply delete_insert_id.
Qed.

Lemma interning_transparent_witness :
  let T := (tb_struct_of [IntegerType 32; IntegerType 32] false
              (tb_int 32 TypesBuilder_new).2).2 in
  tb_reachable T /\ get_for_type T (StructType [IntegerType 32; IntegerType 32] false)
    = StructType [IntegerType 32; IntegerType 32] false.
Proof.
  assert (tb_reachable (tb_struct_of [IntegerType 32; IntegerType 32] false
            (tb_int 32 TypesBuilder_new).2).2) as Hr.
  { eapply rtc_l; [apply (step_int 32)|]. eapply rtc_l; [|apply rtc_refl]. apply step_struct. }
  split; [exact Hr|].
  exact (proj1 (interning_transparent _ call_void _ EmptyString Opaque_ Hr)).
Defined.
