(* ===== verification/Layout.v ===== *)
(** * Layout: the data layout of [llvm-ir-patched/src/module.rs]

    [DataLayout], [Alignments] with its lookups, and the parser of layout strings
    in [DataLayout::from_module_ref], given the string LLVM returns.  A [BTreeMap]
    is its list of entries in key order, a [HashMap] a finite map.  An [expect], an
    [assert!] or a [panic!] that strikes is [Panic]. *)

From S2P Require Import Prelude Text Types.
From stdpp Require Import base gmap sets list strings pretty sorting.
From Stdlib Require Import Ascii ZArith Lia.
#[local] Open Scope string_scope.

(** ** Data *)

Inductive Endianness := LittleEndian | BigEndian.
Record Alignment := mk_Alignment { al_abi : Z; al_pref : Z }.
Record FunctionPtrAlignment := mk_FunctionPtrAlignment { fpa_independent : bool; fpa_abi : Z }.
Record PointerLayout := mk_PointerLayout { pl_size : Z; pl_alignment : Alignment; pl_index_size : Z }.
Inductive Mangling := ELF | MIPS | MachO | WindowsX86COFF | WindowsCOFF | XCOFF.

(** [BTreeMap<u32, Alignment>] *)
Definition BTree : Type := list (Z * Alignment).
Fixpoint bt_insert (k : Z) (v : Alignment) (t : BTree) : BTree :=
  match t with
  | [] => [(k, v)]
  | (k', v') :: t' =>
      if (k <? k')%Z then (k, v) :: t
      else if (k =? k')%Z then (k, v) :: t'
      else (k', v') :: bt_insert k v t'
  end.
Definition bt_get (k : Z) (t : BTree) : option Alignment :=
  snd <$> find (fun e => (e.1 =? k)%Z) t.

Record Alignments := mk_Alignments {
  int_alignments : BTree;
  vec_alignments : BTree;
  fp_alignments : gmap Z Alignment;
  agg_alignment : Alignment;
  fptr_alignment : FunctionPtrAlignment;
  fptr_alignment_as_alignment : Alignment;
  pointer_layouts : gmap Z PointerLayout
}.

Record DataLayout := mk_DataLayout {
  layout_str : string;
  endianness : Endianness;
  stack_alignment : option Z;
  program_address_space : Z;
  alloca_address_space : Z;
  alignments : Alignments;
  mangling : option Mangling;
  native_int_widths : option (gset Z);
  non_integral_ptr_types : gset Z
}.

Definition al (abi pref : Z) : Alignment := mk_Alignment abi pref.

Definition Alignments_default : Alignments := {|
  int_alignments := [(1, al 8 8); (8, al 8 8); (16, al 16 16); (32, al 32 32); (64, al 32 64)]%Z;
  vec_alignments := [(64, al 64 64); (128, al 128 128)]%Z;
  fp_alignments := list_to_map [(16, al 16 16); (32, al 32 32); (64, al 64 64); (128, al 128 128)]%Z;
  agg_alignment := al 0 64;
  fptr_alignment := mk_FunctionPtrAlignment true 64;
  fptr_alignment_as_alignment := al 64 64;
  pointer_layouts := {[0%Z := mk_PointerLayout 64 (al 64 64) 64]}
|}.

Definition DataLayout_default : DataLayout :=
  mk_DataLayout "" BigEndian None 0 0 Alignments_default None None ∅.

(** [PartialEq for DataLayout]: only the text counts. *)
Definition DataLayout_eq (d d' : DataLayout) : bool := String.eqb (layout_str d) (layout_str d').

(** ** Lookups *)

Definition int_alignment (a : Alignments) (size : Z) : exec Alignment :=
  match bt_get size (int_alignments a) with
  | Some al => Done al
  | None =>
      match find (fun e => (size <? e.1)%Z) (int_alignments a) with
      | Some (_, al) => Done al
      | None => expect (snd <$> last (int_alignments a))
      end
  end.

Definition vec_alignment (a : Alignments) (size : Z) : exec Alignment :=
  match bt_get size (vec_alignments a) with
  | Some al => Done al
  | None =>
      match find (fun e => (e.1 <? size)%Z) (vec_alignments a) with
      | Some (_, al) => Done al
      | None => expect (snd <$> head (vec_alignments a))
      end
  end.

Definition fpt_size (fpt : FPType) : Z :=
  match fpt with
  | FPHalf => 16 | FPBFloat => 16 | FPSingle => 32 | FPDouble => 64
  | FP128 => 128 | X86_FP80 => 80 | PPC_FP128 => 128
  end.
Definition fp_alignment (a : Alignments) (fpt : FPType) : exec Alignment :=
  expect (fp_alignments a !! fpt_size fpt).

Definition ptr_alignment (a : Alignments) (addr_space : Z) : exec PointerLayout :=
  match pointer_layouts a !! addr_space with
  | Some layout => Done layout
  | None => expect (pointer_layouts a !! 0%Z)
  end.

(** [*] at [u32]: as for [u64], the build decides what overflow does. *)
Definition u32_modulus : Z := 2 ^ 32.
Definition u32_mul (overflow_checks : bool) (x y : Z) : exec Z :=
  if decide (x * y < u32_modulus)%Z then Done (x * y)%Z
  else if overflow_checks then Panic else Done ((x * y) mod u32_modulus)%Z.

Definition type_alignment (dbg : bool) (a : Alignments) (ty : Ty) : exec Alignment :=
  match ty with
  | IntegerType bits => int_alignment a bits
  | VectorType element_type num_elements _ =>
      let! element_size_bits := match element_type with
                                | IntegerType bits => Done bits
                                | FPTy fpt => Done (fpt_size fpt)
                                | _ => Panic
                                end in
      let! bits := u32_mul dbg element_size_bits (num_elements mod u32_modulus) in
      vec_alignment a bits
  | FPTy fpt => fp_alignment a fpt
  | StructType _ _ | NamedStructType _ | ArrayType _ _ => Done (agg_alignment a)
  | PointerType addr_space => let! l := ptr_alignment a addr_space in Done (pl_alignment l)
  | _ => Panic
  end.

(** ** Parsing *)

(** [.parse().expect(..)] at [u32] *)
Definition num (s : string) : exec Z := expect (parse_u32 s).

Definition is_colon (a : ascii) : bool := Ascii.eqb a ":".
Definition is_dash (a : ascii) : bool := Ascii.eqb a "-".
Definition chunks (spec : string) : list string := split_on is_colon "" spec.
(** [s[1..]], after a test of the first character *)
Definition tail1 (s : string) : string := match s with String _ s' => s' | "" => "" end.

(** [abi], then an optional [pref], then nothing: what follows the first chunk of
    an [i], [v], [f] or [a] spec *)
Definition abi_pref (rest : list string) : exec Alignment :=
  match rest with
  | [] => Panic
  | second :: rest =>
      let! abi := num second in
      let! pref := match rest with third :: _ => num third | [] => Done abi end in
      match rest with
      | _ :: _ :: _ => Panic
      | _ => Done (al abi pref)
      end
  end.

(** An [i], [v] or [f] spec: the size and the alignment *)
Definition sized_spec (spec : string) : exec (Z * Alignment) :=
  match chunks spec with
  | first :: rest =>
      let! size := num (tail1 first) in
      let! a := abi_pref rest in
      Done (size, a)
  | [] => Panic
  end.

Definition pointer_spec (spec : string) : exec (Z * PointerLayout) :=
  match chunks spec with
  | first :: rest =>
      let! addr_space := if bool_decide (first = "p") then Done 0%Z else num (tail1 first) in
      match rest with
      | second :: third :: rest =>
          let! size := num second in
          let! abi := num third in
          let! pref := match rest with fourth :: _ => num fourth | [] => Done abi end in
          let! idx := match rest with _ :: fifth :: _ => num fifth | _ => Done size end in
          match rest with
          | _ :: _ :: _ :: _ => Panic
          | _ => Done (addr_space, mk_PointerLayout size (al abi pref) idx)
          end
      | _ => Panic
      end
  | [] => Panic
  end.

Definition agg_spec (spec : string) : exec Alignment :=
  match chunks spec with
  | first :: rest => if bool_decide (first = "a" \/ first = "a0") then abi_pref rest else Panic
  | [] => Panic
  end.

Definition mangling_of (chunk : string) : exec Mangling :=
  expect (snd <$> find (fun p => String.eqb p.1 chunk)
    [("e", ELF); ("m", MIPS); ("o", MachO); ("x", WindowsX86COFF); ("w", WindowsCOFF); ("a", XCOFF)]).
Definition mangling_spec (spec : string) : exec Mangling :=
  match chunks spec with
  | first :: rest =>
      if bool_decide (first = "m") then
        match rest with
        | [] => Panic
        | second :: rest => let! mg := mangling_of second in
                            match rest with [] => Done mg | _ => Panic end
        end
      else Panic
  | [] => Panic
  end.

(** Numbers one after the other, each into a set *)
Fixpoint nums_into (ok : Z -> bool) (l : list string) (s : gset Z) : exec (gset Z) :=
  match l with
  | [] => Done s
  | c :: l' => let! n := num c in if ok n then nums_into ok l' ({[n]} ∪ s) else Panic
  end.

Definition non_integral_spec (spec : string) (s : gset Z) : exec (gset Z) :=
  match chunks spec with
  | first :: rest =>
      if bool_decide (first = "ni") then nums_into (fun n => negb (n =? 0)%Z) rest s else Panic
  | [] => Panic
  end.
Definition native_spec (spec : string) (s : gset Z) : exec (gset Z) :=
  match chunks spec with
  | first :: rest =>
      let! n := num (tail1 first) in nums_into (fun _ => true) rest ({[n]} ∪ s)
  | [] => Panic
  end.

(** *** Updates *)

Definition set_endianness e d := mk_DataLayout (layout_str d) e (stack_alignment d)
  (program_address_space d) (alloca_address_space d) (alignments d) (mangling d)
  (native_int_widths d) (non_integral_ptr_types d).
Definition set_stack n d := mk_DataLayout (layout_str d) (endianness d) (Some n)
  (program_address_space d) (alloca_address_space d) (alignments d) (mangling d)
  (native_int_widths d) (non_integral_ptr_types d).
Definition set_program n d := mk_DataLayout (layout_str d) (endianness d) (stack_alignment d)
  n (alloca_address_space d) (alignments d) (mangling d) (native_int_widths d) (non_integral_ptr_types d).
Definition set_alloca n d := mk_DataLayout (layout_str d) (endianness d) (stack_alignment d)
  (program_address_space d) n (alignments d) (mangling d) (native_int_widths d) (non_integral_ptr_types d).
Definition set_alignments a d := mk_DataLayout (layout_str d) (endianness d) (stack_alignment d)
  (program_address_space d) (alloca_address_space d) a (mangling d) (native_int_widths d)
  (non_integral_ptr_types d).
Definition set_mangling m d := mk_DataLayout (layout_str d) (endianness d) (stack_alignment d)
  (program_address_space d) (alloca_address_space d) (alignments d) (Some m) (native_int_widths d)
  (non_integral_ptr_types d).
Definition set_native s d := mk_DataLayout (layout_str d) (endianness d) (stack_alignment d)
  (program_address_space d) (alloca_address_space d) (alignments d) (mangling d) (Some s)
  (non_integral_ptr_types d).
Definition set_non_integral s d := mk_DataLayout (layout_str d) (endianness d) (stack_alignment d)
  (program_address_space d) (alloca_address_space d) (alignments d) (mangling d) (native_int_widths d) s.

Definition insert_int k v a := mk_Alignments (bt_insert k v (int_alignments a)) (vec_alignments a)
  (fp_alignments a) (agg_alignment a) (fptr_alignment a) (fptr_alignment_as_alignment a) (pointer_layouts a).
Definition insert_vec k v a := mk_Alignments (int_alignments a) (bt_insert k v (vec_alignments a))
  (fp_alignments a) (agg_alignment a) (fptr_alignment a) (fptr_alignment_as_alignment a) (pointer_layouts a).
Definition insert_fp k v a := mk_Alignments (int_alignments a) (vec_alignments a)
  (<[k := v]> (fp_alignments a)) (agg_alignment a) (fptr_alignment a) (fptr_alignment_as_alignment a)
  (pointer_layouts a).
Definition set_agg v a := mk_Alignments (int_alignments a) (vec_alignments a) (fp_alignments a) v
  (fptr_alignment a) (fptr_alignment_as_alignment a) (pointer_layouts a).
Definition set_fptr (independent : bool) (abi : Z) a := mk_Alignments (int_alignments a) (vec_alignments a)
  (fp_alignments a) (agg_alignment a) (mk_FunctionPtrAlignment independent abi) (al abi abi)
  (pointer_layouts a).
Definition insert_ptr k v a := mk_Alignments (int_alignments a) (vec_alignments a) (fp_alignments a)
  (agg_alignment a) (fptr_alignment a) (fptr_alignment_as_alignment a) (<[k := v]> (pointer_layouts a)).

(** *** The loop *)

(** One spec, the tests in the order of the source *)
Definition apply_spec (d : DataLayout) (spec : string) : exec DataLayout :=
  let a := alignments d in
  if bool_decide (spec = "E") then Done (set_endianness BigEndian d)
  else if bool_decide (spec = "e") then Done (set_endianness LittleEndian d)
  else if starts_with "S" spec then let! n := num (tail1 spec) in Done (set_stack n d)
  else if starts_with "P" spec then let! n := num (tail1 spec) in Done (set_program n d)
  else if starts_with "A" spec then let! n := num (tail1 spec) in Done (set_alloca n d)
  else if starts_with "p" spec then
    let! (k, l) := pointer_spec spec in Done (set_alignments (insert_ptr k l a) d)
  else if starts_with "i" spec then
    let! (k, v) := sized_spec spec in Done (set_alignments (insert_int k v a) d)
  else if starts_with "v" spec then
    let! (k, v) := sized_spec spec in Done (set_alignments (insert_vec k v a) d)
  else if starts_with "f" spec then
    let! (k, v) := sized_spec spec in Done (set_alignments (insert_fp k v a) d)
  else if starts_with "a" spec then let! v := agg_spec spec in Done (set_alignments (set_agg v a) d)
  else if starts_with "Fi" spec then
    let! n := num (tail1 (tail1 spec)) in Done (set_alignments (set_fptr true n a) d)
  else if starts_with "Fn" spec then
    let! n := num (tail1 (tail1 spec)) in Done (set_alignments (set_fptr false n a) d)
  else if starts_with "m" spec then let! m := mangling_spec spec in Done (set_mangling m d)
  else if starts_with "ni" spec then
    let! s := non_integral_spec spec (non_integral_ptr_types d) in Done (set_non_integral s d)
  else if starts_with "n" spec then
    let! s := native_spec spec (default ∅ (native_int_widths d)) in Done (set_native s d)
  else if bool_decide (spec = "") then Done d
  else Panic.

Fixpoint apply_specs (d : DataLayout) (l : list string) : exec DataLayout :=
  match l with
  | [] => Done d
  | spec :: l' => let! d := apply_spec d spec in apply_specs d l'
  end.

(** [DataLayout::from_module_ref] on the string of the module *)
Definition from_layout_str (s : string) : exec DataLayout :=
  apply_specs (mk_DataLayout s BigEndian None 0 0 Alignments_default None None ∅)
    (split_on is_dash "" s).

(** The layout of x86-64 Linux *)
Definition x86_64_layout : string :=
  "e-m:e-p270:32:32-p271:32:32-p272:64:64-i64:64-i128:128-f80:128-n8:16:32:64-S128".

Example x86_64_parses :
  match from_layout_str x86_64_layout with
  | Done d =>
      endianness d = LittleEndian /\ stack_alignment d = Some 128%Z /\ mangling d = Some ELF /\
      type_alignment true (alignments d) (IntegerType 64) = Done (al 64 64) /\
      type_alignment true (alignments d) (IntegerType 48) = Done (al 64 64) /\
      type_alignment true (alignments d) (IntegerType 256) = Done (al 128 128) /\
      type_alignment true (alignments d) (PointerType 270) = Done (al 32 32) /\
      type_alignment true (alignments d) (FPTy X86_FP80) = Done (al 128 128)
  | _ => False
  end.
Proof. by vm_compute. Qed.

(** ** Tables *)

Definition key_lt (e e' : Z * Alignment) : Prop := (e.1 < e'.1)%Z.
Definition bt_ok (t : BTree) : Prop := StronglySorted key_lt t.

Lemma bt_insert_elem k v t e : e ∈ bt_insert k v t -> e = (k, v) \/ e ∈ t.
Proof.
  induction t as [|[k' v'] t IH]; simpl; [set_solver|].
  destruct (k <? k')%Z; [set_solver|]. destruct (k =? k')%Z; set_solver.
Qed.

Lemma bt_insert_ok k v t : bt_ok t -> bt_ok (bt_insert k v t).
Proof.
  unfold bt_ok. induction 1 as [|[k' v'] t Hs IH Hall]; simpl; [repeat constructor|].
  destruct (Z.ltb_spec k k').
  - repeat constructor; [done..|]. eapply Forall_impl; [exact Hall|]. unfold key_lt. simpl. lia.
  - destruct (Z.eqb_spec k k') as [->|]; constructor; try done.
    apply Forall_forall. intros e He. apply bt_insert_elem in He as [->|He]; [unfold key_lt; simpl; lia|].
    rewrite Forall_forall in Hall. by apply Hall.
Qed.

Lemma bt_insert_nonempty k v t : bt_insert k v t <> [].
Proof. destruct t as [|[k' v'] t]; simpl; repeat case_match; done. Qed.

Lemma bt_get_insert k v t : bt_ok t -> bt_get k (bt_insert k v t) = Some v.
Proof.
  unfold bt_get. induction 1 as [|[k' v'] t Hs IH Hall]; simpl; [by rewrite Z.eqb_refl|].
  destruct (Z.ltb_spec k k'); simpl; [by rewrite Z.eqb_refl|].
  destruct (Z.eqb_spec k k') as [->|Hne]; simpl; [by rewrite Z.eqb_refl|].
  rewrite (proj2 (Z.eqb_neq k' k)) by done. exact IH.
Qed.

Lemma bt_get_some k t v : bt_ok t -> bt_get k t = Some v <-> (k, v) ∈ t.
Proof.
  unfold bt_get. induction 1 as [|[k' v'] t Hs IH Hall]; simpl; [set_solver|].
  destruct (Z.eqb_spec k' k) as [->|Hne]; simpl.
  - split; [intros [= ->]; set_solver|]. intros [[= ->]|Hin]%elem_of_cons; [done|].
    rewrite Forall_forall in Hall. specialize (Hall _ Hin). unfold key_lt in Hall. simpl in Hall. lia.
  - rewrite IH, elem_of_cons. naive_solver.
Qed.

Lemma bt_get_none k t : bt_ok t -> bt_get k t = None <-> forall v, (k, v) ∉ t.
Proof.
  intros Ht. split.
  - intros Hn v Hv. apply (bt_get_some k t v Ht) in Hv. congruence.
  - intros Hn. destruct (bt_get k t) as [v|] eqn:E; [|done].
    apply (bt_get_some k t v Ht) in E. by destruct (Hn v).
Qed.

(** In a sorted table the first entry found from some key on is the least one. *)
Lemma find_above size t e :
  bt_ok t -> find (fun e => (size <? e.1)%Z) t = Some e ->
  e ∈ t /\ (size < e.1)%Z /\ forall e', e' ∈ t -> (size < e'.1)%Z -> (e.1 <= e'.1)%Z.
Proof.
  induction 1 as [|[k v] t Hs IH Hall]; simpl; [done|]. destruct (Z.ltb_spec size k).
  - intros [= <-]. simpl. split; [set_solver|]. split; [done|].
    intros e' [->|He']%elem_of_cons _; [simpl; lia|]. rewrite Forall_forall in Hall.
    specialize (Hall _ He'). unfold key_lt in Hall. simpl in Hall. lia.
  - intros Hf. destruct (IH Hf) as (Hin & Hlt & Hmin). split; [set_solver|]. split; [done|].
    intros e' [->|He']%elem_of_cons Hlt'; [simpl in Hlt'; lia|by apply Hmin].
Qed.

Lemma find_none_elem {A} (p : A -> bool) l : find p l = None -> forall x, x ∈ l -> p x = false.
Proof. intros Hf x Hx. apply (find_none _ _ Hf). by apply list_elem_of_In. Qed.

Lemma last_greatest t e : bt_ok t -> last t = Some e -> e ∈ t /\ forall e', e' ∈ t -> (e'.1 <= e.1)%Z.
Proof.
  induction 1 as [|x t Hs IH Hall]; [done|]. destruct t as [|y t].
  - intros [= <-]. split; [set_solver|]. intros e' He'. apply list_elem_of_singleton in He' as ->. lia.
  - intros Hl. change (last (x :: y :: t)) with (last (y :: t)) in Hl. destruct (IH Hl) as [Hin Hmax].
    split; [set_solver|]. intros e' [->|He']%elem_of_cons; [|by apply Hmax].
    rewrite Forall_forall in Hall. specialize (Hall e Hin). unfold key_lt in Hall. lia.
Qed.

Lemma head_least t e : bt_ok t -> head t = Some e -> e ∈ t /\ forall e', e' ∈ t -> (e.1 <= e'.1)%Z.
Proof.
  destruct 1 as [|x t Hs Hall]; [done|]. intros [= <-]. split; [set_solver|].
  intros e' [->|He']%elem_of_cons; [lia|]. rewrite Forall_forall in Hall.
  specialize (Hall e' He'). unfold key_lt in Hall. lia.
Qed.

(** ** Layouts the parser builds *)

Record layout_ok (a : Alignments) : Prop := {
  lo_int : bt_ok (int_alignments a);
  lo_int_some : int_alignments a <> [];
  lo_vec : bt_ok (vec_alignments a);
  lo_vec_some : vec_alignments a <> [];
  lo_ptr : is_Some (pointer_layouts a !! 0%Z)
}.

Lemma layout_ok_default : layout_ok Alignments_default.
Proof.
  split; simpl; try done; try (unfold bt_ok; repeat constructor).
Qed.

Lemma apply_spec_ok d spec d' :
  apply_spec d spec = Done d' -> layout_ok (alignments d) ->
  layout_ok (alignments d') /\ layout_str d' = layout_str d.
Proof.
  intros Ha Ho. unfold apply_spec in Ha.
  repeat (case_match || case_bool_decide); inv_ok;
    repeat match goal with x : (_ * _)%type |- _ => destruct x end; simplify_eq/=; split; try done;
    destruct Ho; split; simpl; auto using bt_insert_ok, bt_insert_nonempty.
  match goal with |- is_Some (<[?k := _]> _ !! _) => destruct (decide (k = 0%Z)) as [->|] end;
    [rewrite lookup_insert_eq; by eexists|by rewrite lookup_insert_ne].
Qed.

Lemma apply_specs_ok l d d' :
  apply_specs d l = Done d' -> layout_ok (alignments d) ->
  layout_ok (alignments d') /\ layout_str d' = layout_str d.
Proof.
  revert d. induction l as [|spec l IH]; intros d; simpl; [by intros [= <-]|].
  intros (d1 & H1 & H2)%exec_bind_done Ho. destruct (apply_spec_ok _ _ _ H1 Ho) as [Ho1 E1].
  destruct (IH _ H2 Ho1) as [Ho' E']. split; [done|congruence].
Qed.

Lemma from_layout_ok s d : from_layout_str s = Done d -> layout_ok (alignments d) /\ layout_str d = s.
Proof. intros Hd. exact (apply_specs_ok _ _ _ Hd layout_ok_default). Qed.

(** The text of a layout says everything about it. *)
Lemma parsed_eq s d :
  from_layout_str s = Done d ->
  forall s' d', from_layout_str s' = Done d' -> DataLayout_eq d d' = true <-> d = d'.
Proof.
  intros Hd s' d' Hd'. unfold DataLayout_eq.
  rewrite (proj2 (from_layout_ok _ _ Hd)), (proj2 (from_layout_ok _ _ Hd')). split.
  - intros ->%String.eqb_eq. congruence.
  - intros ->. apply String.eqb_eq. by rewrite <-(proj2 (from_layout_ok _ _ Hd)), (proj2 (from_layout_ok _ _ Hd')).
Qed.

(** What the integer table answers: the entry of the least width that is at least
    as wide, and for integers wider than every entry that of the greatest width. *)
Lemma int_alignment_spec a size :
  layout_ok a ->
  exists k v, int_alignment a size = Done v /\ (k, v) ∈ int_alignments a /\
    ((size <= k)%Z /\ (forall e, e ∈ int_alignments a -> (size <= e.1)%Z -> (k <= e.1)%Z) \/
     (k < size)%Z /\ (forall e, e ∈ int_alignments a -> (e.1 <= k)%Z)).
Proof.
  intros [Hi Hne _ _ _]. unfold int_alignment.
  generalize dependent (int_alignments a). intros t Hi Hne.
  destruct (bt_get size t) as [v|] eqn:Eg.
  - apply (bt_get_some _ _ _ Hi) in Eg. exists size, v. split; [done|]. split; [done|]. left. split; [lia|auto].
  - pose proof (proj1 (bt_get_none size t Hi) Eg) as Hno.
    destruct (find _ t) as [[k v]|] eqn:Ef.
    + destruct (find_above _ _ _ Hi Ef) as (Hin & Hlt & Hmin). exists k, v. split; [done|].
      split; [done|]. left. simpl in *. split; [lia|]. intros [k' v'] He Hle. simpl in *.
      destruct (decide (size = k')) as [->|]; [by destruct (Hno v')|]. apply (Hmin _ He). simpl. lia.
    + destruct (last t) as [[k v]|] eqn:El; [|by apply last_None in El].
      destruct (last_greatest _ _ Hi El) as [Hin Hmax]. exists k, v. split; [done|]. split; [done|]. right.
      pose proof (find_none_elem _ _ Ef _ Hin) as Hk. simpl in *. apply Z.ltb_ge in Hk.
      split; [|done]. destruct (decide (k = size)) as [->|]; [by destruct (Hno v)|lia].
Qed.

(** What the vector table answers: the entry of the exact size or else the least
    entry, whether or not another one is closer. *)
Lemma vec_alignment_spec a size :
  layout_ok a ->
  exists v, vec_alignment a size = Done v /\
    ((size, v) ∈ vec_alignments a \/
     (forall v', (size, v') ∉ vec_alignments a) /\ snd <$> head (vec_alignments a) = Some v).
Proof.
  intros [_ _ Hv Hne _]. unfold vec_alignment. destruct (vec_alignments a) as [|[k0 v0] t] eqn:Et; [done|].
  destruct (bt_get size _) as [v|] eqn:Eg.
  - apply (bt_get_some _ _ _ Hv) in Eg. eauto.
  - pose proof (proj1 (bt_get_none size _ Hv) Eg) as Hno. simpl find.
    destruct (Z.ltb_spec k0 size) as [|Hge]; [eauto 10|].
    destruct (find _ t) as [[k v]|] eqn:Ef; [|eauto 10]. exfalso.
    destruct (find_some _ _ Ef) as [Hin Hlt]. simpl in Hlt. apply Z.ltb_lt in Hlt.
    apply list_elem_of_In in Hin. destruct (head_least _ (k0, v0) Hv eq_refl) as [_ Hmin].
    specialize (Hmin (k, v) ltac:(set_solver)). simpl in Hmin. lia.
Qed.

(** The comment asks for the next smaller size; a vector of 256 bits gets the entry
    of 64 although there is one for 128. *)
Example vec_not_next_smaller :
  vec_alignment Alignments_default 256 = Done (al 64 64) /\
  bt_get 128 (vec_alignments Alignments_default) = Some (al 128 128).
Proof. by vm_compute. Qed.

(** Types whose alignment is defined whatever the layout says *)
Definition alignable (ty : Ty) : bool :=
  match ty with
  | IntegerType _ | PointerType _ | StructType _ _ | NamedStructType _ | ArrayType _ _ => true
  | VectorType (IntegerType _) _ _ | VectorType (FPTy _) _ _ => true
  | _ => false
  end.



(** ** The language of layouts *)

(** One specification as LLVM documents it *)
Inductive Spec :=
  | SEndian (e : Endianness)
  | SStack (n : Z)
  | SProgram (n : Z)
  | SAlloca (n : Z)
  | SPointer (addr_space : Z) (l : PointerLayout)
  | SInt (size : Z) (a : Alignment)
  | SVec (size : Z) (a : Alignment)
  | SFp (size : Z) (a : Alignment)
  | SAgg (a : Alignment)
  | SFptr (independent : bool) (abi : Z)
  | SMangling (m : Mangling)
  | SNonIntegral (l : list Z)
  | SNative (n : Z) (l : list Z).

Fixpoint join (c : ascii) (l : list string) : string :=
  match l with [] => "" | [x] => x | x :: l' => x +:+ String c (join c l') end.

Definition mangling_text (m : Mangling) : string :=
  match m with
  | ELF => "e" | MIPS => "m" | MachO => "o" | WindowsX86COFF => "x" | WindowsCOFF => "w" | XCOFF => "a"
  end.

(** The chunks of a specification *)
Definition spec_chunks (s : Spec) : list string :=
  let sized c size a := [String c (pretty size); pretty (al_abi a); pretty (al_pref a)] in
  match s with
  | SEndian LittleEndian => ["e"]
  | SEndian BigEndian => ["E"]
  | SStack n => [String "S" (pretty n)]
  | SProgram n => [String "P" (pretty n)]
  | SAlloca n => [String "A" (pretty n)]
  | SPointer k l => [String "p" (pretty k); pretty (pl_size l); pretty (al_abi (pl_alignment l));
                     pretty (al_pref (pl_alignment l)); pretty (pl_index_size l)]
  | SInt size a => sized "i"%char size a
  | SVec size a => sized "v"%char size a
  | SFp size a => sized "f"%char size a
  | SAgg a => ["a"; pretty (al_abi a); pretty (al_pref a)]
  | SFptr independent n => [String "F" (String (if independent then "i" else "n")%char (pretty n))]
  | SMangling m => ["m"; mangling_text m]
  | SNonIntegral l => "ni" :: map pretty l
  | SNative n l => String "n" (pretty n) :: map pretty l
  end.
Definition spec_text (s : Spec) : string := join ":" (spec_chunks s).
Definition layout_text (l : list Spec) : string := join "-" (map spec_text l).

Definition in_u32 (z : Z) : Prop := (0 <= z < u32_modulus)%Z.
Definition alignment_u32 (a : Alignment) : Prop := in_u32 (al_abi a) /\ in_u32 (al_pref a).
Definition spec_ok (s : Spec) : Prop :=
  match s with
  | SEndian _ | SMangling _ => True
  | SStack n | SProgram n | SAlloca n | SFptr _ n => in_u32 n
  | SPointer k l => in_u32 k /\ in_u32 (pl_size l) /\ alignment_u32 (pl_alignment l) /\
                    in_u32 (pl_index_size l)
  | SInt size a | SVec size a | SFp size a => in_u32 size /\ alignment_u32 a
  | SAgg a => alignment_u32 a
  | SNonIntegral l => Forall (fun n => in_u32 n /\ n <> 0%Z) l
  | SNative n l => in_u32 n /\ Forall in_u32 l
  end.

(** What a specification means *)
Definition spec_apply (d : DataLayout) (s : Spec) : DataLayout :=
  let a := alignments d in
  let set_of l (acc : gset Z) := foldl (fun acc n => {[n]} ∪ acc) acc l in
  match s with
  | SEndian e => set_endianness e d
  | SStack n => set_stack n d
  | SProgram n => set_program n d
  | SAlloca n => set_alloca n d
  | SPointer k l => set_alignments (insert_ptr k l a) d
  | SInt size v => set_alignments (insert_int size v a) d
  | SVec size v => set_alignments (insert_vec size v a) d
  | SFp size v => set_alignments (insert_fp size v a) d
  | SAgg v => set_alignments (set_agg v a) d
  | SFptr independent n => set_alignments (set_fptr independent n a) d
  | SMangling m => set_mangling m d
  | SNonIntegral l => set_non_integral (set_of l (non_integral_ptr_types d)) d
  | SNative n l => set_native (set_of (n :: l) (default ∅ (native_int_widths d))) d
  end.

(** *** Numbers and chunks *)

Lemma pretty_Z_nonneg z : (0 <= z)%Z -> pretty z = pretty (Z.to_N z).
Proof. by destruct z. Qed.

Lemma digits_free c s : is_digit c = false -> str_all is_digit s = true -> str_mem c s = false.
Proof.
  intros Hc. induction s as [|a s IH]; [done|]. simpl. intros [Ha Hs]%andb_true_iff.
  rewrite (IH Hs), orb_false_r. apply Ascii.eqb_neq. congruence.
Qed.

Lemma pretty_free c z : is_digit c = false -> (0 <= z)%Z -> str_mem c (pretty z) = false.
Proof. intros Hc Hz. rewrite pretty_Z_nonneg by done. apply digits_free; [done|]. apply pretty_N_digits. Qed.

Lemma num_pretty z : in_u32 z -> num (pretty z) = Done z.
Proof.
  intros [Hz Hlt]. unfold num, parse_u32. rewrite pretty_Z_nonneg by done.
  pose proof (pretty_N_digits (Z.to_N z)) as Hd. pose proof (digits_value_pretty (Z.to_N z)) as Hv.
  pose proof (pretty_N_nonempty (Z.to_N z)) as Hne.
  destruct (pretty (Z.to_N z)) as [|a s] eqn:E; [done|].
  assert (Ascii.eqb a "+" = false) as ->.
  { apply andb_true_iff in Hd as [Ha _]. apply Ascii.eqb_neq. by intros ->. }
  rewrite Hv, Z2N.id by done. by rewrite decide_True.
Qed.

Lemma split_on_piece c s cur rest :
  str_mem c s = false ->
  split_on (fun a => Ascii.eqb a c) cur (s +:+ String c rest)
  = String.rev_app cur s :: split_on (fun a => Ascii.eqb a c) "" rest.
Proof.
  revert cur. induction s as [|a s IH]; intros cur; simpl.
  - intros _. by rewrite Ascii.eqb_refl.
  - intros [-> Hs]%orb_false_iff. by rewrite IH.
Qed.

Lemma split_on_last c s cur :
  str_mem c s = false -> split_on (fun a => Ascii.eqb a c) cur s = [String.rev_app cur s].
Proof.
  revert cur. induction s as [|a s IH]; intros cur; simpl; [done|].
  intros [-> Hs]%orb_false_iff. by rewrite IH.
Qed.

Lemma split_join c l :
  l <> [] -> Forall (fun s => str_mem c s = false) l ->
  split_on (fun a => Ascii.eqb a c) "" (join c l) = l.
Proof.
  induction l as [|s l IH]; [done|]. intros _ [Hs Hl]%Forall_cons. destruct l as [|s' l].
  - by apply split_on_last.
  - change (join c (s :: s' :: l)) with (s +:+ String c (join c (s' :: l))).
    rewrite split_on_piece by done. by rewrite IH.
Qed.

(** *** Reading a specification back *)

Definition separator (c : ascii) : Prop := c = ":"%char \/ c = "-"%char.

Lemma separator_free c z : separator c -> in_u32 z -> str_mem c (pretty z) = false.
Proof. intros [-> | ->] [Hz _]; by apply pretty_free. Qed.

Lemma numbers_free c l : separator c -> Forall in_u32 l -> Forall (fun s => str_mem c s = false) (map pretty l).
Proof.
  intros Hc Hl. apply Forall_map. eapply Forall_impl; [exact Hl|]. intros z Hz. by apply separator_free.
Qed.

Lemma chunks_free c s : separator c -> spec_ok s -> Forall (fun x => str_mem c x = false) (spec_chunks s).
Proof.
  intros Hc Hs.
  assert (forall a z, Ascii.eqb a c = false -> in_u32 z -> str_mem c (String a (pretty z)) = false) as Hcons.
  { intros a z Ha Hz. cbn [str_mem]. rewrite Ha. by apply separator_free. }
  assert (forall a, (is_digit a || Ascii.eqb a ":" || Ascii.eqb a "-") = false -> Ascii.eqb a c = false) as Hlet.
  { intros a Ha. by destruct Hc as [-> | ->], (is_digit a), (Ascii.eqb a ":"), (Ascii.eqb a "-"). }
  destruct s as [[]| | | |k l|size a|size a|size a|a|b n|m|l|n l]; simpl in Hs |- *;
    unfold alignment_u32 in *; destruct_and?;
    repeat (apply Forall_cons; split); try apply Forall_nil; auto using separator_free;
    try (apply Hcons; [by apply Hlet|done]); try (destruct Hc as [-> | ->]; done).
  - destruct b; cbn [str_mem]; rewrite !Hlet by done; by apply separator_free.
  - by destruct m, Hc as [-> | ->].
  - apply numbers_free; [done|]. eapply Forall_impl; [exact Hs|]. by intros z [? _].
  - by apply numbers_free.
Qed.

Lemma join_free c c' l :
  Ascii.eqb c' c = false -> Forall (fun s => str_mem c s = false) l -> str_mem c (join c' l) = false.
Proof.
  intros Hc. induction l as [|s l IH]; [done|]. intros [Hs Hl]%Forall_cons.
  destruct l as [|s' l]; [done|].
  change (join c' (s :: s' :: l)) with (s +:+ String c' (join c' (s' :: l))).
  rewrite str_mem_app, Hs. simpl str_mem at 1. rewrite Hc. simpl. by apply IH.
Qed.

Lemma chunks_text s : spec_ok s -> chunks (spec_text s) = spec_chunks s.
Proof.
  intros Hs. apply (split_join ":"); [|by apply chunks_free; [left|]].
  by destruct s as [[]| | | | | | | | | | | |].
Qed.

Lemma abi_pref_text a :
  alignment_u32 a -> abi_pref [pretty (al_abi a); pretty (al_pref a)] = Done a.
Proof. intros [Ha Hp]. simpl. rewrite !num_pretty by done. by destruct a. Qed.

Lemma nums_into_text ok l acc :
  Forall (fun n => in_u32 n /\ ok n = true) l ->
  nums_into ok (map pretty l) acc = Done (foldl (fun acc n => {[n]} ∪ acc) acc l).
Proof.
  intros Hl. revert acc. induction Hl as [|n l [Hn Hok] _ IH]; intros acc; [done|]. simpl.
  rewrite num_pretty by done. simpl. rewrite Hok. apply IH.
Qed.

Lemma mangling_of_text m : mangling_of (mangling_text m) = Done m.
Proof. by destruct m. Qed.

Lemma starts_with_head c a s : starts_with (String c "") (String a s) = Ascii.eqb c a.
Proof.
  unfold starts_with. simpl. destruct (ascii_dec c a) as [->|Hne].
  - rewrite Ascii.eqb_refl. by destruct s.
  - symmetry. by apply Ascii.eqb_neq.
Qed.

(** The text of a specification begins with its letter. *)
Definition spec_letter (s : Spec) : ascii :=
  match s with
  | SEndian LittleEndian => "e" | SEndian BigEndian => "E"
  | SStack _ => "S" | SProgram _ => "P" | SAlloca _ => "A"
  | SPointer _ _ => "p" | SInt _ _ => "i" | SVec _ _ => "v" | SFp _ _ => "f" | SAgg _ => "a"
  | SFptr _ _ => "F" | SMangling _ => "m" | SNonIntegral _ | SNative _ _ => "n"
  end%char.

Lemma spec_text_head s : exists r, spec_text s = String (spec_letter s) r.
Proof.
  unfold spec_text.
  destruct s as [[]| | | | | | | | | | |l|n l]; simpl; try (by eexists);
    [destruct (map pretty l) | destruct (map pretty l)]; by eexists.
Qed.

(** Decide the tests of [apply_spec] on a text that begins with a known letter. *)
Ltac letter_tests :=
  repeat match goal with
  | |- context [starts_with (String ?c "") (String ?a ?s)] =>
      rewrite (starts_with_head c a s); cbv [Ascii.eqb Bool.eqb]; cbv iota
  | |- context [bool_decide (String ?a ?s = String ?b ?t)] =>
      rewrite (bool_decide_eq_false_2 (String a s = String b t)) by (intros [=])
  end.

Lemma sized_text c size a s :
  spec_chunks s = [String c (pretty size); pretty (al_abi a); pretty (al_pref a)] -> spec_ok s ->
  in_u32 size -> alignment_u32 a -> sized_spec (spec_text s) = Done (size, a).
Proof.
  intros Hc Hs Hsz Ha. unfold sized_spec. rewrite (chunks_text s Hs), Hc. cbn [tail1].
  by rewrite num_pretty, abi_pref_text.
Qed.

Lemma pointer_text k l :
  spec_ok (SPointer k l) -> pointer_spec (spec_text (SPointer k l)) = Done (k, l).
Proof.
  intros Hs. unfold pointer_spec. rewrite (chunks_text _ Hs).
  destruct Hs as (Hk & Hsz & [Habi Hpref] & Hidx). cbn [spec_chunks tail1].
  rewrite bool_decide_eq_false_2.
  - rewrite !num_pretty by done. simpl. by destruct l as [? [] ?].
  - intros [= E]. pose proof (pretty_N_nonempty (Z.to_N k)). rewrite pretty_Z_nonneg in E by apply Hk. done.
Qed.

Lemma native_text n l acc :
  spec_ok (SNative n l) ->
  native_spec (spec_text (SNative n l)) acc = Done (foldl (fun acc n => {[n]} ∪ acc) acc (n :: l)).
Proof.
  intros Hs. unfold native_spec. rewrite (chunks_text _ Hs). destruct Hs as [Hn Hl].
  cbn [spec_chunks tail1]. rewrite num_pretty by done. simpl. apply nums_into_text.
  eapply Forall_impl; [exact Hl|]. auto.
Qed.

(** A digit follows the letter of native widths. *)
Lemma native_head n l :
  in_u32 n -> exists a r, spec_text (SNative n l) = String "n" (String a r) /\ is_digit a = true.
Proof.
  intros [Hn _]. unfold spec_text. cbn [spec_chunks]. rewrite pretty_Z_nonneg by done.
  pose proof (pretty_N_digits (Z.to_N n)) as Hd. pose proof (pretty_N_nonempty (Z.to_N n)) as Hne.
  destruct (pretty (Z.to_N n)) as [|a t]; [done|]. apply andb_true_iff in Hd as [Ha _].
  destruct (map pretty l); by exists a; eexists.
Qed.

Lemma apply_text d s : spec_ok s -> apply_spec d (spec_text s) = Done (spec_apply d s).
Proof.
  intros Hs. pose proof (chunks_text s Hs) as Hch.
  destruct s as [[]|n|n|n|k l|size a|size a|size a|a|b n|m|l|n l].
  - done.
  - done.
  - unfold spec_text. cbn [spec_chunks join]. unfold apply_spec. letter_tests. cbn [tail1].
    by rewrite num_pretty.
  - unfold spec_text. cbn [spec_chunks join]. unfold apply_spec. letter_tests. cbn [tail1].
    by rewrite num_pretty.
  - unfold spec_text. cbn [spec_chunks join]. unfold apply_spec. letter_tests. cbn [tail1].
    by rewrite num_pretty.
  - unfold apply_spec. rewrite (pointer_text k l Hs). destruct (spec_text_head (SPointer k l)) as [r ->].
    cbn [spec_letter]. by letter_tests.
  - unfold apply_spec. rewrite (sized_text "i" size a (SInt size a)) by (done || apply Hs).
    destruct (spec_text_head (SInt size a)) as [r ->]. cbn [spec_letter]. by letter_tests.
  - unfold apply_spec. rewrite (sized_text "v" size a (SVec size a)) by (done || apply Hs).
    destruct (spec_text_head (SVec size a)) as [r ->]. cbn [spec_letter]. by letter_tests.
  - unfold apply_spec. rewrite (sized_text "f" size a (SFp size a)) by (done || apply Hs).
    destruct (spec_text_head (SFp size a)) as [r ->]. cbn [spec_letter]. by letter_tests.
  - unfold apply_spec, agg_spec. rewrite Hch. cbn [spec_chunks].
    rewrite (bool_decide_eq_true_2 ("a" = "a" \/ "a" = "a0")) by auto. rewrite abi_pref_text by done.
    destruct (spec_text_head (SAgg a)) as [r ->]. cbn [spec_letter]. by letter_tests.
  - unfold spec_text. cbn [spec_chunks join]. unfold apply_spec. letter_tests.
    destruct b; [change (starts_with "Fi" (String "F" (String "i" (pretty n)))) with (starts_with "" (pretty n))
      |change (starts_with "Fi" (String "F" (String "n" (pretty n)))) with false;
       change (starts_with "Fn" (String "F" (String "n" (pretty n)))) with (starts_with "" (pretty n))];
    cbn [tail1]; rewrite num_pretty by done; by destruct (pretty n).
  - by destruct m.
  - unfold apply_spec, non_integral_spec. rewrite Hch. cbn [spec_chunks].
    rewrite (bool_decide_eq_true_2 ("ni" = "ni")) by done. rewrite nums_into_text.
    + unfold spec_text. cbn [spec_chunks]. destruct l as [|z l]; [done|]. cbn [map join].
      letter_tests. done.
    + eapply Forall_impl; [exact Hs|]. intros z [Hz Hne]. split; [done|]. by apply negb_true_iff, Z.eqb_neq.
  - unfold apply_spec. rewrite (native_text n l _ Hs).
    destruct (native_head n l (proj1 Hs)) as (x & r & -> & Hx). letter_tests.
    change (starts_with "ni" (String "n" (String x r))) with (starts_with "i" (String x r)).
    rewrite starts_with_head, (proj2 (Ascii.eqb_neq "i" x)) by (by intros <-). done.
Qed.

Lemma text_free s : spec_ok s -> str_mem "-" (spec_text s) = false.
Proof. intros Hs. apply join_free; [done|]. apply chunks_free; [by right|done]. Qed.

Lemma apply_specs_text l d :
  Forall spec_ok l -> apply_specs d (map spec_text l) = Done (foldl spec_apply d l).
Proof.
  intros Hl. revert d. induction Hl as [|s l Hs _ IH]; intros d; [done|]. simpl.
  rewrite apply_text by done. apply IH.
Qed.

(** C33. The parser implements the language of layouts: for every list of
    specifications with 32-bit numbers, parsing its text applies exactly these
    specifications, in order, to the default layout. *)
Theorem layout_round_trip l :
  Forall spec_ok l ->
  from_layout_str (layout_text l)
  = Done (foldl spec_apply
            (mk_DataLayout (layout_text l) BigEndian None 0 0 Alignments_default None None ∅) l).
Proof.
  intros Hl. unfold from_layout_str. destruct l as [|s l]; [done|].
  unfold layout_text at 2. rewrite (split_join "-"); [by apply apply_specs_text|done|].
  apply Forall_map. eapply Forall_impl; [exact Hl|]. apply text_free.
Qed.

Lemma layout_round_trip_witness :
  let l := [SEndian LittleEndian; SMangling ELF; SPointer 270 (mk_PointerLayout 32 (al 32 32) 32);
            SInt 64 (al 64 64); SNonIntegral [10; 11]%Z; SNative 8 [16; 32; 64]%Z; SStack 128] in
  layout_text l = "e-m:e-p270:32:32:32:32-i64:64:64-ni:10:11-n8:16:32:64-S128" /\
  exists d, from_layout_str (layout_text l) = Done d.
Proof.
  split; [vm_compute; reflexivity|]. eexists.
  apply (layout_round_trip [SEndian LittleEndian; SMangling ELF; SPointer 270 (mk_PointerLayout 32 (al 32 32) 32);
            SInt 64 (al 64 64); SNonIntegral [10; 11]%Z; SNative 8 [16; 32; 64]%Z; SStack 128]).
  unfold spec_ok, alignment_u32, in_u32, u32_modulus. simpl.
  repeat match goal with |- _ /\ _ => split | |- Forall _ _ => constructor end; lia || done.
Defined.

(** A specification newer than the parser stops the reader. *)
Example globals_address_space_panics : from_layout_str "e-G1" = Panic.
Proof. by vm_compute. Qed.
