(* ===== verification/Constants.v ===== *)
(** * Constants: [llvm-ir-patched/src/constant.rs] and [operand.rs]

    The [Constant] enum with the variants LLVM 19 keeps (the structs of the
    constant expressions are the arguments of their constructors), operands,
    and their types ([Typed]).  [get_type] panics on malformed expressions and,
    in the debug profile ([dbg]), when a [debug_assert_eq!] fails. *)

From S2P Require Import Prelude Text Types.
From stdpp Require Import base gmap list strings.
From Stdlib Require Import ZArith Lia.
#[local] Open Scope string_scope.

(** Floating-point values are kept as their bit patterns. *)
Inductive Float :=
  | FHalf | FBFloat | FSingle (bits : Z) | FDouble (bits : Z)
  | FQuadruple | FX86_FP80 | FPPC_FP128.

Inductive Constant :=
  | CInt (bits value : Z)
  | CFloat (f : Float)
  | CNull (ty : Ty)
  | CAggregateZero (ty : Ty)
  | CStruct (name : option string) (values : list Constant) (is_packed : bool)
  | CArray (element_type : Ty) (elements : list Constant)
  | CVector (elements : list Constant)
  | CUndef (ty : Ty)
  | CPoison (ty : Ty)
  | CBlockAddress
  | CGlobalReference (name : Name) (ty : Ty)
  | CTokenNone
  | CPtrAuth (ptr key disc addr_disc : Constant)
  | CAdd (operand0 operand1 : Constant)
  | CSub (operand0 operand1 : Constant)
  | CMul (operand0 operand1 : Constant)
  | CXor (operand0 operand1 : Constant)
  | CExtractElement (vector index : Constant)
  | CInsertElement (vector element index : Constant)
  | CShuffleVector (operand0 operand1 mask : Constant)
  | CGetElementPtr (address : Constant) (indices : list Constant) (in_bounds : bool)
  | CTrunc (operand : Constant) (to_type : Ty)
  | CPtrToInt (operand : Constant) (to_type : Ty)
  | CIntToPtr (operand : Constant) (to_type : Ty)
  | CBitCast (operand : Constant) (to_type : Ty)
  | CAddrSpaceCast (operand : Constant) (to_type : Ty).

Inductive Operand :=
  | LocalOperand (name : Name) (ty : Ty)
  | ConstantOperand (c : Constant)
  | MetadataOperand.

Definition Float_type (T : Types) (f : Float) : Ty :=
  types_fp T match f with
             | FHalf => FPHalf | FBFloat => FPBFloat | FSingle _ => FPSingle | FDouble _ => FPDouble
             | FQuadruple => FP128 | FX86_FP80 => X86_FP80 | FPPC_FP128 => PPC_FP128
             end.

(** [debug_assert_eq!(t, <type of the other operand>)]: the other side is
    evaluated in the debug profile only. *)
Definition debug_assert_type (dbg : bool) (t : Ty) (other : exec Ty) : exec Ty :=
  if dbg then let! t' := other in if decide (t = t') then Done t else Panic else Done t.

(** The types of the constant expressions, from those of their operands *)
Definition const_same_type (dbg : bool) (operand0 operand1 : exec Ty) : exec Ty :=
  let! t := operand0 in debug_assert_type dbg t operand1.
Definition ConstExtractElement_type (vector : exec Ty) : exec Ty :=
  let! t := vector in
  match t with VectorType e _ _ => Done e | _ => Panic end.
Definition ConstShuffleVector_type (dbg : bool) (T : Types) (operand0 operand1 mask : exec Ty) : exec Ty :=
  let! t := operand0 in
  let! t := debug_assert_type dbg t operand1 in
  match t with
  | VectorType e _ _ =>
      let! m := mask in
      match m with VectorType _ n sc => Done (types_vector_of T e n sc) | _ => Panic end
  | _ => Panic
  end.

Section get_type.
Context (dbg : bool) (T : Types).

Fixpoint Constant_type (c : Constant) : exec Ty :=
  match c with
  | CInt bits _ => Done (types_int T bits)
  | CFloat f => Done (Float_type T f)
  | CNull t | CAggregateZero t | CUndef t | CPoison t => Done t
  | CStruct _ values packed =>
      let! ts := (fix go (l : list Constant) : exec (list Ty) :=
        match l with
        | [] => Done []
        | v :: l' => let! t := Constant_type v in let! ts := go l' in Done (t :: ts)
        end) values in
      Done (types_struct_of T ts packed)
  | CArray e els => Done (types_array_of T e (Z.of_nat (length els)))
  | CVector els =>
      match els with
      | [] => Panic
      | v :: _ =>
          let! t := Constant_type v in
          Done (types_vector_of T t (Z.of_nat (length els)) false)
      end
  | CBlockAddress => Done (label_type T)
  | CGlobalReference _ _ => Done (types_pointer T)
  | CTokenNone => Done (token_type T)
  | CPtrAuth _ _ _ _ => Done (types_pointer T)
  | CAdd a b | CSub a b | CMul a b | CXor a b => const_same_type dbg (Constant_type a) (Constant_type b)
  | CExtractElement v _ => ConstExtractElement_type (Constant_type v)
  | CInsertElement v _ _ => Constant_type v
  | CShuffleVector a b mask =>
      ConstShuffleVector_type dbg T (Constant_type a) (Constant_type b) (Constant_type mask)
  | CGetElementPtr _ _ _ => Done (types_pointer T)
  | CTrunc _ t | CPtrToInt _ t | CIntToPtr _ t | CBitCast _ t | CAddrSpaceCast _ t => Done t
  end.

Definition Operand_type (op : Operand) : exec Ty :=
  match op with
  | LocalOperand _ ty => Done ty
  | ConstantOperand c => Constant_type c
  | MetadataOperand => Done (metadata_type T)
  end.
End get_type.

Definition as_constant (op : Operand) : option Constant :=
  match op with ConstantOperand c => Some c | _ => None end.

(** Asking for a type always returns or panics. *)
Lemma debug_assert_returns dbg t other : other <> Diverge -> debug_assert_type dbg t other <> Diverge.
Proof. unfold debug_assert_type. destruct dbg; [|done]. destruct other; simpl; try done. by case_decide. Qed.

Lemma const_same_returns dbg a b : a <> Diverge -> b <> Diverge -> const_same_type dbg a b <> Diverge.
Proof. intros Ha Hb. unfold const_same_type. destruct a; simpl; try done. by apply debug_assert_returns. Qed.

Lemma Constant_type_returns dbg T : forall c, Constant_type dbg T c <> Diverge.
Proof.
  fix IH 1. intros c.
  destruct c as [| | | |name values packed| |els| | | | | | |a b|a b|a b|a b|v i|v e i|a b mask| | | | | |];
    simpl; try done; try (by apply const_same_returns; apply IH).
  - match goal with |- context [mbind _ (?go values)] => assert (go values <> Diverge) as Hgo end.
    { clear packed. induction values as [|v values IHv]; simpl; [done|].
      pose proof (IH v). destruct (Constant_type dbg T v); simpl; try done.
      match goal with |- context [mbind _ ?x] => by destruct x end. }
    match goal with |- context [mbind _ ?x] => by destruct x end.
  - destruct els as [|v els]; [done|]. pose proof (IH v). by destruct (Constant_type dbg T v).
  - unfold ConstExtractElement_type. pose proof (IH v). destruct (Constant_type dbg T v) as [[]| |]; done.
  - unfold ConstShuffleVector_type. pose proof (IH a) as Ha. destruct (Constant_type dbg T a) as [t| |]; simpl; try done.
    pose proof (debug_assert_returns dbg t _ (IH b)) as Hb.
    destruct (debug_assert_type _ _ _) as [[]| |]; simpl; try done.
    pose proof (IH mask). by destruct (Constant_type dbg T mask) as [[]| |].
Qed.

Lemma Operand_type_returns dbg T op : Operand_type dbg T op <> Diverge.
Proof. destruct op; simpl; try done. apply Constant_type_returns. Qed.
