(* ===== verification/Instr.v ===== *)
(** * Instr: instructions, blocks, functions and modules of [llvm-ir-patched]

    [instruction.rs] (every non-terminator struct and the [Instruction] enum,
    with result names, result types and the operand groups), [terminator.rs],
    [basicblock.rs], [function.rs], [module.rs], [predicates.rs] and
    [debugloc.rs], as compiled for LLVM 19.  The field [f] of the struct [S] is
    the projection [S_f]; the variant [V] of [Instruction] is [IV]. *)

From S2P Require Import Prelude Text Types Layout Constants.
From stdpp Require Import base gmap list strings pretty.
From Stdlib Require Import ZArith Lia.
#[local] Open Scope string_scope.

(** ** Supporting enums and structs *)

Record DebugLoc := mk_DebugLoc {
  DebugLoc_line : Z;
  DebugLoc_col : option Z;
  DebugLoc_filename : string;
  DebugLoc_directory : option string
}.

Inductive IntPredicate := IEQ | INE | IUGT | IUGE | IULT | IULE | ISGT | ISGE | ISLT | ISLE.
Inductive FPPredicate :=
  | FFalse | FOEQ | FOGT | FOGE | FOLT | FOLE | FONE | FORD
  | FUNO | FUEQ | FUGT | FUGE | FULT | FULE | FUNE | FTrue.

Definition IntPredicate_display (p : IntPredicate) : string :=
  match p with
  | IEQ => "eq" | INE => "ne" | IUGT => "ugt" | IUGE => "uge" | IULT => "ult"
  | IULE => "ule" | ISGT => "sgt" | ISGE => "sge" | ISLT => "slt" | ISLE => "sle"
  end.
Definition FPPredicate_display (p : FPPredicate) : string :=
  match p with
  | FFalse => "false" | FOEQ => "oeq" | FOGT => "ogt" | FOGE => "oge" | FOLT => "olt"
  | FOLE => "ole" | FONE => "one" | FORD => "ord" | FUNO => "uno" | FUEQ => "ueq"
  | FUGT => "ugt" | FUGE => "uge" | FULT => "ult" | FULE => "ule" | FUNE => "une"
  | FTrue => "true"
  end.

Inductive CallingConvention :=
  | CC_C | CC_Fast | CC_Cold | CC_GHC | CC_HiPE | CC_WebKit_JS | CC_AnyReg
  | CC_PreserveMost | CC_PreserveAll | CC_Swift | CC_CXX_FastTLS | CC_X86_StdCall
  | CC_X86_FastCall | CC_X86_RegCall | CC_X86_ThisCall | CC_X86_VectorCall
  | CC_X86_Intr | CC_X86_64_SysV | CC_ARM_APCS | CC_ARM_AAPCS | CC_ARM_AAPCS_VFP
  | CC_MSP430_INTR | CC_MSP430_Builtin | CC_PTX_Kernel | CC_PTX_Device
  | CC_SPIR_FUNC | CC_SPIR_KERNEL | CC_Intel_OCL_BI | CC_Win64 | CC_HHVM | CC_HHVM_C
  | CC_AVR_Intr | CC_AVR_Signal | CC_AVR_Builtin | CC_AMDGPU_CS | CC_AMDGPU_ES
  | CC_AMDGPU_GS | CC_AMDGPU_HS | CC_AMDGPU_LS | CC_AMDGPU_PS | CC_AMDGPU_VS
  | CC_AMDGPU_Kernel | CC_Numbered (n : Z).

Inductive MemoryEffect := ME_None | ME_Read | ME_Write | ME_ReadWrite.

Definition MemoryEffect_from_llvm_bits (val : Z) : exec MemoryEffect :=
  match val with
  | 0 => Done ME_None | 1 => Done ME_Read | 2 => Done ME_Write | 3 => Done ME_ReadWrite
  | _ => Panic
  end%Z.

Inductive FunctionAttribute :=
  | FA_AlignStack (n : Z) | FA_AllocSize (elt_size : Z) (num_elts : option Z)
  | FA_AlwaysInline | FA_Builtin | FA_Cold | FA_Convergent | FA_InaccessibleMemOnly
  | FA_InaccessibleMemOrArgMemOnly | FA_InlineHint | FA_JumpTable | FA_MinimizeSize
  | FA_Naked | FA_NoBuiltin | FA_NoCFCheck | FA_NoDuplicate | FA_NoFree
  | FA_NoImplicitFloat | FA_NoInline | FA_NoMerge | FA_NonLazyBind | FA_NoRedZone
  | FA_NoReturn | FA_NoRecurse | FA_WillReturn | FA_ReturnsTwice | FA_NoSync
  | FA_NoUnwind | FA_NullPointerIsValid | FA_OptForFuzzing | FA_OptNone | FA_OptSize
  | FA_ReadNone | FA_ReadOnly | FA_WriteOnly | FA_ArgMemOnly | FA_SafeStack
  | FA_SanitizeAddress | FA_SanitizeMemory | FA_SanitizeThread | FA_SanitizeHWAddress
  | FA_SanitizeMemTag | FA_ShadowCallStack | FA_SpeculativeLoadHardening
  | FA_Speculatable | FA_StackProtect | FA_StackProtectReq | FA_StackProtectStrong
  | FA_StrictFP | FA_UWTable
  | FA_Memory (default_ argmem inaccessible_mem : MemoryEffect)
  | FA_StringAttribute (kind value : string)
  | FA_UnknownAttribute.

Inductive ParameterAttribute :=
  | PA_ZeroExt | PA_SignExt | PA_InReg | PA_ByVal (ty : Ty) | PA_Preallocated (ty : Ty)
  | PA_InAlloca (ty : Ty) | PA_SRet (ty : Ty) | PA_Alignment (n : Z) | PA_NoAlias
  | PA_NoCapture | PA_NoFree | PA_Nest | PA_Returned | PA_NonNull
  | PA_Dereferenceable (n : Z) | PA_DereferenceableOrNull (n : Z) | PA_SwiftSelf
  | PA_SwiftError | PA_ImmArg | PA_NoUndef | PA_StringAttribute (kind value : string)
  | PA_UnknownAttribute | PA_UnknownTypeAttribute (ty : Ty).

Inductive SynchronizationScope := SingleThread | System.
Inductive MemoryOrdering :=
  | Unordered | Monotonic | Acquire | Release | AcquireRelease
  | SequentiallyConsistent | NotAtomic.
Record Atomicity := mk_Atomicity {
  synch_scope : SynchronizationScope;
  mem_ordering : MemoryOrdering
}.
Inductive RMWBinOp :=
  | RMW_Xchg | RMW_Add | RMW_Sub | RMW_And | RMW_Nand | RMW_Or | RMW_Xor | RMW_Max
  | RMW_Min | RMW_UMax | RMW_UMin | RMW_FAdd | RMW_FSub | RMW_FMax | RMW_FMin
  | RMW_UIncWrap | RMW_UDecWrap.
Record InlineAssembly := mk_InlineAssembly {
  InlineAssembly_ty : Ty;
  InlineAssembly_assembly : string
}.
Inductive LandingPadClause := LP_Catch (c : Constant) | LP_Filter (c : Constant).

(** ** One record per instruction struct *)

Record Add := mk_Add {
  Add_operand0 : Operand;
  Add_operand1 : Operand;
  Add_dest : Name;
  Add_nuw : bool;
  Add_nsw : bool;
  Add_debugloc : option DebugLoc
}.

Record Sub := mk_Sub {
  Sub_operand0 : Operand;
  Sub_operand1 : Operand;
  Sub_dest : Name;
  Sub_nuw : bool;
  Sub_nsw : bool;
  Sub_debugloc : option DebugLoc
}.

Record Mul := mk_Mul {
  Mul_operand0 : Operand;
  Mul_operand1 : Operand;
  Mul_dest : Name;
  Mul_nuw : bool;
  Mul_nsw : bool;
  Mul_debugloc : option DebugLoc
}.

Record UDiv := mk_UDiv {
  UDiv_operand0 : Operand;
  UDiv_operand1 : Operand;
  UDiv_dest : Name;
  UDiv_exact : bool;
  UDiv_debugloc : option DebugLoc
}.

Record SDiv := mk_SDiv {
  SDiv_operand0 : Operand;
  SDiv_operand1 : Operand;
  SDiv_dest : Name;
  SDiv_exact : bool;
  SDiv_debugloc : option DebugLoc
}.

Record URem := mk_URem {
  URem_operand0 : Operand;
  URem_operand1 : Operand;
  URem_dest : Name;
  URem_debugloc : option DebugLoc
}.

Record SRem := mk_SRem {
  SRem_operand0 : Operand;
  SRem_operand1 : Operand;
  SRem_dest : Name;
  SRem_debugloc : option DebugLoc
}.

Record And := mk_And {
  And_operand0 : Operand;
  And_operand1 : Operand;
  And_dest : Name;
  And_debugloc : option DebugLoc
}.

Record Or := mk_Or {
  Or_operand0 : Operand;
  Or_operand1 : Operand;
  Or_dest : Name;
  Or_debugloc : option DebugLoc
}.

Record Xor := mk_Xor {
  Xor_operand0 : Operand;
  Xor_operand1 : Operand;
  Xor_dest : Name;
  Xor_debugloc : option DebugLoc
}.

Record Shl := mk_Shl {
  Shl_operand0 : Operand;
  Shl_operand1 : Operand;
  Shl_dest : Name;
  Shl_nuw : bool;
  Shl_nsw : bool;
  Shl_debugloc : option DebugLoc
}.

Record LShr := mk_LShr {
  LShr_operand0 : Operand;
  LShr_operand1 : Operand;
  LShr_dest : Name;
  LShr_exact : bool;
  LShr_debugloc : option DebugLoc
}.

Record AShr := mk_AShr {
  AShr_operand0 : Operand;
  AShr_operand1 : Operand;
  AShr_dest : Name;
  AShr_exact : bool;
  AShr_debugloc : option DebugLoc
}.

Record FAdd := mk_FAdd {
  FAdd_operand0 : Operand;
  FAdd_operand1 : Operand;
  FAdd_dest : Name;
  FAdd_debugloc : option DebugLoc
}.

Record FSub := mk_FSub {
  FSub_operand0 : Operand;
  FSub_operand1 : Operand;
  FSub_dest : Name;
  FSub_debugloc : option DebugLoc
}.

Record FMul := mk_FMul {
  FMul_operand0 : Operand;
  FMul_operand1 : Operand;
  FMul_dest : Name;
  FMul_debugloc : option DebugLoc
}.

Record FDiv := mk_FDiv {
  FDiv_operand0 : Operand;
  FDiv_operand1 : Operand;
  FDiv_dest : Name;
  FDiv_debugloc : option DebugLoc
}.

Record FRem := mk_FRem {
  FRem_operand0 : Operand;
  FRem_operand1 : Operand;
  FRem_dest : Name;
  FRem_debugloc : option DebugLoc
}.

Record FNeg := mk_FNeg {
  FNeg_operand : Operand;
  FNeg_dest : Name;
  FNeg_debugloc : option DebugLoc
}.

Record ExtractElement := mk_ExtractElement {
  ExtractElement_vector : Operand;
  ExtractElement_index : Operand;
  ExtractElement_dest : Name;
  ExtractElement_debugloc : option DebugLoc
}.

Record InsertElement := mk_InsertElement {
  InsertElement_vector : Operand;
  InsertElement_element : Operand;
  InsertElement_index : Operand;
  InsertElement_dest : Name;
  InsertElement_debugloc : option DebugLoc
}.

Record ShuffleVector := mk_ShuffleVector {
  ShuffleVector_operand0 : Operand;
  ShuffleVector_operand1 : Operand;
  ShuffleVector_dest : Name;
  ShuffleVector_mask : Constant;
  ShuffleVector_debugloc : option DebugLoc
}.

Record ExtractValue := mk_ExtractValue {
  ExtractValue_aggregate : Operand;
  ExtractValue_indices : list Z;
  ExtractValue_dest : Name;
  ExtractValue_debugloc : option DebugLoc
}.

Record InsertValue := mk_InsertValue {
  InsertValue_aggregate : Operand;
  InsertValue_element : Operand;
  InsertValue_indices : list Z;
  InsertValue_dest : Name;
  InsertValue_debugloc : option DebugLoc
}.

Record Alloca := mk_Alloca {
  Alloca_allocated_type : Ty;
  Alloca_num_elements : Operand;
  Alloca_dest : Name;
  Alloca_alignment : Z;
  Alloca_debugloc : option DebugLoc
}.

Record Load := mk_Load {
  Load_address : Operand;
  Load_dest : Name;
  Load_loaded_ty : Ty;
  Load_volatile : bool;
  Load_atomicity : option Atomicity;
  Load_alignment : Z;
  Load_debugloc : option DebugLoc
}.

Record Store := mk_Store {
  Store_address : Operand;
  Store_value : Operand;
  Store_volatile : bool;
  Store_atomicity : option Atomicity;
  Store_alignment : Z;
  Store_debugloc : option DebugLoc
}.

Record Fence := mk_Fence {
  Fence_atomicity : Atomicity;
  Fence_debugloc : option DebugLoc
}.

Record CmpXchg := mk_CmpXchg {
  CmpXchg_address : Operand;
  CmpXchg_expected : Operand;
  CmpXchg_replacement : Operand;
  CmpXchg_dest : Name;
  CmpXchg_volatile : bool;
  CmpXchg_atomicity : Atomicity;
  CmpXchg_failure_memory_ordering : MemoryOrdering;
  CmpXchg_weak : bool;
  CmpXchg_debugloc : option DebugLoc
}.

Record AtomicRMW := mk_AtomicRMW {
  AtomicRMW_operation : RMWBinOp;
  AtomicRMW_address : Operand;
  AtomicRMW_value : Operand;
  AtomicRMW_dest : Name;
  AtomicRMW_volatile : bool;
  AtomicRMW_atomicity : Atomicity;
  AtomicRMW_debugloc : option DebugLoc
}.

Record GetElementPtr := mk_GetElementPtr {
  GetElementPtr_address : Operand;
  GetElementPtr_indices : list Operand;
  GetElementPtr_dest : Name;
  GetElementPtr_in_bounds : bool;
  GetElementPtr_debugloc : option DebugLoc;
  GetElementPtr_source_element_type : Ty
}.

Record Trunc := mk_Trunc {
  Trunc_operand : Operand;
  Trunc_to_type : Ty;
  Trunc_dest : Name;
  Trunc_debugloc : option DebugLoc
}.

Record ZExt := mk_ZExt {
  ZExt_operand : Operand;
  ZExt_to_type : Ty;
  ZExt_dest : Name;
  ZExt_debugloc : option DebugLoc
}.

Record SExt := mk_SExt {
  SExt_operand : Operand;
  SExt_to_type : Ty;
  SExt_dest : Name;
  SExt_debugloc : option DebugLoc
}.

Record FPTrunc := mk_FPTrunc {
  FPTrunc_operand : Operand;
  FPTrunc_to_type : Ty;
  FPTrunc_dest : Name;
  FPTrunc_debugloc : option DebugLoc
}.

Record FPExt := mk_FPExt {
  FPExt_operand : Operand;
  FPExt_to_type : Ty;
  FPExt_dest : Name;
  FPExt_debugloc : option DebugLoc
}.

Record FPToUI := mk_FPToUI {
  FPToUI_operand : Operand;
  FPToUI_to_type : Ty;
  FPToUI_dest : Name;
  FPToUI_debugloc : option DebugLoc
}.

Record FPToSI := mk_FPToSI {
  FPToSI_operand : Operand;
  FPToSI_to_type : Ty;
  FPToSI_dest : Name;
  FPToSI_debugloc : option DebugLoc
}.

Record UIToFP := mk_UIToFP {
  UIToFP_operand : Operand;
  UIToFP_to_type : Ty;
  UIToFP_dest : Name;
  UIToFP_debugloc : option DebugLoc
}.

Record SIToFP := mk_SIToFP {
  SIToFP_operand : Operand;
  SIToFP_to_type : Ty;
  SIToFP_dest : Name;
  SIToFP_debugloc : option DebugLoc
}.

Record PtrToInt := mk_PtrToInt {
  PtrToInt_operand : Operand;
  PtrToInt_to_type : Ty;
  PtrToInt_dest : Name;
  PtrToInt_debugloc : option DebugLoc
}.

Record IntToPtr := mk_IntToPtr {
  IntToPtr_operand : Operand;
  IntToPtr_to_type : Ty;
  IntToPtr_dest : Name;
  IntToPtr_debugloc : option DebugLoc
}.

Record BitCast := mk_BitCast {
  BitCast_operand : Operand;
  BitCast_to_type : Ty;
  BitCast_dest : Name;
  BitCast_debugloc : option DebugLoc
}.

Record AddrSpaceCast := mk_AddrSpaceCast {
  AddrSpaceCast_operand : Operand;
  AddrSpaceCast_to_type : Ty;
  AddrSpaceCast_dest : Name;
  AddrSpaceCast_debugloc : option DebugLoc
}.

Record ICmp := mk_ICmp {
  ICmp_predicate : IntPredicate;
  ICmp_operand0 : Operand;
  ICmp_operand1 : Operand;
  ICmp_dest : Name;
  ICmp_debugloc : option DebugLoc
}.

Record FCmp := mk_FCmp {
  FCmp_predicate : FPPredicate;
  FCmp_operand0 : Operand;
  FCmp_operand1 : Operand;
  FCmp_dest : Name;
  FCmp_debugloc : option DebugLoc
}.

Record Phi := mk_Phi {
  Phi_incoming_values : list (Operand * Name);
  Phi_dest : Name;
  Phi_to_type : Ty;
  Phi_debugloc : option DebugLoc
}.

Record Select := mk_Select {
  Select_condition : Operand;
  Select_true_value : Operand;
  Select_false_value : Operand;
  Select_dest : Name;
  Select_debugloc : option DebugLoc
}.

Record Freeze := mk_Freeze {
  Freeze_operand : Operand;
  Freeze_dest : Name;
  Freeze_debugloc : option DebugLoc
}.

Record Call := mk_Call {
  Call_function : InlineAssembly + Operand;
  Call_function_ty : Ty;
  Call_arguments : list (Operand * list ParameterAttribute);
  Call_return_attributes : list ParameterAttribute;
  Call_dest : option Name;
  Call_function_attributes : list FunctionAttribute;
  Call_is_tail_call : bool;
  Call_calling_convention : CallingConvention;
  Call_debugloc : option DebugLoc
}.

Record VAArg := mk_VAArg {
  VAArg_arg_list : Operand;
  VAArg_cur_type : Ty;
  VAArg_dest : Name;
  VAArg_debugloc : option DebugLoc
}.

Record LandingPad := mk_LandingPad {
  LandingPad_result_type : Ty;
  LandingPad_clauses : list LandingPadClause;
  LandingPad_dest : Name;
  LandingPad_cleanup : bool;
  LandingPad_debugloc : option DebugLoc
}.

Record CatchPad := mk_CatchPad {
  CatchPad_catch_switch : Operand;
  CatchPad_args : list Operand;
  CatchPad_dest : Name;
  CatchPad_debugloc : option DebugLoc
}.

Record CleanupPad := mk_CleanupPad {
  CleanupPad_parent_pad : Operand;
  CleanupPad_args : list Operand;
  CleanupPad_dest : Name;
  CleanupPad_debugloc : option DebugLoc
}.

(** ** The [Instruction] enum *)

Inductive Instruction :=
  | IAdd (i : Add)
  | ISub (i : Sub)
  | IMul (i : Mul)
  | IUDiv (i : UDiv)
  | ISDiv (i : SDiv)
  | IURem (i : URem)
  | ISRem (i : SRem)
  | IAnd (i : And)
  | IOr (i : Or)
  | IXor (i : Xor)
  | IShl (i : Shl)
  | ILShr (i : LShr)
  | IAShr (i : AShr)
  | IFAdd (i : FAdd)
  | IFSub (i : FSub)
  | IFMul (i : FMul)
  | IFDiv (i : FDiv)
  | IFRem (i : FRem)
  | IFNeg (i : FNeg)
  | IExtractElement (i : ExtractElement)
  | IInsertElement (i : InsertElement)
  | IShuffleVector (i : ShuffleVector)
  | IExtractValue (i : ExtractValue)
  | IInsertValue (i : InsertValue)
  | IAlloca (i : Alloca)
  | ILoad (i : Load)
  | IStore (i : Store)
  | IFence (i : Fence)
  | ICmpXchg (i : CmpXchg)
  | IAtomicRMW (i : AtomicRMW)
  | IGetElementPtr (i : GetElementPtr)
  | ITrunc (i : Trunc)
  | IZExt (i : ZExt)
  | ISExt (i : SExt)
  | IFPTrunc (i : FPTrunc)
  | IFPExt (i : FPExt)
  | IFPToUI (i : FPToUI)
  | IFPToSI (i : FPToSI)
  | IUIToFP (i : UIToFP)
  | ISIToFP (i : SIToFP)
  | IPtrToInt (i : PtrToInt)
  | IIntToPtr (i : IntToPtr)
  | IBitCast (i : BitCast)
  | IAddrSpaceCast (i : AddrSpaceCast)
  | IICmp (i : ICmp)
  | IFCmp (i : FCmp)
  | IPhi (i : Phi)
  | ISelect (i : Select)
  | IFreeze (i : Freeze)
  | ICall (i : Call)
  | IVAArg (i : VAArg)
  | ILandingPad (i : LandingPad)
  | ICatchPad (i : CatchPad)
  | ICleanupPad (i : CleanupPad).

Definition instr_debug_loc (i : Instruction) : option DebugLoc :=
  match i with
  | IAdd i => Add_debugloc i
  | ISub i => Sub_debugloc i
  | IMul i => Mul_debugloc i
  | IUDiv i => UDiv_debugloc i
  | ISDiv i => SDiv_debugloc i
  | IURem i => URem_debugloc i
  | ISRem i => SRem_debugloc i
  | IAnd i => And_debugloc i
  | IOr i => Or_debugloc i
  | IXor i => Xor_debugloc i
  | IShl i => Shl_debugloc i
  | ILShr i => LShr_debugloc i
  | IAShr i => AShr_debugloc i
  | IFAdd i => FAdd_debugloc i
  | IFSub i => FSub_debugloc i
  | IFMul i => FMul_debugloc i
  | IFDiv i => FDiv_debugloc i
  | IFRem i => FRem_debugloc i
  | IFNeg i => FNeg_debugloc i
  | IExtractElement i => ExtractElement_debugloc i
  | IInsertElement i => InsertElement_debugloc i
  | IShuffleVector i => ShuffleVector_debugloc i
  | IExtractValue i => ExtractValue_debugloc i
  | IInsertValue i => InsertValue_debugloc i
  | IAlloca i => Alloca_debugloc i
  | ILoad i => Load_debugloc i
  | IStore i => Store_debugloc i
  | IFence i => Fence_debugloc i
  | ICmpXchg i => CmpXchg_debugloc i
  | IAtomicRMW i => AtomicRMW_debugloc i
  | IGetElementPtr i => GetElementPtr_debugloc i
  | ITrunc i => Trunc_debugloc i
  | IZExt i => ZExt_debugloc i
  | ISExt i => SExt_debugloc i
  | IFPTrunc i => FPTrunc_debugloc i
  | IFPExt i => FPExt_debugloc i
  | IFPToUI i => FPToUI_debugloc i
  | IFPToSI i => FPToSI_debugloc i
  | IUIToFP i => UIToFP_debugloc i
  | ISIToFP i => SIToFP_debugloc i
  | IPtrToInt i => PtrToInt_debugloc i
  | IIntToPtr i => IntToPtr_debugloc i
  | IBitCast i => BitCast_debugloc i
  | IAddrSpaceCast i => AddrSpaceCast_debugloc i
  | IICmp i => ICmp_debugloc i
  | IFCmp i => FCmp_debugloc i
  | IPhi i => Phi_debugloc i
  | ISelect i => Select_debugloc i
  | IFreeze i => Freeze_debugloc i
  | ICall i => Call_debugloc i
  | IVAArg i => VAArg_debugloc i
  | ILandingPad i => LandingPad_debugloc i
  | ICatchPad i => CatchPad_debugloc i
  | ICleanupPad i => CleanupPad_debugloc i
  end.

Definition try_get_result (i : Instruction) : option Name :=
  match i with
  | IAdd i => Some (Add_dest i)
  | ISub i => Some (Sub_dest i)
  | IMul i => Some (Mul_dest i)
  | IUDiv i => Some (UDiv_dest i)
  | ISDiv i => Some (SDiv_dest i)
  | IURem i => Some (URem_dest i)
  | ISRem i => Some (SRem_dest i)
  | IAnd i => Some (And_dest i)
  | IOr i => Some (Or_dest i)
  | IXor i => Some (Xor_dest i)
  | IShl i => Some (Shl_dest i)
  | ILShr i => Some (LShr_dest i)
  | IAShr i => Some (AShr_dest i)
  | IFAdd i => Some (FAdd_dest i)
  | IFSub i => Some (FSub_dest i)
  | IFMul i => Some (FMul_dest i)
  | IFDiv i => Some (FDiv_dest i)
  | IFRem i => Some (FRem_dest i)
  | IFNeg i => Some (FNeg_dest i)
  | IExtractElement i => Some (ExtractElement_dest i)
  | IInsertElement i => Some (InsertElement_dest i)
  | IShuffleVector i => Some (ShuffleVector_dest i)
  | IExtractValue i => Some (ExtractValue_dest i)
  | IInsertValue i => Some (InsertValue_dest i)
  | IAlloca i => Some (Alloca_dest i)
  | ILoad i => Some (Load_dest i)
  | ICmpXchg i => Some (CmpXchg_dest i)
  | IAtomicRMW i => Some (AtomicRMW_dest i)
  | IGetElementPtr i => Some (GetElementPtr_dest i)
  | ITrunc i => Some (Trunc_dest i)
  | IZExt i => Some (ZExt_dest i)
  | ISExt i => Some (SExt_dest i)
  | IFPTrunc i => Some (FPTrunc_dest i)
  | IFPExt i => Some (FPExt_dest i)
  | IFPToUI i => Some (FPToUI_dest i)
  | IFPToSI i => Some (FPToSI_dest i)
  | IUIToFP i => Some (UIToFP_dest i)
  | ISIToFP i => Some (SIToFP_dest i)
  | IPtrToInt i => Some (PtrToInt_dest i)
  | IIntToPtr i => Some (IntToPtr_dest i)
  | IBitCast i => Some (BitCast_dest i)
  | IAddrSpaceCast i => Some (AddrSpaceCast_dest i)
  | IICmp i => Some (ICmp_dest i)
  | IFCmp i => Some (FCmp_dest i)
  | IPhi i => Some (Phi_dest i)
  | ISelect i => Some (Select_dest i)
  | IFreeze i => Some (Freeze_dest i)
  | ICall i => Call_dest i
  | IVAArg i => Some (VAArg_dest i)
  | ILandingPad i => Some (LandingPad_dest i)
  | ICatchPad i => Some (CatchPad_dest i)
  | ICleanupPad i => Some (CleanupPad_dest i)
  | IStore _ | IFence _ => None
  end.

(** ** [groups.rs]: the binary and the unary operations *)

Inductive BinaryOp :=
  | BAdd (i : Add) | BSub (i : Sub) | BMul (i : Mul) | BUDiv (i : UDiv) | BSDiv (i : SDiv)
  | BURem (i : URem) | BSRem (i : SRem) | BAnd (i : And) | BOr (i : Or) | BXor (i : Xor)
  | BShl (i : Shl) | BLShr (i : LShr) | BAShr (i : AShr) | BFAdd (i : FAdd)
  | BFSub (i : FSub) | BFMul (i : FMul) | BFDiv (i : FDiv) | BFRem (i : FRem).

Inductive UnaryOp :=
  | UAddrSpaceCast (i : AddrSpaceCast) | UBitCast (i : BitCast) | UFNeg (i : FNeg)
  | UFPExt (i : FPExt) | UFPToSI (i : FPToSI) | UFPToUI (i : FPToUI) | UFPTrunc (i : FPTrunc)
  | UFreeze (i : Freeze) | UIntToPtr (i : IntToPtr) | UPtrToInt (i : PtrToInt)
  | USExt (i : SExt) | USIToFP (i : SIToFP) | UTrunc (i : Trunc) | UUIToFP (i : UIToFP)
  | UZExt (i : ZExt).

Definition Instruction_from_BinaryOp (bo : BinaryOp) : Instruction :=
  match bo with
  | BAdd i => IAdd i | BSub i => ISub i | BMul i => IMul i | BUDiv i => IUDiv i
  | BSDiv i => ISDiv i | BURem i => IURem i | BSRem i => ISRem i | BAnd i => IAnd i
  | BOr i => IOr i | BXor i => IXor i | BShl i => IShl i | BLShr i => ILShr i
  | BAShr i => IAShr i | BFAdd i => IFAdd i | BFSub i => IFSub i | BFMul i => IFMul i
  | BFDiv i => IFDiv i | BFRem i => IFRem i
  end.

Definition Instruction_from_UnaryOp (uo : UnaryOp) : Instruction :=
  match uo with
  | UAddrSpaceCast i => IAddrSpaceCast i | UBitCast i => IBitCast i | UFNeg i => IFNeg i
  | UFPExt i => IFPExt i | UFPToSI i => IFPToSI i | UFPToUI i => IFPToUI i
  | UFPTrunc i => IFPTrunc i | UFreeze i => IFreeze i | UIntToPtr i => IIntToPtr i
  | UPtrToInt i => IPtrToInt i | USExt i => ISExt i | USIToFP i => ISIToFP i
  | UTrunc i => ITrunc i | UUIToFP i => IUIToFP i | UZExt i => IZExt i
  end.

Definition BinaryOp_try_from (i : Instruction) : result BinaryOp :=
  match i with
  | IAdd i => Ok (BAdd i) | ISub i => Ok (BSub i) | IMul i => Ok (BMul i)
  | IUDiv i => Ok (BUDiv i) | ISDiv i => Ok (BSDiv i) | IURem i => Ok (BURem i)
  | ISRem i => Ok (BSRem i) | IAnd i => Ok (BAnd i) | IOr i => Ok (BOr i)
  | IXor i => Ok (BXor i) | IShl i => Ok (BShl i) | ILShr i => Ok (BLShr i)
  | IAShr i => Ok (BAShr i) | IFAdd i => Ok (BFAdd i) | IFSub i => Ok (BFSub i)
  | IFMul i => Ok (BFMul i) | IFDiv i => Ok (BFDiv i) | IFRem i => Ok (BFRem i)
  | _ => Err "Not a binary op"
  end.

Definition UnaryOp_try_from (i : Instruction) : result UnaryOp :=
  match i with
  | IAddrSpaceCast i => Ok (UAddrSpaceCast i) | IBitCast i => Ok (UBitCast i)
  | IFNeg i => Ok (UFNeg i) | IFPExt i => Ok (UFPExt i) | IFPToSI i => Ok (UFPToSI i)
  | IFPToUI i => Ok (UFPToUI i) | IFPTrunc i => Ok (UFPTrunc i) | IFreeze i => Ok (UFreeze i)
  | IIntToPtr i => Ok (UIntToPtr i) | IPtrToInt i => Ok (UPtrToInt i)
  | ISExt i => Ok (USExt i) | ISIToFP i => Ok (USIToFP i) | ITrunc i => Ok (UTrunc i)
  | IUIToFP i => Ok (UUIToFP i) | IZExt i => Ok (UZExt i)
  | _ => Err "Not a unary op"
  end.

Definition is_binary_op (i : Instruction) : bool :=
  match i with
  | IAdd _ | ISub _ | IMul _ | IUDiv _ | ISDiv _ | IURem _ | ISRem _ | IAnd _ | IOr _
  | IXor _ | IShl _ | ILShr _ | IAShr _ | IFAdd _ | IFSub _ | IFMul _ | IFDiv _ | IFRem _ => true
  | _ => false
  end.

Definition is_unary_op (i : Instruction) : bool :=
  match i with
  | IAddrSpaceCast _ | IBitCast _ | IFNeg _ | IFPExt _ | IFPToSI _ | IFPToUI _ | IFPTrunc _
  | IFreeze _ | IIntToPtr _ | IPtrToInt _ | ISExt _ | ISIToFP _ | ITrunc _ | IUIToFP _
  | IZExt _ => true
  | _ => false
  end.

(** The traits [HasResult], [BinaryOp] and [UnaryOp] on the groups *)
Definition BinaryOp_get_result (bo : BinaryOp) : Name :=
  match bo with
  | BAdd i => Add_dest i | BSub i => Sub_dest i | BMul i => Mul_dest i | BUDiv i => UDiv_dest i
  | BSDiv i => SDiv_dest i | BURem i => URem_dest i | BSRem i => SRem_dest i
  | BAnd i => And_dest i | BOr i => Or_dest i | BXor i => Xor_dest i | BShl i => Shl_dest i
  | BLShr i => LShr_dest i | BAShr i => AShr_dest i | BFAdd i => FAdd_dest i
  | BFSub i => FSub_dest i | BFMul i => FMul_dest i | BFDiv i => FDiv_dest i
  | BFRem i => FRem_dest i
  end.
Definition UnaryOp_get_result (uo : UnaryOp) : Name :=
  match uo with
  | UAddrSpaceCast i => AddrSpaceCast_dest i | UBitCast i => BitCast_dest i
  | UFNeg i => FNeg_dest i | UFPExt i => FPExt_dest i | UFPToSI i => FPToSI_dest i
  | UFPToUI i => FPToUI_dest i | UFPTrunc i => FPTrunc_dest i | UFreeze i => Freeze_dest i
  | UIntToPtr i => IntToPtr_dest i | UPtrToInt i => PtrToInt_dest i | USExt i => SExt_dest i
  | USIToFP i => SIToFP_dest i | UTrunc i => Trunc_dest i | UUIToFP i => UIToFP_dest i
  | UZExt i => ZExt_dest i
  end.
Definition get_operand0 (bo : BinaryOp) : Operand :=
  match bo with
  | BAdd i => Add_operand0 i | BSub i => Sub_operand0 i | BMul i => Mul_operand0 i
  | BUDiv i => UDiv_operand0 i | BSDiv i => SDiv_operand0 i | BURem i => URem_operand0 i
  | BSRem i => SRem_operand0 i | BAnd i => And_operand0 i | BOr i => Or_operand0 i
  | BXor i => Xor_operand0 i | BShl i => Shl_operand0 i | BLShr i => LShr_operand0 i
  | BAShr i => AShr_operand0 i | BFAdd i => FAdd_operand0 i | BFSub i => FSub_operand0 i
  | BFMul i => FMul_operand0 i | BFDiv i => FDiv_operand0 i | BFRem i => FRem_operand0 i
  end.
Definition get_operand1 (bo : BinaryOp) : Operand :=
  match bo with
  | BAdd i => Add_operand1 i | BSub i => Sub_operand1 i | BMul i => Mul_operand1 i
  | BUDiv i => UDiv_operand1 i | BSDiv i => SDiv_operand1 i | BURem i => URem_operand1 i
  | BSRem i => SRem_operand1 i | BAnd i => And_operand1 i | BOr i => Or_operand1 i
  | BXor i => Xor_operand1 i | BShl i => Shl_operand1 i | BLShr i => LShr_operand1 i
  | BAShr i => AShr_operand1 i | BFAdd i => FAdd_operand1 i | BFSub i => FSub_operand1 i
  | BFMul i => FMul_operand1 i | BFDiv i => FDiv_operand1 i | BFRem i => FRem_operand1 i
  end.
Definition get_operand (uo : UnaryOp) : Operand :=
  match uo with
  | UAddrSpaceCast i => AddrSpaceCast_operand i | UBitCast i => BitCast_operand i
  | UFNeg i => FNeg_operand i | UFPExt i => FPExt_operand i | UFPToSI i => FPToSI_operand i
  | UFPToUI i => FPToUI_operand i | UFPTrunc i => FPTrunc_operand i
  | UFreeze i => Freeze_operand i | UIntToPtr i => IntToPtr_operand i
  | UPtrToInt i => PtrToInt_operand i | USExt i => SExt_operand i
  | USIToFP i => SIToFP_operand i | UTrunc i => Trunc_operand i | UUIToFP i => UIToFP_operand i
  | UZExt i => ZExt_operand i
  end.

Definition is_atomic (i : Instruction) : bool :=
  match i with
  | ILoad i => bool_decide (is_Some (Load_atomicity i))
  | IStore i => bool_decide (is_Some (Store_atomicity i))
  | IFence _ | ICmpXchg _ | IAtomicRMW _ => true
  | _ => false
  end.

(** ** Result types *)

(** [ev_type]: walk the indices of an [extractvalue] into an aggregate. *)
Fixpoint ev_type (cur : Ty) (indices : list Z) : exec Ty :=
  match indices with
  | [] => Done cur
  | index :: rest =>
      match cur with
      | ArrayType e _ => ev_type e rest
      | StructType es _ =>
          match es !! Z.to_nat index with Some e => ev_type e rest | None => Panic end
      | _ => Panic
      end
  end.

Section instr_type.
Context (dbg : bool) (T : Types).
#[local] Notation ty := (Operand_type dbg T).

(** [binop_same_type!] *)
Definition binop_same_type (a b : Operand) : exec Ty :=
  let! t := ty a in debug_assert_type dbg t (ty b).

Definition cmp_type (a b : Operand) : exec Ty :=
  let! t := binop_same_type a b in
  match t with
  | VectorType _ n sc => Done (types_vector_of T (types_bool T) n sc)
  | _ => Done (types_bool T)
  end.

Definition shufflevector_type (i : ShuffleVector) : exec Ty :=
  let! t := binop_same_type (ShuffleVector_operand0 i) (ShuffleVector_operand1 i) in
  match t with
  | VectorType e _ _ =>
      let! m := Constant_type dbg T (ShuffleVector_mask i) in
      match m with VectorType _ n sc => Done (types_vector_of T e n sc) | _ => Panic end
  | _ => Panic
  end.

Definition extractelement_type (i : ExtractElement) : exec Ty :=
  let! t := ty (ExtractElement_vector i) in
  match t with VectorType e _ _ => Done e | _ => Panic end.

Definition extractvalue_type (i : ExtractValue) : exec Ty :=
  let! t := ty (ExtractValue_aggregate i) in ev_type t (ExtractValue_indices i).

Definition cmpxchg_type (i : CmpXchg) : exec Ty :=
  let! t := binop_same_type (CmpXchg_expected i) (CmpXchg_replacement i) in
  Done (types_struct_of T [t; types_bool T] false).

Definition call_type (i : Call) : exec Ty :=
  match Call_function_ty i with FuncType r _ _ => Done r | _ => Panic end.

Definition Instruction_type (i : Instruction) : exec Ty :=
  match i with
  | IAdd i => binop_same_type (Add_operand0 i) (Add_operand1 i)
  | ISub i => binop_same_type (Sub_operand0 i) (Sub_operand1 i)
  | IMul i => binop_same_type (Mul_operand0 i) (Mul_operand1 i)
  | IUDiv i => binop_same_type (UDiv_operand0 i) (UDiv_operand1 i)
  | ISDiv i => binop_same_type (SDiv_operand0 i) (SDiv_operand1 i)
  | IURem i => binop_same_type (URem_operand0 i) (URem_operand1 i)
  | ISRem i => binop_same_type (SRem_operand0 i) (SRem_operand1 i)
  | IAnd i => binop_same_type (And_operand0 i) (And_operand1 i)
  | IOr i => binop_same_type (Or_operand0 i) (Or_operand1 i)
  | IXor i => binop_same_type (Xor_operand0 i) (Xor_operand1 i)
  | IShl i => ty (Shl_operand0 i)
  | ILShr i => ty (LShr_operand0 i)
  | IAShr i => ty (AShr_operand0 i)
  | IFAdd i => binop_same_type (FAdd_operand0 i) (FAdd_operand1 i)
  | IFSub i => binop_same_type (FSub_operand0 i) (FSub_operand1 i)
  | IFMul i => binop_same_type (FMul_operand0 i) (FMul_operand1 i)
  | IFDiv i => binop_same_type (FDiv_operand0 i) (FDiv_operand1 i)
  | IFRem i => binop_same_type (FRem_operand0 i) (FRem_operand1 i)
  | IFNeg i => ty (FNeg_operand i)
  | IExtractElement i => extractelement_type i
  | IInsertElement i => ty (InsertElement_vector i)
  | IShuffleVector i => shufflevector_type i
  | IExtractValue i => extractvalue_type i
  | IInsertValue i => ty (InsertValue_aggregate i)
  | IAlloca _ => Done (types_pointer T)
  | ILoad i => Done (Load_loaded_ty i)
  | IStore _ | IFence _ => Done (void_type T)
  | ICmpXchg i => cmpxchg_type i
  | IAtomicRMW i => ty (AtomicRMW_value i)
  | IGetElementPtr _ => Done (types_pointer T)
  | ITrunc i => Done (Trunc_to_type i)
  | IZExt i => Done (ZExt_to_type i)
  | ISExt i => Done (SExt_to_type i)
  | IFPTrunc i => Done (FPTrunc_to_type i)
  | IFPExt i => Done (FPExt_to_type i)
  | IFPToUI i => Done (FPToUI_to_type i)
  | IFPToSI i => Done (FPToSI_to_type i)
  | IUIToFP i => Done (UIToFP_to_type i)
  | ISIToFP i => Done (SIToFP_to_type i)
  | IPtrToInt i => Done (PtrToInt_to_type i)
  | IIntToPtr i => Done (IntToPtr_to_type i)
  | IBitCast i => Done (BitCast_to_type i)
  | IAddrSpaceCast i => Done (AddrSpaceCast_to_type i)
  | IICmp i => cmp_type (ICmp_operand0 i) (ICmp_operand1 i)
  | IFCmp i => cmp_type (FCmp_operand0 i) (FCmp_operand1 i)
  | IPhi i => Done (Phi_to_type i)
  | ISelect i => binop_same_type (Select_true_value i) (Select_false_value i)
  | IFreeze i => ty (Freeze_operand i)
  | ICall i => call_type i
  | IVAArg i => Done (VAArg_cur_type i)
  | ILandingPad i => Done (LandingPad_result_type i)
  | ICatchPad _ | ICleanupPad _ => Done (token_type T)
  end.

(** [Typed] for the groups *)
Definition BinaryOp_type (bo : BinaryOp) : exec Ty :=
  match bo with
  | BAdd i => binop_same_type (Add_operand0 i) (Add_operand1 i)
  | BSub i => binop_same_type (Sub_operand0 i) (Sub_operand1 i)
  | BMul i => binop_same_type (Mul_operand0 i) (Mul_operand1 i)
  | BUDiv i => binop_same_type (UDiv_operand0 i) (UDiv_operand1 i)
  | BSDiv i => binop_same_type (SDiv_operand0 i) (SDiv_operand1 i)
  | BURem i => binop_same_type (URem_operand0 i) (URem_operand1 i)
  | BSRem i => binop_same_type (SRem_operand0 i) (SRem_operand1 i)
  | BAnd i => binop_same_type (And_operand0 i) (And_operand1 i)
  | BOr i => binop_same_type (Or_operand0 i) (Or_operand1 i)
  | BXor i => binop_same_type (Xor_operand0 i) (Xor_operand1 i) | BShl i => ty (Shl_operand0 i)
  | BLShr i => ty (LShr_operand0 i) | BAShr i => ty (AShr_operand0 i)
  | BFAdd i => binop_same_type (FAdd_operand0 i) (FAdd_operand1 i)
  | BFSub i => binop_same_type (FSub_operand0 i) (FSub_operand1 i)
  | BFMul i => binop_same_type (FMul_operand0 i) (FMul_operand1 i)
  | BFDiv i => binop_same_type (FDiv_operand0 i) (FDiv_operand1 i)
  | BFRem i => binop_same_type (FRem_operand0 i) (FRem_operand1 i)
  end.
Definition UnaryOp_type (uo : UnaryOp) : exec Ty :=
  match uo with
  | UAddrSpaceCast i => Done (AddrSpaceCast_to_type i) | UBitCast i => Done (BitCast_to_type i)
  | UFNeg i => ty (FNeg_operand i) | UFPExt i => Done (FPExt_to_type i)
  | UFPToSI i => Done (FPToSI_to_type i) | UFPToUI i => Done (FPToUI_to_type i)
  | UFPTrunc i => Done (FPTrunc_to_type i) | UFreeze i => ty (Freeze_operand i)
  | UIntToPtr i => Done (IntToPtr_to_type i) | UPtrToInt i => Done (PtrToInt_to_type i)
  | USExt i => Done (SExt_to_type i) | USIToFP i => Done (SIToFP_to_type i)
  | UTrunc i => Done (Trunc_to_type i) | UUIToFP i => Done (UIToFP_to_type i)
  | UZExt i => Done (ZExt_to_type i)
  end.
End instr_type.

(** ** Terminators, blocks, functions, modules *)

Inductive Terminator :=
  | TRet (return_operand : option Operand) (debugloc : option DebugLoc)
  | TBr (dest : Name) (debugloc : option DebugLoc)
  | TCondBr (condition : Operand) (true_dest false_dest : Name) (debugloc : option DebugLoc)
  | TSwitch (operand : Operand) (dests : list (Constant * Name)) (default_dest : Name)
      (debugloc : option DebugLoc)
  | TIndirectBr (operand : Operand) (possible_dests : list Name) (debugloc : option DebugLoc)
  | TInvoke (function : InlineAssembly + Operand) (function_ty : Ty)
      (arguments : list (Operand * list ParameterAttribute))
      (return_attributes : list ParameterAttribute) (result return_label exception_label : Name)
      (function_attributes : list FunctionAttribute) (calling_convention : CallingConvention)
      (debugloc : option DebugLoc)
  | TResume (operand : Operand) (debugloc : option DebugLoc)
  | TUnreachable (debugloc : option DebugLoc)
  | TCleanupRet (cleanup_pad : Operand) (unwind_dest : option Name) (debugloc : option DebugLoc)
  | TCatchRet (catch_pad : Operand) (successor : Name) (debugloc : option DebugLoc)
  | TCatchSwitch (parent_pad : Operand) (catch_handlers : list Name)
      (default_unwind_dest : option Name) (result : Name) (debugloc : option DebugLoc)
  | TCallBr (function : InlineAssembly + Operand)
      (arguments : list (Operand * list ParameterAttribute))
      (return_attributes : list ParameterAttribute) (result return_label : Name)
      (function_attributes : list FunctionAttribute) (calling_convention : CallingConvention)
      (debugloc : option DebugLoc).

Definition term_try_get_result (t : Terminator) : option Name :=
  match t with
  | TInvoke _ _ _ _ result _ _ _ _ _ => Some result
  | TCatchSwitch _ _ _ result _ => Some result
  | TCallBr _ _ _ result _ _ _ _ => Some result
  | _ => None
  end.

Definition term_debug_loc (t : Terminator) : option DebugLoc :=
  match t with
  | TRet _ d | TBr _ d | TCondBr _ _ _ d | TSwitch _ _ _ d | TIndirectBr _ _ d
  | TInvoke _ _ _ _ _ _ _ _ _ d | TResume _ d | TUnreachable d | TCleanupRet _ _ d
  | TCatchRet _ _ d | TCatchSwitch _ _ _ _ d | TCallBr _ _ _ _ _ _ _ d => d
  end.

(** [Typed] for [Either<InlineAssembly, Operand>] *)
Definition callee_type (dbg : bool) (T : Types) (f : InlineAssembly + Operand) : exec Ty :=
  match f with inl a => Done (InlineAssembly_ty a) | inr o => Operand_type dbg T o end.

(** The type of a [catchswitch] is unimplemented. *)
Definition Terminator_type (dbg : bool) (T : Types) (t : Terminator) : exec Ty :=
  match t with
  | TInvoke _ function_ty _ _ _ _ _ _ _ _ =>
      match function_ty with FuncType result_type _ _ => Done result_type | _ => Panic end
  | TCatchSwitch _ _ _ _ _ => Panic
  | TCallBr function _ _ _ _ _ _ _ =>
      let! ty := callee_type dbg T function in
      match ty with FuncType result_type _ _ => Done result_type | _ => Panic end
  | _ => Done (void_type T)
  end.

Record BasicBlock := mk_BasicBlock {
  bb_name : Name;
  bb_instrs : list Instruction;
  bb_term : Terminator
}.

Definition BasicBlock_new (name : Name) : BasicBlock :=
  {| bb_name := name; bb_instrs := []; bb_term := TUnreachable None |}.

Inductive UnnamedAddr := UA_Local | UA_Global.
Inductive Linkage :=
  | L_Private | L_Internal | L_External | L_ExternalWeak | L_AvailableExternally
  | L_LinkOnceAny | L_LinkOnceODR | L_LinkOnceODRAutoHide | L_WeakAny | L_WeakODR
  | L_Common | L_Appending | L_DLLImport | L_DLLExport | L_Ghost | L_LinkerPrivate
  | L_LinkerPrivateWeak.
Inductive Visibility := V_Default | V_Hidden | V_Protected.
Inductive DLLStorageClass := DLL_Default | DLL_Import | DLL_Export.
Inductive ThreadLocalMode :=
  | NotThreadLocal | GeneralDynamic | LocalDynamic | InitialExec | LocalExec.
Inductive SelectionKind := SK_Any | SK_ExactMatch | SK_Largest | SK_NoDuplicates | SK_SameSize.
Record Comdat := mk_Comdat { comdat_name : string; selection_kind : SelectionKind }.

Record Parameter_ := mk_Parameter {
  param_name : Name;
  param_ty : Ty;
  param_attributes : list ParameterAttribute
}.

Record Function_ := mk_Function {
  func_name : string;
  func_parameters : list Parameter_;
  func_is_var_arg : bool;
  func_return_type : Ty;
  func_basic_blocks : list BasicBlock;
  func_function_attributes : list FunctionAttribute;
  func_return_attributes : list ParameterAttribute;
  func_linkage : Linkage;
  func_visibility : Visibility;
  func_dll_storage_class : DLLStorageClass;
  func_calling_convention : CallingConvention;
  func_section : option string;
  func_comdat : option Comdat;
  func_alignment : Z;
  func_garbage_collector_name : option string;
  func_personality_function : option Constant;
  func_debugloc : option DebugLoc
}.

(** [Function::new] *)
Definition Function_new (name : string) : Function_ :=
  {| func_name := name; func_parameters := []; func_is_var_arg := false;
     func_return_type := void_type blank_for_testing; func_basic_blocks := [];
     func_function_attributes := []; func_return_attributes := [];
     func_linkage := L_Private; func_visibility := V_Default;
     func_dll_storage_class := DLL_Default; func_calling_convention := CC_C;
     func_section := None; func_comdat := None; func_alignment := 4;
     func_garbage_collector_name := None; func_personality_function := None;
     func_debugloc := None |}.

Definition Function_type (T : Types) (f : Function_) : Ty :=
  types_func_type T (func_return_type f) (map param_ty (func_parameters f)) (func_is_var_arg f).

Definition get_bb_by_name (f : Function_) (name : Name) : option BasicBlock :=
  find (fun bb => bool_decide (bb_name bb = name)) (func_basic_blocks f).

Record FunctionDeclaration := mk_FunctionDeclaration {
  decl_name : string;
  decl_parameters : list Parameter_;
  decl_is_var_arg : bool;
  decl_return_type : Ty;
  decl_return_attributes : list ParameterAttribute;
  decl_linkage : Linkage;
  decl_visibility : Visibility;
  decl_dll_storage_class : DLLStorageClass;
  decl_calling_convention : CallingConvention;
  decl_alignment : Z;
  decl_garbage_collector_name : option string;
  decl_debugloc : option DebugLoc
}.

Record GlobalVariable := mk_GlobalVariable {
  gv_name : Name;
  gv_linkage : Linkage;
  gv_visibility : Visibility;
  gv_is_constant : bool;
  gv_ty : Ty;
  gv_addr_space : Z;
  gv_dll_storage_class : DLLStorageClass;
  gv_thread_local_mode : ThreadLocalMode;
  gv_unnamed_addr : option UnnamedAddr;
  gv_initializer : option Constant;
  gv_section : option string;
  gv_comdat : option Comdat;
  gv_alignment : Z;
  gv_debugloc : option DebugLoc
}.

Record GlobalAlias := mk_GlobalAlias {
  ga_name : Name;
  ga_aliasee : Constant;
  ga_linkage : Linkage;
  ga_visibility : Visibility;
  ga_ty : Ty;
  ga_addr_space : Z;
  ga_dll_storage_class : DLLStorageClass;
  ga_thread_local_mode : ThreadLocalMode;
  ga_unnamed_addr : option UnnamedAddr
}.

Record GlobalIFunc := mk_GlobalIFunc {
  gi_name : Name;
  gi_linkage : Linkage;
  gi_visibility : Visibility;
  gi_ty : Ty;
  gi_resolver_fn : Constant
}.

(** The analyzer itself reads the functions and the types only. *)
Record Module_ := mk_Module {
  mod_name : string;
  mod_source_file_name : string;
  mod_data_layout : DataLayout;
  mod_target_triple : option string;
  mod_functions : list Function_;
  mod_func_declarations : list FunctionDeclaration;
  mod_global_vars : list GlobalVariable;
  mod_global_aliases : list GlobalAlias;
  mod_global_ifuncs : list GlobalIFunc;
  mod_inline_assembly : string;
  mod_types : Types
}.

Definition get_func_by_name (m : Module_) (name : string) : option Function_ :=
  find (fun f => bool_decide (func_name f = name)) (mod_functions m).
Definition get_func_decl_by_name (m : Module_) (name : string) : option FunctionDeclaration :=
  find (fun d => bool_decide (decl_name d = name)) (mod_func_declarations m).
Definition get_global_var_by_name (m : Module_) (name : Name) : option GlobalVariable :=
  find (fun g => bool_decide (gv_name g = name)) (mod_global_vars m).
Definition get_global_alias_by_name (m : Module_) (name : Name) : option GlobalAlias :=
  find (fun g => bool_decide (ga_name g = name)) (mod_global_aliases m).
Definition get_global_ifunc_by_name (m : Module_) (name : Name) : option GlobalIFunc :=
  find (fun g => bool_decide (gi_name g = name)) (mod_global_ifuncs m).

(** ** The groups agree with the predicates *)

(** The two operand groups of [groups.rs] are exactly the instructions
    [is_binary_op] and [is_unary_op] accept: converting an instruction to a group
    succeeds on those and only those, converting back gives the same instruction,
    and no instruction is in both groups.  The traits of a group agree with those of
    the instruction: its result is the instruction's, and so is its type, which for
    a binary operation is computed from the operands of the trait. *)
Definition groups_agree (dbg : bool) (T : Types) (i : Instruction) : Prop :=
  (is_binary_op i = true <-> exists bo, BinaryOp_try_from i = Ok bo) /\
  (is_unary_op i = true <-> exists uo, UnaryOp_try_from i = Ok uo) /\
  (forall bo, BinaryOp_try_from i = Ok bo <-> Instruction_from_BinaryOp bo = i) /\
  (forall uo, UnaryOp_try_from i = Ok uo <-> Instruction_from_UnaryOp uo = i) /\
  is_binary_op i && is_unary_op i = false /\
  (forall bo, BinaryOp_try_from i = Ok bo ->
     try_get_result i = Some (BinaryOp_get_result bo) /\ Instruction_type dbg T i = BinaryOp_type dbg T bo /\
     (Instruction_type dbg T i = binop_same_type dbg T (get_operand0 bo) (get_operand1 bo) \/
      Instruction_type dbg T i = Operand_type dbg T (get_operand0 bo))) /\
  (forall uo, UnaryOp_try_from i = Ok uo ->
     try_get_result i = Some (UnaryOp_get_result uo) /\ Instruction_type dbg T i = UnaryOp_type dbg T uo).

Lemma groups_round_trip dbg T i : groups_agree dbg T i.
Proof.
  split_and!; [destruct i; naive_solver..| | |by destruct i| |].
  - intros bo; split; [destruct i; naive_solver|intros <-; by destruct bo].
  - intros uo; split; [destruct i; naive_solver|intros <-; by destruct uo].
  - intros bo. destruct i; simpl; intros [= <-]; simpl; auto.
  - intros uo. destruct i; simpl; intros [= <-]; simpl; auto.
Qed.
