(* ===== verification/Traits.v ===== *)
(** * Traits: the trait implementations of the structs of [llvm-ir-patched]

    The variants of the enums [Instruction], [groups::BinaryOp], [Terminator] and
    [Constant] (its constant expressions) are structs, and macros give every struct
    its implementations: the conversions [From] and [TryFrom] ([impl_inst!],
    [impl_binop!], [impl_term!], [impl_constexpr!]), the source location, the result
    name, the operands and the type ([unop_same_type!], [binop_same_type!],
    [binop_left_type!], [explicitly_typed!], [void_typed!]).  Here a trait is a type
    class, a macro is a function that builds instances and a use of the macro is an
    [Instance].  The struct [S] of [terminator.rs] is the record [S], that of
    [constant.rs] the record [ConstS]; [TS] and [CS] are the variants of the enums in
    [Instr] and [Constants], which carry the fields themselves. *)

From stdpp Require Import base list strings.
From S2P Require Import Prelude Text Types Layout Constants Instr.
#[local] Open Scope string_scope.

(** ** The traits *)

(** [From<A> for E] with [TryFrom<E> for A] *)
Class Variant (E A : Type) := { from : A -> E; try_from : E -> result A }.
Class HasDebugLoc (A : Type) := get_debug_loc : A -> option DebugLoc.
Class HasResult (A : Type) := get_result : A -> Name.
Class UnaryOp_trait (A : Type) := unary_operand : A -> Operand.
Class BinaryOp_trait (A : Type) :=
  { binary_operand0 : A -> Operand; binary_operand1 : A -> Operand }.
Class ConstUnaryOp (A : Type) := const_operand : A -> Constant.
Class ConstBinaryOp (A : Type) :=
  { const_operand0 : A -> Constant; const_operand1 : A -> Constant }.
Class Typed (A : Type) := get_type : bool -> Types -> A -> exec Ty.

(** ** The macros *)

Definition impl_variant {E A} (error : string) (id : A -> E) (arm : E -> option A) : Variant E A :=
  {| from := id; try_from := fun e => match arm e with Some a => Ok a | None => Err error end |}.
Definition impl_inst {A} : (A -> Instruction) -> (Instruction -> option A) -> Variant Instruction A :=
  impl_variant "Instruction is not of requested type".
Definition impl_group {A} : (A -> BinaryOp) -> (BinaryOp -> option A) -> Variant BinaryOp A :=
  impl_variant "BinaryOp is not of requested type".
Definition impl_term {A} : (A -> Terminator) -> (Terminator -> option A) -> Variant Terminator A :=
  impl_variant "Terminator is not of requested type".
Definition impl_constexpr {A} : (A -> Constant) -> (Constant -> option A) -> Variant Constant A :=
  impl_variant "Constant is not of requested kind".

Definition impl_located {A} (debugloc : A -> option DebugLoc) : HasDebugLoc A := debugloc.
Definition impl_hasresult {A} (dest : A -> Name) : HasResult A := dest.
Definition impl_unop {A} (operand : A -> Operand) : UnaryOp_trait A := operand.
Definition impl_binop {A} (operand0 operand1 : A -> Operand) : BinaryOp_trait A :=
  {| binary_operand0 := operand0; binary_operand1 := operand1 |}.
Definition impl_const_unop {A} (operand : A -> Constant) : ConstUnaryOp A := operand.
Definition impl_const_binop {A} (operand0 operand1 : A -> Constant) : ConstBinaryOp A :=
  {| const_operand0 := operand0; const_operand1 := operand1 |}.

#[export] Instance Operand_typed : Typed Operand := Operand_type.
#[export] Instance Constant_typed : Typed Constant := Constant_type.

Definition unop_same_type {A} `{UnaryOp_trait A} : Typed A := fun dbg T i =>
  get_type dbg T (unary_operand i).
Definition binop_same_type_impl {A} `{BinaryOp_trait A} : Typed A := fun dbg T i =>
  let! ty := get_type dbg T (binary_operand0 i) in
  debug_assert_type dbg ty (get_type dbg T (binary_operand1 i)).
Definition binop_left_type {A} `{BinaryOp_trait A} : Typed A := fun dbg T i =>
  get_type dbg T (binary_operand0 i).
Definition explicitly_typed {A} (to_type : A -> Ty) : Typed A := fun _ _ i => Done (to_type i).
Definition void_typed {A} : Typed A := fun _ T _ => Done (void_type T).
Definition const_binop_same_type {A} `{ConstBinaryOp A} : Typed A := fun dbg T expr =>
  let! t := get_type dbg T (const_operand0 expr) in
  debug_assert_type dbg t (get_type dbg T (const_operand1 expr)).

(** ** The other implementations of [Typed] and [HasDebugLoc] *)

#[export] Instance FPType_typed : Typed FPType := fun _ T fpt => Done (types_fp T fpt).
#[export] Instance InlineAssembly_typed : Typed InlineAssembly :=
  fun _ _ a => Done (InlineAssembly_ty a).
#[export] Instance Either_typed {A B} `{Typed A, Typed B} : Typed (A + B) := fun dbg T e =>
  match e with inl x => get_type dbg T x | inr y => get_type dbg T y end.
#[export] Instance Parameter_typed : Typed Parameter_ := fun _ _ p => Done (param_ty p).
#[export] Instance Function_typed : Typed Function_ := fun _ T f => Done (Function_type T f).
#[export] Instance GlobalVariable_typed : Typed GlobalVariable := fun _ _ g => Done (gv_ty g).
#[export] Instance GlobalAlias_typed : Typed GlobalAlias := fun _ _ g => Done (ga_ty g).
#[export] Instance GlobalIFunc_typed : Typed GlobalIFunc := fun _ _ g => Done (gi_ty g).
#[export] Instance Function_located : HasDebugLoc Function_ := func_debugloc.
#[export] Instance GlobalVariable_located : HasDebugLoc GlobalVariable := gv_debugloc.

(** ** A struct of the enum [E] with its implementations *)

Record Struct (E : Type) := pack_struct {
  carrier : Type;
  variant : Variant E carrier;
  typed : Typed carrier;
  location : carrier -> option DebugLoc;
  result_name : carrier -> option Name;
  operands : option (carrier -> list Operand)
}.
Arguments carrier {E} _.
Arguments variant {E} _.
Arguments typed {E} _.
Arguments location {E} _ _.
Arguments result_name {E} _ _.
Arguments operands {E} _.

Definition pack (E A : Type) `{Variant E A, Typed A} (location : A -> option DebugLoc)
  (result_name : A -> option Name) (operands : option (A -> list Operand)) : Struct E :=
  pack_struct E A _ _ location result_name operands.
Definition has_result {A} `{HasResult A} (a : A) : option Name := Some (get_result a).
Definition no_result {A} (_ : A) : option Name := None.
Definition not_located {A} (_ : A) : option DebugLoc := None.
Definition unary_operands {A} `{UnaryOp_trait A} (a : A) : list Operand := [unary_operand a].
Definition binary_operands {A} `{BinaryOp_trait A} (a : A) : list Operand :=
  [binary_operand0 a; binary_operand1 a].

(** ** Instructions *)

#[export] Instance Add_inst : Variant Instruction Add :=
  impl_inst IAdd (fun inst => match inst with IAdd inst => Some inst | _ => None end).
#[export] Instance Add_located : HasDebugLoc Add := impl_located Add_debugloc.
#[export] Instance Add_has_result : HasResult Add := impl_hasresult Add_dest.
#[export] Instance Add_binary_op : BinaryOp_trait Add := impl_binop Add_operand0 Add_operand1.
#[export] Instance Add_group : Variant BinaryOp Add :=
  impl_group BAdd (fun bo => match bo with BAdd i => Some i | _ => None end).
#[export] Instance Add_typed : Typed Add := binop_same_type_impl.

#[export] Instance Sub_inst : Variant Instruction Sub :=
  impl_inst ISub (fun inst => match inst with ISub inst => Some inst | _ => None end).
#[export] Instance Sub_located : HasDebugLoc Sub := impl_located Sub_debugloc.
#[export] Instance Sub_has_result : HasResult Sub := impl_hasresult Sub_dest.
#[export] Instance Sub_binary_op : BinaryOp_trait Sub := impl_binop Sub_operand0 Sub_operand1.
#[export] Instance Sub_group : Variant BinaryOp Sub :=
  impl_group BSub (fun bo => match bo with BSub i => Some i | _ => None end).
#[export] Instance Sub_typed : Typed Sub := binop_same_type_impl.

#[export] Instance Mul_inst : Variant Instruction Mul :=
  impl_inst IMul (fun inst => match inst with IMul inst => Some inst | _ => None end).
#[export] Instance Mul_located : HasDebugLoc Mul := impl_located Mul_debugloc.
#[export] Instance Mul_has_result : HasResult Mul := impl_hasresult Mul_dest.
#[export] Instance Mul_binary_op : BinaryOp_trait Mul := impl_binop Mul_operand0 Mul_operand1.
#[export] Instance Mul_group : Variant BinaryOp Mul :=
  impl_group BMul (fun bo => match bo with BMul i => Some i | _ => None end).
#[export] Instance Mul_typed : Typed Mul := binop_same_type_impl.

#[export] Instance UDiv_inst : Variant Instruction UDiv :=
  impl_inst IUDiv (fun inst => match inst with IUDiv inst => Some inst | _ => None end).
#[export] Instance UDiv_located : HasDebugLoc UDiv := impl_located UDiv_debugloc.
#[export] Instance UDiv_has_result : HasResult UDiv := impl_hasresult UDiv_dest.
#[export] Instance UDiv_binary_op : BinaryOp_trait UDiv := impl_binop UDiv_operand0 UDiv_operand1.
#[export] Instance UDiv_group : Variant BinaryOp UDiv :=
  impl_group BUDiv (fun bo => match bo with BUDiv i => Some i | _ => None end).
#[export] Instance UDiv_typed : Typed UDiv := binop_same_type_impl.

#[export] Instance SDiv_inst : Variant Instruction SDiv :=
  impl_inst ISDiv (fun inst => match inst with ISDiv inst => Some inst | _ => None end).
#[export] Instance SDiv_located : HasDebugLoc SDiv := impl_located SDiv_debugloc.
#[export] Instance SDiv_has_result : HasResult SDiv := impl_hasresult SDiv_dest.
#[export] Instance SDiv_binary_op : BinaryOp_trait SDiv := impl_binop SDiv_operand0 SDiv_operand1.
#[export] Instance SDiv_group : Variant BinaryOp SDiv :=
  impl_group BSDiv (fun bo => match bo with BSDiv i => Some i | _ => None end).
#[export] Instance SDiv_typed : Typed SDiv := binop_same_type_impl.

#[export] Instance URem_inst : Variant Instruction URem :=
  impl_inst IURem (fun inst => match inst with IURem inst => Some inst | _ => None end).
#[export] Instance URem_located : HasDebugLoc URem := impl_located URem_debugloc.
#[export] Instance URem_has_result : HasResult URem := impl_hasresult URem_dest.
#[export] Instance URem_binary_op : BinaryOp_trait URem := impl_binop URem_operand0 URem_operand1.
#[export] Instance URem_group : Variant BinaryOp URem :=
  impl_group BURem (fun bo => match bo with BURem i => Some i | _ => None end).
#[export] Instance URem_typed : Typed URem := binop_same_type_impl.

#[export] Instance SRem_inst : Variant Instruction SRem :=
  impl_inst ISRem (fun inst => match inst with ISRem inst => Some inst | _ => None end).
#[export] Instance SRem_located : HasDebugLoc SRem := impl_located SRem_debugloc.
#[export] Instance SRem_has_result : HasResult SRem := impl_hasresult SRem_dest.
#[export] Instance SRem_binary_op : BinaryOp_trait SRem := impl_binop SRem_operand0 SRem_operand1.
#[export] Instance SRem_group : Variant BinaryOp SRem :=
  impl_group BSRem (fun bo => match bo with BSRem i => Some i | _ => None end).
#[export] Instance SRem_typed : Typed SRem := binop_same_type_impl.

#[export] Instance And_inst : Variant Instruction And :=
  impl_inst IAnd (fun inst => match inst with IAnd inst => Some inst | _ => None end).
#[export] Instance And_located : HasDebugLoc And := impl_located And_debugloc.
#[export] Instance And_has_result : HasResult And := impl_hasresult And_dest.
#[export] Instance And_binary_op : BinaryOp_trait And := impl_binop And_operand0 And_operand1.
#[export] Instance And_group : Variant BinaryOp And :=
  impl_group BAnd (fun bo => match bo with BAnd i => Some i | _ => None end).
#[export] Instance And_typed : Typed And := binop_same_type_impl.

#[export] Instance Or_inst : Variant Instruction Or :=
  impl_inst IOr (fun inst => match inst with IOr inst => Some inst | _ => None end).
#[export] Instance Or_located : HasDebugLoc Or := impl_located Or_debugloc.
#[export] Instance Or_has_result : HasResult Or := impl_hasresult Or_dest.
#[export] Instance Or_binary_op : BinaryOp_trait Or := impl_binop Or_operand0 Or_operand1.
#[export] Instance Or_group : Variant BinaryOp Or :=
  impl_group BOr (fun bo => match bo with BOr i => Some i | _ => None end).
#[export] Instance Or_typed : Typed Or := binop_same_type_impl.

#[export] Instance Xor_inst : Variant Instruction Xor :=
  impl_inst IXor (fun inst => match inst with IXor inst => Some inst | _ => None end).
#[export] Instance Xor_located : HasDebugLoc Xor := impl_located Xor_debugloc.
#[export] Instance Xor_has_result : HasResult Xor := impl_hasresult Xor_dest.
#[export] Instance Xor_binary_op : BinaryOp_trait Xor := impl_binop Xor_operand0 Xor_operand1.
#[export] Instance Xor_group : Variant BinaryOp Xor :=
  impl_group BXor (fun bo => match bo with BXor i => Some i | _ => None end).
#[export] Instance Xor_typed : Typed Xor := binop_same_type_impl.

#[export] Instance Shl_inst : Variant Instruction Shl :=
  impl_inst IShl (fun inst => match inst with IShl inst => Some inst | _ => None end).
#[export] Instance Shl_located : HasDebugLoc Shl := impl_located Shl_debugloc.
#[export] Instance Shl_has_result : HasResult Shl := impl_hasresult Shl_dest.
#[export] Instance Shl_binary_op : BinaryOp_trait Shl := impl_binop Shl_operand0 Shl_operand1.
#[export] Instance Shl_group : Variant BinaryOp Shl :=
  impl_group BShl (fun bo => match bo with BShl i => Some i | _ => None end).
#[export] Instance Shl_typed : Typed Shl := binop_left_type.

#[export] Instance LShr_inst : Variant Instruction LShr :=
  impl_inst ILShr (fun inst => match inst with ILShr inst => Some inst | _ => None end).
#[export] Instance LShr_located : HasDebugLoc LShr := impl_located LShr_debugloc.
#[export] Instance LShr_has_result : HasResult LShr := impl_hasresult LShr_dest.
#[export] Instance LShr_binary_op : BinaryOp_trait LShr := impl_binop LShr_operand0 LShr_operand1.
#[export] Instance LShr_group : Variant BinaryOp LShr :=
  impl_group BLShr (fun bo => match bo with BLShr i => Some i | _ => None end).
#[export] Instance LShr_typed : Typed LShr := binop_left_type.

#[export] Instance AShr_inst : Variant Instruction AShr :=
  impl_inst IAShr (fun inst => match inst with IAShr inst => Some inst | _ => None end).
#[export] Instance AShr_located : HasDebugLoc AShr := impl_located AShr_debugloc.
#[export] Instance AShr_has_result : HasResult AShr := impl_hasresult AShr_dest.
#[export] Instance AShr_binary_op : BinaryOp_trait AShr := impl_binop AShr_operand0 AShr_operand1.
#[export] Instance AShr_group : Variant BinaryOp AShr :=
  impl_group BAShr (fun bo => match bo with BAShr i => Some i | _ => None end).
#[export] Instance AShr_typed : Typed AShr := binop_left_type.

#[export] Instance FAdd_inst : Variant Instruction FAdd :=
  impl_inst IFAdd (fun inst => match inst with IFAdd inst => Some inst | _ => None end).
#[export] Instance FAdd_located : HasDebugLoc FAdd := impl_located FAdd_debugloc.
#[export] Instance FAdd_has_result : HasResult FAdd := impl_hasresult FAdd_dest.
#[export] Instance FAdd_binary_op : BinaryOp_trait FAdd := impl_binop FAdd_operand0 FAdd_operand1.
#[export] Instance FAdd_group : Variant BinaryOp FAdd :=
  impl_group BFAdd (fun bo => match bo with BFAdd i => Some i | _ => None end).
#[export] Instance FAdd_typed : Typed FAdd := binop_same_type_impl.

#[export] Instance FSub_inst : Variant Instruction FSub :=
  impl_inst IFSub (fun inst => match inst with IFSub inst => Some inst | _ => None end).
#[export] Instance FSub_located : HasDebugLoc FSub := impl_located FSub_debugloc.
#[export] Instance FSub_has_result : HasResult FSub := impl_hasresult FSub_dest.
#[export] Instance FSub_binary_op : BinaryOp_trait FSub := impl_binop FSub_operand0 FSub_operand1.
#[export] Instance FSub_group : Variant BinaryOp FSub :=
  impl_group BFSub (fun bo => match bo with BFSub i => Some i | _ => None end).
#[export] Instance FSub_typed : Typed FSub := binop_same_type_impl.

#[export] Instance FMul_inst : Variant Instruction FMul :=
  impl_inst IFMul (fun inst => match inst with IFMul inst => Some inst | _ => None end).
#[export] Instance FMul_located : HasDebugLoc FMul := impl_located FMul_debugloc.
#[export] Instance FMul_has_result : HasResult FMul := impl_hasresult FMul_dest.
#[export] Instance FMul_binary_op : BinaryOp_trait FMul := impl_binop FMul_operand0 FMul_operand1.
#[export] Instance FMul_group : Variant BinaryOp FMul :=
  impl_group BFMul (fun bo => match bo with BFMul i => Some i | _ => None end).
#[export] Instance FMul_typed : Typed FMul := binop_same_type_impl.

#[export] Instance FDiv_inst : Variant Instruction FDiv :=
  impl_inst IFDiv (fun inst => match inst with IFDiv inst => Some inst | _ => None end).
#[export] Instance FDiv_located : HasDebugLoc FDiv := impl_located FDiv_debugloc.
#[export] Instance FDiv_has_result : HasResult FDiv := impl_hasresult FDiv_dest.
#[export] Instance FDiv_binary_op : BinaryOp_trait FDiv := impl_binop FDiv_operand0 FDiv_operand1.
#[export] Instance FDiv_group : Variant BinaryOp FDiv :=
  impl_group BFDiv (fun bo => match bo with BFDiv i => Some i | _ => None end).
#[export] Instance FDiv_typed : Typed FDiv := binop_same_type_impl.

#[export] Instance FRem_inst : Variant Instruction FRem :=
  impl_inst IFRem (fun inst => match inst with IFRem inst => Some inst | _ => None end).
#[export] Instance FRem_located : HasDebugLoc FRem := impl_located FRem_debugloc.
#[export] Instance FRem_has_result : HasResult FRem := impl_hasresult FRem_dest.
#[export] Instance FRem_binary_op : BinaryOp_trait FRem := impl_binop FRem_operand0 FRem_operand1.
#[export] Instance FRem_group : Variant BinaryOp FRem :=
  impl_group BFRem (fun bo => match bo with BFRem i => Some i | _ => None end).
#[export] Instance FRem_typed : Typed FRem := binop_same_type_impl.

#[export] Instance FNeg_inst : Variant Instruction FNeg :=
  impl_inst IFNeg (fun inst => match inst with IFNeg inst => Some inst | _ => None end).
#[export] Instance FNeg_located : HasDebugLoc FNeg := impl_located FNeg_debugloc.
#[export] Instance FNeg_has_result : HasResult FNeg := impl_hasresult FNeg_dest.
#[export] Instance FNeg_unary_op : UnaryOp_trait FNeg := impl_unop FNeg_operand.
#[export] Instance FNeg_typed : Typed FNeg := unop_same_type.

#[export] Instance ExtractElement_inst : Variant Instruction ExtractElement :=
  impl_inst IExtractElement (fun inst => match inst with IExtractElement inst => Some inst | _ => None end).
#[export] Instance ExtractElement_located : HasDebugLoc ExtractElement :=
  impl_located ExtractElement_debugloc.
#[export] Instance ExtractElement_has_result : HasResult ExtractElement :=
  impl_hasresult ExtractElement_dest.
#[export] Instance ExtractElement_typed : Typed ExtractElement :=
  fun dbg T => extractelement_type dbg T.

#[export] Instance InsertElement_inst : Variant Instruction InsertElement :=
  impl_inst IInsertElement (fun inst => match inst with IInsertElement inst => Some inst | _ => None end).
#[export] Instance InsertElement_located : HasDebugLoc InsertElement :=
  impl_located InsertElement_debugloc.
#[export] Instance InsertElement_has_result : HasResult InsertElement :=
  impl_hasresult InsertElement_dest.
#[export] Instance InsertElement_typed : Typed InsertElement :=
  fun dbg T => fun i => Operand_type dbg T (InsertElement_vector i).

#[export] Instance ShuffleVector_inst : Variant Instruction ShuffleVector :=
  impl_inst IShuffleVector (fun inst => match inst with IShuffleVector inst => Some inst | _ => None end).
#[export] Instance ShuffleVector_located : HasDebugLoc ShuffleVector :=
  impl_located ShuffleVector_debugloc.
#[export] Instance ShuffleVector_has_result : HasResult ShuffleVector :=
  impl_hasresult ShuffleVector_dest.
#[export] Instance ShuffleVector_typed : Typed ShuffleVector :=
  fun dbg T => shufflevector_type dbg T.

#[export] Instance ExtractValue_inst : Variant Instruction ExtractValue :=
  impl_inst IExtractValue (fun inst => match inst with IExtractValue inst => Some inst | _ => None end).
#[export] Instance ExtractValue_located : HasDebugLoc ExtractValue :=
  impl_located ExtractValue_debugloc.
#[export] Instance ExtractValue_has_result : HasResult ExtractValue :=
  impl_hasresult ExtractValue_dest.
#[export] Instance ExtractValue_typed : Typed ExtractValue := fun dbg T => extractvalue_type dbg T.

#[export] Instance InsertValue_inst : Variant Instruction InsertValue :=
  impl_inst IInsertValue (fun inst => match inst with IInsertValue inst => Some inst | _ => None end).
#[export] Instance InsertValue_located : HasDebugLoc InsertValue :=
  impl_located InsertValue_debugloc.
#[export] Instance InsertValue_has_result : HasResult InsertValue :=
  impl_hasresult InsertValue_dest.
#[export] Instance InsertValue_typed : Typed InsertValue :=
  fun dbg T => fun i => Operand_type dbg T (InsertValue_aggregate i).

#[export] Instance Alloca_inst : Variant Instruction Alloca :=
  impl_inst IAlloca (fun inst => match inst with IAlloca inst => Some inst | _ => None end).
#[export] Instance Alloca_located : HasDebugLoc Alloca := impl_located Alloca_debugloc.
#[export] Instance Alloca_has_result : HasResult Alloca := impl_hasresult Alloca_dest.
#[export] Instance Alloca_typed : Typed Alloca := fun dbg T => fun _ => Done (types_pointer T).

#[export] Instance Load_inst : Variant Instruction Load :=
  impl_inst ILoad (fun inst => match inst with ILoad inst => Some inst | _ => None end).
#[export] Instance Load_located : HasDebugLoc Load := impl_located Load_debugloc.
#[export] Instance Load_has_result : HasResult Load := impl_hasresult Load_dest.
#[export] Instance Load_typed : Typed Load := fun dbg T => fun i => Done (Load_loaded_ty i).

#[export] Instance Store_inst : Variant Instruction Store :=
  impl_inst IStore (fun inst => match inst with IStore inst => Some inst | _ => None end).
#[export] Instance Store_located : HasDebugLoc Store := impl_located Store_debugloc.
#[export] Instance Store_typed : Typed Store := void_typed.

#[export] Instance Fence_inst : Variant Instruction Fence :=
  impl_inst IFence (fun inst => match inst with IFence inst => Some inst | _ => None end).
#[export] Instance Fence_located : HasDebugLoc Fence := impl_located Fence_debugloc.
#[export] Instance Fence_typed : Typed Fence := void_typed.

#[export] Instance CmpXchg_inst : Variant Instruction CmpXchg :=
  impl_inst ICmpXchg (fun inst => match inst with ICmpXchg inst => Some inst | _ => None end).
#[export] Instance CmpXchg_located : HasDebugLoc CmpXchg := impl_located CmpXchg_debugloc.
#[export] Instance CmpXchg_has_result : HasResult CmpXchg := impl_hasresult CmpXchg_dest.
#[export] Instance CmpXchg_typed : Typed CmpXchg := fun dbg T => cmpxchg_type dbg T.

#[export] Instance AtomicRMW_inst : Variant Instruction AtomicRMW :=
  impl_inst IAtomicRMW (fun inst => match inst with IAtomicRMW inst => Some inst | _ => None end).
#[export] Instance AtomicRMW_located : HasDebugLoc AtomicRMW := impl_located AtomicRMW_debugloc.
#[export] Instance AtomicRMW_has_result : HasResult AtomicRMW := impl_hasresult AtomicRMW_dest.
#[export] Instance AtomicRMW_typed : Typed AtomicRMW :=
  fun dbg T => fun i => Operand_type dbg T (AtomicRMW_value i).

#[export] Instance GetElementPtr_inst : Variant Instruction GetElementPtr :=
  impl_inst IGetElementPtr (fun inst => match inst with IGetElementPtr inst => Some inst | _ => None end).
#[export] Instance GetElementPtr_located : HasDebugLoc GetElementPtr :=
  impl_located GetElementPtr_debugloc.
#[export] Instance GetElementPtr_has_result : HasResult GetElementPtr :=
  impl_hasresult GetElementPtr_dest.
#[export] Instance GetElementPtr_typed : Typed GetElementPtr :=
  fun dbg T => fun _ => Done (types_pointer T).

#[export] Instance Trunc_inst : Variant Instruction Trunc :=
  impl_inst ITrunc (fun inst => match inst with ITrunc inst => Some inst | _ => None end).
#[export] Instance Trunc_located : HasDebugLoc Trunc := impl_located Trunc_debugloc.
#[export] Instance Trunc_has_result : HasResult Trunc := impl_hasresult Trunc_dest.
#[export] Instance Trunc_unary_op : UnaryOp_trait Trunc := impl_unop Trunc_operand.
#[export] Instance Trunc_typed : Typed Trunc := explicitly_typed Trunc_to_type.

#[export] Instance ZExt_inst : Variant Instruction ZExt :=
  impl_inst IZExt (fun inst => match inst with IZExt inst => Some inst | _ => None end).
#[export] Instance ZExt_located : HasDebugLoc ZExt := impl_located ZExt_debugloc.
#[export] Instance ZExt_has_result : HasResult ZExt := impl_hasresult ZExt_dest.
#[export] Instance ZExt_unary_op : UnaryOp_trait ZExt := impl_unop ZExt_operand.
#[export] Instance ZExt_typed : Typed ZExt := explicitly_typed ZExt_to_type.

#[export] Instance SExt_inst : Variant Instruction SExt :=
  impl_inst ISExt (fun inst => match inst with ISExt inst => Some inst | _ => None end).
#[export] Instance SExt_located : HasDebugLoc SExt := impl_located SExt_debugloc.
#[export] Instance SExt_has_result : HasResult SExt := impl_hasresult SExt_dest.
#[export] Instance SExt_unary_op : UnaryOp_trait SExt := impl_unop SExt_operand.
#[export] Instance SExt_typed : Typed SExt := explicitly_typed SExt_to_type.

#[export] Instance FPTrunc_inst : Variant Instruction FPTrunc :=
  impl_inst IFPTrunc (fun inst => match inst with IFPTrunc inst => Some inst | _ => None end).
#[export] Instance FPTrunc_located : HasDebugLoc FPTrunc := impl_located FPTrunc_debugloc.
#[export] Instance FPTrunc_has_result : HasResult FPTrunc := impl_hasresult FPTrunc_dest.
#[export] Instance FPTrunc_unary_op : UnaryOp_trait FPTrunc := impl_unop FPTrunc_operand.
#[export] Instance FPTrunc_typed : Typed FPTrunc := explicitly_typed FPTrunc_to_type.

#[export] Instance FPExt_inst : Variant Instruction FPExt :=
  impl_inst IFPExt (fun inst => match inst with IFPExt inst => Some inst | _ => None end).
#[export] Instance FPExt_located : HasDebugLoc FPExt := impl_located FPExt_debugloc.
#[export] Instance FPExt_has_result : HasResult FPExt := impl_hasresult FPExt_dest.
#[export] Instance FPExt_unary_op : UnaryOp_trait FPExt := impl_unop FPExt_operand.
#[export] Instance FPExt_typed : Typed FPExt := explicitly_typed FPExt_to_type.

#[export] Instance FPToUI_inst : Variant Instruction FPToUI :=
  impl_inst IFPToUI (fun inst => match inst with IFPToUI inst => Some inst | _ => None end).
#[export] Instance FPToUI_located : HasDebugLoc FPToUI := impl_located FPToUI_debugloc.
#[export] Instance FPToUI_has_result : HasResult FPToUI := impl_hasresult FPToUI_dest.
#[export] Instance FPToUI_unary_op : UnaryOp_trait FPToUI := impl_unop FPToUI_operand.
#[export] Instance FPToUI_typed : Typed FPToUI := explicitly_typed FPToUI_to_type.

#[export] Instance FPToSI_inst : Variant Instruction FPToSI :=
  impl_inst IFPToSI (fun inst => match inst with IFPToSI inst => Some inst | _ => None end).
#[export] Instance FPToSI_located : HasDebugLoc FPToSI := impl_located FPToSI_debugloc.
#[export] Instance FPToSI_has_result : HasResult FPToSI := impl_hasresult FPToSI_dest.
#[export] Instance FPToSI_unary_op : UnaryOp_trait FPToSI := impl_unop FPToSI_operand.
#[export] Instance FPToSI_typed : Typed FPToSI := explicitly_typed FPToSI_to_type.

#[export] Instance UIToFP_inst : Variant Instruction UIToFP :=
  impl_inst IUIToFP (fun inst => match inst with IUIToFP inst => Some inst | _ => None end).
#[export] Instance UIToFP_located : HasDebugLoc UIToFP := impl_located UIToFP_debugloc.
#[export] Instance UIToFP_has_result : HasResult UIToFP := impl_hasresult UIToFP_dest.
#[export] Instance UIToFP_unary_op : UnaryOp_trait UIToFP := impl_unop UIToFP_operand.
#[export] Instance UIToFP_typed : Typed UIToFP := explicitly_typed UIToFP_to_type.

#[export] Instance SIToFP_inst : Variant Instruction SIToFP :=
  impl_inst ISIToFP (fun inst => match inst with ISIToFP inst => Some inst | _ => None end).
#[export] Instance SIToFP_located : HasDebugLoc SIToFP := impl_located SIToFP_debugloc.
#[export] Instance SIToFP_has_result : HasResult SIToFP := impl_hasresult SIToFP_dest.
#[export] Instance SIToFP_unary_op : UnaryOp_trait SIToFP := impl_unop SIToFP_operand.
#[export] Instance SIToFP_typed : Typed SIToFP := explicitly_typed SIToFP_to_type.

#[export] Instance PtrToInt_inst : Variant Instruction PtrToInt :=
  impl_inst IPtrToInt (fun inst => match inst with IPtrToInt inst => Some inst | _ => None end).
#[export] Instance PtrToInt_located : HasDebugLoc PtrToInt := impl_located PtrToInt_debugloc.
#[export] Instance PtrToInt_has_result : HasResult PtrToInt := impl_hasresult PtrToInt_dest.
#[export] Instance PtrToInt_unary_op : UnaryOp_trait PtrToInt := impl_unop PtrToInt_operand.
#[export] Instance PtrToInt_typed : Typed PtrToInt := explicitly_typed PtrToInt_to_type.

#[export] Instance IntToPtr_inst : Variant Instruction IntToPtr :=
  impl_inst IIntToPtr (fun inst => match inst with IIntToPtr inst => Some inst | _ => None end).
#[export] Instance IntToPtr_located : HasDebugLoc IntToPtr := impl_located IntToPtr_debugloc.
#[export] Instance IntToPtr_has_result : HasResult IntToPtr := impl_hasresult IntToPtr_dest.
#[export] Instance IntToPtr_unary_op : UnaryOp_trait IntToPtr := impl_unop IntToPtr_operand.
#[export] Instance IntToPtr_typed : Typed IntToPtr := explicitly_typed IntToPtr_to_type.

#[export] Instance BitCast_inst : Variant Instruction BitCast :=
  impl_inst IBitCast (fun inst => match inst with IBitCast inst => Some inst | _ => None end).
#[export] Instance BitCast_located : HasDebugLoc BitCast := impl_located BitCast_debugloc.
#[export] Instance BitCast_has_result : HasResult BitCast := impl_hasresult BitCast_dest.
#[export] Instance BitCast_unary_op : UnaryOp_trait BitCast := impl_unop BitCast_operand.
#[export] Instance BitCast_typed : Typed BitCast := explicitly_typed BitCast_to_type.

#[export] Instance AddrSpaceCast_inst : Variant Instruction AddrSpaceCast :=
  impl_inst IAddrSpaceCast (fun inst => match inst with IAddrSpaceCast inst => Some inst | _ => None end).
#[export] Instance AddrSpaceCast_located : HasDebugLoc AddrSpaceCast :=
  impl_located AddrSpaceCast_debugloc.
#[export] Instance AddrSpaceCast_has_result : HasResult AddrSpaceCast :=
  impl_hasresult AddrSpaceCast_dest.
#[export] Instance AddrSpaceCast_unary_op : UnaryOp_trait AddrSpaceCast :=
  impl_unop AddrSpaceCast_operand.
#[export] Instance AddrSpaceCast_typed : Typed AddrSpaceCast :=
  explicitly_typed AddrSpaceCast_to_type.

#[export] Instance ICmp_inst : Variant Instruction ICmp :=
  impl_inst IICmp (fun inst => match inst with IICmp inst => Some inst | _ => None end).
#[export] Instance ICmp_located : HasDebugLoc ICmp := impl_located ICmp_debugloc.
#[export] Instance ICmp_has_result : HasResult ICmp := impl_hasresult ICmp_dest.
#[export] Instance ICmp_typed : Typed ICmp :=
  fun dbg T => fun i => cmp_type dbg T (ICmp_operand0 i) (ICmp_operand1 i).

#[export] Instance FCmp_inst : Variant Instruction FCmp :=
  impl_inst IFCmp (fun inst => match inst with IFCmp inst => Some inst | _ => None end).
#[export] Instance FCmp_located : HasDebugLoc FCmp := impl_located FCmp_debugloc.
#[export] Instance FCmp_has_result : HasResult FCmp := impl_hasresult FCmp_dest.
#[export] Instance FCmp_typed : Typed FCmp :=
  fun dbg T => fun i => cmp_type dbg T (FCmp_operand0 i) (FCmp_operand1 i).

#[export] Instance Phi_inst : Variant Instruction Phi :=
  impl_inst IPhi (fun inst => match inst with IPhi inst => Some inst | _ => None end).
#[export] Instance Phi_located : HasDebugLoc Phi := impl_located Phi_debugloc.
#[export] Instance Phi_has_result : HasResult Phi := impl_hasresult Phi_dest.
#[export] Instance Phi_typed : Typed Phi := explicitly_typed Phi_to_type.

#[export] Instance Select_inst : Variant Instruction Select :=
  impl_inst ISelect (fun inst => match inst with ISelect inst => Some inst | _ => None end).
#[export] Instance Select_located : HasDebugLoc Select := impl_located Select_debugloc.
#[export] Instance Select_has_result : HasResult Select := impl_hasresult Select_dest.
#[export] Instance Select_typed : Typed Select :=
  fun dbg T => fun i => binop_same_type dbg T (Select_true_value i) (Select_false_value i).

#[export] Instance Freeze_inst : Variant Instruction Freeze :=
  impl_inst IFreeze (fun inst => match inst with IFreeze inst => Some inst | _ => None end).
#[export] Instance Freeze_located : HasDebugLoc Freeze := impl_located Freeze_debugloc.
#[export] Instance Freeze_has_result : HasResult Freeze := impl_hasresult Freeze_dest.
#[export] Instance Freeze_unary_op : UnaryOp_trait Freeze := impl_unop Freeze_operand.
#[export] Instance Freeze_typed : Typed Freeze := unop_same_type.

#[export] Instance Call_inst : Variant Instruction Call :=
  impl_inst ICall (fun inst => match inst with ICall inst => Some inst | _ => None end).
#[export] Instance Call_located : HasDebugLoc Call := impl_located Call_debugloc.
#[export] Instance Call_typed : Typed Call := fun dbg T => call_type.

#[export] Instance VAArg_inst : Variant Instruction VAArg :=
  impl_inst IVAArg (fun inst => match inst with IVAArg inst => Some inst | _ => None end).
#[export] Instance VAArg_located : HasDebugLoc VAArg := impl_located VAArg_debugloc.
#[export] Instance VAArg_has_result : HasResult VAArg := impl_hasresult VAArg_dest.
#[export] Instance VAArg_typed : Typed VAArg := fun dbg T => fun i => Done (VAArg_cur_type i).

#[export] Instance LandingPad_inst : Variant Instruction LandingPad :=
  impl_inst ILandingPad (fun inst => match inst with ILandingPad inst => Some inst | _ => None end).
#[export] Instance LandingPad_located : HasDebugLoc LandingPad := impl_located LandingPad_debugloc.
#[export] Instance LandingPad_has_result : HasResult LandingPad := impl_hasresult LandingPad_dest.
#[export] Instance LandingPad_typed : Typed LandingPad :=
  fun dbg T => fun i => Done (LandingPad_result_type i).

#[export] Instance CatchPad_inst : Variant Instruction CatchPad :=
  impl_inst ICatchPad (fun inst => match inst with ICatchPad inst => Some inst | _ => None end).
#[export] Instance CatchPad_located : HasDebugLoc CatchPad := impl_located CatchPad_debugloc.
#[export] Instance CatchPad_has_result : HasResult CatchPad := impl_hasresult CatchPad_dest.
#[export] Instance CatchPad_typed : Typed CatchPad := fun dbg T => fun _ => Done (token_type T).

#[export] Instance CleanupPad_inst : Variant Instruction CleanupPad :=
  impl_inst ICleanupPad (fun inst => match inst with ICleanupPad inst => Some inst | _ => None end).
#[export] Instance CleanupPad_located : HasDebugLoc CleanupPad := impl_located CleanupPad_debugloc.
#[export] Instance CleanupPad_has_result : HasResult CleanupPad := impl_hasresult CleanupPad_dest.
#[export] Instance CleanupPad_typed : Typed CleanupPad := fun dbg T => fun _ => Done (token_type T).

(** The structs of [Instruction] and the traits they implement *)
Definition instruction_structs : list (Struct Instruction) :=
  [ pack Instruction Add get_debug_loc (has_result) (Some binary_operands);
    pack Instruction Sub get_debug_loc (has_result) (Some binary_operands);
    pack Instruction Mul get_debug_loc (has_result) (Some binary_operands);
    pack Instruction UDiv get_debug_loc (has_result) (Some binary_operands);
    pack Instruction SDiv get_debug_loc (has_result) (Some binary_operands);
    pack Instruction URem get_debug_loc (has_result) (Some binary_operands);
    pack Instruction SRem get_debug_loc (has_result) (Some binary_operands);
    pack Instruction And get_debug_loc (has_result) (Some binary_operands);
    pack Instruction Or get_debug_loc (has_result) (Some binary_operands);
    pack Instruction Xor get_debug_loc (has_result) (Some binary_operands);
    pack Instruction Shl get_debug_loc (has_result) (Some binary_operands);
    pack Instruction LShr get_debug_loc (has_result) (Some binary_operands);
    pack Instruction AShr get_debug_loc (has_result) (Some binary_operands);
    pack Instruction FAdd get_debug_loc (has_result) (Some binary_operands);
    pack Instruction FSub get_debug_loc (has_result) (Some binary_operands);
    pack Instruction FMul get_debug_loc (has_result) (Some binary_operands);
    pack Instruction FDiv get_debug_loc (has_result) (Some binary_operands);
    pack Instruction FRem get_debug_loc (has_result) (Some binary_operands);
    pack Instruction FNeg get_debug_loc (has_result) (Some unary_operands);
    pack Instruction ExtractElement get_debug_loc (has_result) (None);
    pack Instruction InsertElement get_debug_loc (has_result) (None);
    pack Instruction ShuffleVector get_debug_loc (has_result) (None);
    pack Instruction ExtractValue get_debug_loc (has_result) (None);
    pack Instruction InsertValue get_debug_loc (has_result) (None);
    pack Instruction Alloca get_debug_loc (has_result) (None);
    pack Instruction Load get_debug_loc (has_result) (None);
    pack Instruction Store get_debug_loc (no_result) (None);
    pack Instruction Fence get_debug_loc (no_result) (None);
    pack Instruction CmpXchg get_debug_loc (has_result) (None);
    pack Instruction AtomicRMW get_debug_loc (has_result) (None);
    pack Instruction GetElementPtr get_debug_loc (has_result) (None);
    pack Instruction Trunc get_debug_loc (has_result) (Some unary_operands);
    pack Instruction ZExt get_debug_loc (has_result) (Some unary_operands);
    pack Instruction SExt get_debug_loc (has_result) (Some unary_operands);
    pack Instruction FPTrunc get_debug_loc (has_result) (Some unary_operands);
    pack Instruction FPExt get_debug_loc (has_result) (Some unary_operands);
    pack Instruction FPToUI get_debug_loc (has_result) (Some unary_operands);
    pack Instruction FPToSI get_debug_loc (has_result) (Some unary_operands);
    pack Instruction UIToFP get_debug_loc (has_result) (Some unary_operands);
    pack Instruction SIToFP get_debug_loc (has_result) (Some unary_operands);
    pack Instruction PtrToInt get_debug_loc (has_result) (Some unary_operands);
    pack Instruction IntToPtr get_debug_loc (has_result) (Some unary_operands);
    pack Instruction BitCast get_debug_loc (has_result) (Some unary_operands);
    pack Instruction AddrSpaceCast get_debug_loc (has_result) (Some unary_operands);
    pack Instruction ICmp get_debug_loc (has_result) (None);
    pack Instruction FCmp get_debug_loc (has_result) (None);
    pack Instruction Phi get_debug_loc (has_result) (None);
    pack Instruction Select get_debug_loc (has_result) (None);
    pack Instruction Freeze get_debug_loc (has_result) (Some unary_operands);
    pack Instruction Call get_debug_loc (Call_dest) (None);
    pack Instruction VAArg get_debug_loc (has_result) (None);
    pack Instruction LandingPad get_debug_loc (has_result) (None);
    pack Instruction CatchPad get_debug_loc (has_result) (None);
    pack Instruction CleanupPad get_debug_loc (has_result) (None) ].

(** The structs of [groups::BinaryOp] *)
Definition binary_op_structs : list (Struct BinaryOp) :=
  [ pack BinaryOp Add get_debug_loc has_result (Some binary_operands);
    pack BinaryOp Sub get_debug_loc has_result (Some binary_operands);
    pack BinaryOp Mul get_debug_loc has_result (Some binary_operands);
    pack BinaryOp UDiv get_debug_loc has_result (Some binary_operands);
    pack BinaryOp SDiv get_debug_loc has_result (Some binary_operands);
    pack BinaryOp URem get_debug_loc has_result (Some binary_operands);
    pack BinaryOp SRem get_debug_loc has_result (Some binary_operands);
    pack BinaryOp And get_debug_loc has_result (Some binary_operands);
    pack BinaryOp Or get_debug_loc has_result (Some binary_operands);
    pack BinaryOp Xor get_debug_loc has_result (Some binary_operands);
    pack BinaryOp Shl get_debug_loc has_result (Some binary_operands);
    pack BinaryOp LShr get_debug_loc has_result (Some binary_operands);
    pack BinaryOp AShr get_debug_loc has_result (Some binary_operands);
    pack BinaryOp FAdd get_debug_loc has_result (Some binary_operands);
    pack BinaryOp FSub get_debug_loc has_result (Some binary_operands);
    pack BinaryOp FMul get_debug_loc has_result (Some binary_operands);
    pack BinaryOp FDiv get_debug_loc has_result (Some binary_operands);
    pack BinaryOp FRem get_debug_loc has_result (Some binary_operands) ].

(** ** Terminators *)

(** The [FuncType] a call is checked against *)
Definition func_result (ty : Ty) : exec Ty :=
  match ty with FuncType result_type _ _ => Done result_type | _ => Panic end.

Record Ret := mk_Ret {
  Ret_return_operand : option Operand;
  Ret_debugloc : option DebugLoc
}.

Record Br := mk_Br {
  Br_dest : Name;
  Br_debugloc : option DebugLoc
}.

Record CondBr := mk_CondBr {
  CondBr_condition : Operand;
  CondBr_true_dest : Name;
  CondBr_false_dest : Name;
  CondBr_debugloc : option DebugLoc
}.

Record Switch := mk_Switch {
  Switch_operand : Operand;
  Switch_dests : list (Constant * Name);
  Switch_default_dest : Name;
  Switch_debugloc : option DebugLoc
}.

Record IndirectBr := mk_IndirectBr {
  IndirectBr_operand : Operand;
  IndirectBr_possible_dests : list Name;
  IndirectBr_debugloc : option DebugLoc
}.

Record Invoke := mk_Invoke {
  Invoke_function : InlineAssembly + Operand;
  Invoke_function_ty : Ty;
  Invoke_arguments : list (Operand * list ParameterAttribute);
  Invoke_return_attributes : list ParameterAttribute;
  Invoke_result : Name;
  Invoke_return_label : Name;
  Invoke_exception_label : Name;
  Invoke_function_attributes : list FunctionAttribute;
  Invoke_calling_convention : CallingConvention;
  Invoke_debugloc : option DebugLoc
}.

Record Resume := mk_Resume {
  Resume_operand : Operand;
  Resume_debugloc : option DebugLoc
}.

Record Unreachable := mk_Unreachable {
  Unreachable_debugloc : option DebugLoc
}.

Record CleanupRet := mk_CleanupRet {
  CleanupRet_cleanup_pad : Operand;
  CleanupRet_unwind_dest : option Name;
  CleanupRet_debugloc : option DebugLoc
}.

Record CatchRet := mk_CatchRet {
  CatchRet_catch_pad : Operand;
  CatchRet_successor : Name;
  CatchRet_debugloc : option DebugLoc
}.

Record CatchSwitch := mk_CatchSwitch {
  CatchSwitch_parent_pad : Operand;
  CatchSwitch_catch_handlers : list Name;
  CatchSwitch_default_unwind_dest : option Name;
  CatchSwitch_result : Name;
  CatchSwitch_debugloc : option DebugLoc
}.

Record CallBr := mk_CallBr {
  CallBr_function : InlineAssembly + Operand;
  CallBr_arguments : list (Operand * list ParameterAttribute);
  CallBr_return_attributes : list ParameterAttribute;
  CallBr_result : Name;
  CallBr_return_label : Name;
  CallBr_other_labels : unit;
  CallBr_function_attributes : list FunctionAttribute;
  CallBr_calling_convention : CallingConvention;
  CallBr_debugloc : option DebugLoc
}.

#[export] Instance Ret_term : Variant Terminator Ret := impl_term
  (fun term => TRet (Ret_return_operand term) (Ret_debugloc term))
  (fun term => match term with TRet a b => Some (mk_Ret a b) | _ => None end).
#[export] Instance Ret_located : HasDebugLoc Ret := impl_located Ret_debugloc.
#[export] Instance Ret_typed : Typed Ret := void_typed.

#[export] Instance Br_term : Variant Terminator Br := impl_term
  (fun term => TBr (Br_dest term) (Br_debugloc term))
  (fun term => match term with TBr a b => Some (mk_Br a b) | _ => None end).
#[export] Instance Br_located : HasDebugLoc Br := impl_located Br_debugloc.
#[export] Instance Br_typed : Typed Br := void_typed.

#[export] Instance CondBr_term : Variant Terminator CondBr := impl_term
  (fun term => TCondBr (CondBr_condition term) (CondBr_true_dest term) (CondBr_false_dest term)
     (CondBr_debugloc term))
  (fun term => match term with TCondBr a b c d => Some (mk_CondBr a b c d) | _ => None end).
#[export] Instance CondBr_located : HasDebugLoc CondBr := impl_located CondBr_debugloc.
#[export] Instance CondBr_typed : Typed CondBr := void_typed.

#[export] Instance Switch_term : Variant Terminator Switch := impl_term
  (fun term => TSwitch (Switch_operand term) (Switch_dests term) (Switch_default_dest term)
     (Switch_debugloc term))
  (fun term => match term with TSwitch a b c d => Some (mk_Switch a b c d) | _ => None end).
#[export] Instance Switch_located : HasDebugLoc Switch := impl_located Switch_debugloc.
#[export] Instance Switch_typed : Typed Switch := void_typed.

#[export] Instance IndirectBr_term : Variant Terminator IndirectBr := impl_term
  (fun term => TIndirectBr (IndirectBr_operand term) (IndirectBr_possible_dests term)
     (IndirectBr_debugloc term))
  (fun term => match term with TIndirectBr a b c => Some (mk_IndirectBr a b c) | _ => None end).
#[export] Instance IndirectBr_located : HasDebugLoc IndirectBr := impl_located IndirectBr_debugloc.
#[export] Instance IndirectBr_typed : Typed IndirectBr := void_typed.

#[export] Instance Invoke_term : Variant Terminator Invoke := impl_term
  (fun term => TInvoke (Invoke_function term) (Invoke_function_ty term) (Invoke_arguments term)
     (Invoke_return_attributes term) (Invoke_result term) (Invoke_return_label term)
     (Invoke_exception_label term) (Invoke_function_attributes term) (Invoke_calling_convention
     term) (Invoke_debugloc term))
  (fun term => match term with TInvoke a b c d e f g h i j => Some (mk_Invoke a b c d e f g h i j)
     | _ => None end).
#[export] Instance Invoke_located : HasDebugLoc Invoke := impl_located Invoke_debugloc.
#[export] Instance Invoke_has_result : HasResult Invoke := impl_hasresult Invoke_result.
#[export] Instance Invoke_typed : Typed Invoke :=
  fun _ _ term => func_result (Invoke_function_ty term).

#[export] Instance Resume_term : Variant Terminator Resume := impl_term
  (fun term => TResume (Resume_operand term) (Resume_debugloc term))
  (fun term => match term with TResume a b => Some (mk_Resume a b) | _ => None end).
#[export] Instance Resume_located : HasDebugLoc Resume := impl_located Resume_debugloc.
#[export] Instance Resume_typed : Typed Resume := void_typed.

#[export] Instance Unreachable_term : Variant Terminator Unreachable := impl_term
  (fun term => TUnreachable (Unreachable_debugloc term))
  (fun term => match term with TUnreachable a => Some (mk_Unreachable a) | _ => None end).
#[export] Instance Unreachable_located : HasDebugLoc Unreachable :=
  impl_located Unreachable_debugloc.
#[export] Instance Unreachable_typed : Typed Unreachable := void_typed.

#[export] Instance CleanupRet_term : Variant Terminator CleanupRet := impl_term
  (fun term => TCleanupRet (CleanupRet_cleanup_pad term) (CleanupRet_unwind_dest term)
     (CleanupRet_debugloc term))
  (fun term => match term with TCleanupRet a b c => Some (mk_CleanupRet a b c) | _ => None end).
#[export] Instance CleanupRet_located : HasDebugLoc CleanupRet := impl_located CleanupRet_debugloc.
#[export] Instance CleanupRet_typed : Typed CleanupRet := void_typed.

#[export] Instance CatchRet_term : Variant Terminator CatchRet := impl_term
  (fun term => TCatchRet (CatchRet_catch_pad term) (CatchRet_successor term) (CatchRet_debugloc
     term))
  (fun term => match term with TCatchRet a b c => Some (mk_CatchRet a b c) | _ => None end).
#[export] Instance CatchRet_located : HasDebugLoc CatchRet := impl_located CatchRet_debugloc.
#[export] Instance CatchRet_typed : Typed CatchRet := void_typed.

#[export] Instance CatchSwitch_term : Variant Terminator CatchSwitch := impl_term
  (fun term => TCatchSwitch (CatchSwitch_parent_pad term) (CatchSwitch_catch_handlers term)
     (CatchSwitch_default_unwind_dest term) (CatchSwitch_result term) (CatchSwitch_debugloc term))
  (fun term => match term with TCatchSwitch a b c d e => Some (mk_CatchSwitch a b c d e) | _ =>
     None end).
#[export] Instance CatchSwitch_located : HasDebugLoc CatchSwitch :=
  impl_located CatchSwitch_debugloc.
#[export] Instance CatchSwitch_has_result : HasResult CatchSwitch :=
  impl_hasresult CatchSwitch_result.
#[export] Instance CatchSwitch_typed : Typed CatchSwitch := fun _ _ _ => Panic.

#[export] Instance CallBr_term : Variant Terminator CallBr := impl_term
  (fun term => TCallBr (CallBr_function term) (CallBr_arguments term) (CallBr_return_attributes
     term) (CallBr_result term) (CallBr_return_label term) (CallBr_function_attributes term)
     (CallBr_calling_convention term) (CallBr_debugloc term))
  (fun term => match term with TCallBr a b c d e f g h => Some (mk_CallBr a b c d e tt f g h) | _
     => None end).
#[export] Instance CallBr_located : HasDebugLoc CallBr := impl_located CallBr_debugloc.
#[export] Instance CallBr_has_result : HasResult CallBr := impl_hasresult CallBr_result.
#[export] Instance CallBr_typed : Typed CallBr :=
  fun dbg T term => let! ty := get_type dbg T (CallBr_function term) in func_result ty.

(** The structs of [Terminator] *)
Definition terminator_structs : list (Struct Terminator) :=
  [ pack Terminator Ret get_debug_loc no_result None;
    pack Terminator Br get_debug_loc no_result None;
    pack Terminator CondBr get_debug_loc no_result None;
    pack Terminator Switch get_debug_loc no_result None;
    pack Terminator IndirectBr get_debug_loc no_result None;
    pack Terminator Invoke get_debug_loc has_result None;
    pack Terminator Resume get_debug_loc no_result None;
    pack Terminator Unreachable get_debug_loc no_result None;
    pack Terminator CleanupRet get_debug_loc no_result None;
    pack Terminator CatchRet get_debug_loc no_result None;
    pack Terminator CatchSwitch get_debug_loc has_result None;
    pack Terminator CallBr get_debug_loc has_result None ].

(** ** Constant expressions *)

Record ConstAdd := mk_ConstAdd {
  ConstAdd_operand0 : Constant;
  ConstAdd_operand1 : Constant
}.

Record ConstSub := mk_ConstSub {
  ConstSub_operand0 : Constant;
  ConstSub_operand1 : Constant
}.

Record ConstMul := mk_ConstMul {
  ConstMul_operand0 : Constant;
  ConstMul_operand1 : Constant
}.

Record ConstXor := mk_ConstXor {
  ConstXor_operand0 : Constant;
  ConstXor_operand1 : Constant
}.

Record ConstExtractElement := mk_ConstExtractElement {
  ConstExtractElement_vector : Constant;
  ConstExtractElement_index : Constant
}.

Record ConstInsertElement := mk_ConstInsertElement {
  ConstInsertElement_vector : Constant;
  ConstInsertElement_element : Constant;
  ConstInsertElement_index : Constant
}.

Record ConstShuffleVector := mk_ConstShuffleVector {
  ConstShuffleVector_operand0 : Constant;
  ConstShuffleVector_operand1 : Constant;
  ConstShuffleVector_mask : Constant
}.

Record ConstGetElementPtr := mk_ConstGetElementPtr {
  ConstGetElementPtr_address : Constant;
  ConstGetElementPtr_indices : list Constant;
  ConstGetElementPtr_in_bounds : bool
}.

Record ConstTrunc := mk_ConstTrunc {
  ConstTrunc_operand : Constant;
  ConstTrunc_to_type : Ty
}.

Record ConstPtrToInt := mk_ConstPtrToInt {
  ConstPtrToInt_operand : Constant;
  ConstPtrToInt_to_type : Ty
}.

Record ConstIntToPtr := mk_ConstIntToPtr {
  ConstIntToPtr_operand : Constant;
  ConstIntToPtr_to_type : Ty
}.

Record ConstBitCast := mk_ConstBitCast {
  ConstBitCast_operand : Constant;
  ConstBitCast_to_type : Ty
}.

Record ConstAddrSpaceCast := mk_ConstAddrSpaceCast {
  ConstAddrSpaceCast_operand : Constant;
  ConstAddrSpaceCast_to_type : Ty
}.

#[export] Instance ConstAdd_expr : Variant Constant ConstAdd := impl_constexpr
  (fun expr => CAdd (ConstAdd_operand0 expr) (ConstAdd_operand1 expr))
  (fun c => match c with CAdd a b => Some (mk_ConstAdd a b) | _ => None end).
#[export] Instance ConstAdd_binary_op : ConstBinaryOp ConstAdd :=
  impl_const_binop ConstAdd_operand0 ConstAdd_operand1.
#[export] Instance ConstAdd_typed : Typed ConstAdd := const_binop_same_type.

#[export] Instance ConstSub_expr : Variant Constant ConstSub := impl_constexpr
  (fun expr => CSub (ConstSub_operand0 expr) (ConstSub_operand1 expr))
  (fun c => match c with CSub a b => Some (mk_ConstSub a b) | _ => None end).
#[export] Instance ConstSub_binary_op : ConstBinaryOp ConstSub :=
  impl_const_binop ConstSub_operand0 ConstSub_operand1.
#[export] Instance ConstSub_typed : Typed ConstSub := const_binop_same_type.

#[export] Instance ConstMul_expr : Variant Constant ConstMul := impl_constexpr
  (fun expr => CMul (ConstMul_operand0 expr) (ConstMul_operand1 expr))
  (fun c => match c with CMul a b => Some (mk_ConstMul a b) | _ => None end).
#[export] Instance ConstMul_binary_op : ConstBinaryOp ConstMul :=
  impl_const_binop ConstMul_operand0 ConstMul_operand1.
#[export] Instance ConstMul_typed : Typed ConstMul := const_binop_same_type.

#[export] Instance ConstXor_expr : Variant Constant ConstXor := impl_constexpr
  (fun expr => CXor (ConstXor_operand0 expr) (ConstXor_operand1 expr))
  (fun c => match c with CXor a b => Some (mk_ConstXor a b) | _ => None end).
#[export] Instance ConstXor_binary_op : ConstBinaryOp ConstXor :=
  impl_const_binop ConstXor_operand0 ConstXor_operand1.
#[export] Instance ConstXor_typed : Typed ConstXor := const_binop_same_type.

#[export] Instance ConstExtractElement_expr : Variant Constant ConstExtractElement := impl_constexpr
  (fun expr => CExtractElement (ConstExtractElement_vector expr) (ConstExtractElement_index expr))
  (fun c => match c with CExtractElement a b => Some (mk_ConstExtractElement a b) | _ => None end).
#[export] Instance ConstExtractElement_typed : Typed ConstExtractElement :=
  fun dbg T expr => ConstExtractElement_type (get_type dbg T (ConstExtractElement_vector expr)).

#[export] Instance ConstInsertElement_expr : Variant Constant ConstInsertElement := impl_constexpr
  (fun expr => CInsertElement (ConstInsertElement_vector expr) (ConstInsertElement_element expr)
     (ConstInsertElement_index expr))
  (fun c => match c with CInsertElement a b c => Some (mk_ConstInsertElement a b c) | _ => None
     end).
#[export] Instance ConstInsertElement_typed : Typed ConstInsertElement :=
  fun dbg T expr => get_type dbg T (ConstInsertElement_vector expr).

#[export] Instance ConstShuffleVector_expr : Variant Constant ConstShuffleVector := impl_constexpr
  (fun expr => CShuffleVector (ConstShuffleVector_operand0 expr) (ConstShuffleVector_operand1
     expr) (ConstShuffleVector_mask expr))
  (fun c => match c with CShuffleVector a b c => Some (mk_ConstShuffleVector a b c) | _ => None
     end).
#[export] Instance ConstShuffleVector_binary_op : ConstBinaryOp ConstShuffleVector :=
  impl_const_binop ConstShuffleVector_operand0 ConstShuffleVector_operand1.
#[export] Instance ConstShuffleVector_typed : Typed ConstShuffleVector := fun dbg T expr =>
  ConstShuffleVector_type dbg T (get_type dbg T (ConstShuffleVector_operand0 expr))
    (get_type dbg T (ConstShuffleVector_operand1 expr)) (get_type dbg T (ConstShuffleVector_mask
     expr)).

#[export] Instance ConstGetElementPtr_expr : Variant Constant ConstGetElementPtr := impl_constexpr
  (fun expr => CGetElementPtr (ConstGetElementPtr_address expr) (ConstGetElementPtr_indices expr)
     (ConstGetElementPtr_in_bounds expr))
  (fun c => match c with CGetElementPtr a b c => Some (mk_ConstGetElementPtr a b c) | _ => None
     end).
#[export] Instance ConstGetElementPtr_typed : Typed ConstGetElementPtr :=
  fun _ T _ => Done (types_pointer T).

#[export] Instance ConstTrunc_expr : Variant Constant ConstTrunc := impl_constexpr
  (fun expr => CTrunc (ConstTrunc_operand expr) (ConstTrunc_to_type expr))
  (fun c => match c with CTrunc a b => Some (mk_ConstTrunc a b) | _ => None end).
#[export] Instance ConstTrunc_unary_op : ConstUnaryOp ConstTrunc :=
  impl_const_unop ConstTrunc_operand.
#[export] Instance ConstTrunc_typed : Typed ConstTrunc := explicitly_typed ConstTrunc_to_type.

#[export] Instance ConstPtrToInt_expr : Variant Constant ConstPtrToInt := impl_constexpr
  (fun expr => CPtrToInt (ConstPtrToInt_operand expr) (ConstPtrToInt_to_type expr))
  (fun c => match c with CPtrToInt a b => Some (mk_ConstPtrToInt a b) | _ => None end).
#[export] Instance ConstPtrToInt_unary_op : ConstUnaryOp ConstPtrToInt :=
  impl_const_unop ConstPtrToInt_operand.
#[export] Instance ConstPtrToInt_typed : Typed ConstPtrToInt :=
  explicitly_typed ConstPtrToInt_to_type.

#[export] Instance ConstIntToPtr_expr : Variant Constant ConstIntToPtr := impl_constexpr
  (fun expr => CIntToPtr (ConstIntToPtr_operand expr) (ConstIntToPtr_to_type expr))
  (fun c => match c with CIntToPtr a b => Some (mk_ConstIntToPtr a b) | _ => None end).
#[export] Instance ConstIntToPtr_unary_op : ConstUnaryOp ConstIntToPtr :=
  impl_const_unop ConstIntToPtr_operand.
#[export] Instance ConstIntToPtr_typed : Typed ConstIntToPtr :=
  explicitly_typed ConstIntToPtr_to_type.

#[export] Instance ConstBitCast_expr : Variant Constant ConstBitCast := impl_constexpr
  (fun expr => CBitCast (ConstBitCast_operand expr) (ConstBitCast_to_type expr))
  (fun c => match c with CBitCast a b => Some (mk_ConstBitCast a b) | _ => None end).
#[export] Instance ConstBitCast_unary_op : ConstUnaryOp ConstBitCast :=
  impl_const_unop ConstBitCast_operand.
#[export] Instance ConstBitCast_typed : Typed ConstBitCast := explicitly_typed ConstBitCast_to_type.

#[export] Instance ConstAddrSpaceCast_expr : Variant Constant ConstAddrSpaceCast := impl_constexpr
  (fun expr => CAddrSpaceCast (ConstAddrSpaceCast_operand expr) (ConstAddrSpaceCast_to_type expr))
  (fun c => match c with CAddrSpaceCast a b => Some (mk_ConstAddrSpaceCast a b) | _ => None end).
#[export] Instance ConstAddrSpaceCast_unary_op : ConstUnaryOp ConstAddrSpaceCast :=
  impl_const_unop ConstAddrSpaceCast_operand.
#[export] Instance ConstAddrSpaceCast_typed : Typed ConstAddrSpaceCast :=
  explicitly_typed ConstAddrSpaceCast_to_type.

(** The structs of the constant expressions *)
Definition constant_structs : list (Struct Constant) :=
  [ pack Constant ConstAdd not_located no_result None;
    pack Constant ConstSub not_located no_result None;
    pack Constant ConstMul not_located no_result None;
    pack Constant ConstXor not_located no_result None;
    pack Constant ConstExtractElement not_located no_result None;
    pack Constant ConstInsertElement not_located no_result None;
    pack Constant ConstShuffleVector not_located no_result None;
    pack Constant ConstGetElementPtr not_located no_result None;
    pack Constant ConstTrunc not_located no_result None;
    pack Constant ConstPtrToInt not_located no_result None;
    pack Constant ConstIntToPtr not_located no_result None;
    pack Constant ConstBitCast not_located no_result None;
    pack Constant ConstAddrSpaceCast not_located no_result None ].

(** ** The enums agree with their structs *)

(** What an enum says of one of its values *)
Record View := mk_view {
  view_type : bool -> Types -> exec Ty;
  view_location : option DebugLoc;
  view_result : option Name;
  view_operands : option (list Operand)
}.

Definition struct_view {E} (s : Struct E) (a : carrier s) : View :=
  mk_view (fun dbg T => typed s dbg T a) (location s a) (result_name s a)
    ((fun f => f a) <$> operands s).

(** The structs of the list a value converts to *)
Definition readings {E} (structs : list (Struct E)) (e : E) : list {s : Struct E & carrier s} :=
  omap (fun s => match @try_from _ _ (variant s) e with Ok a => Some (existT s a) | Err _ => None
     end) structs.

(** Two views of a value agree: on the type in every profile and for every table
    of types, and on the other three. *)
Definition view_agrees (v w : View) : Prop :=
  (forall dbg T, view_type v dbg T = view_type w dbg T) /\ view_location v = view_location w /\
  view_result v = view_result w /\ view_operands v = view_operands w.

(** A value the list covers converts to one struct, converts back to itself, and
    the enum and the struct agree on it; a value it does not cover converts to
    none.  A struct converts to its own variant and back, and the error of every
    failed conversion is the macro's. *)
Definition coherent {E} (structs : list (Struct E)) (error : string) (covered : E -> bool)
  (enum_view : E -> View) : Prop :=
  (forall e, match readings structs e with
             | [existT s a] => covered e = true /\ @from _ _ (variant s) a = e /\
                               view_agrees (enum_view e) (struct_view s a)
             | [] => covered e = false
             | _ => False
             end) /\
  Forall (fun s => (forall a, @try_from _ _ (variant s) (@from _ _ (variant s) a) = Ok a) /\
                   (forall e err, @try_from _ _ (variant s) e = Err err -> err = error)) structs.

Definition instruction_operands (i : Instruction) : option (list Operand) :=
  match BinaryOp_try_from i, UnaryOp_try_from i with
  | Ok bo, _ => Some [get_operand0 bo; get_operand1 bo]
  | _, Ok uo => Some [get_operand uo]
  | _, _ => None
  end.
Definition instruction_view (i : Instruction) : View :=
  mk_view (fun dbg T => Instruction_type dbg T i) (instr_debug_loc i) (try_get_result i)
    (instruction_operands i).
Definition binary_op_view (bo : BinaryOp) : View :=
  mk_view (fun dbg T => BinaryOp_type dbg T bo) (instr_debug_loc (Instruction_from_BinaryOp bo))
    (Some (BinaryOp_get_result bo)) (Some [get_operand0 bo; get_operand1 bo]).
Definition terminator_view (t : Terminator) : View :=
  mk_view (fun dbg T => Terminator_type dbg T t) (term_debug_loc t) (term_try_get_result t) None.
Definition constant_view (c : Constant) : View :=
  mk_view (fun dbg T => Constant_type dbg T c) None None None.

(** The constants that are expressions *)
Definition is_constexpr (c : Constant) : bool :=
  match c with
  | CInt _ _ | CFloat _ | CNull _ | CAggregateZero _ | CStruct _ _ _ | CArray _ _ | CVector _
  | CUndef _ | CPoison _ | CBlockAddress | CGlobalReference _ _ | CTokenNone
  | CPtrAuth _ _ _ _ => false
  | _ => true
  end.

Lemma impl_variant_error {E A} error (id : A -> E) arm e err :
  @try_from _ _ (impl_variant error id arm) e = Err err -> err = error.
Proof. simpl. destruct (arm e); congruence. Qed.

(** Every struct of a list is inverse to its variant, with the macro's error. *)
Ltac structs_invert :=
  repeat (constructor; [split; [by intros []; repeat (match goal with u : unit |- _ => destruct u
     end)|apply impl_variant_error]|]); constructor.
Ltac coherent_by e :=
  split; [intros e; destruct e; cbn; try split_and!; done|structs_invert].

Lemma instructions_coherent :
  coherent instruction_structs "Instruction is not of requested type" (fun _ => true)
     instruction_view.
Proof. coherent_by e. Qed.
Lemma binary_ops_coherent :
  coherent binary_op_structs "BinaryOp is not of requested type" (fun _ => true) binary_op_view.
Proof. coherent_by e. Qed.
Lemma terminators_coherent :
  coherent terminator_structs "Terminator is not of requested type" (fun _ => true) terminator_view.
Proof. coherent_by e. Qed.
Lemma constants_coherent :
  coherent constant_structs "Constant is not of requested kind" is_constexpr constant_view.
Proof. coherent_by e. Qed.


(** What the theorem says of an [add]: it is read back as an [Add], and not as a [Ret]. *)
Definition sample_add : Add :=
  mk_Add (LocalOperand (NameStr "a") (IntegerType 32)) (LocalOperand (NameStr "b") (IntegerType 32))
    (NameStr "c") false true None.
Example add_round_trip : try_from (IAdd sample_add) = Ok sample_add.
Proof. reflexivity. Qed.
Example add_not_sub : try_from (A :=
  Sub) (IAdd sample_add) = Err "Instruction is not of requested type".
Proof. reflexivity. Qed.
Example add_type : get_type true blank_for_testing sample_add = Done (IntegerType 32).
Proof. vm_compute. reflexivity. Qed.
