(* ===== verification/Display.v ===== *)
(** * Display: the text of constants, instructions, terminators and locations

    The [Display] instances of [constant.rs], [operand.rs], [instruction.rs],
    [terminator.rs] and [debugloc.rs].  Some of them panic on data that the readers
    do not produce: these return in [exec]. *)

From S2P Require Import Prelude Text Types Layout Constants Instr.
From stdpp Require Import base gmap list strings pretty.
From Stdlib Require Import Ascii ZArith Lia.
#[local] Open Scope string_scope.

(** ** Floating-point numbers

    [Display] of [f32] and [f64]: the shortest decimal digits that read back as the
    same number, the closest to it among those, without an exponent. *)

(** A positive number [mant * 2 ^ exp], with the distances to the borders of the
    interval of numbers that round to it in units of [2 ^ exp] *)
Record Decoded := mk_Decoded { mant : Z; minus : Z; plus : Z; dexp : Z; inclusive : bool }.

(** The digits at the decimal exponent [k], if some number of them lies in the
    interval *)
Definition digits_at (d : Decoded) (k : Z) : option Z :=
  let up := (Z.shiftl 1 (Z.max 0 (dexp d)) * 10 ^ Z.max 0 (- k))%Z in
  let unit := (10 ^ Z.max 0 k * Z.shiftl 1 (Z.max 0 (- dexp d)))%Z in
  let low := ((mant d - minus d) * up)%Z in
  let high := ((mant d + plus d) * up)%Z in
  let dmin := if inclusive d then (- ((- low) / unit))%Z else (low / unit + 1)%Z in
  let dmax := if inclusive d then (high / unit)%Z else (- ((- high) / unit) - 1)%Z in
  if (dmin <=? dmax)%Z
  then Some (Z.min dmax (Z.max dmin ((2 * mant d * up + unit) / (2 * unit))))
  else None.

(** From the exponent [k] downwards *)
Fixpoint shortest (fuel : nat) (d : Decoded) (k : Z) : Z * Z :=
  match fuel with
  | O => (0, 0)%Z
  | S f => match digits_at d k with Some n => (n, k) | None => shortest f d (k - 1) end
  end.

(** A decimal exponent above the number: [log10 2] is a little less than 30103 / 100000,
    and seventeen digits below the first one are always enough. *)
Definition top_exponent (d : Decoded) : Z :=
  ((dexp d + Z.log2 (mant d + plus d) + 1) * 30103 / 100000 + 1)%Z.

Definition zeros (n : Z) : string := str_concat (repeat "0" (Z.to_nat n)).

(** [n * 10 ^ k] in decimal notation *)
Definition decimal (n k : Z) : string :=
  let digits := pretty n in
  if (0 <=? k)%Z then digits +:+ zeros k
  else let len := Z.of_nat (String.length digits) in
       if (- k <? len)%Z
       then String.substring 0 (Z.to_nat (len + k)) digits +:+ "."
            +:+ String.substring (Z.to_nat (len + k)) (Z.to_nat (- k)) digits
       else "0." +:+ zeros (- k - len) +:+ digits.

(** A format: the widths of fraction and exponent, and the exponent of the last
    fraction bit of the smallest numbers *)
Definition float_text (frac_bits exp_bits : Z) (bits : Z) : string :=
  let frac := Z.land bits (2 ^ frac_bits - 1) in
  let expo := Z.land (Z.shiftr bits frac_bits) (2 ^ exp_bits - 1) in
  let sign := if Z.testbit bits (frac_bits + exp_bits) then "-" else "" in
  let bias := (2 ^ (exp_bits - 1) - 1 + frac_bits)%Z in
  if (expo =? 2 ^ exp_bits - 1)%Z then (if (frac =? 0)%Z then sign +:+ "inf" else "NaN")
  else if (expo =? 0)%Z && (frac =? 0)%Z then sign +:+ "0"
  else
    let d := if (expo =? 0)%Z then mk_Decoded (2 * frac) 1 1 (- bias) true
             else let m := (2 ^ frac_bits + frac)%Z in
                  if (frac =? 0)%Z then mk_Decoded (4 * m) 1 2 (expo - bias - 2) (Z.even m)
                  else mk_Decoded (2 * m) 1 1 (expo - bias - 1) (Z.even m) in
    let '(n, k) := shortest 30 d (top_exponent d) in
    sign +:+ decimal n k.
Definition f32_text : Z -> string := float_text 23 8.
Definition f64_text : Z -> string := float_text 52 11.

Example float_texts :
  map f64_text [4607182418800017408; 4609434218613702656; 4591870180066957722; 13830554455654793216;
                9223372036854775808; 9218868437227405312; 4617315517961601024; 4921056587992461136; 1]%Z
  = ["1"; "1.5"; "0.1"; "-1"; "-0"; "inf"; "5"; "1000000000000000000000"; "0." +:+ zeros 323 +:+ "5"] /\
  map f32_text [1036831949; 1065353216; 3240099840; 2143289344]%Z = ["0.1"; "1"; "-10"; "NaN"].
Proof. by vm_compute. Qed.

Definition Float_display (f : Float) : string :=
  match f with
  | FHalf => "half"
  | FBFloat => "bfloat"
  | FSingle s => "float " +:+ f32_text s
  | FDouble d => "double " +:+ f64_text d
  | FQuadruple => "quadruple"
  | FX86_FP80 => "x86_fp80"
  | FPPC_FP128 => "ppc_fp128"
  end.

(** ** Constants and operands *)

(** [as i16], [as i32], [as i64] *)
Definition signed (w z : Z) : Z :=
  let y := (z mod 2 ^ w)%Z in if (y <? 2 ^ (w - 1))%Z then y else (y - 2 ^ w)%Z.

(** Small negative numbers are shown as such. *)
Definition int_display (bits value : Z) : string :=
  if (bits =? 1)%Z then (if (value =? 0)%Z then "i1 false" else "i1 true")
  else
    let shown := if (bits =? 16)%Z || (bits =? 32)%Z || (bits =? 64)%Z
                 then (if (-1000 <? signed bits value)%Z then signed bits value else value)
                 else value in
    "i" +:+ pretty bits +:+ " " +:+ pretty shown.

Definition raw_name (n : Name) : string :=
  match n with NameStr s => s | Number k => pretty k end.

(** [, x] for every element *)
Definition each {A} (d : A -> string) (l : list A) : string := str_concat (map (fun x => ", " +:+ d x) l).

(** The constant expressions, from the texts of their operands *)
Definition const_binop_display (dispname operand0 operand1 : string) : string :=
  dispname +:+ " (" +:+ operand0 +:+ ", " +:+ operand1 +:+ ")".
Definition const_unop_display (dispname operand : string) (to_type : Ty) : string :=
  dispname +:+ " (" +:+ operand +:+ " to " +:+ Ty_display to_type +:+ ")".
Definition ConstExtractElement_display (vector index : string) : string :=
  "extractelement (" +:+ vector +:+ ", " +:+ index +:+ ")".
Definition ConstInsertElement_display (vector element index : string) : string :=
  "insertelement (" +:+ vector +:+ ", " +:+ element +:+ ", " +:+ index +:+ ")".
Definition ConstShuffleVector_display (operand0 operand1 mask : string) : string :=
  "shufflevector (" +:+ operand0 +:+ ", " +:+ operand1 +:+ ", " +:+ mask +:+ ")".
Definition ConstGetElementPtr_display (address indices : string) (in_bounds : bool) : string :=
  "getelementptr" +:+ (if in_bounds then " inbounds" else "") +:+ " (" +:+ address +:+ indices +:+ ")".

Fixpoint Constant_display (c : Constant) : string :=
  match c with
  | CInt bits value => int_display bits value
  | CFloat f => Float_display f
  | CNull ty => Ty_display ty +:+ " null"
  | CAggregateZero ty => Ty_display ty +:+ " zeroinitializer"
  | CStruct _ values is_packed =>
      (if is_packed then "<" else "") +:+ "{ " +:+ display_list Constant_display values +:+ " }"
      +:+ (if is_packed then ">" else "")
  | CArray _ elements => "[ " +:+ display_list Constant_display elements +:+ " ]"
  | CVector v => "< " +:+ display_list Constant_display v +:+ " >"
  | CUndef ty => Ty_display ty +:+ " undef"
  | CPoison ty => Ty_display ty +:+ " poison"
  | CBlockAddress => "blockaddr"
  | CGlobalReference name ty =>
      match ty with
      | FuncType _ _ _ => "@" +:+ raw_name name
      | _ => "ptr @" +:+ raw_name name
      end
  | CTokenNone => "none"
  | CPtrAuth ptr key disc addr_disc =>
      "ptrauth(" +:+ Constant_display ptr +:+ ", " +:+ Constant_display key +:+ ", "
      +:+ Constant_display disc +:+ ", " +:+ Constant_display addr_disc +:+ ")"
  | CAdd a b => const_binop_display "add" (Constant_display a) (Constant_display b)
  | CSub a b => const_binop_display "sub" (Constant_display a) (Constant_display b)
  | CMul a b => const_binop_display "mul" (Constant_display a) (Constant_display b)
  | CXor a b => const_binop_display "xor" (Constant_display a) (Constant_display b)
  | CExtractElement v i => ConstExtractElement_display (Constant_display v) (Constant_display i)
  | CInsertElement v e i =>
      ConstInsertElement_display (Constant_display v) (Constant_display e) (Constant_display i)
  | CShuffleVector a b m =>
      ConstShuffleVector_display (Constant_display a) (Constant_display b) (Constant_display m)
  | CGetElementPtr a idx in_bounds =>
      ConstGetElementPtr_display (Constant_display a) (each Constant_display idx) in_bounds
  | CTrunc a ty => const_unop_display "trunc" (Constant_display a) ty
  | CPtrToInt a ty => const_unop_display "ptrtoint" (Constant_display a) ty
  | CIntToPtr a ty => const_unop_display "inttoptr" (Constant_display a) ty
  | CBitCast a ty => const_unop_display "bitcast" (Constant_display a) ty
  | CAddrSpaceCast a ty => const_unop_display "addrspacecast" (Constant_display a) ty
  end.

Definition Operand_display (o : Operand) : string :=
  match o with
  | LocalOperand name ty => Ty_display ty +:+ " " +:+ Name_display name
  | ConstantOperand c => Constant_display c
  | MetadataOperand => "<metadata>"
  end.

(** ** The parts of instructions *)

Definition MemoryOrdering_display (m : MemoryOrdering) : string :=
  match m with
  | Unordered => "unordered"
  | Monotonic => "monotonic"
  | Acquire => "acquire"
  | Release => "release"
  | AcquireRelease => "acq_rel"
  | SequentiallyConsistent => "seq_cst"
  | NotAtomic => "not_atomic"
  end.
Definition Atomicity_display (a : Atomicity) : string :=
  (match synch_scope a with
   | SingleThread => "syncscope(" +:+ chr dquote +:+ "singlethread" +:+ chr dquote +:+ ") "
   | System => ""
   end) +:+ MemoryOrdering_display (mem_ordering a).
Definition RMWBinOp_display (op : RMWBinOp) : string :=
  match op with
  | RMW_Xchg => "xchg" | RMW_Add => "add" | RMW_Sub => "sub" | RMW_And => "and"
  | RMW_Nand => "nand" | RMW_Or => "or" | RMW_Xor => "xor" | RMW_Max => "max"
  | RMW_Min => "min" | RMW_UMax => "umax" | RMW_UMin => "umin" | RMW_FAdd => "fadd"
  | RMW_FSub => "fsub" | RMW_FMax => "fmax" | RMW_FMin => "fmin"
  | RMW_UIncWrap => "uinc_wrap" | RMW_UDecWrap => "udec_wrap"
  end.

#[local] Notation nm := Name_display.
#[local] Notation opd := Operand_display.
#[local] Notation tyd := Ty_display.

(** [if self.debugloc.is_some()] *)
Definition with_loc (d : option DebugLoc) : string :=
  match d with Some _ => " (with debugloc)" | None => "" end.
Definition flag (b : bool) (s : string) : string := if b then s else "".
(** A list that must not be empty: the first element, then the others *)
Definition first_then {A} (l : list A) (first others : A -> string) : exec string :=
  match l with [] => Panic | x :: l' => Done (first x +:+ str_concat (map others l')) end.

(** ** Instructions *)

Definition binop_display (dispname : string) (dest : Name) (a b : Operand) (d : option DebugLoc) : string :=
  nm dest +:+ " = " +:+ dispname +:+ " " +:+ opd a +:+ ", " +:+ opd b +:+ with_loc d.
Definition binop_nuw_nsw_display (dispname : string) (dest : Name) (nuw nsw : bool) (a b : Operand)
    (d : option DebugLoc) : string :=
  nm dest +:+ " = " +:+ dispname +:+ flag nuw " nuw" +:+ flag nsw " nsw" +:+ " " +:+ opd a +:+ ", "
  +:+ opd b +:+ with_loc d.
Definition binop_exact_display (dispname : string) (dest : Name) (exact : bool) (a b : Operand)
    (d : option DebugLoc) : string :=
  nm dest +:+ " = " +:+ dispname +:+ flag exact " exact" +:+ " " +:+ opd a +:+ ", " +:+ opd b +:+ with_loc d.
Definition unop_display (dispname : string) (dest : Name) (a : Operand) (d : option DebugLoc) : string :=
  nm dest +:+ " = " +:+ dispname +:+ " " +:+ opd a +:+ with_loc d.
Definition typed_unop_display (dispname : string) (dest : Name) (a : Operand) (to_type : Ty)
    (d : option DebugLoc) : string :=
  nm dest +:+ " = " +:+ dispname +:+ " " +:+ opd a +:+ " to " +:+ tyd to_type +:+ with_loc d.

Definition ExtractElement_display (i : ExtractElement) : string :=
  nm (ExtractElement_dest i) +:+ " = extractelement " +:+ opd (ExtractElement_vector i) +:+ ", "
  +:+ opd (ExtractElement_index i) +:+ with_loc (ExtractElement_debugloc i).
Definition InsertElement_display (i : InsertElement) : string :=
  nm (InsertElement_dest i) +:+ " = insertelement " +:+ opd (InsertElement_vector i) +:+ ", "
  +:+ opd (InsertElement_element i) +:+ ", " +:+ opd (InsertElement_index i)
  +:+ with_loc (InsertElement_debugloc i).
Definition ShuffleVector_display (i : ShuffleVector) : string :=
  nm (ShuffleVector_dest i) +:+ " = shufflevector " +:+ opd (ShuffleVector_operand0 i) +:+ ", "
  +:+ opd (ShuffleVector_operand1 i) +:+ ", " +:+ Constant_display (ShuffleVector_mask i)
  +:+ with_loc (ShuffleVector_debugloc i).
Definition ExtractValue_display (i : ExtractValue) : exec string :=
  let! indices := first_then (ExtractValue_indices i) pretty (fun k => ", " +:+ pretty k) in
  Done (nm (ExtractValue_dest i) +:+ " = extractvalue " +:+ opd (ExtractValue_aggregate i) +:+ ", "
        +:+ indices +:+ with_loc (ExtractValue_debugloc i)).
Definition InsertValue_display (i : InsertValue) : exec string :=
  let! indices := first_then (InsertValue_indices i) pretty (fun k => ", " +:+ pretty k) in
  Done (nm (InsertValue_dest i) +:+ " = insertvalue " +:+ opd (InsertValue_aggregate i) +:+ ", "
        +:+ opd (InsertValue_element i) +:+ ", " +:+ indices +:+ with_loc (InsertValue_debugloc i)).
(** A count of one is left out. *)
Definition Alloca_display (i : Alloca) : string :=
  nm (Alloca_dest i) +:+ " = alloca " +:+ tyd (Alloca_allocated_type i)
  +:+ (match as_constant (Alloca_num_elements i) with
       | Some (CInt _ 1%Z) => ""
       | _ => ", " +:+ opd (Alloca_num_elements i)
       end)
  +:+ ", align " +:+ pretty (Alloca_alignment i) +:+ with_loc (Alloca_debugloc i).

(** The atomicity, before and after the operands *)
Definition atomic_word (a : option Atomicity) : string := match a with Some _ => "atomic " | None => "" end.
Definition atomic_suffix (a : option Atomicity) : string :=
  match a with Some a => " " +:+ Atomicity_display a | None => "" end.
Definition Load_display (i : Load) : string :=
  nm (Load_dest i) +:+ " = load " +:+ atomic_word (Load_atomicity i) +:+ flag (Load_volatile i) "volatile "
  +:+ tyd (Load_loaded_ty i) +:+ ", " +:+ opd (Load_address i) +:+ atomic_suffix (Load_atomicity i)
  +:+ ", align " +:+ pretty (Load_alignment i) +:+ with_loc (Load_debugloc i).
Definition Store_display (i : Store) : string :=
  "store " +:+ atomic_word (Store_atomicity i) +:+ flag (Store_volatile i) "volatile "
  +:+ opd (Store_value i) +:+ ", " +:+ opd (Store_address i) +:+ atomic_suffix (Store_atomicity i)
  +:+ ", align " +:+ pretty (Store_alignment i) +:+ with_loc (Store_debugloc i).
Definition Fence_display (i : Fence) : string :=
  "fence " +:+ Atomicity_display (Fence_atomicity i) +:+ with_loc (Fence_debugloc i).
Definition CmpXchg_display (i : CmpXchg) : string :=
  nm (CmpXchg_dest i) +:+ " = cmpxchg " +:+ flag (CmpXchg_weak i) "weak " +:+ flag (CmpXchg_volatile i) "volatile "
  +:+ opd (CmpXchg_address i) +:+ ", " +:+ opd (CmpXchg_expected i) +:+ ", " +:+ opd (CmpXchg_replacement i)
  +:+ " " +:+ Atomicity_display (CmpXchg_atomicity i) +:+ " "
  +:+ MemoryOrdering_display (CmpXchg_failure_memory_ordering i) +:+ with_loc (CmpXchg_debugloc i).
Definition AtomicRMW_display (i : AtomicRMW) : string :=
  nm (AtomicRMW_dest i) +:+ " = atomicrmw " +:+ flag (AtomicRMW_volatile i) "volatile "
  +:+ RMWBinOp_display (AtomicRMW_operation i) +:+ " " +:+ opd (AtomicRMW_address i) +:+ ", "
  +:+ opd (AtomicRMW_value i) +:+ " " +:+ Atomicity_display (AtomicRMW_atomicity i)
  +:+ with_loc (AtomicRMW_debugloc i).
Definition GetElementPtr_display (i : GetElementPtr) : string :=
  nm (GetElementPtr_dest i) +:+ " = getelementptr " +:+ flag (GetElementPtr_in_bounds i) "inbounds "
  +:+ opd (GetElementPtr_address i) +:+ each opd (GetElementPtr_indices i)
  +:+ with_loc (GetElementPtr_debugloc i).
Definition ICmp_display (i : ICmp) : string :=
  nm (ICmp_dest i) +:+ " = icmp " +:+ IntPredicate_display (ICmp_predicate i) +:+ " "
  +:+ opd (ICmp_operand0 i) +:+ ", " +:+ opd (ICmp_operand1 i) +:+ with_loc (ICmp_debugloc i).
Definition FCmp_display (i : FCmp) : string :=
  nm (FCmp_dest i) +:+ " = fcmp " +:+ FPPredicate_display (FCmp_predicate i) +:+ " "
  +:+ opd (FCmp_operand0 i) +:+ ", " +:+ opd (FCmp_operand1 i) +:+ with_loc (FCmp_debugloc i).
Definition incoming (p : Operand * Name) : string := "[ " +:+ opd p.1 +:+ ", " +:+ nm p.2 +:+ " ]".
Definition Phi_display (i : Phi) : exec string :=
  let! values := first_then (Phi_incoming_values i) incoming (fun p => ", " +:+ incoming p) in
  Done (nm (Phi_dest i) +:+ " = phi " +:+ tyd (Phi_to_type i) +:+ " " +:+ values +:+ with_loc (Phi_debugloc i)).
Definition Select_display (i : Select) : string :=
  nm (Select_dest i) +:+ " = select " +:+ opd (Select_condition i) +:+ ", " +:+ opd (Select_true_value i)
  +:+ ", " +:+ opd (Select_false_value i) +:+ with_loc (Select_debugloc i).
Definition callee_display (f : InlineAssembly + Operand) : string :=
  match f with inl _ => "<inline assembly>" | inr o => opd o end.
Definition Call_display (i : Call) : string :=
  (match Call_dest i with Some dest => nm dest +:+ " = " | None => "" end)
  +:+ flag (Call_is_tail_call i) "tail " +:+ "call " +:+ callee_display (Call_function i) +:+ "("
  +:+ display_list (fun p => opd p.1) (Call_arguments i) +:+ ")" +:+ with_loc (Call_debugloc i).
Definition VAArg_display (i : VAArg) : string :=
  nm (VAArg_dest i) +:+ " = va_arg " +:+ opd (VAArg_arg_list i) +:+ ", " +:+ tyd (VAArg_cur_type i)
  +:+ with_loc (VAArg_debugloc i).
Definition LandingPad_display (i : LandingPad) : string :=
  nm (LandingPad_dest i) +:+ " = landingpad " +:+ tyd (LandingPad_result_type i)
  +:+ flag (LandingPad_cleanup i) " cleanup" +:+ with_loc (LandingPad_debugloc i).
Definition CatchPad_display (i : CatchPad) : string :=
  nm (CatchPad_dest i) +:+ " = catchpad within " +:+ opd (CatchPad_catch_switch i) +:+ " ["
  +:+ display_list opd (CatchPad_args i) +:+ "]" +:+ with_loc (CatchPad_debugloc i).
Definition CleanupPad_display (i : CleanupPad) : string :=
  nm (CleanupPad_dest i) +:+ " = cleanuppad within " +:+ opd (CleanupPad_parent_pad i) +:+ " ["
  +:+ display_list opd (CleanupPad_args i) +:+ "]" +:+ with_loc (CleanupPad_debugloc i).

Definition Instruction_display (i : Instruction) : exec string :=
  match i with
  | IAdd i => Done (binop_nuw_nsw_display "add" (Add_dest i) (Add_nuw i) (Add_nsw i) (Add_operand0 i) (Add_operand1 i)
      (Add_debugloc i))
  | ISub i => Done (binop_nuw_nsw_display "sub" (Sub_dest i) (Sub_nuw i) (Sub_nsw i) (Sub_operand0 i) (Sub_operand1 i)
      (Sub_debugloc i))
  | IMul i => Done (binop_nuw_nsw_display "mul" (Mul_dest i) (Mul_nuw i) (Mul_nsw i) (Mul_operand0 i) (Mul_operand1 i)
      (Mul_debugloc i))
  | IUDiv i => Done (binop_exact_display "udiv" (UDiv_dest i) (UDiv_exact i) (UDiv_operand0 i) (UDiv_operand1 i) (UDiv_debugloc i))
  | ISDiv i => Done (binop_exact_display "sdiv" (SDiv_dest i) (SDiv_exact i) (SDiv_operand0 i) (SDiv_operand1 i) (SDiv_debugloc i))
  | IURem i => Done (binop_display "urem" (URem_dest i) (URem_operand0 i) (URem_operand1 i) (URem_debugloc i))
  | ISRem i => Done (binop_display "srem" (SRem_dest i) (SRem_operand0 i) (SRem_operand1 i) (SRem_debugloc i))
  | IAnd i => Done (binop_display "and" (And_dest i) (And_operand0 i) (And_operand1 i) (And_debugloc i))
  | IOr i => Done (binop_display "or" (Or_dest i) (Or_operand0 i) (Or_operand1 i) (Or_debugloc i))
  | IXor i => Done (binop_display "xor" (Xor_dest i) (Xor_operand0 i) (Xor_operand1 i) (Xor_debugloc i))
  | IShl i => Done (binop_nuw_nsw_display "shl" (Shl_dest i) (Shl_nuw i) (Shl_nsw i) (Shl_operand0 i) (Shl_operand1 i)
      (Shl_debugloc i))
  | ILShr i => Done (binop_exact_display "lshr" (LShr_dest i) (LShr_exact i) (LShr_operand0 i) (LShr_operand1 i) (LShr_debugloc i))
  | IAShr i => Done (binop_exact_display "ashr" (AShr_dest i) (AShr_exact i) (AShr_operand0 i) (AShr_operand1 i) (AShr_debugloc i))
  | IFAdd i => Done (binop_display "fadd" (FAdd_dest i) (FAdd_operand0 i) (FAdd_operand1 i) (FAdd_debugloc i))
  | IFSub i => Done (binop_display "fsub" (FSub_dest i) (FSub_operand0 i) (FSub_operand1 i) (FSub_debugloc i))
  | IFMul i => Done (binop_display "fmul" (FMul_dest i) (FMul_operand0 i) (FMul_operand1 i) (FMul_debugloc i))
  | IFDiv i => Done (binop_display "fdiv" (FDiv_dest i) (FDiv_operand0 i) (FDiv_operand1 i) (FDiv_debugloc i))
  | IFRem i => Done (binop_display "frem" (FRem_dest i) (FRem_operand0 i) (FRem_operand1 i) (FRem_debugloc i))
  | IFNeg i => Done (unop_display "fneg" (FNeg_dest i) (FNeg_operand i) (FNeg_debugloc i))
  | IExtractElement i => Done (ExtractElement_display i)
  | IInsertElement i => Done (InsertElement_display i)
  | IShuffleVector i => Done (ShuffleVector_display i)
  | IExtractValue i => ExtractValue_display i
  | IInsertValue i => InsertValue_display i
  | IAlloca i => Done (Alloca_display i)
  | ILoad i => Done (Load_display i)
  | IStore i => Done (Store_display i)
  | IFence i => Done (Fence_display i)
  | ICmpXchg i => Done (CmpXchg_display i)
  | IAtomicRMW i => Done (AtomicRMW_display i)
  | IGetElementPtr i => Done (GetElementPtr_display i)
  | ITrunc i => Done (typed_unop_display "trunc" (Trunc_dest i) (Trunc_operand i) (Trunc_to_type i) (Trunc_debugloc i))
  | IZExt i => Done (typed_unop_display "zext" (ZExt_dest i) (ZExt_operand i) (ZExt_to_type i) (ZExt_debugloc i))
  | ISExt i => Done (typed_unop_display "sext" (SExt_dest i) (SExt_operand i) (SExt_to_type i) (SExt_debugloc i))
  | IFPTrunc i => Done (typed_unop_display "fptrunc" (FPTrunc_dest i) (FPTrunc_operand i) (FPTrunc_to_type i) (FPTrunc_debugloc i))
  | IFPExt i => Done (typed_unop_display "fpext" (FPExt_dest i) (FPExt_operand i) (FPExt_to_type i) (FPExt_debugloc i))
  | IFPToUI i => Done (typed_unop_display "fptoui" (FPToUI_dest i) (FPToUI_operand i) (FPToUI_to_type i) (FPToUI_debugloc i))
  | IFPToSI i => Done (typed_unop_display "fptosi" (FPToSI_dest i) (FPToSI_operand i) (FPToSI_to_type i) (FPToSI_debugloc i))
  | IUIToFP i => Done (typed_unop_display "uitofp" (UIToFP_dest i) (UIToFP_operand i) (UIToFP_to_type i) (UIToFP_debugloc i))
  | ISIToFP i => Done (typed_unop_display "sitofp" (SIToFP_dest i) (SIToFP_operand i) (SIToFP_to_type i) (SIToFP_debugloc i))
  | IPtrToInt i => Done (typed_unop_display "ptrtoint" (PtrToInt_dest i) (PtrToInt_operand i) (PtrToInt_to_type i) (PtrToInt_debugloc i))
  | IIntToPtr i => Done (typed_unop_display "inttoptr" (IntToPtr_dest i) (IntToPtr_operand i) (IntToPtr_to_type i) (IntToPtr_debugloc i))
  | IBitCast i => Done (typed_unop_display "bitcast" (BitCast_dest i) (BitCast_operand i) (BitCast_to_type i) (BitCast_debugloc i))
  | IAddrSpaceCast i => Done (typed_unop_display "addrspacecast" (AddrSpaceCast_dest i) (AddrSpaceCast_operand i) (AddrSpaceCast_to_type i) (AddrSpaceCast_debugloc i))
  | IICmp i => Done (ICmp_display i)
  | IFCmp i => Done (FCmp_display i)
  | IPhi i => Phi_display i
  | ISelect i => Done (Select_display i)
  | IFreeze i => Done (unop_display "freeze" (Freeze_dest i) (Freeze_operand i) (Freeze_debugloc i))
  | ICall i => Done (Call_display i)
  | IVAArg i => Done (VAArg_display i)
  | ILandingPad i => Done (LandingPad_display i)
  | ICatchPad i => Done (CatchPad_display i)
  | ICleanupPad i => Done (CleanupPad_display i)
  end.

(** ** Terminators *)

Definition labels_display (l : list Name) : exec string :=
  first_then l (fun n => "label " +:+ nm n) (fun n => ", label " +:+ nm n).
Definition unwind_display (d : option Name) : string :=
  match d with None => "to caller" | Some dest => "label " +:+ nm dest end.
Definition call_display (word : string) (result : Name) (f : InlineAssembly + Operand)
    (args : list (Operand * list ParameterAttribute)) : string :=
  nm result +:+ " = " +:+ word +:+ " " +:+ callee_display f +:+ "(" +:+ display_list (fun p => opd p.1) args +:+ ")".

Definition Ret_display (return_operand : option Operand) (d : option DebugLoc) : string :=
  "ret " +:+ (match return_operand with None => "void" | Some o => opd o end) +:+ with_loc d.
Definition Br_display (dest : Name) (d : option DebugLoc) : string := "br label " +:+ nm dest +:+ with_loc d.
Definition CondBr_display (condition : Operand) (true_dest false_dest : Name) (d : option DebugLoc) : string :=
  "br " +:+ opd condition +:+ ", label " +:+ nm true_dest +:+ ", label " +:+ nm false_dest +:+ with_loc d.
Definition Switch_display (o : Operand) (dests : list (Constant * Name)) (default_dest : Name)
    (d : option DebugLoc) : string :=
  "switch " +:+ opd o +:+ ", label " +:+ nm default_dest +:+ " [ "
  +:+ str_concat (map (fun p => Constant_display p.1 +:+ ", label " +:+ nm p.2 +:+ "; ") dests)
  +:+ "]" +:+ with_loc d.
Definition IndirectBr_display (o : Operand) (possible_dests : list Name) (d : option DebugLoc) : exec string :=
  let! labels := labels_display possible_dests in
  Done ("indirectbr " +:+ opd o +:+ ", [ " +:+ labels +:+ " ]" +:+ with_loc d).
Definition Invoke_display (f : InlineAssembly + Operand) (args : list (Operand * list ParameterAttribute))
    (result return_label exception_label : Name) (d : option DebugLoc) : string :=
  call_display "invoke" result f args +:+ " to label " +:+ nm return_label
  +:+ " unwind label " +:+ nm exception_label +:+ with_loc d.
Definition Resume_display (o : Operand) (d : option DebugLoc) : string := "resume " +:+ opd o +:+ with_loc d.
Definition Unreachable_display (d : option DebugLoc) : string := "unreachable" +:+ with_loc d.
Definition CleanupRet_display (cleanup_pad : Operand) (unwind_dest : option Name) (d : option DebugLoc) : string :=
  "cleanupret from " +:+ opd cleanup_pad +:+ " unwind " +:+ unwind_display unwind_dest +:+ with_loc d.
Definition CatchRet_display (catch_pad : Operand) (successor : Name) (d : option DebugLoc) : string :=
  "catchret from " +:+ opd catch_pad +:+ " to label " +:+ nm successor +:+ with_loc d.
Definition CatchSwitch_display (parent_pad : Operand) (catch_handlers : list Name)
    (default_unwind_dest : option Name) (result : Name) (d : option DebugLoc) : exec string :=
  let! labels := labels_display catch_handlers in
  Done (nm result +:+ " = catchswitch within " +:+ opd parent_pad +:+ " [ " +:+ labels +:+ " ] unwind "
        +:+ unwind_display default_unwind_dest +:+ with_loc d).
Definition CallBr_display (f : InlineAssembly + Operand) (args : list (Operand * list ParameterAttribute))
    (result return_label : Name) (d : option DebugLoc) : string :=
  call_display "callbr" result f args +:+ " to label " +:+ nm return_label +:+ with_loc d.

Definition Terminator_display (t : Terminator) : exec string :=
  match t with
  | TRet o d => Done (Ret_display o d)
  | TBr dest d => Done (Br_display dest d)
  | TCondBr c t f d => Done (CondBr_display c t f d)
  | TSwitch o dests default_dest d => Done (Switch_display o dests default_dest d)
  | TIndirectBr o dests d => IndirectBr_display o dests d
  | TInvoke f _ args _ result return_label exception_label _ _ d =>
      Done (Invoke_display f args result return_label exception_label d)
  | TResume o d => Done (Resume_display o d)
  | TUnreachable d => Done (Unreachable_display d)
  | TCleanupRet pad dest d => Done (CleanupRet_display pad dest d)
  | TCatchRet pad successor d => Done (CatchRet_display pad successor d)
  | TCatchSwitch pad handlers dest result d => CatchSwitch_display pad handlers dest result d
  | TCallBr f args _ result return_label _ _ d => Done (CallBr_display f args result return_label d)
  end.

(** ** Integers read back *)

(** A reader of the text of an integer constant: the width after [i], then [true],
    [false] or a decimal number, taken modulo the range of the width *)
Definition is_space (a : ascii) : bool := Ascii.eqb a " ".
Definition read_value (bits : Z) (s : string) : option Z :=
  if bool_decide (s = "true") then Some 1%Z
  else if bool_decide (s = "false") then Some 0%Z
  else match s with
       | String a digits => if Ascii.eqb a "-" then (fun n => (- n) mod 2 ^ bits)%Z <$> digits_value 0 digits
                            else digits_value 0 s
       | "" => None
       end.
Definition read_int (s : string) : option (Z * Z) :=
  match split_on is_space "" s with
  | [String a width; value] =>
      match (if Ascii.eqb a "i" then digits_value 0 width else None) with
      | Some bits => pair bits <$> read_value bits value
      | None => None
      end
  | _ => None
  end.

Lemma digits_value_nonneg z : (0 <= z)%Z -> digits_value 0 (pretty z) = Some z.
Proof. intros Hz. rewrite pretty_Z_nonneg by done. rewrite digits_value_pretty. f_equal. lia. Qed.

Lemma pretty_neg z : (z < 0)%Z -> pretty z = String "-" (pretty (- z)%Z).
Proof. destruct z; try lia. intros _. done. Qed.

Lemma split_space a b :
  str_mem " " a = false -> str_mem " " b = false -> split_on is_space "" (a +:+ " " +:+ b) = [a; b].
Proof.
  intros Ha Hb. apply (split_join " " [a; b]); [done|]. by repeat constructor.
Qed.

Lemma read_value_nonneg bits z : (0 <= z)%Z -> read_value bits (pretty z) = Some z.
Proof.
  intros Hz. pose proof (digits_value_nonneg z Hz) as Hd. unfold read_value.
  case_bool_decide as E; [by rewrite E in Hd|]. case_bool_decide as E'; [by rewrite E' in Hd|].
  destruct (pretty z) as [|a s] eqn:Ez.
  - rewrite pretty_Z_nonneg in Ez by done. by destruct (pretty_N_nonempty (Z.to_N z)).
  - destruct (Ascii.eqb_spec a "-"); [by subst|done].
Qed.
Lemma read_value_neg bits z : (z < 0)%Z -> read_value bits (pretty z) = Some (z mod 2 ^ bits)%Z.
Proof.
  intros Hz. rewrite pretty_neg by done. unfold read_value. do 2 (case_bool_decide; [done|]). simpl.
  rewrite digits_value_nonneg by lia. simpl. do 2 f_equal. lia.
Qed.

Lemma read_number (bits z : Z) :
  (0 <= bits)%Z -> read_int ("i" +:+ pretty bits +:+ " " +:+ pretty z) = pair bits <$> read_value bits (pretty z).
Proof.
  intros Hb. unfold read_int. rewrite <- (str_app_assoc "i").
  rewrite split_space; [|by apply pretty_free|].
  - change ("i" +:+ pretty bits) with (String "i" (pretty bits)). cbv iota beta.
    change (Ascii.eqb "i" "i") with true. cbv iota. by rewrite digits_value_nonneg.
  - destruct (decide (0 <= z)%Z); [by apply pretty_free|].
    rewrite pretty_neg by lia. simpl. apply pretty_free; [done|lia].
Qed.

Lemma signed_congruent w z : (0 < w)%Z -> (signed w z mod 2 ^ w = z mod 2 ^ w)%Z.
Proof.
  intros Hw. unfold signed. pose proof (Z.pow_pos_nonneg 2 w ltac:(lia) ltac:(lia)).
  destruct (_ <? _)%Z; [by rewrite Z.mod_mod by lia|].
  rewrite <- Zminus_mod_idemp_r, Z_mod_same_full, Z.sub_0_r. by rewrite Z.mod_mod by lia.
Qed.

Lemma int_read_back bits value :
  (0 < bits)%Z -> (0 <= value < 2 ^ bits)%Z -> read_int (int_display bits value) = Some (bits, value).
Proof.
  intros Hb Hv. unfold int_display. destruct (Z.eqb_spec bits 1) as [->|Hne].
  { assert (value = 0 \/ value = 1)%Z as [->| ->] by (simpl in Hv; lia); done. }
  rewrite read_number by lia. destruct (_ || _); [|by rewrite read_value_nonneg by lia].
  destruct (_ <? _)%Z; [|by rewrite read_value_nonneg by lia].
  pose proof (signed_congruent bits value Hb) as Hs. rewrite (Z.mod_small value) in Hs by done.
  destruct (decide (0 <= signed bits value)%Z).
  - rewrite read_value_nonneg by done. simpl. do 2 f_equal. unfold signed in *.
    rewrite (Z.mod_small value) in * by done. destruct (_ <? _)%Z; lia.
  - rewrite read_value_neg by lia. by rewrite Hs.
Qed.

(** C31. The text of an integer constant determines it: whatever the width and
    whether the number is shown as negative or not, reading the text back modulo the
    width gives the constant; so different constants in range have different texts,
    as operands too. *)
Theorem int_text_round_trip bits value bits' value' :
  (0 < bits)%Z -> (0 <= value < 2 ^ bits)%Z -> (0 < bits')%Z -> (0 <= value' < 2 ^ bits')%Z ->
  read_int (Constant_display (CInt bits value)) = Some (bits, value) /\
  (Operand_display (ConstantOperand (CInt bits value)) = Operand_display (ConstantOperand (CInt bits' value')) ->
   bits = bits' /\ value = value').
Proof.
  intros Hb Hv Hb' Hv'. split; [by apply int_read_back|]. simpl. intros E.
  pose proof (int_read_back bits value Hb Hv) as H1. rewrite E in H1.
  rewrite int_read_back in H1 by done. by injection H1.
Qed.

Lemma int_text_round_trip_witness :
  Constant_display (CInt 32 4294967291) = "i32 -5" /\ Constant_display (CInt 16 60000) = "i16 60000" /\
  read_int "i32 -5" = Some (32, 4294967291)%Z.
Proof.
  split; [vm_compute; reflexivity|]. split; [vm_compute; reflexivity|].
  destruct (int_text_round_trip 32 4294967291 16 60000) as [H _]; [lia..|]. exact H.
Defined.

(** ** Instructions show their result *)

(** Printing an instruction panics exactly on a phi without incoming values and on
    an [extractvalue] or [insertvalue] without indices; otherwise the text begins
    with the result, and with a keyword if there is none. *)
Theorem instruction_text i :
  match Instruction_display i with
  | Done t =>
      match try_get_result i with
      | Some n => exists rest, t = Name_display n +:+ " = " +:+ rest
      | None => exists word rest, t = word +:+ rest /\ word ∈ ["store "; "fence "; "call "; "tail call "]
      end
  | Panic => match i with
             | IPhi p => Phi_incoming_values p = []
             | IExtractValue v => ExtractValue_indices v = []
             | IInsertValue v => InsertValue_indices v = []
             | _ => False
             end
  | Diverge => False
  end.
Proof.
  destruct i; simpl; try (eexists; reflexivity).
  - match goal with v : ExtractValue |- _ => unfold ExtractValue_display, first_then; destruct (ExtractValue_indices v) end;
      simpl; [done|]. eexists; reflexivity.
  - match goal with v : InsertValue |- _ => unfold InsertValue_display, first_then; destruct (InsertValue_indices v) end;
      simpl; [done|]. eexists; reflexivity.
  - exists "store ". eexists. split; [reflexivity|left].
  - exists "fence ". eexists. split; [reflexivity|right; left].
  - match goal with p : Phi |- _ => unfold Phi_display, first_then; destruct (Phi_incoming_values p) end;
      simpl; [done|]. eexists; reflexivity.
  - match goal with c : Call |- _ => unfold Call_display; destruct (Call_dest c); [|destruct (Call_is_tail_call c)] end;
      [rewrite str_app_assoc; eexists; reflexivity|exists "tail call "|exists "call "]; eexists; (split; [reflexivity|set_solver]).
Qed.

(** Likewise for terminators: only an [indirectbr] without destinations and a
    [catchswitch] without handlers cannot be printed. *)
Theorem terminator_text t :
  match Terminator_display t with
  | Done s => forall n, term_try_get_result t = Some n -> exists rest, s = Name_display n +:+ " = " +:+ rest
  | Panic => match t with
             | TIndirectBr _ dests _ => dests = []
             | TCatchSwitch _ handlers _ _ _ => handlers = []
             | _ => False
             end
  | Diverge => False
  end.
Proof.
  destruct t as [| | | |o dests d|f fty args ra r rl el fa cc d| | | | |pad handlers u r d|f args ra r rl fa cc d];
    simpl; try done; unfold IndirectBr_display, CatchSwitch_display, labels_display, first_then.
  - by destruct dests.
  - intros n [= <-]. unfold Invoke_display, call_display. rewrite !str_app_assoc. eexists. reflexivity.
  - destruct handlers as [|h hs]; simpl; [done|]. intros n [= <-]. eexists. reflexivity.
  - intros n [= <-]. unfold CallBr_display, call_display. rewrite !str_app_assoc. eexists. reflexivity.
Qed.

(** The result type of a [callbr] is looked for in the type of the callee, which is
    a pointer: asking for it panics. *)
Example callbr_type_panics a :
  Terminator_type true TypesBuilder_new (TCallBr (inl (mk_InlineAssembly (PointerType 0) a)) [] [] (Number 0) (Number 1) [] CC_C None)
  = Panic /\
  Terminator_type true TypesBuilder_new (TCallBr (inr (ConstantOperand (CGlobalReference (NameStr "f") (FuncType VoidType [] false))))
    [] [] (Number 0) (Number 1) [] CC_C None) = Panic.
Proof. by split. Qed.
