(* ===== verification/Locations.v ===== *)
(** * Locations: the order and the text of debug locations

    [Ord], [PartialOrd] and [Display] of [debugloc.rs].  The order is that of the
    tuple of directory, file name, line and column, with the comparisons of
    strings, options and numbers of the standard library. *)

From S2P Require Import Prelude Text Types Layout Constants Instr.
From stdpp Require Import base list strings pretty.
From Stdlib Require Import Ascii ZArith Lia.
#[local] Open Scope string_scope.

(** ** Comparison functions that are total orders *)

Class TotalCompare {A} (cmp : A -> A -> comparison) : Prop := {
  compare_eq a b : cmp a b = Eq <-> a = b;
  compare_opp a b : cmp b a = CompOpp (cmp a b);
  compare_lt_trans a b c : cmp a b = Lt -> cmp b c = Lt -> cmp a c = Lt
}.

(** [None] comes first. *)
Definition option_compare {A} (cmp : A -> A -> comparison) (a b : option A) : comparison :=
  match a, b with
  | None, None => Eq
  | None, Some _ => Lt
  | Some _, None => Gt
  | Some a, Some b => cmp a b
  end.
Definition pair_compare {A B} (ca : A -> A -> comparison) (cb : B -> B -> comparison) (p q : A * B)
    : comparison :=
  match ca p.1 q.1 with Eq => cb p.2 q.2 | c => c end.
(** Strings compare byte by byte. *)
Fixpoint str_compare (s t : string) : comparison :=
  match s, t with
  | "", "" => Eq
  | "", _ => Lt
  | _, "" => Gt
  | String a s', String b t' =>
      match (byte_of a ?= byte_of b)%N with Eq => str_compare s' t' | c => c end
  end.

#[export] Instance Z_total : TotalCompare Z.compare.
Proof.
  split.
  - apply Z.compare_eq_iff.
  - intros a b. apply Z.compare_antisym.
  - intros a b c. rewrite !Z.compare_lt_iff. lia.
Qed.
#[export] Instance option_total {A} cmp `{!@TotalCompare A cmp} : TotalCompare (option_compare cmp).
Proof.
  split.
  - intros [a|] [b|]; simpl; [rewrite compare_eq|..]; naive_solver.
  - intros [a|] [b|]; simpl; try done. apply compare_opp.
  - intros [a|] [b|] [c|]; simpl; try done. apply compare_lt_trans.
Qed.
#[export] Instance pair_total {A B} ca cb `{!@TotalCompare A ca, !@TotalCompare B cb} :
  TotalCompare (pair_compare ca cb).
Proof.
  split; unfold pair_compare.
  - intros [a x] [b y]; simpl. destruct (ca a b) eqn:E.
    + apply compare_eq in E as ->. rewrite compare_eq. naive_solver.
    + split; [done|]. intros [= -> ->]. by rewrite (proj2 (compare_eq b b) eq_refl) in E.
    + split; [done|]. intros [= -> ->]. by rewrite (proj2 (compare_eq b b) eq_refl) in E.
  - intros [a x] [b y]; simpl. rewrite (compare_opp a b). destruct (ca a b); simpl; [apply compare_opp|done..].
  - intros [a x] [b y] [c z]; simpl. destruct (ca a b) eqn:E1; try done.
    + apply compare_eq in E1 as ->. destruct (ca b c); [|done..]. apply compare_lt_trans.
    + destruct (ca b c) eqn:E2; try done.
      * apply compare_eq in E2 as ->. by rewrite E1.
      * by rewrite (compare_lt_trans a b c E1 E2).
Qed.

Lemma byte_compare_eq a b : (byte_of a ?= byte_of b)%N = Eq <-> a = b.
Proof.
  rewrite N.compare_eq_iff. split; [|by intros ->]. intros H%(f_equal ascii_of_N).
  unfold byte_of in H. by rewrite !ascii_N_embedding in H.
Qed.
#[export] Instance str_total : TotalCompare str_compare.
Proof.
  split.
  - intros s. induction s as [|a s IH]; intros [|b t]; simpl; try done.
    destruct (_ ?= _)%N eqn:E.
    + apply byte_compare_eq in E as ->. rewrite IH. naive_solver.
    + split; [done|]. intros [= -> ->]. by rewrite N.compare_refl in E.
    + split; [done|]. intros [= -> ->]. by rewrite N.compare_refl in E.
  - intros s. induction s as [|a s IH]; intros [|b t]; simpl; try done.
    rewrite (N.compare_antisym (byte_of a)). destruct (_ ?= _)%N; simpl; [apply IH|done..].
  - intros s. induction s as [|a s IH]; intros [|b t] [|c u]; simpl; try done.
    destruct (byte_of a ?= byte_of b)%N eqn:E1; try done.
    + apply byte_compare_eq in E1 as ->. destruct (_ ?= _)%N; [apply IH|done..].
    + destruct (byte_of b ?= byte_of c)%N eqn:E2; try done; intros _ _.
      * apply byte_compare_eq in E2 as ->. by rewrite E1.
      * rewrite N.compare_lt_iff in E1, E2. by rewrite (proj2 (N.compare_lt_iff _ _)) by lia.
Qed.

(** ** The order *)

Definition DebugLoc_key (d : DebugLoc) : option string * (string * (Z * option Z)) :=
  (DebugLoc_directory d, (DebugLoc_filename d, (DebugLoc_line d, DebugLoc_col d))).
Definition DebugLoc_cmp (a b : DebugLoc) : comparison :=
  pair_compare (option_compare str_compare)
    (pair_compare str_compare (pair_compare Z.compare (option_compare Z.compare)))
    (DebugLoc_key a) (DebugLoc_key b).

(** The comparison of locations is a total order whose equality is equality. *)
Lemma DebugLoc_total : TotalCompare DebugLoc_cmp.
Proof.
  assert (forall a b, DebugLoc_key a = DebugLoc_key b <-> a = b) as Hk.
  { intros [] []. unfold DebugLoc_key. simpl. naive_solver. }
  split; unfold DebugLoc_cmp.
  - intros a b. by rewrite compare_eq.
  - intros a b. apply compare_opp.
  - intros a b c. apply compare_lt_trans.
Qed.

(** ** The text *)

(** [trim_start_matches] of a pattern that is not empty: as often as it occurs *)
Fixpoint trim_matches (fuel : nat) (pat s : string) : string :=
  match fuel with
  | O => s
  | S f => match Text.strip_prefix pat s with Some s' => trim_matches f pat s' | None => s end
  end.
Definition trim_start_matches (pat s : string) : string := trim_matches (String.length s) pat s.

Fixpoint ends_with_slash (s : string) : bool :=
  match s with "" => false | String a "" => Ascii.eqb a "/" | String _ s' => ends_with_slash s' end.

Definition DebugLoc_display (d : DebugLoc) : string :=
  let pretty_directory := default "" (DebugLoc_directory d) in
  let need_slash := match DebugLoc_directory d with
                    | Some dir => negb (bool_decide (dir = "")) && negb (ends_with_slash dir)
                                  && negb (starts_with "/" (DebugLoc_filename d))
                    | None => false
                    end in
  let pretty_filename :=
    if bool_decide (DebugLoc_filename d = "") then "<no filename available>"
    else if negb (bool_decide (pretty_directory = ""))
    then trim_start_matches pretty_directory (DebugLoc_filename d)
    else DebugLoc_filename d in
  pretty_directory +:+ (if need_slash then "/" else "") +:+ pretty_filename
  +:+ ", line " +:+ pretty (DebugLoc_line d)
  +:+ (match DebugLoc_col d with Some col => ", col " +:+ pretty col | None => "" end).

Example locations_shown :
  DebugLoc_display (mk_DebugLoc 7 (Some 3%Z) "drv.c" (Some "/src")) = "/src/drv.c, line 7, col 3" /\
  DebugLoc_display (mk_DebugLoc 7 None "/src/drv.c" (Some "/src")) = "/src/drv.c, line 7" /\
  DebugLoc_display (mk_DebugLoc 7 None "" None) = "<no filename available>, line 7".
Proof. by vm_compute. Qed.

(** The directory is cut off the file name as often as it occurs there. *)
Example repeated_directory_lost :
  DebugLoc_display (mk_DebugLoc 1 None "/a/a/x.c" (Some "/a")) = "/a/x.c, line 1".
Proof. by vm_compute. Qed.
