(* ===== verification/Llvm.v ===== *)
(** * Llvm: what the readers of [llvm-ir-patched] use of the LLVM C API

    The readers ([from_llvm_ref] and the like) build the data model by calling the
    C API of LLVM 19, which is not part of the repository: it is the class [LLVM],
    one field per function the sources call.  References are machine addresses,
    [0] being null; an [LLVMBool] is a [bool], a C string its bytes, and an array
    that is fetched after its length is one list.  This file also has the state
    monad of the readers, the string wrappers of [from_llvm.rs] and the iterators
    of [iterators.rs]. *)

From S2P Require Import Prelude Text Types.
From stdpp Require Import base gmap list strings.
From Stdlib Require Import ZArith Lia.
#[local] Open Scope string_scope.

(** ** References and enumerations *)

Notation ModuleRef := N (only parsing).
Notation ValueRef := N (only parsing).
Notation TypeRef := N (only parsing).
Notation BlockRef := N (only parsing).
Notation AttributeRef := N (only parsing).
Notation ComdatRef := N (only parsing).
Definition is_null (r : N) : bool := (r =? 0)%N.

Inductive LLVMTypeKind :=
  | LLVMVoidTypeKind | LLVMIntegerTypeKind | LLVMPointerTypeKind | LLVMArrayTypeKind
  | LLVMVectorTypeKind | LLVMScalableVectorTypeKind | LLVMStructTypeKind
  | LLVMFunctionTypeKind | LLVMHalfTypeKind | LLVMBFloatTypeKind | LLVMFloatTypeKind
  | LLVMDoubleTypeKind | LLVMFP128TypeKind | LLVMX86_FP80TypeKind | LLVMPPC_FP128TypeKind
  | LLVMX86_MMXTypeKind | LLVMX86_AMXTypeKind | LLVMMetadataTypeKind | LLVMLabelTypeKind
  | LLVMTokenTypeKind | LLVMTargetExtTypeKind.
#[export] Instance LLVMTypeKind_eq_dec : EqDecision LLVMTypeKind.
Proof. solve_decision. Defined.

(** Where a [match] of the sources has a wildcard, the variants it does not name
    are kept by number. *)
Inductive LLVMValueKind :=
  | LLVMConstantIntValueKind | LLVMConstantFPValueKind | LLVMConstantStructValueKind
  | LLVMConstantArrayValueKind | LLVMConstantVectorValueKind | LLVMConstantDataArrayValueKind
  | LLVMConstantDataVectorValueKind | LLVMConstantPointerNullValueKind
  | LLVMConstantAggregateZeroValueKind | LLVMUndefValueValueKind | LLVMPoisonValueKind
  | LLVMConstantTokenNoneValueKind | LLVMBlockAddressValueKind | LLVMConstantExprValueKind
  | LLVMConstantPtrAuthValueKind | LLVMMetadataAsValueValueKind
  | LLVMOtherValueKind (n : N).
#[export] Instance LLVMValueKind_eq_dec : EqDecision LLVMValueKind.
Proof. solve_decision. Defined.

Inductive LLVMOpcode :=
  | LLVMRet | LLVMBr | LLVMSwitch | LLVMIndirectBr | LLVMInvoke | LLVMResume
  | LLVMUnreachable | LLVMCleanupRet | LLVMCatchRet | LLVMCatchSwitch | LLVMCallBr
  | LLVMAdd | LLVMSub | LLVMMul | LLVMUDiv | LLVMSDiv | LLVMURem | LLVMSRem | LLVMAnd
  | LLVMOr | LLVMXor | LLVMShl | LLVMLShr | LLVMAShr | LLVMFAdd | LLVMFSub | LLVMFMul
  | LLVMFDiv | LLVMFRem | LLVMFNeg | LLVMExtractElement | LLVMInsertElement
  | LLVMShuffleVector | LLVMExtractValue | LLVMInsertValue | LLVMAlloca | LLVMLoad
  | LLVMStore | LLVMFence | LLVMAtomicCmpXchg | LLVMAtomicRMW | LLVMGetElementPtr
  | LLVMTrunc | LLVMZExt | LLVMSExt | LLVMFPTrunc | LLVMFPExt | LLVMFPToUI | LLVMFPToSI
  | LLVMUIToFP | LLVMSIToFP | LLVMPtrToInt | LLVMIntToPtr | LLVMBitCast
  | LLVMAddrSpaceCast | LLVMICmp | LLVMFCmp | LLVMPHI | LLVMSelect | LLVMFreeze | LLVMCall
  | LLVMVAArg | LLVMLandingPad | LLVMCatchPad | LLVMCleanupPad
  | LLVMOtherOpcode (n : N).
#[export] Instance LLVMOpcode_eq_dec : EqDecision LLVMOpcode.
Proof. solve_decision. Defined.

Inductive LLVMIntPredicate :=
  | LLVMIntEQ | LLVMIntNE | LLVMIntUGT | LLVMIntUGE | LLVMIntULT | LLVMIntULE
  | LLVMIntSGT | LLVMIntSGE | LLVMIntSLT | LLVMIntSLE.
Inductive LLVMRealPredicate :=
  | LLVMRealPredicateFalse | LLVMRealOEQ | LLVMRealOGT | LLVMRealOGE | LLVMRealOLT
  | LLVMRealOLE | LLVMRealONE | LLVMRealORD | LLVMRealUNO | LLVMRealUEQ | LLVMRealUGT
  | LLVMRealUGE | LLVMRealULT | LLVMRealULE | LLVMRealUNE | LLVMRealPredicateTrue.
Inductive LLVMAtomicOrdering :=
  | LLVMAtomicOrderingNotAtomic | LLVMAtomicOrderingUnordered | LLVMAtomicOrderingMonotonic
  | LLVMAtomicOrderingAcquire | LLVMAtomicOrderingRelease | LLVMAtomicOrderingAcquireRelease
  | LLVMAtomicOrderingSequentiallyConsistent.
#[export] Instance LLVMAtomicOrdering_eq_dec : EqDecision LLVMAtomicOrdering.
Proof. solve_decision. Defined.
Inductive LLVMAtomicRMWBinOp :=
  | LLVMAtomicRMWBinOpXchg | LLVMAtomicRMWBinOpAdd | LLVMAtomicRMWBinOpSub
  | LLVMAtomicRMWBinOpAnd | LLVMAtomicRMWBinOpNand | LLVMAtomicRMWBinOpOr
  | LLVMAtomicRMWBinOpXor | LLVMAtomicRMWBinOpMax | LLVMAtomicRMWBinOpMin
  | LLVMAtomicRMWBinOpUMax | LLVMAtomicRMWBinOpUMin | LLVMAtomicRMWBinOpFAdd
  | LLVMAtomicRMWBinOpFSub | LLVMAtomicRMWBinOpFMax | LLVMAtomicRMWBinOpFMin
  | LLVMAtomicRMWBinOpUIncWrap | LLVMAtomicRMWBinOpUDecWrap.
Inductive LLVMLinkage :=
  | LLVMExternalLinkage | LLVMAvailableExternallyLinkage | LLVMLinkOnceAnyLinkage
  | LLVMLinkOnceODRLinkage | LLVMLinkOnceODRAutoHideLinkage | LLVMWeakAnyLinkage
  | LLVMWeakODRLinkage | LLVMAppendingLinkage | LLVMInternalLinkage | LLVMPrivateLinkage
  | LLVMDLLImportLinkage | LLVMDLLExportLinkage | LLVMExternalWeakLinkage | LLVMGhostLinkage
  | LLVMCommonLinkage | LLVMLinkerPrivateLinkage | LLVMLinkerPrivateWeakLinkage.
Inductive LLVMVisibility := LLVMDefaultVisibility | LLVMHiddenVisibility | LLVMProtectedVisibility.
Inductive LLVMDLLStorageClass :=
  | LLVMDefaultStorageClass | LLVMDLLImportStorageClass | LLVMDLLExportStorageClass.
Inductive LLVMThreadLocalMode :=
  | LLVMNotThreadLocal | LLVMGeneralDynamicTLSModel | LLVMLocalDynamicTLSModel
  | LLVMInitialExecTLSModel | LLVMLocalExecTLSModel.
Inductive LLVMUnnamedAddr := LLVMNoUnnamedAddr | LLVMLocalUnnamedAddr | LLVMGlobalUnnamedAddr.
Inductive LLVMComdatSelectionKind :=
  | LLVMAnyComdatSelectionKind | LLVMExactMatchComdatSelectionKind
  | LLVMLargestComdatSelectionKind | LLVMNoDuplicatesComdatSelectionKind
  | LLVMSameSizeComdatSelectionKind.
Inductive LLVMCallConv :=
  | LLVMCCallConv | LLVMFastCallConv | LLVMColdCallConv | LLVMGHCCallConv | LLVMHiPECallConv
  | LLVMAnyRegCallConv | LLVMPreserveMostCallConv | LLVMPreserveAllCallConv
  | LLVMSwiftCallConv | LLVMCXXFASTTLSCallConv | LLVMX86StdcallCallConv
  | LLVMX86FastcallCallConv | LLVMX86RegCallCallConv | LLVMX86ThisCallCallConv
  | LLVMX86VectorCallCallConv | LLVMX86INTRCallConv | LLVMX8664SysVCallConv
  | LLVMARMAPCSCallConv | LLVMARMAAPCSCallConv | LLVMARMAAPCSVFPCallConv
  | LLVMMSP430INTRCallConv | LLVMMSP430BUILTINCallConv | LLVMPTXKernelCallConv
  | LLVMPTXDeviceCallConv | LLVMSPIRFUNCCallConv | LLVMSPIRKERNELCallConv
  | LLVMIntelOCLBICallConv | LLVMWin64CallConv | LLVMHHVMCallConv | LLVMHHVMCCallConv
  | LLVMAVRINTRCallConv | LLVMAVRSIGNALCallConv | LLVMAVRBUILTINCallConv
  | LLVMAMDGPUCSCallConv | LLVMAMDGPUESCallConv | LLVMAMDGPUGSCallConv
  | LLVMAMDGPUHSCallConv | LLVMAMDGPULSCallConv | LLVMAMDGPUPSCallConv
  | LLVMAMDGPUVSCallConv | LLVMAMDGPUKERNELCallConv.

(** ** The functions *)

Class LLVM := {
  (** modules *)
  LLVMGetModuleIdentifier : ModuleRef -> string;
  LLVMGetSourceFileName : ModuleRef -> string;
  LLVMGetModuleInlineAsm : ModuleRef -> string;
  LLVMGetDataLayoutStr : ModuleRef -> string;
  LLVMGetTarget : ModuleRef -> option string;
  LLVMGetFirstFunction : ModuleRef -> ValueRef;
  LLVMGetNextFunction : ValueRef -> ValueRef;
  LLVMGetFirstGlobal : ModuleRef -> ValueRef;
  LLVMGetNextGlobal : ValueRef -> ValueRef;
  LLVMGetFirstGlobalAlias : ModuleRef -> ValueRef;
  LLVMGetNextGlobalAlias : ValueRef -> ValueRef;
  LLVMGetFirstGlobalIFunc : ModuleRef -> ValueRef;
  LLVMGetNextGlobalIFunc : ValueRef -> ValueRef;
  (** global objects *)
  LLVMIsDeclaration : ValueRef -> bool;
  LLVMGlobalGetValueType : ValueRef -> TypeRef;
  LLVMGetLinkage : ValueRef -> LLVMLinkage;
  LLVMGetVisibility : ValueRef -> LLVMVisibility;
  LLVMGetDLLStorageClass : ValueRef -> LLVMDLLStorageClass;
  LLVMGetThreadLocalMode : ValueRef -> LLVMThreadLocalMode;
  LLVMGetUnnamedAddress : ValueRef -> LLVMUnnamedAddr;
  LLVMIsGlobalConstant : ValueRef -> bool;
  LLVMGetInitializer : ValueRef -> ValueRef;
  LLVMGetSection : ValueRef -> option string;
  LLVMGetComdat : ValueRef -> ComdatRef;
  LLVMGetComdatSelectionKind : ComdatRef -> LLVMComdatSelectionKind;
  LLVMGetAlignment : ValueRef -> Z;
  LLVMAliasGetAliasee : ValueRef -> ValueRef;
  LLVMGetGlobalIFuncResolver : ValueRef -> ValueRef;
  (** functions *)
  LLVMIsAFunction : ValueRef -> ValueRef;
  LLVMGetFirstParam : ValueRef -> ValueRef;
  LLVMGetNextParam : ValueRef -> ValueRef;
  LLVMGetFirstBasicBlock : ValueRef -> BlockRef;
  LLVMGetNextBasicBlock : BlockRef -> BlockRef;
  LLVMGetFunctionCallConv : ValueRef -> Z;
  LLVMGetGC : ValueRef -> option string;
  LLVMHasPersonalityFn : ValueRef -> bool;
  LLVMGetPersonalityFn : ValueRef -> ValueRef;
  LLVMCallConv_u32 : LLVMCallConv -> Z;
  (** attributes *)
  LLVMAttributeReturnIndex : Z;
  LLVMAttributeFunctionIndex : Z;
  LLVMGetEnumAttributeKindForName : string -> Z;
  LLVMGetAttributesAtIndex : ValueRef -> Z -> list AttributeRef;
  LLVMGetCallSiteAttributes : ValueRef -> Z -> list AttributeRef;
  LLVMIsEnumAttribute : AttributeRef -> bool;
  LLVMGetEnumAttributeKind : AttributeRef -> Z;
  LLVMGetEnumAttributeValue : AttributeRef -> Z;
  LLVMIsStringAttribute : AttributeRef -> bool;
  LLVMGetStringAttributeKind : AttributeRef -> string;
  LLVMGetStringAttributeValue : AttributeRef -> string;
  LLVMIsTypeAttribute : AttributeRef -> bool;
  LLVMGetTypeAttributeValue : AttributeRef -> TypeRef;
  (** blocks *)
  LLVMGetBasicBlockName : BlockRef -> string;
  LLVMGetFirstInstruction : BlockRef -> ValueRef;
  LLVMGetNextInstruction : ValueRef -> ValueRef;
  LLVMGetBasicBlockTerminator : BlockRef -> ValueRef;
  LLVMValueIsBasicBlock : ValueRef -> bool;
  LLVMValueAsBasicBlock : ValueRef -> BlockRef;
  (** values *)
  LLVMGetValueName2 : ValueRef -> string;
  LLVMGetValueKind : ValueRef -> LLVMValueKind;
  LLVMTypeOf : ValueRef -> TypeRef;
  LLVMIsAConstant : ValueRef -> ValueRef;
  LLVMIsAGlobalValue : ValueRef -> ValueRef;
  LLVMIsAInlineAsm : ValueRef -> ValueRef;
  LLVMGetNumOperands : ValueRef -> Z;
  LLVMGetOperand : ValueRef -> Z -> ValueRef;
  LLVMGetDebugLocLine : ValueRef -> Z;
  LLVMGetDebugLocColumn : ValueRef -> Z;
  LLVMGetDebugLocFilename : ValueRef -> option string;
  LLVMGetDebugLocDirectory : ValueRef -> option string;
  (** constants; a floating-point value is its bit pattern *)
  LLVMConstIntGetZExtValue : ValueRef -> Z;
  LLVMConstRealGetDouble : ValueRef -> Z;
  LLVMGetAggregateElement : ValueRef -> Z -> ValueRef;
  LLVMGetConstOpcode : ValueRef -> LLVMOpcode;
  LLVMGetConstantPtrAuthPointer : ValueRef -> ValueRef;
  LLVMGetConstantPtrAuthKey : ValueRef -> ValueRef;
  LLVMGetConstantPtrAuthDiscriminator : ValueRef -> ValueRef;
  LLVMGetConstantPtrAuthAddrDiscriminator : ValueRef -> ValueRef;
  (** instructions *)
  LLVMGetInstructionOpcode : ValueRef -> LLVMOpcode;
  LLVMGetNUW : ValueRef -> bool;
  LLVMGetNSW : ValueRef -> bool;
  LLVMGetExact : ValueRef -> bool;
  LLVMIsInBounds : ValueRef -> bool;
  LLVMGetVolatile : ValueRef -> bool;
  LLVMGetOrdering : ValueRef -> LLVMAtomicOrdering;
  LLVMIsAtomicSingleThread : ValueRef -> bool;
  LLVMGetCmpXchgSuccessOrdering : ValueRef -> LLVMAtomicOrdering;
  LLVMGetCmpXchgFailureOrdering : ValueRef -> LLVMAtomicOrdering;
  LLVMGetWeak : ValueRef -> bool;
  LLVMGetAtomicRMWBinOp : ValueRef -> LLVMAtomicRMWBinOp;
  LLVMGetAllocatedType : ValueRef -> TypeRef;
  LLVMGetGEPSourceElementType : ValueRef -> TypeRef;
  LLVMGetNumIndices : ValueRef -> Z;
  LLVMGetIndices : ValueRef -> list Z;
  LLVMGetNumMaskElements : ValueRef -> Z;
  LLVMGetUndefMaskElem : Z;
  LLVMGetMaskValue : ValueRef -> Z -> Z;
  LLVMGetICmpPredicate : ValueRef -> LLVMIntPredicate;
  LLVMGetFCmpPredicate : ValueRef -> LLVMRealPredicate;
  LLVMCountIncoming : ValueRef -> Z;
  LLVMGetIncomingValue : ValueRef -> Z -> ValueRef;
  LLVMGetIncomingBlock : ValueRef -> Z -> BlockRef;
  LLVMGetCalledValue : ValueRef -> ValueRef;
  LLVMGetCalledFunctionType : ValueRef -> TypeRef;
  LLVMGetNumArgOperands : ValueRef -> Z;
  LLVMGetArgOperand : ValueRef -> Z -> ValueRef;
  LLVMGetInstructionCallConv : ValueRef -> Z;
  LLVMIsTailCall : ValueRef -> bool;
  LLVMGetInlineAsmAsmString : ValueRef -> option string;
  LLVMGetNumClauses : ValueRef -> Z;
  LLVMGetClause : ValueRef -> Z -> ValueRef;
  LLVMIsCleanup : ValueRef -> bool;
  LLVMGetParentCatchSwitch : ValueRef -> ValueRef;
  (** terminators *)
  LLVMGetNumSuccessors : ValueRef -> Z;
  LLVMGetSuccessor : ValueRef -> Z -> BlockRef;
  LLVMGetSwitchDefaultDest : ValueRef -> BlockRef;
  LLVMGetNormalDest : ValueRef -> BlockRef;
  LLVMGetUnwindDest : ValueRef -> BlockRef;
  LLVMGetHandlers : ValueRef -> list BlockRef;
  (** types *)
  LLVMGetTypeKind : TypeRef -> LLVMTypeKind;
  LLVMGetIntTypeWidth : TypeRef -> Z;
  LLVMGetPointerAddressSpace : TypeRef -> Z;
  LLVMGetElementType : TypeRef -> TypeRef;
  LLVMGetArrayLength2 : TypeRef -> Z;
  LLVMGetVectorSize : TypeRef -> Z;
  LLVMIsLiteralStruct : TypeRef -> bool;
  LLVMGetStructName : TypeRef -> option string;
  LLVMIsOpaqueStruct : TypeRef -> bool;
  LLVMGetStructElementTypes : TypeRef -> list TypeRef;
  LLVMIsPackedStruct : TypeRef -> bool;
  LLVMGetReturnType : TypeRef -> TypeRef;
  LLVMGetParamTypes : TypeRef -> list TypeRef;
  LLVMIsFunctionVarArg : TypeRef -> bool
}.

(** How deep the recursions of the readers go and how long lists are followed:
    running out is [Diverge]. *)
Class Bounds := {
  list_bound : nat;
  type_depth : nat;
  constant_depth : nat
}.

(** ** Readers: state passing with panics *)

Definition reader (S A : Type) : Type := S -> exec (A * S).

Definition r_ret {S A} (a : A) : reader S A := fun s => Done (a, s).
Definition r_bind {S A B} (m : reader S A) (k : A -> reader S B) : reader S B := fun s =>
  let! (a, s') := m s in k a s'.
Definition r_panic {S A} : reader S A := fun _ => Panic.
Definition r_lift {S A} (m : exec A) : reader S A := fun s => let! a := m in Done (a, s).
Definition r_get {S} : reader S S := fun s => Done (s, s).
Definition r_assert {S} (b : bool) : reader S unit := if b then r_ret tt else r_panic.
Notation "'let&' x ':=' m 'in' k" := (r_bind m (fun x => k))
  (at level 10, x pattern, m at level 100, k at level 200) : skv_scope.

(** [.map(..).collect()] *)
Fixpoint r_map {S A B} (f : A -> reader S B) (l : list A) : reader S (list B) :=
  match l with
  | [] => r_ret []
  | a :: l' => let& b := f a in let& bs := r_map f l' in r_ret (b :: bs)
  end.

Lemma r_bind_done {S A B} (m : reader S A) (k : A -> reader S B) s b s' :
  r_bind m k s = Done (b, s') <-> exists a s1, m s = Done (a, s1) /\ k a s1 = Done (b, s').
Proof.
  unfold r_bind. rewrite exec_bind_done. split.
  - intros ([a s1] & ? & ?). eauto.
  - intros (a & s1 & ? & ?). exists (a, s1). eauto.
Qed.

Lemma r_lift_done {S A} (m : exec A) (s : S) a s' :
  r_lift m s = Done (a, s') <-> m = Done a /\ s' = s.
Proof. unfold r_lift. rewrite exec_bind_done. naive_solver. Qed.

Lemma r_assert_done {S} b (s : S) u s' : r_assert b s = Done (u, s') <-> b = true /\ s' = s.
Proof. destruct b, u; unfold r_assert, r_ret, r_panic; naive_solver. Qed.

Lemma r_map_done {S A B} (f : A -> reader S B) (P : A -> B -> Prop) (I : S -> Prop) l s bs s' :
  (forall a s b s', a ∈ l -> I s -> f a s = Done (b, s') -> P a b /\ I s') ->
  I s -> r_map f l s = Done (bs, s') -> Forall2 P l bs /\ I s'.
Proof.
  revert s bs. induction l as [|a l IH]; intros s bs Hf Hs H; simpl in H.
  - injection H as <- <-. split; [constructor|done].
  - apply r_bind_done in H as (b & s1 & Hb & H). apply r_bind_done in H as (bs' & s2 & Hbs & H).
    injection H as <- <-. destruct (Hf a s b s1 (list_elem_of_here _ _) Hs Hb) as [HP Hs1].
    destruct (IH s1 bs') as [HF Hs2]; [|done..|].
    + intros a' s3 b' s4 Ha'. apply Hf. by right.
    + split; [by constructor|done].
Qed.

(** Invert the success of a reader down to its steps. *)
Ltac inv_r :=
  repeat match goal with
  | H : r_bind _ _ _ = Done (_, _) |- _ => apply r_bind_done in H as (? & ? & ? & ?)
  | H : r_lift _ _ = Done (_, _) |- _ => apply r_lift_done in H as [? ->]
  | H : r_assert _ _ = Done (_, _) |- _ => apply r_assert_done in H as [? ->]
  | H : r_ret _ _ = Done (_, _) |- _ => unfold r_ret in H; simplify_eq
  | H : r_panic _ = Done _ |- _ => done
  end.

(** ** [from_llvm.rs]: strings *)

(** [raw_to_string]: a C string that is not UTF-8 stops the reader. *)
Definition raw_to_string (raw : string) : exec string := if utf8_valid raw then Done raw else Panic.

(** [wrap!] and [wrap_with_len!]; a null argument fails the [debug_assert!], and
    without it LLVM dereferences null. *)
Definition wrap (f : N -> string) (arg : N) : exec string :=
  if is_null arg then Panic else raw_to_string (f arg).
(** [wrap_maybe_null!] and [wrap_with_len_maybe_null!] *)
Definition wrap_maybe_null (f : N -> option string) (arg : N) : exec (option string) :=
  if is_null arg then Panic else
  match f arg with
  | None => Done None
  | Some raw => let! s := raw_to_string raw in Done (Some s)
  end.

Section api.
Context `{LLVM, Bounds}.

Definition get_value_name : ValueRef -> exec string := wrap LLVMGetValueName2.
Definition get_bb_name : BlockRef -> exec string := wrap LLVMGetBasicBlockName.

(** [op_to_bb] *)
Definition op_to_bb (op : ValueRef) : exec BlockRef :=
  if LLVMValueIsBasicBlock op then Done (LLVMValueAsBasicBlock op) else Panic.

(** ** [iterators.rs] *)

(** [iterator!]: from the first element along [next] to null *)
Fixpoint iterate (fuel : nat) (next : N -> N) (current : N) : exec (list N) :=
  if is_null current then Done [] else
  match fuel with
  | O => Diverge
  | S f => let! l := iterate f next (next current) in Done (current :: l)
  end.

Definition get_parameters (func : ValueRef) : exec (list ValueRef) :=
  iterate list_bound LLVMGetNextParam (LLVMGetFirstParam func).
Definition get_basic_blocks (func : ValueRef) : exec (list BlockRef) :=
  iterate list_bound LLVMGetNextBasicBlock (LLVMGetFirstBasicBlock func).
Definition get_instructions (bb : BlockRef) : exec (list ValueRef) :=
  iterate list_bound LLVMGetNextInstruction (LLVMGetFirstInstruction bb).
Definition is_defined (func : ValueRef) : bool := negb (LLVMIsDeclaration func).
Definition get_functions (m : ModuleRef) : exec (list ValueRef) :=
  iterate list_bound LLVMGetNextFunction (LLVMGetFirstFunction m).
Definition get_defined_functions (m : ModuleRef) : exec (list ValueRef) :=
  let! l := get_functions m in Done (filter (fun f => is_defined f = true) l).
Definition get_declared_functions (m : ModuleRef) : exec (list ValueRef) :=
  let! l := get_functions m in Done (filter (fun f => is_defined f = false) l).
Definition get_globals (m : ModuleRef) : exec (list ValueRef) :=
  iterate list_bound LLVMGetNextGlobal (LLVMGetFirstGlobal m).
Definition get_global_aliases (m : ModuleRef) : exec (list ValueRef) :=
  iterate list_bound LLVMGetNextGlobalAlias (LLVMGetFirstGlobalAlias m).
Definition get_global_ifuncs (m : ModuleRef) : exec (list ValueRef) :=
  iterate list_bound LLVMGetNextGlobalIFunc (LLVMGetFirstGlobalIFunc m).

(** [AllButLastIterator]: an item is passed on when another one follows. *)
Fixpoint all_but_last {A} (l : list A) : list A :=
  match l with
  | [] => []
  | item :: l' => match l' with [] => [] | _ => item :: all_but_last l' end
  end.
End api.
