(* ===== verification/ReadSamples.v ===== *)
(** * ReadSamples: small modules behind the C API

    An implementation of the class [LLVM] from a table of objects, enough for the
    examples and witnesses about the readers. *)

From S2P Require Import Prelude Text Types Llvm.
From stdpp Require Import base gmap list strings.
From Stdlib Require Import ZArith.
#[local] Open Scope string_scope.

(** The objects of a module: all of them are addresses *)
Record Sample := mk_Sample {
  s_functions : list N;
  s_globals : list N;
  s_params : N -> list N;
  s_blocks : N -> list N;
  s_insts : N -> list N;
  s_name : N -> string;
  s_opcode : N -> LLVMOpcode;
  s_operands : N -> list N;
  s_type : N -> N;
  s_value_type : N -> N;
  s_return_type : N -> N;
  s_type_kind : N -> LLVMTypeKind;
  s_global : N -> bool;
  s_initializer : N -> N;
  s_int : N -> option Z;
  s_aggregate : N -> bool
}.

(** The element after [k], or null *)
Fixpoint next_in (l : list N) (k : N) : N :=
  match l with
  | [] => 0%N
  | x :: l' => if (x =? k)%N then hd 0%N l' else next_in l' k
  end.
Fixpoint list_find_next (k : N) (ls : list (list N)) : N :=
  match ls with
  | [] => 0%N
  | l :: ls' => if bool_decide (k ∈ l) then next_in l k else list_find_next k ls'
  end.

Definition sample_llvm (t : Sample) : LLVM := {|
  LLVMGetModuleIdentifier := fun _ => "";
  LLVMGetSourceFileName := fun _ => "";
  LLVMGetModuleInlineAsm := fun _ => "";
  LLVMGetDataLayoutStr := fun _ => "";
  LLVMGetTarget := fun _ => None;
  LLVMGetFirstFunction := fun m => hd 0%N (s_functions t);
  LLVMGetNextFunction := next_in (s_functions t);
  LLVMGetFirstGlobal := fun m => hd 0%N (s_globals t);
  LLVMGetNextGlobal := next_in (s_globals t);
  LLVMGetFirstGlobalAlias := fun _ => 0%N;
  LLVMGetNextGlobalAlias := fun _ => 0%N;
  LLVMGetFirstGlobalIFunc := fun _ => 0%N;
  LLVMGetNextGlobalIFunc := fun _ => 0%N;
  LLVMIsDeclaration := fun f => bool_decide (s_blocks t f = []);
  LLVMGlobalGetValueType := s_value_type t;
  LLVMGetLinkage := fun _ => LLVMExternalLinkage;
  LLVMGetVisibility := fun _ => LLVMDefaultVisibility;
  LLVMGetDLLStorageClass := fun _ => LLVMDefaultStorageClass;
  LLVMGetThreadLocalMode := fun _ => LLVMNotThreadLocal;
  LLVMGetUnnamedAddress := fun _ => LLVMNoUnnamedAddr;
  LLVMIsGlobalConstant := fun _ => false;
  LLVMGetInitializer := s_initializer t;
  LLVMGetSection := fun _ => None;
  LLVMGetComdat := fun _ => 0%N;
  LLVMGetComdatSelectionKind := fun _ => LLVMAnyComdatSelectionKind;
  LLVMGetAlignment := fun _ => 0%Z;
  LLVMAliasGetAliasee := fun _ => 0%N;
  LLVMGetGlobalIFuncResolver := fun _ => 0%N;
  LLVMIsAFunction := fun f => f;
  LLVMGetFirstParam := fun f => hd 0%N (s_params t f);
  LLVMGetNextParam := next_in (concat (map (s_params t) (s_functions t)));
  LLVMGetFirstBasicBlock := fun f => hd 0%N (s_blocks t f);
  LLVMGetNextBasicBlock := next_in (concat (map (s_blocks t) (s_functions t)));
  LLVMGetFunctionCallConv := fun _ => 0%Z;
  LLVMGetGC := fun _ => None;
  LLVMHasPersonalityFn := fun _ => false;
  LLVMGetPersonalityFn := fun _ => 0%N;
  LLVMCallConv_u32 := fun _ => 0%Z;
  LLVMAttributeReturnIndex := 0%Z;
  LLVMAttributeFunctionIndex := 0%Z;
  LLVMGetEnumAttributeKindForName := fun _ => 0%Z;
  LLVMGetAttributesAtIndex := fun _ _ => [];
  LLVMGetCallSiteAttributes := fun _ _ => [];
  LLVMIsEnumAttribute := fun _ => false;
  LLVMGetEnumAttributeKind := fun _ => 0%Z;
  LLVMGetEnumAttributeValue := fun _ => 0%Z;
  LLVMIsStringAttribute := fun _ => false;
  LLVMGetStringAttributeKind := fun _ => "";
  LLVMGetStringAttributeValue := fun _ => "";
  LLVMIsTypeAttribute := fun _ => false;
  LLVMGetTypeAttributeValue := fun _ => 0%N;
  LLVMGetBasicBlockName := s_name t;
  LLVMGetFirstInstruction := fun b => hd 0%N (s_insts t b);
  LLVMGetNextInstruction := fun i => list_find_next i (map (s_insts t) (concat (map (s_blocks t) (s_functions t))));
  LLVMGetBasicBlockTerminator := fun b => default 0%N (last (s_insts t b));
  LLVMValueIsBasicBlock := fun _ => true;
  LLVMValueAsBasicBlock := fun b => b;
  LLVMGetValueName2 := s_name t;
  LLVMGetValueKind := fun v => 
    match s_int t v with
    | Some _ => LLVMConstantIntValueKind
    | None => if s_aggregate t v then LLVMConstantStructValueKind else LLVMOtherValueKind 0%N
    end;
  LLVMTypeOf := s_type t;
  LLVMIsAConstant := fun v => if s_global t v || s_aggregate t v || bool_decide (is_Some (s_int t v)) then v else 0%N;
  LLVMIsAGlobalValue := fun v => if s_global t v then v else 0%N;
  LLVMIsAInlineAsm := fun _ => 0%N;
  LLVMGetNumOperands := fun v => Z.of_nat (length (s_operands t v));
  LLVMGetOperand := fun v i => default 0%N (s_operands t v !! Z.to_nat i);
  LLVMGetDebugLocLine := fun _ => 0%Z;
  LLVMGetDebugLocColumn := fun _ => 0%Z;
  LLVMGetDebugLocFilename := fun _ => None;
  LLVMGetDebugLocDirectory := fun _ => None;
  LLVMConstIntGetZExtValue := fun v => default 0%Z (s_int t v);
  LLVMConstRealGetDouble := fun _ => 0%Z;
  LLVMGetAggregateElement := fun _ _ => 0%N;
  LLVMGetConstOpcode := fun _ => LLVMUnreachable;
  LLVMGetConstantPtrAuthPointer := fun _ => 0%N;
  LLVMGetConstantPtrAuthKey := fun _ => 0%N;
  LLVMGetConstantPtrAuthDiscriminator := fun _ => 0%N;
  LLVMGetConstantPtrAuthAddrDiscriminator := fun _ => 0%N;
  LLVMGetInstructionOpcode := s_opcode t;
  LLVMGetNUW := fun _ => false;
  LLVMGetNSW := fun _ => false;
  LLVMGetExact := fun _ => false;
  LLVMIsInBounds := fun _ => false;
  LLVMGetVolatile := fun _ => false;
  LLVMGetOrdering := fun _ => LLVMAtomicOrderingNotAtomic;
  LLVMIsAtomicSingleThread := fun _ => false;
  LLVMGetCmpXchgSuccessOrdering := fun _ => LLVMAtomicOrderingNotAtomic;
  LLVMGetCmpXchgFailureOrdering := fun _ => LLVMAtomicOrderingNotAtomic;
  LLVMGetWeak := fun _ => false;
  LLVMGetAtomicRMWBinOp := fun _ => LLVMAtomicRMWBinOpXchg;
  LLVMGetAllocatedType := fun _ => 0%N;
  LLVMGetGEPSourceElementType := fun _ => 0%N;
  LLVMGetNumIndices := fun _ => 0%Z;
  LLVMGetIndices := fun _ => [];
  LLVMGetNumMaskElements := fun _ => 0%Z;
  LLVMGetUndefMaskElem := 0%Z;
  LLVMGetMaskValue := fun _ _ => 0%Z;
  LLVMGetICmpPredicate := fun _ => LLVMIntEQ;
  LLVMGetFCmpPredicate := fun _ => LLVMRealOEQ;
  LLVMCountIncoming := fun _ => 0%Z;
  LLVMGetIncomingValue := fun _ _ => 0%N;
  LLVMGetIncomingBlock := fun _ _ => 0%N;
  LLVMGetCalledValue := fun v => default 0%N (last (s_operands t v));
  LLVMGetCalledFunctionType := s_value_type t;
  LLVMGetNumArgOperands := fun v => (Z.of_nat (length (s_operands t v)) - 1)%Z;
  LLVMGetArgOperand := fun _ _ => 0%N;
  LLVMGetInstructionCallConv := fun _ => 0%Z;
  LLVMIsTailCall := fun _ => false;
  LLVMGetInlineAsmAsmString := fun _ => None;
  LLVMGetNumClauses := fun _ => 0%Z;
  LLVMGetClause := fun _ _ => 0%N;
  LLVMIsCleanup := fun _ => false;
  LLVMGetParentCatchSwitch := fun _ => 0%N;
  LLVMGetNumSuccessors := fun _ => 0%Z;
  LLVMGetSuccessor := fun _ _ => 0%N;
  LLVMGetSwitchDefaultDest := fun _ => 0%N;
  LLVMGetNormalDest := fun v => 0%N;
  LLVMGetUnwindDest := fun _ => 0%N;
  LLVMGetHandlers := fun _ => [];
  LLVMGetTypeKind := s_type_kind t;
  LLVMGetIntTypeWidth := fun _ => 64%Z;
  LLVMGetPointerAddressSpace := fun _ => 0%Z;
  LLVMGetElementType := s_type t;
  LLVMGetArrayLength2 := fun _ => 3%Z;
  LLVMGetVectorSize := fun _ => 0%Z;
  LLVMIsLiteralStruct := fun _ => false;
  LLVMGetStructName := fun ty => Some (s_name t ty);
  LLVMIsOpaqueStruct := fun _ => false;
  LLVMGetStructElementTypes := s_operands t;
  LLVMIsPackedStruct := fun _ => false;
  LLVMGetReturnType := s_return_type t;
  LLVMGetParamTypes := fun _ => [];
  LLVMIsFunctionVarArg := fun _ => false
|}.

#[export] Instance sample_bounds : Bounds := {| list_bound := 20; type_depth := 5; constant_depth := 5 |}.

(** ** A function

    The function [f], which takes an unnamed pointer: an unnamed block that loads,
    stores back and branches to the block [next], which adds and returns. *)

Definition f_sample : Sample := {|
  s_functions := [10%N];
  s_globals := [];
  s_params := fun f => if (f =? 10)%N then [11%N] else [];
  s_blocks := fun f => if (f =? 10)%N then [21%N; 22%N] else [];
  s_insts := fun b => if (b =? 21)%N then [31%N; 32%N; 33%N]
                      else if (b =? 22)%N then [34%N; 35%N] else [];
  s_name := fun v => if (v =? 10)%N then "f" else if (v =? 22)%N then "next"
                     else if (v =? 34)%N then "x" else "";
  s_opcode := fun v => if (v =? 31)%N then LLVMLoad else if (v =? 32)%N then LLVMStore
                       else if (v =? 33)%N then LLVMBr else if (v =? 34)%N then LLVMAdd else LLVMRet;
  s_operands := fun v => if (v =? 31)%N then [11%N] else if (v =? 32)%N then [31%N; 11%N]
                         else if (v =? 33)%N then [22%N] else if (v =? 34)%N then [31%N; 31%N]
                         else if (v =? 35)%N then [34%N] else [];
  s_type := fun v => if (v =? 11)%N then 101%N else 100%N;
  s_value_type := fun _ => 102%N;
  s_return_type := fun _ => 100%N;
  s_type_kind := fun ty => if (ty =? 101)%N then LLVMPointerTypeKind
                           else if (ty =? 102)%N then LLVMFunctionTypeKind else LLVMIntegerTypeKind;
  s_global := fun _ => false;
  s_initializer := fun _ => 0%N;
  s_int := fun _ => None;
  s_aggregate := fun _ => false
|}.

(** ** A module

    A declared function, a global variable without a name, and a global variable
    [p] that is initialised with its address; [named] says whether the function has
    a name. *)

Definition g_sample (named : bool) : Sample := {|
  s_functions := [10%N];
  s_globals := [50%N; 51%N];
  s_params := fun _ => [];
  s_blocks := fun _ => [];
  s_insts := fun _ => [];
  s_name := fun v => if (v =? 10)%N then (if named then "g" else "") else if (v =? 51)%N then "p" else "";
  s_opcode := fun _ => LLVMUnreachable;
  s_operands := fun _ => [];
  s_type := fun _ => 101%N;
  s_value_type := fun v => if (v =? 10)%N then 102%N else 100%N;
  s_return_type := fun _ => 100%N;
  s_type_kind := fun ty => if (ty =? 101)%N then LLVMPointerTypeKind
                           else if (ty =? 102)%N then LLVMFunctionTypeKind else LLVMIntegerTypeKind;
  s_global := fun v => (v =? 50)%N || (v =? 51)%N || (v =? 10)%N;
  s_initializer := fun v => if (v =? 51)%N then 50%N else 0%N;
  s_int := fun _ => None;
  s_aggregate := fun _ => false
|}.

(** ** A driver

    The function [f] allocates 16 bytes with [kmalloc], stores a word there, frees
    the allocation with [kfree] and returns. *)

Definition k_sample : Sample := {|
  s_functions := [12%N; 13%N; 10%N];
  s_globals := [];
  s_params := fun _ => [];
  s_blocks := fun f => if (f =? 10)%N then [21%N] else [];
  s_insts := fun b => if (b =? 21)%N then [31%N; 32%N; 33%N; 34%N] else [];
  s_name := fun v => if (v =? 10)%N then "f" else if (v =? 12)%N then "kmalloc"
                     else if (v =? 13)%N then "kfree" else if (v =? 21)%N then "entry" else "";
  s_opcode := fun v => if (v =? 32)%N then LLVMStore else if (v =? 34)%N then LLVMRet else LLVMCall;
  s_operands := fun v => if (v =? 31)%N then [60%N; 12%N] else if (v =? 32)%N then [61%N; 31%N]
                         else if (v =? 33)%N then [31%N; 13%N] else [];
  s_type := fun v => if (v =? 60)%N || (v =? 61)%N then 100%N else 101%N;
  s_value_type := fun v => if (v =? 12)%N || (v =? 31)%N then 102%N else 103%N;
  s_return_type := fun ty => if (ty =? 102)%N then 101%N else 104%N;
  s_type_kind := fun ty => if (ty =? 101)%N then LLVMPointerTypeKind
                           else if (ty =? 100)%N then LLVMIntegerTypeKind
                           else if (ty =? 104)%N then LLVMVoidTypeKind else LLVMFunctionTypeKind;
  s_global := fun v => (v =? 10)%N || (v =? 12)%N || (v =? 13)%N;
  s_initializer := fun _ => 0%N;
  s_int := fun v => if (v =? 60)%N then Some 16%Z else if (v =? 61)%N then Some 7%Z else None;
  s_aggregate := fun _ => false
|}.
