(* ===== verification/ReadTypes.v ===== *)
(** * ReadTypes: the type reader of [types.rs]

    [TypesBuilder::type_from_llvm_ref] and its two helpers, over the interning
    tables of [Types].  The recursion goes through the C API, so it has a bound on
    its depth; a type is read once and then found by its reference. *)

From S2P Require Import Prelude Text Types Llvm ReadSamples.
From stdpp Require Import base gmap list strings.
From Stdlib Require Import ZArith Lia.
#[local] Open Scope string_scope.

(** [TypesBuilder]: the tables and the cache of references *)
Record TypesBuilder := mk_TypesBuilder {
  tb_types : Types;
  llvm_type_map : gmap N Ty
}.
Definition TypesBuilder_empty : TypesBuilder := mk_TypesBuilder TypesBuilder_new ∅.

(** [TypesBuilder::build] *)
Definition build (b : TypesBuilder) : Types := tb_types b.

(** An operation on the tables *)
Definition on_types (f : Types -> Ty * Types) : reader TypesBuilder Ty := fun b =>
  let '(t, T) := f (tb_types b) in Done (t, mk_TypesBuilder T (llvm_type_map b)).
Definition on_types_unit (f : Types -> exec Types) : reader TypesBuilder unit := fun b =>
  let! T := f (tb_types b) in Done (tt, mk_TypesBuilder T (llvm_type_map b)).
Definition field (f : Types -> Ty) : reader TypesBuilder Ty := fun b => Done (f (tb_types b), b).

Section read.
Context `{LLVM, Bounds}.

Section self.
(** the recursive calls *)
Context (type_from_llvm_ref : TypeRef -> reader TypesBuilder Ty).

Definition struct_type_from_llvm_ref (ty : TypeRef) : reader TypesBuilder Ty :=
  let& _ := r_assert (negb (LLVMIsOpaqueStruct ty)) in
  let& element_types := r_map type_from_llvm_ref (LLVMGetStructElementTypes ty) in
  on_types (tb_struct_of element_types (LLVMIsPackedStruct ty)).

Definition named_struct_from_llvm_ref (s : string) (ty : TypeRef) : reader TypesBuilder Ty :=
  let& b := r_get in
  if cache_contains_key s (named_struct_types (tb_types b)) then on_types (tb_named_struct s)
  else if LLVMIsOpaqueStruct ty then
    let& _ := on_types_unit (tb_add_named_struct_def s Opaque_) in
    on_types (tb_named_struct s)
  else
    let& named_struct_typeref := on_types (tb_named_struct s) in
    let& actual_struct_type := struct_type_from_llvm_ref ty in
    let& _ := on_types_unit (tb_add_named_struct_def s (Defined_ actual_struct_type)) in
    r_ret named_struct_typeref.

Definition parse_type_from_llvm_ref (ty : TypeRef) : reader TypesBuilder Ty :=
  match LLVMGetTypeKind ty with
  | LLVMVoidTypeKind => field void_type
  | LLVMIntegerTypeKind => on_types (tb_int (LLVMGetIntTypeWidth ty))
  | LLVMPointerTypeKind => on_types (tb_pointer_in_addr_space (LLVMGetPointerAddressSpace ty))
  | LLVMArrayTypeKind =>
      let& element_type := type_from_llvm_ref (LLVMGetElementType ty) in
      on_types (tb_array_of element_type (LLVMGetArrayLength2 ty))
  | LLVMVectorTypeKind =>
      let& element_type := type_from_llvm_ref (LLVMGetElementType ty) in
      on_types (tb_vector_of element_type (LLVMGetVectorSize ty) false)
  | LLVMScalableVectorTypeKind =>
      let& element_type := type_from_llvm_ref (LLVMGetElementType ty) in
      on_types (tb_vector_of element_type (LLVMGetVectorSize ty) true)
  | LLVMStructTypeKind =>
      let& name := if LLVMIsLiteralStruct ty then r_ret None
                   else r_lift (wrap_maybe_null LLVMGetStructName ty) in
      match name with
      | Some s => if decide (s = "") then struct_type_from_llvm_ref ty
                  else named_struct_from_llvm_ref s ty
      | None => struct_type_from_llvm_ref ty
      end
  | LLVMFunctionTypeKind =>
      let& result_type := type_from_llvm_ref (LLVMGetReturnType ty) in
      let& param_types := r_map type_from_llvm_ref (LLVMGetParamTypes ty) in
      on_types (tb_func_type result_type param_types (LLVMIsFunctionVarArg ty))
  | LLVMHalfTypeKind => on_types (tb_fp FPHalf)
  | LLVMBFloatTypeKind => on_types (tb_fp FPBFloat)
  | LLVMFloatTypeKind => on_types (tb_fp FPSingle)
  | LLVMDoubleTypeKind => on_types (tb_fp FPDouble)
  | LLVMFP128TypeKind => on_types (tb_fp FP128)
  | LLVMX86_FP80TypeKind => on_types (tb_fp X86_FP80)
  | LLVMPPC_FP128TypeKind => on_types (tb_fp PPC_FP128)
  | LLVMX86_MMXTypeKind => field x86_mmx_type
  | LLVMX86_AMXTypeKind => field x86_amx_type
  | LLVMMetadataTypeKind => field metadata_type
  | LLVMLabelTypeKind => field label_type
  | LLVMTokenTypeKind => field token_type
  | LLVMTargetExtTypeKind => field target_ext_type
  end.
End self.

Fixpoint type_at_depth (fuel : nat) (ty : TypeRef) : reader TypesBuilder Ty := fun b =>
  match llvm_type_map b !! ty with
  | Some typeref => Done (typeref, b)
  | None =>
      match fuel with
      | O => Diverge
      | S f =>
          let! (typeref, b) := parse_type_from_llvm_ref (type_at_depth f) ty b in
          Done (typeref, mk_TypesBuilder (tb_types b) (<[ty := typeref]> (llvm_type_map b)))
      end
  end.
Definition type_from_llvm_ref : TypeRef -> reader TypesBuilder Ty := type_at_depth type_depth.
End read.

(** ** What a type reference stands for *)

Section denotation.
Context `{LLVM}.

(** The name under which a struct is kept, if it has one *)
Definition struct_name (ty : TypeRef) : option string :=
  if LLVMIsLiteralStruct ty then None
  else match LLVMGetStructName ty with
       | Some s => if decide (s = "") then None else Some s
       | None => None
       end.
(** Reading that name needs a reference that is not null and text that is UTF-8. *)
Definition name_readable (ty : TypeRef) : Prop :=
  LLVMIsLiteralStruct ty = true \/
  ty <> 0%N /\ forall s, LLVMGetStructName ty = Some s -> utf8_valid s = true.

Definition leaf_type (ty : TypeRef) : option Ty :=
  match LLVMGetTypeKind ty with
  | LLVMVoidTypeKind => Some VoidType
  | LLVMIntegerTypeKind => Some (IntegerType (LLVMGetIntTypeWidth ty))
  | LLVMPointerTypeKind => Some (PointerType (LLVMGetPointerAddressSpace ty))
  | LLVMHalfTypeKind => Some (FPTy FPHalf)
  | LLVMBFloatTypeKind => Some (FPTy FPBFloat)
  | LLVMFloatTypeKind => Some (FPTy FPSingle)
  | LLVMDoubleTypeKind => Some (FPTy FPDouble)
  | LLVMFP128TypeKind => Some (FPTy FP128)
  | LLVMX86_FP80TypeKind => Some (FPTy X86_FP80)
  | LLVMPPC_FP128TypeKind => Some (FPTy PPC_FP128)
  | LLVMX86_MMXTypeKind => Some X86_MMXType
  | LLVMX86_AMXTypeKind => Some X86_AMXType
  | LLVMMetadataTypeKind => Some MetadataType
  | LLVMLabelTypeKind => Some LabelType
  | LLVMTokenTypeKind => Some TokenType
  | LLVMTargetExtTypeKind => Some TargetExtType
  | _ => None
  end.

(** [denotes n ty t]: the reference [ty], which is at most [n] deep, is the type
    [t].  No tables, no caches. *)
Inductive denotes : nat -> TypeRef -> Ty -> Prop :=
  | den_leaf n ty t : leaf_type ty = Some t -> denotes (S n) ty t
  | den_array n ty e :
      LLVMGetTypeKind ty = LLVMArrayTypeKind -> denotes n (LLVMGetElementType ty) e ->
      denotes (S n) ty (ArrayType e (LLVMGetArrayLength2 ty))
  | den_vector n ty e :
      LLVMGetTypeKind ty = LLVMVectorTypeKind -> denotes n (LLVMGetElementType ty) e ->
      denotes (S n) ty (VectorType e (LLVMGetVectorSize ty) false)
  | den_scalable n ty e :
      LLVMGetTypeKind ty = LLVMScalableVectorTypeKind -> denotes n (LLVMGetElementType ty) e ->
      denotes (S n) ty (VectorType e (LLVMGetVectorSize ty) true)
  | den_func n ty r ps :
      LLVMGetTypeKind ty = LLVMFunctionTypeKind -> denotes n (LLVMGetReturnType ty) r ->
      Forall2 (denotes n) (LLVMGetParamTypes ty) ps ->
      denotes (S n) ty (FuncType r ps (LLVMIsFunctionVarArg ty))
  | den_struct n ty es :
      LLVMGetTypeKind ty = LLVMStructTypeKind -> name_readable ty -> struct_name ty = None ->
      LLVMIsOpaqueStruct ty = false -> Forall2 (denotes n) (LLVMGetStructElementTypes ty) es ->
      denotes (S n) ty (StructType es (LLVMIsPackedStruct ty))
  | den_named n ty s es :
      LLVMGetTypeKind ty = LLVMStructTypeKind -> name_readable ty -> struct_name ty = Some s ->
      (LLVMIsOpaqueStruct ty = false -> Forall2 (denotes n) (LLVMGetStructElementTypes ty) es) ->
      denotes (S n) ty (NamedStructType s).

Lemma denotes_unique n m ty t t' : denotes n ty t -> denotes m ty t' -> t = t'.
Proof.
  revert m ty t t'. induction n as [|n IH]; intros m ty t t' Ht Ht'; [inversion Ht|].
  assert (forall k l a b, Forall2 (denotes n) l a -> Forall2 (denotes k) l b -> a = b) as IHl.
  { intros k l a b Hl. revert b. induction Hl as [|x y l a Hx _ IHl]; intros b Hb; inversion Hb; subst; [done|].
    f_equal; eauto. }
  inversion Ht; subst; inversion Ht'; subst; unfold leaf_type in *;
    repeat match goal with Hk : LLVMGetTypeKind _ = _ |- _ => rewrite Hk in * end;
    try congruence; f_equal; eauto; congruence.
Qed.
End denotation.

(** ** The reader computes it *)

Section correct.
Context `{LLVM}.

Definition named (b : TypesBuilder) (s : string) : Prop := is_Some (named_struct_types (tb_types b) !! s).
Definition defined (b : TypesBuilder) (s : string) : Prop := is_Some (named_struct_defs (tb_types b) !! s).

(** The definition recorded for a struct of this name: what the struct contains *)
Definition def_ok (s : string) (d : NamedStructDef) : Prop :=
  exists ty, LLVMGetTypeKind ty = LLVMStructTypeKind /\ struct_name ty = Some s /\
    match d with
    | Opaque_ => LLVMIsOpaqueStruct ty = true
    | Defined_ t => LLVMIsOpaqueStruct ty = false /\
        exists n es, Forall2 (denotes n) (LLVMGetStructElementTypes ty) es /\
          t = StructType es (LLVMIsPackedStruct ty)
    end.

Record builder_ok (b : TypesBuilder) : Prop := {
  bo_types : types_ok (tb_types b);
  bo_map : forall ty t, llvm_type_map b !! ty = Some t -> exists n, denotes n ty t;
  bo_entries : forall ty s, llvm_type_map b !! ty = Some (NamedStructType s) -> named b s;
  bo_named : forall s, defined b s -> named b s;
  bo_defs : forall s d, named_struct_defs (tb_types b) !! s = Some d -> def_ok s d
}.

(** Reading adds names, settles no definition of a struct that was begun outside,
    and leaves none of its own open. *)
Record extends (b b' : TypesBuilder) : Prop := {
  ex_named : forall s, named b s -> named b' s;
  ex_defs : forall s, named b s ->
    named_struct_defs (tb_types b') !! s = named_struct_defs (tb_types b) !! s;
  ex_pending : forall s, named b' s -> defined b' s \/ named b s
}.

#[local] Instance extends_preorder : PreOrder extends.
Proof.
  split; [by split; auto|]. intros b1 b2 b3 H1 H2. split.
  - intros s Hs. by apply (ex_named _ _ H2), (ex_named _ _ H1).
  - intros s Hs. rewrite (ex_defs _ _ H2) by by apply (ex_named _ _ H1). by apply (ex_defs _ _ H1).
  - intros s Hs. destruct (ex_pending _ _ H2 s Hs) as [|Hs2]; [by left|].
    destruct (ex_pending _ _ H1 s Hs2) as [Hd|]; [left|by right].
    unfold defined. by rewrite (ex_defs _ _ H2).
Qed.

(** [m] returns [a] from every well-formed builder. *)
Definition reads {A} (m : reader TypesBuilder A) (a : A) : Prop :=
  forall b, builder_ok b -> exists b', m b = Done (a, b') /\ builder_ok b' /\ extends b b'.

Lemma reads_ret {A} (a : A) : reads (r_ret a) a.
Proof. intros b Hb. by exists b. Qed.
Lemma reads_bind {A B} (m : reader TypesBuilder A) (k : A -> reader TypesBuilder B) a c :
  reads m a -> reads (k a) c -> reads (r_bind m k) c.
Proof.
  intros Hm Hk b Hb. destruct (Hm b Hb) as (b1 & E1 & Hb1 & Hx1).
  destruct (Hk b1 Hb1) as (b2 & E2 & Hb2 & Hx2). exists b2. split; [|split; [done|by etrans]].
  unfold r_bind. by rewrite E1.
Qed.
Lemma reads_map {A B} (f : A -> reader TypesBuilder B) l bs :
  Forall2 (fun a b => reads (f a) b) l bs -> reads (r_map f l) bs.
Proof.
  induction 1 as [|a b l bs Hab _ IH]; [apply reads_ret|]. simpl.
  eapply reads_bind; [exact Hab|]. eapply reads_bind; [exact IH|]. apply reads_ret.
Qed.
Lemma reads_assert b : b = true -> reads (r_assert b) tt.
Proof. intros ->. apply reads_ret. Qed.

(** Reading a type also leaves its name in the table, if it is a named struct. *)
Definition reads_type (m : reader TypesBuilder Ty) (t : Ty) : Prop :=
  forall b, builder_ok b -> exists b', m b = Done (t, b') /\ builder_ok b' /\ extends b b' /\
    forall s, t = NamedStructType s -> named b' s.
Definition unnamed (t : Ty) : Prop := forall s, t <> NamedStructType s.

Lemma reads_unnamed m t : unnamed t -> reads m t -> reads_type m t.
Proof. intros Ht Hm b Hb. destruct (Hm b Hb) as (b' & ? & ? & ?). exists b'. split_and!; [done..|]. intros s E. by destruct (Ht s). Qed.
Lemma reads_type_bind {A} (m : reader TypesBuilder A) (k : A -> reader TypesBuilder Ty) a t :
  reads m a -> reads_type (k a) t -> reads_type (r_bind m k) t.
Proof.
  intros Hm Hk b Hb. destruct (Hm b Hb) as (b1 & E1 & Hb1 & Hx1).
  destruct (Hk b1 Hb1) as (b2 & E2 & Hb2 & Hx2 & Hn). exists b2. split; [|split_and!; [done|by etrans|done]].
  unfold r_bind. by rewrite E1.
Qed.

(** An operation that interns a type other than a named struct *)
Lemma reads_intern f t :
  (forall T, types_ok T -> (f T).1 = t /\ types_ok (f T).2) ->
  (forall T, named_struct_types (f T).2 = named_struct_types T /\
             named_struct_defs (f T).2 = named_struct_defs T) ->
  reads (on_types f) t.
Proof.
  intros Hf Hs b [HT Hm He Hn Hd]. destruct (Hf _ HT) as [Ht HT']. destruct (Hs (tb_types b)) as [E1 E2].
  unfold on_types. destruct (f (tb_types b)) as [t' T']. simpl in *. subst t'.
  exists (mk_TypesBuilder T' (llvm_type_map b)). split; [done|].
  assert (forall s, named (mk_TypesBuilder T' (llvm_type_map b)) s <-> named b s) as En
    by (intros s; unfold named; simpl; by rewrite E1).
  split; split; simpl; try done.
  - intros ty s Hs'. by apply En, (He ty).
  - intros s Hs'. apply En, Hn. unfold defined in *. simpl in Hs'. by rewrite E2 in Hs'.
  - intros s d. rewrite E2. apply Hd.
  - intros s. apply En.
  - intros s _. by rewrite E2.
  - intros s Hs'. right. by apply En.
Qed.

Lemma reads_field f t : (forall T, types_ok T -> f T = t) -> reads (field f) t.
Proof.
  intros Hf b Hb. exists b. unfold field. by rewrite (Hf _ (bo_types _ Hb)).
Qed.

(** Interning tables other than that of the named structs leave the latter alone. *)
Ltac intern_frame :=
  intros; unfold tb_int, tb_pointer_in_addr_space, tb_fp, tb_func_type, tb_vector_of, tb_array_of, tb_struct_of;
  match goal with |- context [cache_lookup_or_insert ?k ?t ?c] =>
    by destruct (cache_lookup_or_insert k t c) end.

Lemma reads_int w : reads (on_types (tb_int w)) (IntegerType w).
Proof. apply reads_intern; [intros; by apply tb_int_ok|intern_frame]. Qed.
Lemma reads_pointer a : reads (on_types (tb_pointer_in_addr_space a)) (PointerType a).
Proof. apply reads_intern; [intros; by apply tb_pointer_ok|intern_frame]. Qed.
Lemma reads_fp f : reads (on_types (tb_fp f)) (FPTy f).
Proof. apply reads_intern; [intros; by apply tb_fp_ok|intern_frame]. Qed.
Lemma reads_func r ps va : reads (on_types (tb_func_type r ps va)) (FuncType r ps va).
Proof. apply reads_intern; [intros; by apply tb_func_ok|intern_frame]. Qed.
Lemma reads_vec e n sc : reads (on_types (tb_vector_of e n sc)) (VectorType e n sc).
Proof. apply reads_intern; [intros; by apply tb_vec_ok|intern_frame]. Qed.
Lemma reads_arr e n : reads (on_types (tb_array_of e n)) (ArrayType e n).
Proof. apply reads_intern; [intros; by apply tb_arr_ok|intern_frame]. Qed.
Lemma reads_struct es pk : reads (on_types (tb_struct_of es pk)) (StructType es pk).
Proof. apply reads_intern; [intros; by apply tb_struct_ok|intern_frame]. Qed.
(** *** Named structs *)

Lemma name_step s b :
  builder_ok b ->
  exists b', on_types (tb_named_struct s) b = Done (NamedStructType s, b') /\ builder_ok b' /\
    named_struct_defs (tb_types b') = named_struct_defs (tb_types b) /\
    (forall s', named b' s' <-> s' = s \/ named b s').
Proof.
  intros [HT Hm He Hn Hd]. destruct (tb_named_ok _ s HT) as [Ht HT'].
  unfold on_types. destruct (tb_named_struct s (tb_types b)) as [t T'] eqn:E. simpl in *. subst t.
  exists (mk_TypesBuilder T' (llvm_type_map b)). split; [done|].
  unfold tb_named_struct, cache_lookup_or_insert in E.
  assert (named_struct_defs T' = named_struct_defs (tb_types b) /\
    forall s', is_Some (named_struct_types T' !! s') <-> s' = s \/ named b s') as [Ed En].
  { unfold named. destruct (named_struct_types (tb_types b) !! s) eqn:El; simplify_eq/=; (split; [done|]);
      intros s'; [split; [by right|intros [->|?]; [rewrite El; by eexists|done]]|].
    destruct (decide (s = s')) as [->|]; [rewrite lookup_insert_eq|rewrite lookup_insert_ne by done]; naive_solver. }
  split_and!; [split; simpl|done|exact En]; try done.
  - intros ty s' Hs'. apply En. right. by apply (He ty).
  - intros s' Hs. apply En. right. apply Hn. unfold defined in *. simpl in Hs. by rewrite Ed in Hs.
  - intros s' d. rewrite Ed. apply Hd.
Qed.

Lemma def_step s d b :
  builder_ok b -> named b s -> ~ defined b s -> def_ok s d ->
  exists b', on_types_unit (tb_add_named_struct_def s d) b = Done (tt, b') /\ builder_ok b' /\
    named_struct_types (tb_types b') = named_struct_types (tb_types b) /\
    named_struct_defs (tb_types b') = <[s := d]> (named_struct_defs (tb_types b)).
Proof.
  intros [HT Hm He Hn Hd] Hs Hnd Hok. unfold on_types_unit, tb_add_named_struct_def.
  destruct (named_struct_defs (tb_types b) !! s) eqn:E; [by destruct Hnd; unfold defined; rewrite E; eexists|].
  eexists. split; [reflexivity|]. split_and!; [|done..]. split; simpl; try done.
  - by destruct HT.
  - intros s'. unfold defined, named in *. simpl.
    destruct (decide (s = s')) as [->|]; [by intros _|rewrite lookup_insert_ne by done]. apply Hn.
  - intros s' d'. destruct (decide (s = s')) as [->|]; [rewrite lookup_insert_eq by done; by intros [= <-]|].
    rewrite lookup_insert_ne by done. apply Hd.
Qed.

Lemma extends_def b b1 b2 s d :
  extends b b1 -> ~ named b s -> named_struct_types (tb_types b2) = named_struct_types (tb_types b1) ->
  named_struct_defs (tb_types b2) = <[s := d]> (named_struct_defs (tb_types b1)) -> extends b b2.
Proof.
  intros [Hx1 Hx2 Hx3] Hs En Ed. split; unfold named, defined in *; rewrite ?En, ?Ed.
  - done.
  - intros s' Hs'. rewrite lookup_insert_ne by congruence. by apply Hx2.
  - intros s' Hs'. destruct (decide (s = s')) as [->|]; [left; by rewrite lookup_insert_eq|].
    rewrite lookup_insert_ne by done. by apply Hx3.
Qed.

(** The order of the two steps does not matter. *)
Lemma def_name_commute s d b :
  (let& _ := on_types_unit (tb_add_named_struct_def s d) in on_types (tb_named_struct s)) b
  = (let& t := on_types (tb_named_struct s) in
     let& _ := on_types_unit (tb_add_named_struct_def s d) in r_ret t) b.
Proof.
  unfold r_bind, on_types_unit, on_types, tb_add_named_struct_def, tb_named_struct, cache_lookup_or_insert, r_ret.
  by destruct (named_struct_types (tb_types b) !! s) eqn:E1, (named_struct_defs (tb_types b) !! s) eqn:E2;
    simpl; rewrite ?E1, ?E2.
Qed.

(** Naming a new struct, reading what it contains, and defining it *)
Lemma reads_new_struct {A} s (d : A -> NamedStructDef) a m b :
  builder_ok b -> ~ named b s -> reads m a -> def_ok s (d a) ->
  exists b', (let& t := on_types (tb_named_struct s) in
              let& a := m in
              let& _ := on_types_unit (tb_add_named_struct_def s (d a)) in r_ret t) b
             = Done (NamedStructType s, b') /\ builder_ok b' /\ extends b b' /\ named b' s.
Proof.
  intros Hb Hs Hm Hd. destruct (name_step s b Hb) as (b1 & E1 & Hb1 & Ed1 & En1).
  destruct (Hm b1 Hb1) as (b2 & E2 & Hb2 & [Hx1 Hx2 Hx3]).
  assert (named b1 s) as Hs1 by (apply En1; by left).
  destruct (def_step s (d a) b2 Hb2) as (b3 & E3 & Hb3 & En3 & Ed3); [by apply Hx1| |done|].
  { unfold defined. rewrite Hx2, Ed1 by done. by intros ?%(bo_named _ Hb). }
  exists b3. split; [|split; [done|split; [|unfold named; rewrite En3; by apply Hx1]]].
  - unfold r_bind. rewrite E1. simpl. rewrite E2. simpl. by rewrite E3.
  - split; unfold named, defined in *; rewrite ?En3, ?Ed3.
    + intros s' Hs'. apply Hx1, En1. by right.
    + intros s' Hs'. rewrite lookup_insert_ne by (intros ->; done). rewrite Hx2, Ed1; [done|].
      apply En1. by right.
    + intros s' Hs'. destruct (decide (s = s')) as [->|]; [left; rewrite lookup_insert_eq; by eexists|].
      rewrite lookup_insert_ne by done. destruct (Hx3 s' Hs') as [|[->|?]%En1]; auto; done.
Qed.

Section recursive.
Context (rec : TypeRef -> reader TypesBuilder Ty) (n : nat).
Hypothesis rec_reads : forall ty t, denotes n ty t -> reads (rec ty) t.

Lemma reads_all l ts : Forall2 (denotes n) l ts -> reads (r_map rec l) ts.
Proof using rec_reads. intros Hl. apply reads_map. eapply Forall2_impl; [exact Hl|]. auto. Qed.

Lemma reads_struct_type ty es :
  LLVMIsOpaqueStruct ty = false -> Forall2 (denotes n) (LLVMGetStructElementTypes ty) es ->
  reads (struct_type_from_llvm_ref rec ty) (StructType es (LLVMIsPackedStruct ty)).
Proof using rec_reads.
  intros Ho Hes. unfold struct_type_from_llvm_ref. eapply reads_bind; [apply reads_assert; by rewrite Ho|].
  eapply reads_bind; [by apply reads_all|]. apply reads_struct.
Qed.

Lemma reads_named_struct s ty es :
  LLVMGetTypeKind ty = LLVMStructTypeKind -> struct_name ty = Some s ->
  (LLVMIsOpaqueStruct ty = false -> Forall2 (denotes n) (LLVMGetStructElementTypes ty) es) ->
  reads_type (named_struct_from_llvm_ref rec s ty) (NamedStructType s).
Proof using rec_reads.
  intros Hk Hs Hes b Hb. unfold named_struct_from_llvm_ref, r_bind at 1, r_get. simpl.
  assert (forall x, (exists b', x = Done (NamedStructType s, b') /\ builder_ok b' /\ extends b b' /\ named b' s) ->
    exists b', x = Done (NamedStructType s, b') /\ builder_ok b' /\ extends b b' /\
      forall s', NamedStructType s = NamedStructType s' -> named b' s') as Hpost.
  { intros x (b' & ? & ? & ? & ?). exists b'. split_and!; [done..|]. by intros s' [= <-]. }
  apply Hpost. unfold cache_contains_key. case_bool_decide as Hn.
  - destruct (name_step s b Hb) as (b' & -> & Hb' & Ed & En). exists b'. split_and!; [done..| |apply En; by left].
    split; [intros s' ?; apply En; by right|by rewrite Ed|]. intros s' [->|?]%En; by right.
  - destruct (LLVMIsOpaqueStruct ty) eqn:Eo.
    + rewrite def_name_commute.
      refine (reads_new_struct s (fun _ => Opaque_) tt (r_ret tt) b Hb Hn (reads_ret tt) _). by exists ty.
    + refine (reads_new_struct s Defined_ (StructType es (LLVMIsPackedStruct ty)) _ b Hb Hn _ _).
      * by apply reads_struct_type; [|apply Hes].
      * exists ty. split_and!; [done..|]. exists n, es. by split; [apply Hes|].
Qed.

Lemma reads_struct_name ty :
  name_readable ty ->
  exists o, reads (if LLVMIsLiteralStruct ty then r_ret None
                   else r_lift (wrap_maybe_null LLVMGetStructName ty)) o /\
    match o with Some s => if decide (s = "") then None else Some s | None => None end = struct_name ty.
Proof.
  unfold name_readable, struct_name, wrap_maybe_null. destruct (LLVMIsLiteralStruct ty).
  - intros _. exists None. split; [apply reads_ret|done].
  - intros [|[Hnull Hutf]]; [done|]. unfold is_null. rewrite (proj2 (N.eqb_neq ty 0)) by done.
    destruct (LLVMGetStructName ty) as [s|].
    + exists (Some s). split; [|done]. unfold raw_to_string. rewrite Hutf by done. apply reads_ret.
    + exists None. split; [apply reads_ret|done].
Qed.

Lemma reads_parse ty t : denotes (S n) ty t -> reads_type (parse_type_from_llvm_ref rec ty) t.
Proof using rec_reads.
  intros Ht. unfold parse_type_from_llvm_ref.
  inversion Ht as [n' ty' t' Hl|n' ty' e Hk He|n' ty' e Hk He|n' ty' e Hk He|n' ty' r ps Hk Hr Hps
    |n' ty' es Hk Hr Hs Ho Hes|n' ty' s es Hk Hr Hs Hes]; subst.
  - unfold leaf_type in Hl. destruct (LLVMGetTypeKind ty); simplify_eq; (apply reads_unnamed; [done|]);
      auto using reads_int, reads_pointer, reads_fp; apply reads_field; by destruct 1.
  - rewrite Hk. apply reads_unnamed; [done|]. eapply reads_bind; [by apply rec_reads|apply reads_arr].
  - rewrite Hk. apply reads_unnamed; [done|]. eapply reads_bind; [by apply rec_reads|apply reads_vec].
  - rewrite Hk. apply reads_unnamed; [done|]. eapply reads_bind; [by apply rec_reads|apply reads_vec].
  - rewrite Hk. apply reads_unnamed; [done|]. eapply reads_bind; [by apply rec_reads|].
    eapply reads_bind; [by apply reads_all|]. apply reads_func.
  - rewrite Hk. apply reads_unnamed; [done|]. destruct (reads_struct_name ty Hr) as (o & Ho' & Eo).
    eapply reads_bind; [exact Ho'|]. rewrite Hs in Eo.
    destruct o as [s|]; [case_decide; [|done]|]; by apply reads_struct_type.
  - rewrite Hk. destruct (reads_struct_name ty Hr) as (o & Ho' & Eo). eapply reads_type_bind; [exact Ho'|].
    rewrite Hs in Eo. destruct o as [s'|]; [|done]. case_decide; [done|]. injection Eo as ->.
    by apply (reads_named_struct s ty es).
Qed.
End recursive.

Lemma denotes_le n m ty t : n <= m -> denotes n ty t -> denotes m ty t.
Proof.
  revert m ty t. induction n as [|n IH]; intros m ty t Hle Ht; [inversion Ht|].
  destruct m as [|m]; [lia|]. assert (n <= m) as Hnm by lia.
  assert (forall l ts, Forall2 (denotes n) l ts -> Forall2 (denotes m) l ts) as IHl
    by (intros l ts Hl; eapply Forall2_impl; [exact Hl|]; eauto).
  inversion Ht; subst; first [by apply den_leaf | apply den_array; by eauto | apply den_vector; by eauto
    | apply den_scalable; by eauto | apply den_func; by eauto | apply den_struct; by eauto
    | eapply den_named; by eauto].
Qed.

Lemma depth_reads fuel n ty t : denotes n ty t -> n <= fuel -> reads_type (type_at_depth fuel ty) t.
Proof.
  revert n ty t. induction fuel as [|fuel IH]; intros n ty t Ht Hn b Hb.
  { assert (n = 0) as -> by lia. inversion Ht. }
  cbn [type_at_depth]. destruct (llvm_type_map b !! ty) as [t'|] eqn:Em.
  - destruct (bo_map _ Hb _ _ Em) as [k Hk]. rewrite (denotes_unique _ _ _ _ _ Hk Ht) in *. exists b.
    split_and!; [done..|]. intros s ->. exact (bo_entries _ Hb _ _ Em).
  - assert (reads_type (parse_type_from_llvm_ref (type_at_depth fuel) ty) t) as Hp.
    { apply (reads_parse _ fuel); [|by apply (denotes_le n)]. intros ty' t' Ht' b0 Hb0.
      destruct (IH fuel ty' t' Ht' (le_n _) b0 Hb0) as (b1 & ? & ? & ? & _). eauto. }
    destruct (Hp b Hb) as (b' & E & [HT Hm He Hnm Hd] & [Hx1 Hx2 Hx3] & Hs). rewrite E. simpl. eexists.
    split; [reflexivity|]. split; [|by split]. split; try done; simpl; intros ty' t';
      (destruct (decide (ty = ty')) as [->|]; [rewrite lookup_insert_eq; intros [= Et]|rewrite lookup_insert_ne by done]).
    + subst. eauto.
    + apply Hm.
    + by apply Hs.
    + apply He.
Qed.

(** C37. The type reader refines the plain meaning of LLVM's types: whatever was
    read before, a reference that stands for [t] is read as [t], through caches and
    interning tables alike, without a panic and at any depth the bound allows; the
    tables stay well formed, every struct named so far has its definition, and each
    definition is what LLVM has under that name. *)
Theorem types_read_faithfully `{Bounds} n ty t b :
  denotes n ty t -> n <= type_depth -> builder_ok b -> (forall s, named b s -> defined b s) ->
  exists b', type_from_llvm_ref ty b = Done (t, b') /\ builder_ok b' /\
    (forall s, named b' s -> defined b' s) /\
    (forall s d, types_named_struct_def (build b') s = Some d -> def_ok s d).
Proof.
  intros Ht Hn Hb Hdef. destruct (depth_reads type_depth n ty t Ht Hn b Hb) as (b' & E & Hb' & [Hx1 Hx2 Hx3] & _).
  exists b'. split; [done|]. split; [done|]. split; [|apply (bo_defs _ Hb')].
  intros s Hs. destruct (Hx3 s Hs) as [|Hs']; [done|]. unfold defined. rewrite Hx2 by done. by apply Hdef.
Qed.
End correct.

Lemma builder_ok_empty `{LLVM} : builder_ok TypesBuilder_empty.
Proof.
  split; simpl.
  - apply types_ok_new.
  - intros ty t. by rewrite lookup_empty.
  - intros ty s. by rewrite lookup_empty.
  - intros s [d Hd]. simpl in Hd. by rewrite lookup_empty in Hd.
  - intros s d. by rewrite lookup_empty.
Qed.

(** A packed struct [pair] of two integers, in an array of three *)
Definition pair_sample : Sample := {|
  s_functions := []; s_globals := []; s_params := fun _ => []; s_blocks := fun _ => [];
  s_insts := fun _ => []; s_name := fun ty => if (ty =? 201)%N then "pair" else "";
  s_opcode := fun _ => LLVMUnreachable; s_operands := fun ty => if (ty =? 201)%N then [100%N; 100%N] else [];
  s_type := fun _ => 201%N; s_value_type := fun _ => 0%N; s_return_type := fun _ => 0%N;
  s_type_kind := fun ty => if (ty =? 200)%N then LLVMArrayTypeKind
                           else if (ty =? 201)%N then LLVMStructTypeKind else LLVMIntegerTypeKind;
  s_global := fun _ => false; s_initializer := fun _ => 0%N;
  s_int := fun _ => None;
  s_aggregate := fun _ => false
|}.

Lemma types_read_faithfully_witness :
  let _ := sample_llvm pair_sample in
  exists b', type_from_llvm_ref 200%N TypesBuilder_empty
             = Done (ArrayType (NamedStructType "pair") 3, b') /\
    types_named_struct_def (build b') "pair"
    = Some (Defined_ (StructType [IntegerType 64; IntegerType 64] false)).
Proof.
  intros L.
  destruct (@types_read_faithfully L sample_bounds 3 200%N (ArrayType (NamedStructType "pair") 3)
    TypesBuilder_empty) as (b' & E & _).
  - apply (@den_array L 2); [reflexivity|].
    apply (@den_named L 1 _ "pair" [IntegerType 64; IntegerType 64]); [reflexivity| |reflexivity|].
    + right. split; [done|]. intros s [= <-]. reflexivity.
    + intros _. repeat constructor.
  - vm_compute. lia.
  - apply builder_ok_empty.
  - intros s [d Hd]. simpl in Hd. by rewrite lookup_empty in Hd.
  - exists b'. split; [exact E|]. vm_compute in E. injection E as <-. vm_compute. reflexivity.
Defined.
