(* ===== verification/ReadConst.v ===== *)
(** * ReadConst: the readers of constants and operands

    [Constant::from_llvm_ref] of [constant.rs] with the expressions LLVM 19 still
    has, [Operand::from_llvm_ref] of [operand.rs], and the context they share:
    [ModuleContext] of [module.rs].  A constant is read once and then found by its
    reference. *)

From S2P Require Import Prelude Text Types Layout Constants Instr Llvm ReadTypes.
From stdpp Require Import base gmap list strings.
From Stdlib Require Import ZArith Lia.
#[local] Open Scope string_scope.

(** ** The context *)

(** [AttributesData] of [function.rs] *)
Record AttributesData := mk_AttributesData {
  function_attribute_names : gmap Z string;
  param_attribute_names : gmap Z string
}.

(** [ModuleContext]; the names of the global objects do not change and are an
    argument of the readers. *)
Record ModuleContext := mk_ModuleContext {
  ctx_types : TypesBuilder;
  ctx_attrsdata : AttributesData;
  ctx_constants : gmap N Constant
}.

Definition GlobalNames : Type := gmap N Name.

(** [ctx.types] and [ctx.constants] *)
Definition in_types {A} (m : reader TypesBuilder A) : reader ModuleContext A := fun ctx =>
  let! (a, b) := m (ctx_types ctx) in
  Done (a, mk_ModuleContext b (ctx_attrsdata ctx) (ctx_constants ctx)).
Definition add_constant (r : N) (c : Constant) : reader ModuleContext unit := fun ctx =>
  match ctx_constants ctx !! r with
  | Some _ => Panic
  | None => Done (tt, mk_ModuleContext (ctx_types ctx) (ctx_attrsdata ctx)
                        (<[r := c]> (ctx_constants ctx)))
  end.

(** [(lo .. hi)] *)
Definition range (lo hi : Z) : list Z := seqZ lo (hi - lo).

(** [as u32] *)
Definition as_u32 (z : Z) : Z := (z mod u32_modulus)%Z.

(** ** [f64 as f32] on bit patterns: to nearest, ties to even *)

(** [m / 2 ^ s] *)
Definition round_shift (m s : Z) : Z :=
  if (s <=? 0)%Z then Z.shiftl m (- s)
  else let q := Z.shiftr m s in
       let r := (m - Z.shiftl q s)%Z in
       let half := Z.shiftl 1 (s - 1) in
       if (r <? half)%Z then q
       else if (half <? r)%Z then (q + 1)%Z
       else if Z.even q then q else (q + 1)%Z.

Definition f64_as_f32 (bits : Z) : Z :=
  let sign := Z.shiftl (Z.shiftr bits 63) 31 in
  let e := Z.land (Z.shiftr bits 52) 2047 in
  let m := Z.land bits (Z.ones 52) in
  if (e =? 2047)%Z then
    if (m =? 0)%Z then Z.lor sign 2139095040
    else Z.lor sign (Z.lor 2143289344 (Z.shiftr m 29))
  else
    let '(m, x) := if (e =? 0)%Z then (m, -1074)%Z else (m + 2 ^ 52, e - 1075)%Z in
    if (m =? 0)%Z then sign
    else
      let ulp := Z.max (Z.log2 m + x - 23) (-149) in
      let r := round_shift m (ulp - x) in
      Z.lor sign (Z.min 2139095040 ((ulp + 149) * 2 ^ 23 + r)).

(** 1.0, 0.1, 1.5, the overflow to infinity, the smallest subnormal, and -0.0 *)
Example f64_as_f32_values :
  map f64_as_f32 [4607182418800017408; 4591870180066957722; 4609434218613702656;
                  9218868437227405311; 3936146074321813504; 9223372036854775808]%Z
  = [1065353216; 1036831949; 1069547520; 2139095040; 1; 2147483648]%Z.
Proof. by vm_compute. Qed.

Section read.
Context `{LLVM, Bounds}.
Context (global_names : GlobalNames).

Definition ty_of (v : ValueRef) : reader ModuleContext Ty := in_types (type_from_llvm_ref (LLVMTypeOf v)).

(** The element count and the packing of a constant struct *)
Definition struct_shape (ty : Ty) (T : Types) : exec (nat * bool) :=
  match ty with
  | StructType element_types is_packed => Done (length element_types, is_packed)
  | NamedStructType name =>
      match types_named_struct_def T name with
      | Some (Defined_ (StructType element_types is_packed)) => Done (length element_types, is_packed)
      | _ => Panic
      end
  | _ => Panic
  end.

(** The bit pattern LLVM returns is that of a double, also for a [float]. *)
Definition float_of (constant : ValueRef) (fptype : FPType) : Float :=
  match fptype with
  | FPHalf => FHalf
  | FPBFloat => FBFloat
  | FPSingle => FSingle (f64_as_f32 (LLVMConstRealGetDouble constant))
  | FPDouble => FDouble (LLVMConstRealGetDouble constant)
  | FP128 => FQuadruple
  | X86_FP80 => FX86_FP80
  | PPC_FP128 => FPPC_FP128
  end.

Section self.
(** the recursive calls *)
Context (Constant_from_llvm_ref : ValueRef -> reader ModuleContext Constant).

Definition operands_of (c : ValueRef) (idx : list Z) : reader ModuleContext (list Constant) :=
  r_map (fun i => Constant_from_llvm_ref (LLVMGetOperand c (as_u32 i))) idx.
Definition elements_of (c : ValueRef) (idx : list Z) : reader ModuleContext (list Constant) :=
  r_map (fun i => Constant_from_llvm_ref (LLVMGetAggregateElement c (as_u32 i))) idx.

(** [binop_from_llvm!] *)
Definition const_binop_from_llvm (mk : Constant -> Constant -> Constant) (expr : ValueRef)
    : reader ModuleContext Constant :=
  let& _ := r_assert (LLVMGetNumOperands expr =? 2)%Z in
  let& operand0 := Constant_from_llvm_ref (LLVMGetOperand expr 0) in
  let& operand1 := Constant_from_llvm_ref (LLVMGetOperand expr 1) in
  r_ret (mk operand0 operand1).

Definition ConstExtractElement_from_llvm_ref (expr : ValueRef) : reader ModuleContext Constant :=
  let& _ := r_assert (LLVMGetNumOperands expr =? 2)%Z in
  let& vector := Constant_from_llvm_ref (LLVMGetOperand expr 0) in
  let& index := Constant_from_llvm_ref (LLVMGetOperand expr 1) in
  r_ret (CExtractElement vector index).

Definition ConstInsertElement_from_llvm_ref (expr : ValueRef) : reader ModuleContext Constant :=
  let& _ := r_assert (LLVMGetNumOperands expr =? 3)%Z in
  let& vector := Constant_from_llvm_ref (LLVMGetOperand expr 0) in
  let& element := Constant_from_llvm_ref (LLVMGetOperand expr 1) in
  let& index := Constant_from_llvm_ref (LLVMGetOperand expr 2) in
  r_ret (CInsertElement vector element index).

(** The mask of a constant [shufflevector] is out of reach. *)
Definition ConstShuffleVector_from_llvm_ref (expr : ValueRef) : reader ModuleContext Constant :=
  let& _ := r_assert (LLVMGetNumOperands expr =? 2)%Z in
  r_panic.

Definition ConstGetElementPtr_from_llvm_ref (expr : ValueRef) : reader ModuleContext Constant :=
  let& address := Constant_from_llvm_ref (LLVMGetOperand expr 0) in
  let num_indices := (LLVMGetNumOperands expr - 1)%Z in
  let& indices := r_map (fun i => Constant_from_llvm_ref (LLVMGetOperand expr i))
                    (range 1 (num_indices + 1)) in
  r_ret (CGetElementPtr address indices (LLVMIsInBounds expr)).

(** [typed_unop_from_llvm!] *)
Definition const_typed_unop_from_llvm (mk : Constant -> Ty -> Constant) (expr : ValueRef)
    : reader ModuleContext Constant :=
  let& _ := r_assert (LLVMGetNumOperands expr =? 1)%Z in
  let& operand := Constant_from_llvm_ref (LLVMGetOperand expr 0) in
  let& to_type := ty_of expr in
  r_ret (mk operand to_type).

(** The expressions *)
Definition constant_expr (constant : ValueRef) : reader ModuleContext Constant :=
  match LLVMGetConstOpcode constant with
  | LLVMAdd => const_binop_from_llvm CAdd constant
  | LLVMSub => const_binop_from_llvm CSub constant
  | LLVMMul => const_binop_from_llvm CMul constant
  | LLVMXor => const_binop_from_llvm CXor constant
  | LLVMExtractElement => ConstExtractElement_from_llvm_ref constant
  | LLVMInsertElement => ConstInsertElement_from_llvm_ref constant
  | LLVMShuffleVector => ConstShuffleVector_from_llvm_ref constant
  | LLVMGetElementPtr => ConstGetElementPtr_from_llvm_ref constant
  | LLVMTrunc => const_typed_unop_from_llvm CTrunc constant
  | LLVMPtrToInt => const_typed_unop_from_llvm CPtrToInt constant
  | LLVMIntToPtr => const_typed_unop_from_llvm CIntToPtr constant
  | LLVMBitCast => const_typed_unop_from_llvm CBitCast constant
  | LLVMAddrSpaceCast => const_typed_unop_from_llvm CAddrSpaceCast constant
  | _ => r_panic
  end.

(** A reference to a global object, by its name *)
Definition global_reference (constant : ValueRef) : reader ModuleContext Constant :=
  if is_null (LLVMIsAGlobalValue constant) then r_panic else
  let& name := r_lift (expect (global_names !! constant)) in
  let& ty := in_types (type_from_llvm_ref (LLVMGlobalGetValueType constant)) in
  r_ret (CGlobalReference name ty).

Definition parse_constant (constant : ValueRef) : reader ModuleContext Constant :=
  if is_null (LLVMIsAConstant constant) then r_panic else
  match LLVMGetValueKind constant with
  | LLVMConstantIntValueKind =>
      let& ty := ty_of constant in
      match ty with
      | IntegerType bits => r_ret (CInt bits (LLVMConstIntGetZExtValue constant))
      | _ => r_panic
      end
  | LLVMConstantFPValueKind =>
      let& ty := ty_of constant in
      match ty with FPTy fptype => r_ret (CFloat (float_of constant fptype)) | _ => r_panic end
  | LLVMConstantStructValueKind =>
      let& ty := ty_of constant in
      let& ctx := r_get in
      let& (num_elements, is_packed) := r_lift (struct_shape ty (tb_types (ctx_types ctx))) in
      let& values := operands_of constant (range 0 (Z.of_nat num_elements)) in
      r_ret (CStruct None values is_packed)
  | LLVMConstantArrayValueKind =>
      let& ty := ty_of constant in
      match ty with
      | ArrayType element_type num_elements =>
          let& elements := operands_of constant (range 0 num_elements) in
          r_ret (CArray element_type elements)
      | _ => r_panic
      end
  | LLVMConstantVectorValueKind =>
      let& elements := operands_of constant (range 0 (LLVMGetNumOperands constant)) in
      r_ret (CVector elements)
  | LLVMConstantDataArrayValueKind =>
      let& ty := ty_of constant in
      match ty with
      | ArrayType element_type num_elements =>
          let& elements := elements_of constant (range 0 num_elements) in
          r_ret (CArray element_type elements)
      | _ => r_panic
      end
  | LLVMConstantDataVectorValueKind =>
      let& ty := ty_of constant in
      match ty with
      | VectorType _ num_elements _ =>
          let& elements := elements_of constant (range 0 num_elements) in
          r_ret (CVector elements)
      | _ => r_panic
      end
  | LLVMConstantPointerNullValueKind => let& ty := ty_of constant in r_ret (CNull ty)
  | LLVMConstantAggregateZeroValueKind => let& ty := ty_of constant in r_ret (CAggregateZero ty)
  | LLVMUndefValueValueKind => let& ty := ty_of constant in r_ret (CUndef ty)
  | LLVMPoisonValueKind => let& ty := ty_of constant in r_ret (CPoison ty)
  | LLVMConstantTokenNoneValueKind => r_ret CTokenNone
  | LLVMBlockAddressValueKind => r_ret CBlockAddress
  | LLVMConstantExprValueKind => constant_expr constant
  | LLVMConstantPtrAuthValueKind =>
      let& ptr := Constant_from_llvm_ref (LLVMGetConstantPtrAuthPointer constant) in
      let& key := Constant_from_llvm_ref (LLVMGetConstantPtrAuthKey constant) in
      let& disc := Constant_from_llvm_ref (LLVMGetConstantPtrAuthDiscriminator constant) in
      let& addr_disc := Constant_from_llvm_ref (LLVMGetConstantPtrAuthAddrDiscriminator constant) in
      r_ret (CPtrAuth ptr key disc addr_disc)
  | _ => global_reference constant
  end.
End self.

Fixpoint constant_at_depth (fuel : nat) (constant : ValueRef) : reader ModuleContext Constant := fun ctx =>
  match ctx_constants ctx !! constant with
  | Some constantref => Done (constantref, ctx)
  | None =>
      match fuel with
      | O => Diverge
      | S f => (let& parsed := parse_constant (constant_at_depth f) constant in
                let& _ := add_constant constant parsed in
                r_ret parsed) ctx
      end
  end.
Definition Constant_from_llvm_ref : ValueRef -> reader ModuleContext Constant :=
  constant_at_depth constant_depth.

(** ** Operands *)

(** [val_names] of the [FunctionContext] *)
Definition Operand_from_llvm_ref (val_names : gmap N Name) (operand : ValueRef)
    : reader ModuleContext Operand :=
  let constant := LLVMIsAConstant operand in
  if negb (is_null constant) then
    let& c := Constant_from_llvm_ref constant in r_ret (ConstantOperand c)
  else if bool_decide (LLVMGetValueKind operand = LLVMMetadataAsValueValueKind) then
    r_ret MetadataOperand
  else
    let& name := r_lift (expect (val_names !! operand)) in
    let& ty := ty_of operand in
    r_ret (LocalOperand name ty).
End read.
