(* ===== verification/ReadAttr.v ===== *)
(** * ReadAttr: enumerations, debug locations and attributes read from LLVM

    The [from_llvm] functions of [predicates.rs], [module.rs] and
    [instruction.rs]; [DebugLoc] of [debugloc.rs]; [CallingConvention::from_u32],
    [AttributesData] and the attribute readers of [function.rs]. *)

From S2P Require Import Prelude Text Types Layout Constants Instr Llvm ReadTypes ReadConst.
From stdpp Require Import base gmap list strings.
From Stdlib Require Import ZArith Lia.
#[local] Open Scope string_scope.

(** ** Enumerations *)

Definition IntPredicate_from_llvm (pred : LLVMIntPredicate) : IntPredicate :=
  match pred with
  | LLVMIntEQ => IEQ | LLVMIntNE => INE | LLVMIntUGT => IUGT | LLVMIntUGE => IUGE
  | LLVMIntULT => IULT | LLVMIntULE => IULE | LLVMIntSGT => ISGT | LLVMIntSGE => ISGE
  | LLVMIntSLT => ISLT | LLVMIntSLE => ISLE
  end.
Definition FPPredicate_from_llvm (pred : LLVMRealPredicate) : FPPredicate :=
  match pred with
  | LLVMRealPredicateFalse => FFalse | LLVMRealOEQ => FOEQ | LLVMRealOGT => FOGT
  | LLVMRealOGE => FOGE | LLVMRealOLT => FOLT | LLVMRealOLE => FOLE | LLVMRealONE => FONE
  | LLVMRealORD => FORD | LLVMRealUNO => FUNO | LLVMRealUEQ => FUEQ | LLVMRealUGT => FUGT
  | LLVMRealUGE => FUGE | LLVMRealULT => FULT | LLVMRealULE => FULE | LLVMRealUNE => FUNE
  | LLVMRealPredicateTrue => FTrue
  end.
Definition MemoryOrdering_from_llvm (ao : LLVMAtomicOrdering) : MemoryOrdering :=
  match ao with
  | LLVMAtomicOrderingUnordered => Unordered
  | LLVMAtomicOrderingMonotonic => Monotonic
  | LLVMAtomicOrderingAcquire => Acquire
  | LLVMAtomicOrderingRelease => Release
  | LLVMAtomicOrderingAcquireRelease => AcquireRelease
  | LLVMAtomicOrderingSequentiallyConsistent => SequentiallyConsistent
  | LLVMAtomicOrderingNotAtomic => NotAtomic
  end.
Definition RMWBinOp_from_llvm (rmwbo : LLVMAtomicRMWBinOp) : RMWBinOp :=
  match rmwbo with
  | LLVMAtomicRMWBinOpXchg => RMW_Xchg | LLVMAtomicRMWBinOpAdd => RMW_Add
  | LLVMAtomicRMWBinOpSub => RMW_Sub | LLVMAtomicRMWBinOpAnd => RMW_And
  | LLVMAtomicRMWBinOpNand => RMW_Nand | LLVMAtomicRMWBinOpOr => RMW_Or
  | LLVMAtomicRMWBinOpXor => RMW_Xor | LLVMAtomicRMWBinOpMax => RMW_Max
  | LLVMAtomicRMWBinOpMin => RMW_Min | LLVMAtomicRMWBinOpUMax => RMW_UMax
  | LLVMAtomicRMWBinOpUMin => RMW_UMin | LLVMAtomicRMWBinOpFAdd => RMW_FAdd
  | LLVMAtomicRMWBinOpFSub => RMW_FSub | LLVMAtomicRMWBinOpFMax => RMW_FMax
  | LLVMAtomicRMWBinOpFMin => RMW_FMin | LLVMAtomicRMWBinOpUIncWrap => RMW_UIncWrap
  | LLVMAtomicRMWBinOpUDecWrap => RMW_UDecWrap
  end.
Definition UnnamedAddr_from_llvm (ua : LLVMUnnamedAddr) : option UnnamedAddr :=
  match ua with
  | LLVMNoUnnamedAddr => None
  | LLVMLocalUnnamedAddr => Some UA_Local
  | LLVMGlobalUnnamedAddr => Some UA_Global
  end.
Definition Linkage_from_llvm (linkage : LLVMLinkage) : Linkage :=
  match linkage with
  | LLVMExternalLinkage => L_External
  | LLVMAvailableExternallyLinkage => L_AvailableExternally
  | LLVMLinkOnceAnyLinkage => L_LinkOnceAny
  | LLVMLinkOnceODRLinkage => L_LinkOnceODR
  | LLVMLinkOnceODRAutoHideLinkage => L_LinkOnceODRAutoHide
  | LLVMWeakAnyLinkage => L_WeakAny
  | LLVMWeakODRLinkage => L_WeakODR
  | LLVMAppendingLinkage => L_Appending
  | LLVMInternalLinkage => L_Internal
  | LLVMPrivateLinkage => L_Private
  | LLVMDLLImportLinkage => L_DLLImport
  | LLVMDLLExportLinkage => L_DLLExport
  | LLVMExternalWeakLinkage => L_ExternalWeak
  | LLVMGhostLinkage => L_Ghost
  | LLVMCommonLinkage => L_Common
  | LLVMLinkerPrivateLinkage => L_LinkerPrivate
  | LLVMLinkerPrivateWeakLinkage => L_LinkerPrivateWeak
  end.
Definition Visibility_from_llvm (visibility : LLVMVisibility) : Visibility :=
  match visibility with
  | LLVMDefaultVisibility => V_Default
  | LLVMHiddenVisibility => V_Hidden
  | LLVMProtectedVisibility => V_Protected
  end.
Definition DLLStorageClass_from_llvm (dllsc : LLVMDLLStorageClass) : DLLStorageClass :=
  match dllsc with
  | LLVMDefaultStorageClass => DLL_Default
  | LLVMDLLImportStorageClass => DLL_Import
  | LLVMDLLExportStorageClass => DLL_Export
  end.
Definition ThreadLocalMode_from_llvm (tlm : LLVMThreadLocalMode) : ThreadLocalMode :=
  match tlm with
  | LLVMNotThreadLocal => NotThreadLocal
  | LLVMGeneralDynamicTLSModel => GeneralDynamic
  | LLVMLocalDynamicTLSModel => LocalDynamic
  | LLVMInitialExecTLSModel => InitialExec
  | LLVMLocalExecTLSModel => LocalExec
  end.
Definition SelectionKind_from_llvm (sk : LLVMComdatSelectionKind) : SelectionKind :=
  match sk with
  | LLVMAnyComdatSelectionKind => SK_Any
  | LLVMExactMatchComdatSelectionKind => SK_ExactMatch
  | LLVMLargestComdatSelectionKind => SK_Largest
  | LLVMNoDuplicatesComdatSelectionKind => SK_NoDuplicates
  | LLVMSameSizeComdatSelectionKind => SK_SameSize
  end.

(** [CallingConvention::from_u32]: the arms in order *)
Definition call_conv_arms : list (LLVMCallConv * CallingConvention) :=
  [(LLVMCCallConv, CC_C); (LLVMFastCallConv, CC_Fast); (LLVMColdCallConv, CC_Cold);
   (LLVMGHCCallConv, CC_GHC); (LLVMHiPECallConv, CC_HiPE); (LLVMAnyRegCallConv, CC_AnyReg);
   (LLVMPreserveMostCallConv, CC_PreserveMost); (LLVMPreserveAllCallConv, CC_PreserveAll);
   (LLVMSwiftCallConv, CC_Swift); (LLVMCXXFASTTLSCallConv, CC_CXX_FastTLS);
   (LLVMX86StdcallCallConv, CC_X86_StdCall); (LLVMX86FastcallCallConv, CC_X86_FastCall);
   (LLVMX86RegCallCallConv, CC_X86_RegCall); (LLVMX86ThisCallCallConv, CC_X86_ThisCall);
   (LLVMX86VectorCallCallConv, CC_X86_VectorCall); (LLVMX86INTRCallConv, CC_X86_Intr);
   (LLVMX8664SysVCallConv, CC_X86_64_SysV); (LLVMARMAPCSCallConv, CC_ARM_APCS);
   (LLVMARMAAPCSCallConv, CC_ARM_AAPCS); (LLVMARMAAPCSVFPCallConv, CC_ARM_AAPCS_VFP);
   (LLVMMSP430INTRCallConv, CC_MSP430_INTR); (LLVMMSP430BUILTINCallConv, CC_MSP430_Builtin);
   (LLVMPTXKernelCallConv, CC_PTX_Kernel); (LLVMPTXDeviceCallConv, CC_PTX_Device);
   (LLVMSPIRFUNCCallConv, CC_SPIR_FUNC); (LLVMSPIRKERNELCallConv, CC_SPIR_KERNEL);
   (LLVMIntelOCLBICallConv, CC_Intel_OCL_BI); (LLVMWin64CallConv, CC_Win64);
   (LLVMHHVMCallConv, CC_HHVM); (LLVMHHVMCCallConv, CC_HHVM_C);
   (LLVMAVRINTRCallConv, CC_AVR_Intr); (LLVMAVRSIGNALCallConv, CC_AVR_Signal);
   (LLVMAVRBUILTINCallConv, CC_AVR_Builtin); (LLVMAMDGPUCSCallConv, CC_AMDGPU_CS);
   (LLVMAMDGPUESCallConv, CC_AMDGPU_ES); (LLVMAMDGPUGSCallConv, CC_AMDGPU_GS);
   (LLVMAMDGPUHSCallConv, CC_AMDGPU_HS); (LLVMAMDGPULSCallConv, CC_AMDGPU_LS);
   (LLVMAMDGPUPSCallConv, CC_AMDGPU_PS); (LLVMAMDGPUVSCallConv, CC_AMDGPU_VS);
   (LLVMAMDGPUKERNELCallConv, CC_AMDGPU_Kernel)].

(** ** Attribute names *)

(** The tables of [AttributesData::create] as compiled for LLVM 19 *)
Definition function_attribute_list : list string :=
  ["alignstack"; "allocsize"; "alwaysinline"; "builtin"; "cold"; "convergent"; "inlinehint";
   "jumptable"; "minsize"; "naked"; "nobuiltin"; "nocf_check"; "noduplicate"; "nofree";
   "noimplicitfloat"; "noinline"; "nomerge"; "nonlazybind"; "noredzone"; "noreturn";
   "norecurse"; "willreturn"; "returns_twice"; "nosync"; "nounwind"; "null_pointer_is_valid";
   "optforfuzzing"; "optnone"; "optsize"; "readnone"; "readonly"; "writeonly"; "safestack";
   "sanitize_address"; "sanitize_memory"; "sanitize_thread"; "sanitize_hwaddress";
   "sanitize_memtag"; "shadowcallstack"; "speculative_load_hardening"; "speculatable"; "ssp";
   "sspreq"; "sspstrong"; "strictfp"; "uwtable"; "memory"].
Definition param_attribute_list : list string :=
  ["zeroext"; "signext"; "inreg"; "byval"; "preallocated"; "inalloca"; "sret"; "align";
   "noalias"; "nocapture"; "nofree"; "nest"; "returned"; "nonnull"; "dereferenceable";
   "dereferenceable_or_null"; "swiftself"; "swifterror"; "immarg"; "noundef"].

(** The arms of [FunctionAttribute::from_llvm_ref] that only name a variant *)
Definition function_attr_arms : list (string * FunctionAttribute) :=
  [("alwaysinline", FA_AlwaysInline); ("builtin", FA_Builtin); ("cold", FA_Cold);
   ("convergent", FA_Convergent); ("inaccessiblememonly", FA_InaccessibleMemOnly);
   ("inaccessiblemem_or_argmemonly", FA_InaccessibleMemOrArgMemOnly);
   ("inlinehint", FA_InlineHint); ("jumptable", FA_JumpTable); ("minsize", FA_MinimizeSize);
   ("naked", FA_Naked); ("nobuiltin", FA_NoBuiltin); ("nocf_check", FA_NoCFCheck);
   ("noduplicate", FA_NoDuplicate); ("nofree", FA_NoFree);
   ("noimplicitfloat", FA_NoImplicitFloat); ("noinline", FA_NoInline);
   ("nomerge", FA_NoMerge); ("nonlazybind", FA_NonLazyBind); ("noredzone", FA_NoRedZone);
   ("noreturn", FA_NoReturn); ("norecurse", FA_NoRecurse); ("willreturn", FA_WillReturn);
   ("returns_twice", FA_ReturnsTwice); ("nosync", FA_NoSync); ("nounwind", FA_NoUnwind);
   ("null_pointer_is_valid", FA_NullPointerIsValid); ("optforfuzzing", FA_OptForFuzzing);
   ("optnone", FA_OptNone); ("optsize", FA_OptSize); ("readnone", FA_ReadNone);
   ("readonly", FA_ReadOnly); ("writeonly", FA_WriteOnly); ("argmemonly", FA_ArgMemOnly);
   ("safestack", FA_SafeStack); ("sanitize_address", FA_SanitizeAddress);
   ("sanitize_memory", FA_SanitizeMemory); ("sanitize_thread", FA_SanitizeThread);
   ("sanitize_hwaddress", FA_SanitizeHWAddress); ("sanitize_memtag", FA_SanitizeMemTag);
   ("shadowcallstack", FA_ShadowCallStack);
   ("speculative_load_hardening", FA_SpeculativeLoadHardening);
   ("speculatable", FA_Speculatable); ("ssp", FA_StackProtect); ("sspreq", FA_StackProtectReq);
   ("sspstrong", FA_StackProtectStrong); ("strictfp", FA_StrictFP); ("uwtable", FA_UWTable)].
(** and those of [ParameterAttribute::from_llvm_ref] *)
Definition param_attr_arms : list (string * ParameterAttribute) :=
  [("zeroext", PA_ZeroExt); ("signext", PA_SignExt); ("inreg", PA_InReg);
   ("noalias", PA_NoAlias); ("nocapture", PA_NoCapture); ("nofree", PA_NoFree);
   ("nest", PA_Nest); ("returned", PA_Returned); ("nonnull", PA_NonNull);
   ("swiftself", PA_SwiftSelf); ("swifterror", PA_SwiftError); ("immarg", PA_ImmArg);
   ("noundef", PA_NoUndef)].

Definition arm {A} (arms : list (string * A)) (s : string) : option A :=
  snd <$> find (fun p => String.eqb p.1 s) arms.

(** [AllocSize]: the element size in the upper half, the count in the lower one,
    all ones standing for none *)
Definition allocsize_of (value : Z) : FunctionAttribute :=
  let elt_size := Z.land (Z.shiftr value 32) 4294967295 in
  let n := Z.land value 4294967295 in
  FA_AllocSize elt_size (if (n =? 4294967295)%Z then None else Some n).

(** [Memory]: two bits for each kind of location *)
Definition memory_of (value : Z) : exec FunctionAttribute :=
  let encoded_argmem := Z.land (Z.shiftr value 0) 3 in
  let encoded_inaccessible_mem := Z.land (Z.shiftr value 2) 3 in
  let encoded_default_mem := Z.land (Z.shiftr value 4) 3 in
  let! d := MemoryEffect_from_llvm_bits encoded_default_mem in
  let! a := MemoryEffect_from_llvm_bits encoded_argmem in
  let! i := MemoryEffect_from_llvm_bits encoded_inaccessible_mem in
  Done (FA_Memory d a i).

Section read.
Context `{LLVM, Bounds}.

Definition CallingConvention_from_u32 (u : Z) : CallingConvention :=
  match find (fun p => (LLVMCallConv_u32 p.1 =? u)%Z) call_conv_arms with
  | Some (_, cc) => cc
  | None => CC_Numbered u
  end.

Definition SynchronizationScope_from_llvm_ref (inst : ValueRef) : SynchronizationScope :=
  if LLVMIsAtomicSingleThread inst then SingleThread else System.

Definition Comdat_from_llvm_ref (comdat : ComdatRef) : Comdat :=
  mk_Comdat "error: not yet implemented: Comdat.name"
    (SelectionKind_from_llvm (LLVMGetComdatSelectionKind comdat)).

(** [debugloc.rs] *)
Definition DebugLoc_from_llvm_no_col (value : ValueRef) : exec (option DebugLoc) :=
  let! filename := wrap_maybe_null LLVMGetDebugLocFilename value in
  match filename with
  | None => Done None
  | Some filename =>
      let! directory := wrap_maybe_null LLVMGetDebugLocDirectory value in
      Done (Some (mk_DebugLoc (LLVMGetDebugLocLine value) None filename directory))
  end.
Definition DebugLoc_from_llvm_with_col (value : ValueRef) : exec (option DebugLoc) :=
  let! debugloc := DebugLoc_from_llvm_no_col value in
  match debugloc with
  | Some d => Done (Some (mk_DebugLoc (DebugLoc_line d) (Some (LLVMGetDebugLocColumn value))
                            (DebugLoc_filename d) (DebugLoc_directory d)))
  | None => Done None
  end.

(** ** Attributes *)

(** [filter_map(..).collect()] into a [HashMap]: a later name of the same kind
    replaces an earlier one; kind 0 is an unknown name. *)
Definition add_kind (m : gmap Z string) (name : string) : gmap Z string :=
  let kind := LLVMGetEnumAttributeKindForName name in
  if (kind =? 0)%Z then m else <[kind := name]> m.
Definition attribute_kinds (names : list string) : gmap Z string := foldl add_kind ∅ names.
Definition AttributesData_create : AttributesData :=
  mk_AttributesData (attribute_kinds function_attribute_list) (attribute_kinds param_attribute_list).

Definition FunctionAttribute_from_llvm_ref (a : AttributeRef) (attrsdata : AttributesData)
    : exec FunctionAttribute :=
  if LLVMIsEnumAttribute a then
    match function_attribute_names attrsdata !! LLVMGetEnumAttributeKind a with
    | Some s =>
        if bool_decide (s = "alignstack") then Done (FA_AlignStack (LLVMGetEnumAttributeValue a))
        else if bool_decide (s = "allocsize") then Done (allocsize_of (LLVMGetEnumAttributeValue a))
        else if bool_decide (s = "memory") then memory_of (LLVMGetEnumAttributeValue a)
        else expect (arm function_attr_arms s)
    | None => Done FA_UnknownAttribute
    end
  else if LLVMIsStringAttribute a then
    let! kind := wrap LLVMGetStringAttributeKind a in
    let! value := wrap LLVMGetStringAttributeValue a in
    Done (FA_StringAttribute kind value)
  else Done FA_UnknownAttribute.

Definition ParameterAttribute_from_llvm_ref (a : AttributeRef)
    : reader ModuleContext ParameterAttribute :=
  let& ctx := r_get in
  let lookup_param_attr kind := param_attribute_names (ctx_attrsdata ctx) !! kind in
  if LLVMIsEnumAttribute a then
    match lookup_param_attr (LLVMGetEnumAttributeKind a) with
    | Some s =>
        if bool_decide (s = "align") then r_ret (PA_Alignment (LLVMGetEnumAttributeValue a))
        else if bool_decide (s = "dereferenceable") then
          r_ret (PA_Dereferenceable (LLVMGetEnumAttributeValue a))
        else if bool_decide (s = "dereferenceable_or_null") then
          r_ret (PA_DereferenceableOrNull (LLVMGetEnumAttributeValue a))
        else r_lift (expect (arm param_attr_arms s))
    | None => r_ret PA_UnknownAttribute
    end
  else if LLVMIsStringAttribute a then
    let& kind := r_lift (wrap LLVMGetStringAttributeKind a) in
    let& value := r_lift (wrap LLVMGetStringAttributeValue a) in
    r_ret (PA_StringAttribute kind value)
  else if LLVMIsTypeAttribute a then
    let kind := LLVMGetEnumAttributeKind a in
    let& ty := in_types (type_from_llvm_ref (LLVMGetTypeAttributeValue a)) in
    match lookup_param_attr kind with
    | Some s =>
        if bool_decide (s = "byval") then r_ret (PA_ByVal ty)
        else if bool_decide (s = "preallocated") then r_ret (PA_Preallocated ty)
        else if bool_decide (s = "inalloca") then r_ret (PA_InAlloca ty)
        else if bool_decide (s = "sret") then r_ret (PA_SRet ty)
        else r_panic
    | None => r_ret (PA_UnknownTypeAttribute ty)
    end
  else r_ret PA_UnknownAttribute.
End read.

(** ** The attributes are decoded *)

Section attributes.
Context `{LLVM, Bounds}.

Lemma attribute_kinds_elem names k s : attribute_kinds names !! k = Some s -> s ∈ names.
Proof.
  unfold attribute_kinds.
  assert (forall l m, foldl add_kind m l !! k = Some s -> m !! k = Some s \/ s ∈ l) as Hl.
  { induction l as [|name l IH]; intros m; simpl; [by left|]. intros [Hm|Hin]%IH; [|set_solver].
    unfold add_kind in Hm. case_match; [by left|]. destruct (decide (LLVMGetEnumAttributeKindForName name = k)) as [<-|];
      [rewrite lookup_insert_eq in Hm; set_solver|rewrite lookup_insert_ne in Hm by done; by left]. }
  intros Hs. destruct (Hl _ _ Hs) as [Hm|]; [by rewrite lookup_empty in Hm|done].
Qed.

(** LLVM gives different attributes different kinds. *)
Definition kinds_distinct (names : list string) : Prop :=
  forall s s', s ∈ names -> s' ∈ names ->
  LLVMGetEnumAttributeKindForName s = LLVMGetEnumAttributeKindForName s' -> s = s'.

Lemma attribute_kinds_lookup names s :
  kinds_distinct names -> s ∈ names -> LLVMGetEnumAttributeKindForName s <> 0%Z ->
  attribute_kinds names !! LLVMGetEnumAttributeKindForName s = Some s.
Proof.
  intros Hd Hs Hnz. unfold attribute_kinds.
  assert (forall l m, l ⊆ names ->
    m !! LLVMGetEnumAttributeKindForName s = Some s \/ s ∈ l ->
    foldl add_kind m l !! LLVMGetEnumAttributeKindForName s = Some s) as Hl.
  { induction l as [|name l IH]; intros m Hsub Hm; simpl; [set_solver|]. apply IH; [set_solver|]. unfold add_kind.
    destruct (decide (name = s)) as [->|Hne].
    - left. rewrite (proj2 (Z.eqb_neq _ 0)) by done. by rewrite lookup_insert_eq.
    - destruct Hm as [Hm|Hin]; [left|right; set_solver]. case_match; [done|].
      rewrite lookup_insert_ne; [done|]. intros Heq. apply Hne, Hd; [set_solver|done|done]. }
  apply Hl; [done|by right].
Qed.

(** Every name of the table has its arm. *)
Definition function_name_handled (s : string) : bool :=
  bool_decide (s = "alignstack") || bool_decide (s = "allocsize") || bool_decide (s = "memory")
  || bool_decide (is_Some (arm function_attr_arms s)).
Lemma function_names_handled s : s ∈ function_attribute_list -> function_name_handled s = true.
Proof.
  intros Hs. assert (forallb function_name_handled function_attribute_list = true) as Hall by by vm_compute.
  rewrite forallb_forall in Hall. by apply Hall, list_elem_of_In.
Qed.

Lemma land_mask z n : (0 <= n)%Z -> (0 <= Z.land z (Z.ones n) < 2 ^ n)%Z.
Proof. intros Hn. rewrite Z.land_ones by done. apply Z.mod_pos_bound. lia. Qed.

Lemma memory_bits z : exists e, MemoryEffect_from_llvm_bits (Z.land z 3) = Done e.
Proof.
  pose proof (land_mask z 2 ltac:(lia)) as Hz. change (Z.ones 2) with 3%Z in Hz.
  assert (Z.land z 3 = 0 \/ Z.land z 3 = 1 \/ Z.land z 3 = 2 \/ Z.land z 3 = 3)%Z as [-> |[-> |[-> | ->]]] by lia;
    simpl; eauto.
Qed.
Lemma memory_total z : exists fa, memory_of z = Done fa.
Proof.
  unfold memory_of. destruct (memory_bits (Z.shiftr z 4)) as [d ->]. destruct (memory_bits (Z.shiftr z 0)) as [a ->].
  destruct (memory_bits (Z.shiftr z 2)) as [i ->]. simpl. eauto.
Qed.

Lemma function_enum_total a :
  LLVMIsEnumAttribute a = true -> exists fa, FunctionAttribute_from_llvm_ref a AttributesData_create = Done fa.
Proof.
  intros Ha. unfold FunctionAttribute_from_llvm_ref. rewrite Ha. simpl.
  destruct (attribute_kinds function_attribute_list !! _) as [s|] eqn:E; [|eauto].
  apply attribute_kinds_elem, function_names_handled in E. unfold function_name_handled in E.
  repeat case_bool_decide; simpl in E; eauto using memory_total; try done.
  match goal with Hs : is_Some _ |- _ => destruct Hs as [fa ->] end. simpl. eauto.
Qed.

Lemma halves hi lo : (0 <= lo < 2 ^ 32)%Z -> (0 <= hi < 2 ^ 32)%Z ->
  Z.land (Z.shiftr (hi * 2 ^ 32 + lo) 32) 4294967295 = hi /\ Z.land (hi * 2 ^ 32 + lo) 4294967295 = lo.
Proof.
  intros Hlo Hhi. change 4294967295%Z with (Z.ones 32). rewrite !Z.land_ones, Z.shiftr_div_pow2 by lia.
  rewrite Z.div_add_l, (Z.div_small lo) by lia. rewrite Z.add_0_r, Z.mod_small by lia. split; [done|].
  rewrite Z.add_comm, Z.mod_add, Z.mod_small by lia. done.
Qed.

End attributes.
