(* ===== verification/ReadInstr.v ===== *)
(** * ReadInstr: the readers of instructions and terminators

    [from_llvm_ref] of every struct of [instruction.rs] and [terminator.rs], and
    the two dispatchers over opcodes.  The state is the [ModuleContext] and the
    counter of the [FunctionContext] that numbers unnamed values; the names of
    blocks and values found by the first pass do not change and are arguments. *)

From S2P Require Import Prelude Text Types Layout Constants Instr Llvm ReadTypes ReadConst ReadAttr.
From stdpp Require Import base gmap list strings.
From Stdlib Require Import ZArith Lia.
#[local] Open Scope string_scope.

(** ** The state *)

(** The maps of [FunctionContext] *)
Record FunctionNames := mk_FunctionNames {
  bb_names : gmap N Name;
  val_names : gmap N Name
}.
(** The module context and [FunctionContext::ctr] *)
Record FState := mk_FState { fs_ctx : ModuleContext; fs_ctr : nat }.

Definition in_ctx {A} (m : reader ModuleContext A) : reader FState A := fun st =>
  let! (a, ctx) := m (fs_ctx st) in Done (a, mk_FState ctx (fs_ctr st)).
Definition r_fmap {S A B} (f : A -> B) (m : reader S A) : reader S B :=
  let& a := m in r_ret (f a).

(** [Name::name_or_num(s, &mut func_ctx.ctr)] *)
Definition next_name (s : string) : reader FState Name := fun st =>
  let '(n, ctr) := name_or_num s (fs_ctr st) in Done (n, mk_FState (fs_ctx st) ctr).

(** [as u32] of a mask element: a negative one does not convert *)
Definition mask_constant (scalable : bool) (undef_elem val : Z) : reader ModuleContext Constant :=
  if (val =? undef_elem)%Z then
    let& ty := in_types (on_types (tb_int 32)) in r_ret (CUndef ty)
  else
    let& _ := r_assert (if scalable then val =? 0 else 0 <=? val)%Z in
    r_ret (CInt 32 val).

Section read.
Context `{LLVM, Bounds}.
Context (global_names : GlobalNames) (func_ctx : FunctionNames).

(** ** What the readers share *)

Definition operand (v : ValueRef) : reader FState Operand :=
  in_ctx (Operand_from_llvm_ref global_names (val_names func_ctx) v).
Definition op (inst : ValueRef) (i : Z) : reader FState Operand := operand (LLVMGetOperand inst i).
Definition constant (v : ValueRef) : reader FState Constant :=
  in_ctx (Constant_from_llvm_ref global_names v).
Definition type_ (t : TypeRef) : reader FState Ty := in_ctx (in_types (type_from_llvm_ref t)).
(** [Name::name_or_num(get_value_name(inst), &mut func_ctx.ctr)] *)
Definition dest (inst : ValueRef) : reader FState Name :=
  let& s := r_lift (get_value_name inst) in next_name s.
Definition debugloc (inst : ValueRef) : reader FState (option DebugLoc) :=
  r_lift (DebugLoc_from_llvm_with_col inst).
Definition num_operands (inst : ValueRef) (n : Z) : reader FState unit :=
  r_assert (LLVMGetNumOperands inst =? n)%Z.
(** [func_ctx.bb_names.get(..).expect(..)] *)
Definition block (bb : BlockRef) : reader FState Name := r_lift (expect (bb_names func_ctx !! bb)).
(** a block reference that may be null *)
Definition maybe_block (bb : BlockRef) : reader FState (option Name) :=
  if is_null bb then r_ret None else r_fmap Some (block bb).

(** ** Instructions *)

Definition unop_from_llvm {A} (mk : Operand -> Name -> option DebugLoc -> A) (inst : ValueRef)
    : reader FState A :=
  let& _ := num_operands inst 1 in
  let& operand := op inst 0 in
  let& d := dest inst in
  let& loc := debugloc inst in
  r_ret (mk operand d loc).

Definition binop_from_llvm {A} (mk : Operand -> Operand -> Name -> option DebugLoc -> A)
    (inst : ValueRef) : reader FState A :=
  let& _ := num_operands inst 2 in
  let& operand0 := op inst 0 in
  let& operand1 := op inst 1 in
  let& d := dest inst in
  let& loc := debugloc inst in
  r_ret (mk operand0 operand1 d loc).

Definition binop_from_llvm_with_nuw_nsw {A}
    (mk : Operand -> Operand -> Name -> bool -> bool -> option DebugLoc -> A) (inst : ValueRef)
    : reader FState A :=
  let& _ := num_operands inst 2 in
  let& operand0 := op inst 0 in
  let& operand1 := op inst 1 in
  let& d := dest inst in
  let& loc := debugloc inst in
  r_ret (mk operand0 operand1 d (LLVMGetNUW inst) (LLVMGetNSW inst) loc).

Definition binop_from_llvm_with_exact {A}
    (mk : Operand -> Operand -> Name -> bool -> option DebugLoc -> A) (inst : ValueRef)
    : reader FState A :=
  let& _ := num_operands inst 2 in
  let& operand0 := op inst 0 in
  let& operand1 := op inst 1 in
  let& d := dest inst in
  let& loc := debugloc inst in
  r_ret (mk operand0 operand1 d (LLVMGetExact inst) loc).

Definition typed_unop_from_llvm {A} (mk : Operand -> Ty -> Name -> option DebugLoc -> A)
    (inst : ValueRef) : reader FState A :=
  let& _ := num_operands inst 1 in
  let& operand := op inst 0 in
  let& to_type := type_ (LLVMTypeOf inst) in
  let& d := dest inst in
  let& loc := debugloc inst in
  r_ret (mk operand to_type d loc).

Definition ExtractElement_from_llvm_ref (inst : ValueRef) : reader FState ExtractElement :=
  let& _ := num_operands inst 2 in
  let& vector := op inst 0 in
  let& index := op inst 1 in
  let& d := dest inst in
  let& loc := debugloc inst in
  r_ret (mk_ExtractElement vector index d loc).

Definition InsertElement_from_llvm_ref (inst : ValueRef) : reader FState InsertElement :=
  let& _ := num_operands inst 3 in
  let& vector := op inst 0 in
  let& element := op inst 1 in
  let& index := op inst 2 in
  let& d := dest inst in
  let& loc := debugloc inst in
  r_ret (mk_InsertElement vector element index d loc).

Definition shuffle_mask (inst : ValueRef) : reader FState Constant :=
  let& ret_ty := type_ (LLVMTypeOf inst) in
  match ret_ty with
  | VectorType _ num_elements scalable =>
      let& _ := r_assert (as_u32 num_elements =? LLVMGetNumMaskElements inst)%Z in
      let& elements := r_map (fun i =>
          let& _ := r_assert (i <? u32_modulus)%Z in
          in_ctx (mask_constant scalable LLVMGetUndefMaskElem (LLVMGetMaskValue inst i)))
        (range 0 num_elements) in
      r_ret (CVector elements)
  | _ => r_panic
  end.
Definition ShuffleVector_from_llvm_ref (inst : ValueRef) : reader FState ShuffleVector :=
  let& _ := num_operands inst 2 in
  let& operand0 := op inst 0 in
  let& operand1 := op inst 1 in
  let& mask := shuffle_mask inst in
  let& d := dest inst in
  let& loc := debugloc inst in
  r_ret (mk_ShuffleVector operand0 operand1 d mask loc).

Definition ExtractValue_from_llvm_ref (inst : ValueRef) : reader FState ExtractValue :=
  let& _ := num_operands inst 1 in
  let& aggregate := op inst 0 in
  let& d := dest inst in
  let& loc := debugloc inst in
  r_ret (mk_ExtractValue aggregate (LLVMGetIndices inst) d loc).

Definition InsertValue_from_llvm_ref (inst : ValueRef) : reader FState InsertValue :=
  let& _ := num_operands inst 2 in
  let& aggregate := op inst 0 in
  let& element := op inst 1 in
  let& d := dest inst in
  let& loc := debugloc inst in
  r_ret (mk_InsertValue aggregate element (LLVMGetIndices inst) d loc).

Definition Alloca_from_llvm_ref (inst : ValueRef) : reader FState Alloca :=
  let& _ := num_operands inst 1 in
  let& allocated_type := type_ (LLVMGetAllocatedType inst) in
  let& num_elements := op inst 0 in
  let& d := dest inst in
  let& loc := debugloc inst in
  r_ret (mk_Alloca allocated_type num_elements d (LLVMGetAlignment inst) loc).

(** The atomicity of a load or a store *)
Definition maybe_atomicity (inst : ValueRef) : option Atomicity :=
  let ordering := LLVMGetOrdering inst in
  if bool_decide (ordering = LLVMAtomicOrderingNotAtomic) then None
  else Some (mk_Atomicity (SynchronizationScope_from_llvm_ref inst) (MemoryOrdering_from_llvm ordering)).

Definition Load_from_llvm_ref (inst : ValueRef) : reader FState Load :=
  let& _ := num_operands inst 1 in
  let& address := op inst 0 in
  let& d := dest inst in
  let& loaded_ty := type_ (LLVMTypeOf inst) in
  let& loc := debugloc inst in
  r_ret (mk_Load address d loaded_ty (LLVMGetVolatile inst) (maybe_atomicity inst)
           (LLVMGetAlignment inst) loc).

Definition Store_from_llvm_ref (inst : ValueRef) : reader FState Store :=
  let& _ := num_operands inst 2 in
  let& address := op inst 1 in
  let& value := op inst 0 in
  let& loc := debugloc inst in
  r_ret (mk_Store address value (LLVMGetVolatile inst) (maybe_atomicity inst)
           (LLVMGetAlignment inst) loc).

Definition Fence_from_llvm_ref (inst : ValueRef) : reader FState Fence :=
  let& _ := num_operands inst 0 in
  let& loc := debugloc inst in
  r_ret (mk_Fence (mk_Atomicity (SynchronizationScope_from_llvm_ref inst)
                     (MemoryOrdering_from_llvm (LLVMGetOrdering inst))) loc).

Definition CmpXchg_from_llvm_ref (inst : ValueRef) : reader FState CmpXchg :=
  let& _ := num_operands inst 3 in
  let& address := op inst 0 in
  let& expected := op inst 1 in
  let& replacement := op inst 2 in
  let& d := dest inst in
  let& loc := debugloc inst in
  r_ret (mk_CmpXchg address expected replacement d (LLVMGetVolatile inst)
           (mk_Atomicity (SynchronizationScope_from_llvm_ref inst)
              (MemoryOrdering_from_llvm (LLVMGetCmpXchgSuccessOrdering inst)))
           (MemoryOrdering_from_llvm (LLVMGetCmpXchgFailureOrdering inst))
           (LLVMGetWeak inst) loc).

Definition AtomicRMW_from_llvm_ref (inst : ValueRef) : reader FState AtomicRMW :=
  let& _ := num_operands inst 2 in
  let& address := op inst 0 in
  let& value := op inst 1 in
  let& d := dest inst in
  let& loc := debugloc inst in
  r_ret (mk_AtomicRMW (RMWBinOp_from_llvm (LLVMGetAtomicRMWBinOp inst)) address value d
           (LLVMGetVolatile inst)
           (mk_Atomicity (SynchronizationScope_from_llvm_ref inst)
              (MemoryOrdering_from_llvm (LLVMGetOrdering inst))) loc).

Definition GetElementPtr_from_llvm_ref (inst : ValueRef) : reader FState GetElementPtr :=
  let& address := op inst 0 in
  let& indices := r_map (op inst) (range 1 (LLVMGetNumIndices inst + 1)) in
  let& d := dest inst in
  let& loc := debugloc inst in
  let& source_element_type := type_ (LLVMGetGEPSourceElementType inst) in
  r_ret (mk_GetElementPtr address indices d (LLVMIsInBounds inst) loc source_element_type).

Definition ICmp_from_llvm_ref (inst : ValueRef) : reader FState ICmp :=
  let& _ := num_operands inst 2 in
  let& operand0 := op inst 0 in
  let& operand1 := op inst 1 in
  let& d := dest inst in
  let& loc := debugloc inst in
  r_ret (mk_ICmp (IntPredicate_from_llvm (LLVMGetICmpPredicate inst)) operand0 operand1 d loc).

Definition FCmp_from_llvm_ref (inst : ValueRef) : reader FState FCmp :=
  let& _ := num_operands inst 2 in
  let& operand0 := op inst 0 in
  let& operand1 := op inst 1 in
  let& d := dest inst in
  let& loc := debugloc inst in
  r_ret (mk_FCmp (FPPredicate_from_llvm (LLVMGetFCmpPredicate inst)) operand0 operand1 d loc).

Definition Phi_from_llvm_ref (inst : ValueRef) : reader FState Phi :=
  let& incoming_values := r_map (fun i =>
      let& o := operand (LLVMGetIncomingValue inst i) in
      let& name := block (LLVMGetIncomingBlock inst i) in
      r_ret (o, name)) (range 0 (LLVMCountIncoming inst)) in
  let& d := dest inst in
  let& to_type := type_ (LLVMTypeOf inst) in
  let& loc := debugloc inst in
  r_ret (mk_Phi incoming_values d to_type loc).

Definition Select_from_llvm_ref (inst : ValueRef) : reader FState Select :=
  let& _ := num_operands inst 3 in
  let& condition := op inst 0 in
  let& true_value := op inst 1 in
  let& false_value := op inst 2 in
  let& d := dest inst in
  let& loc := debugloc inst in
  r_ret (mk_Select condition true_value false_value d loc).

(** *** Calls *)

Record CallInfo := mk_CallInfo {
  ci_function : InlineAssembly + Operand;
  ci_function_ty : Ty;
  ci_arguments : list (Operand * list ParameterAttribute);
  ci_return_attributes : list ParameterAttribute;
  ci_function_attributes : list FunctionAttribute;
  ci_calling_convention : CallingConvention
}.

Definition InlineAssembly_from_llvm_ref (asm : ValueRef) : reader FState InlineAssembly :=
  let assembly := match LLVMGetInlineAsmAsmString asm with
                  | Some s => to_string_lossy s
                  | None => ""
                  end in
  let& ty := type_ (LLVMTypeOf asm) in
  r_ret (mk_InlineAssembly ty assembly).

Definition param_attrs (attrs : list AttributeRef) : reader FState (list ParameterAttribute) :=
  r_map (fun attr => in_ctx (ParameterAttribute_from_llvm_ref attr)) attrs.
Definition function_attrs (attrs : list AttributeRef) : reader FState (list FunctionAttribute) :=
  r_map (fun attr =>
    let& st := r_get in
    r_lift (FunctionAttribute_from_llvm_ref attr (ctx_attrsdata (fs_ctx st)))) attrs.

Definition CallInfo_from_llvm_ref (inst : ValueRef) : reader FState CallInfo :=
  let called_val := LLVMGetCalledValue inst in
  let& function := (let asm := LLVMIsAInlineAsm called_val in
                    if negb (is_null asm) then r_fmap inl (InlineAssembly_from_llvm_ref asm)
                    else r_fmap inr (operand called_val)) in
  let& function_ty := type_ (LLVMGetCalledFunctionType inst) in
  let& arguments := r_map (fun i =>
      let& o := op inst i in
      let& attrs := param_attrs (LLVMGetCallSiteAttributes inst (i + 1)) in
      r_ret (o, attrs)) (range 0 (LLVMGetNumArgOperands inst)) in
  let& return_attributes := param_attrs (LLVMGetCallSiteAttributes inst LLVMAttributeReturnIndex) in
  let& function_attributes :=
    function_attrs (LLVMGetCallSiteAttributes inst LLVMAttributeFunctionIndex) in
  r_ret (mk_CallInfo function function_ty arguments return_attributes function_attributes
           (CallingConvention_from_u32 (LLVMGetInstructionCallConv inst))).

(** Whether the called function returns nothing *)
Definition calls_void (inst : ValueRef) : bool :=
  bool_decide (LLVMGetTypeKind (LLVMGetReturnType (LLVMGetCalledFunctionType inst)) = LLVMVoidTypeKind).

Definition Call_from_llvm_ref (inst : ValueRef) : reader FState Call :=
  let& callinfo := CallInfo_from_llvm_ref inst in
  let& d := if calls_void inst then r_ret None else r_fmap Some (dest inst) in
  let& loc := debugloc inst in
  r_ret (mk_Call (ci_function callinfo) (ci_function_ty callinfo) (ci_arguments callinfo)
           (ci_return_attributes callinfo) d (ci_function_attributes callinfo)
           (LLVMIsTailCall inst) (ci_calling_convention callinfo) loc).

Definition VAArg_from_llvm_ref (inst : ValueRef) : reader FState VAArg :=
  let& _ := num_operands inst 1 in
  let& arg_list := op inst 0 in
  let& cur_type := type_ (LLVMTypeOf inst) in
  let& d := dest inst in
  let& loc := debugloc inst in
  r_ret (mk_VAArg arg_list cur_type d loc).

(** *** Exceptions *)

Definition LandingPadClause_from_llvm_ref (inst : ValueRef) (idx : Z) : reader FState LandingPadClause :=
  let clause_val := LLVMGetClause inst idx in
  let is_filter := bool_decide (LLVMGetTypeKind (LLVMTypeOf clause_val) = LLVMArrayTypeKind) in
  let& c := constant clause_val in
  r_ret (if is_filter then LP_Filter c else LP_Catch c).

Definition LandingPad_from_llvm_ref (inst : ValueRef) : reader FState LandingPad :=
  let& result_type := type_ (LLVMTypeOf inst) in
  let& clauses := r_map (LandingPadClause_from_llvm_ref inst) (range 0 (LLVMGetNumClauses inst)) in
  let& d := dest inst in
  let& loc := debugloc inst in
  r_ret (mk_LandingPad result_type clauses d (LLVMIsCleanup inst) loc).

Definition arg_operands (inst : ValueRef) : reader FState (list Operand) :=
  r_map (fun i => operand (LLVMGetArgOperand inst i)) (range 0 (LLVMGetNumArgOperands inst)).

Definition CatchPad_from_llvm_ref (inst : ValueRef) : reader FState CatchPad :=
  let& catch_switch := operand (LLVMGetParentCatchSwitch inst) in
  let& args := arg_operands inst in
  let& d := dest inst in
  let& loc := debugloc inst in
  r_ret (mk_CatchPad catch_switch args d loc).

Definition CleanupPad_from_llvm_ref (inst : ValueRef) : reader FState CleanupPad :=
  let& parent_pad := op inst 0 in
  let& args := arg_operands inst in
  let& d := dest inst in
  let& loc := debugloc inst in
  r_ret (mk_CleanupPad parent_pad args d loc).

(** *** The dispatcher *)

Definition Instruction_from_llvm_ref (inst : ValueRef) : reader FState Instruction :=
  match LLVMGetInstructionOpcode inst with
  | LLVMAdd => r_fmap IAdd (binop_from_llvm_with_nuw_nsw mk_Add inst)
  | LLVMSub => r_fmap ISub (binop_from_llvm_with_nuw_nsw mk_Sub inst)
  | LLVMMul => r_fmap IMul (binop_from_llvm_with_nuw_nsw mk_Mul inst)
  | LLVMUDiv => r_fmap IUDiv (binop_from_llvm_with_exact mk_UDiv inst)
  | LLVMSDiv => r_fmap ISDiv (binop_from_llvm_with_exact mk_SDiv inst)
  | LLVMURem => r_fmap IURem (binop_from_llvm mk_URem inst)
  | LLVMSRem => r_fmap ISRem (binop_from_llvm mk_SRem inst)
  | LLVMAnd => r_fmap IAnd (binop_from_llvm mk_And inst)
  | LLVMOr => r_fmap IOr (binop_from_llvm mk_Or inst)
  | LLVMXor => r_fmap IXor (binop_from_llvm mk_Xor inst)
  | LLVMShl => r_fmap IShl (binop_from_llvm_with_nuw_nsw mk_Shl inst)
  | LLVMLShr => r_fmap ILShr (binop_from_llvm_with_exact mk_LShr inst)
  | LLVMAShr => r_fmap IAShr (binop_from_llvm_with_exact mk_AShr inst)
  | LLVMFAdd => r_fmap IFAdd (binop_from_llvm mk_FAdd inst)
  | LLVMFSub => r_fmap IFSub (binop_from_llvm mk_FSub inst)
  | LLVMFMul => r_fmap IFMul (binop_from_llvm mk_FMul inst)
  | LLVMFDiv => r_fmap IFDiv (binop_from_llvm mk_FDiv inst)
  | LLVMFRem => r_fmap IFRem (binop_from_llvm mk_FRem inst)
  | LLVMFNeg => r_fmap IFNeg (unop_from_llvm mk_FNeg inst)
  | LLVMExtractElement => r_fmap IExtractElement (ExtractElement_from_llvm_ref inst)
  | LLVMInsertElement => r_fmap IInsertElement (InsertElement_from_llvm_ref inst)
  | LLVMShuffleVector => r_fmap IShuffleVector (ShuffleVector_from_llvm_ref inst)
  | LLVMExtractValue => r_fmap IExtractValue (ExtractValue_from_llvm_ref inst)
  | LLVMInsertValue => r_fmap IInsertValue (InsertValue_from_llvm_ref inst)
  | LLVMAlloca => r_fmap IAlloca (Alloca_from_llvm_ref inst)
  | LLVMLoad => r_fmap ILoad (Load_from_llvm_ref inst)
  | LLVMStore => r_fmap IStore (Store_from_llvm_ref inst)
  | LLVMFence => r_fmap IFence (Fence_from_llvm_ref inst)
  | LLVMAtomicCmpXchg => r_fmap ICmpXchg (CmpXchg_from_llvm_ref inst)
  | LLVMAtomicRMW => r_fmap IAtomicRMW (AtomicRMW_from_llvm_ref inst)
  | LLVMGetElementPtr => r_fmap IGetElementPtr (GetElementPtr_from_llvm_ref inst)
  | LLVMTrunc => r_fmap ITrunc (typed_unop_from_llvm mk_Trunc inst)
  | LLVMZExt => r_fmap IZExt (typed_unop_from_llvm mk_ZExt inst)
  | LLVMSExt => r_fmap ISExt (typed_unop_from_llvm mk_SExt inst)
  | LLVMFPTrunc => r_fmap IFPTrunc (typed_unop_from_llvm mk_FPTrunc inst)
  | LLVMFPExt => r_fmap IFPExt (typed_unop_from_llvm mk_FPExt inst)
  | LLVMFPToUI => r_fmap IFPToUI (typed_unop_from_llvm mk_FPToUI inst)
  | LLVMFPToSI => r_fmap IFPToSI (typed_unop_from_llvm mk_FPToSI inst)
  | LLVMUIToFP => r_fmap IUIToFP (typed_unop_from_llvm mk_UIToFP inst)
  | LLVMSIToFP => r_fmap ISIToFP (typed_unop_from_llvm mk_SIToFP inst)
  | LLVMPtrToInt => r_fmap IPtrToInt (typed_unop_from_llvm mk_PtrToInt inst)
  | LLVMIntToPtr => r_fmap IIntToPtr (typed_unop_from_llvm mk_IntToPtr inst)
  | LLVMBitCast => r_fmap IBitCast (typed_unop_from_llvm mk_BitCast inst)
  | LLVMAddrSpaceCast => r_fmap IAddrSpaceCast (typed_unop_from_llvm mk_AddrSpaceCast inst)
  | LLVMICmp => r_fmap IICmp (ICmp_from_llvm_ref inst)
  | LLVMFCmp => r_fmap IFCmp (FCmp_from_llvm_ref inst)
  | LLVMPHI => r_fmap IPhi (Phi_from_llvm_ref inst)
  | LLVMSelect => r_fmap ISelect (Select_from_llvm_ref inst)
  | LLVMFreeze => r_fmap IFreeze (unop_from_llvm mk_Freeze inst)
  | LLVMCall => r_fmap ICall (Call_from_llvm_ref inst)
  | LLVMVAArg => r_fmap IVAArg (VAArg_from_llvm_ref inst)
  | LLVMLandingPad => r_fmap ILandingPad (LandingPad_from_llvm_ref inst)
  | LLVMCatchPad => r_fmap ICatchPad (CatchPad_from_llvm_ref inst)
  | LLVMCleanupPad => r_fmap ICleanupPad (CleanupPad_from_llvm_ref inst)
  | _ => r_panic
  end.

(** ** Terminators *)

Definition Ret_from_llvm_ref (term : ValueRef) : reader FState Terminator :=
  let& return_operand := (if (LLVMGetNumOperands term =? 0)%Z then r_ret None
                          else if (LLVMGetNumOperands term =? 1)%Z then r_fmap Some (op term 0)
                          else r_panic) in
  let& loc := debugloc term in
  r_ret (TRet return_operand loc).

(** the block an operand stands for *)
Definition block_operand (term : ValueRef) (i : Z) : reader FState Name :=
  let& bb := r_lift (op_to_bb (LLVMGetOperand term i)) in block bb.

Definition Br_from_llvm_ref (term : ValueRef) : reader FState Terminator :=
  let& _ := num_operands term 1 in
  let& d := block_operand term 0 in
  let& loc := debugloc term in
  r_ret (TBr d loc).

Definition CondBr_from_llvm_ref (term : ValueRef) : reader FState Terminator :=
  let& _ := num_operands term 3 in
  let& condition := op term 0 in
  let& true_dest := block_operand term 2 in
  let& false_dest := block_operand term 1 in
  let& loc := debugloc term in
  r_ret (TCondBr condition true_dest false_dest loc).

(** The destinations go one further than the values; [zip] never asks for it. *)
Definition Switch_from_llvm_ref (term : ValueRef) : reader FState Terminator :=
  let& operand := op term 0 in
  let& dests := r_map (fun i =>
      let& c := constant (LLVMGetOperand term (2 * i)) in
      let& bb := block (LLVMGetSuccessor term i) in
      r_ret (c, bb)) (range 1 (LLVMGetNumSuccessors term)) in
  let& default_dest := block (LLVMGetSwitchDefaultDest term) in
  let& loc := debugloc term in
  r_ret (TSwitch operand dests default_dest loc).

Definition IndirectBr_from_llvm_ref (term : ValueRef) : reader FState Terminator :=
  let& operand := op term 0 in
  let& possible_dests := r_map (fun i => block (LLVMGetSuccessor term i))
                           (range 0 (LLVMGetNumSuccessors term)) in
  let& loc := debugloc term in
  r_ret (TIndirectBr operand possible_dests loc).

Definition Invoke_from_llvm_ref (term : ValueRef) : reader FState Terminator :=
  let& callinfo := CallInfo_from_llvm_ref term in
  let& result := dest term in
  let& return_label := block (LLVMGetNormalDest term) in
  let& exception_label := block (LLVMGetUnwindDest term) in
  let& loc := debugloc term in
  r_ret (TInvoke (ci_function callinfo) (ci_function_ty callinfo) (ci_arguments callinfo)
           (ci_return_attributes callinfo) result return_label exception_label
           (ci_function_attributes callinfo) (ci_calling_convention callinfo) loc).

Definition Resume_from_llvm_ref (term : ValueRef) : reader FState Terminator :=
  let& _ := num_operands term 1 in
  let& operand := op term 0 in
  let& loc := debugloc term in
  r_ret (TResume operand loc).

Definition Unreachable_from_llvm_ref (term : ValueRef) : reader FState Terminator :=
  let& _ := num_operands term 0 in
  let& loc := debugloc term in
  r_ret (TUnreachable loc).

Definition CleanupRet_from_llvm_ref (term : ValueRef) : reader FState Terminator :=
  let& _ := num_operands term 1 in
  let& cleanup_pad := op term 0 in
  let& unwind_dest := maybe_block (LLVMGetUnwindDest term) in
  let& loc := debugloc term in
  r_ret (TCleanupRet cleanup_pad unwind_dest loc).

Definition CatchRet_from_llvm_ref (term : ValueRef) : reader FState Terminator :=
  let& catch_pad := op term 0 in
  let& successor := block (LLVMGetSuccessor term 0) in
  let& loc := debugloc term in
  r_ret (TCatchRet catch_pad successor loc).

Definition CatchSwitch_from_llvm_ref (term : ValueRef) : reader FState Terminator :=
  let& parent_pad := op term 0 in
  let& catch_handlers := r_map block (LLVMGetHandlers term) in
  let& default_unwind_dest := maybe_block (LLVMGetUnwindDest term) in
  let& result := dest term in
  let& loc := debugloc term in
  r_ret (TCatchSwitch parent_pad catch_handlers default_unwind_dest result loc).

Definition CallBr_from_llvm_ref (term : ValueRef) : reader FState Terminator :=
  let& callinfo := CallInfo_from_llvm_ref term in
  let& result := dest term in
  let& return_label := block (LLVMGetNormalDest term) in
  let& loc := debugloc term in
  r_ret (TCallBr (ci_function callinfo) (ci_arguments callinfo) (ci_return_attributes callinfo)
           result return_label (ci_function_attributes callinfo) (ci_calling_convention callinfo) loc).

Definition Terminator_from_llvm_ref (term : ValueRef) : reader FState Terminator :=
  match LLVMGetInstructionOpcode term with
  | LLVMRet => Ret_from_llvm_ref term
  | LLVMBr => if (LLVMGetNumOperands term =? 1)%Z then Br_from_llvm_ref term
              else if (LLVMGetNumOperands term =? 3)%Z then CondBr_from_llvm_ref term
              else r_panic
  | LLVMSwitch => Switch_from_llvm_ref term
  | LLVMIndirectBr => IndirectBr_from_llvm_ref term
  | LLVMInvoke => Invoke_from_llvm_ref term
  | LLVMResume => Resume_from_llvm_ref term
  | LLVMUnreachable => Unreachable_from_llvm_ref term
  | LLVMCleanupRet => CleanupRet_from_llvm_ref term
  | LLVMCatchRet => CatchRet_from_llvm_ref term
  | LLVMCatchSwitch => CatchSwitch_from_llvm_ref term
  | LLVMCallBr => CallBr_from_llvm_ref term
  | _ => r_panic
  end.
End read.
