(* ===== verification/ReadModule.v ===== *)
(** * ReadModule: the readers of blocks, functions, global objects and modules

    [basicblock.rs] with its first pass over the names, [Function] and
    [FunctionDeclaration] of [function.rs], the global objects of [module.rs] and
    [Module::from_llvm_ref].  [debug_assertions] is the build's switch for
    [debug_assert!]. *)

From S2P Require Import Prelude Text Types Layout Constants Instr Llvm ReadTypes ReadConst ReadAttr ReadInstr.
From stdpp Require Import base gmap list strings.
From Stdlib Require Import ZArith Lia.
#[local] Open Scope string_scope.

Section read.
Context `{LLVM, Bounds}.
Context (debug_assertions : bool).

(** ** Which values have a name *)

Definition needs_name (inst : ValueRef) : exec bool :=
  let! s := get_value_name inst in
  if negb (bool_decide (s = "")) then Done true else
  Done match LLVMGetInstructionOpcode inst with
       | LLVMStore => false
       | LLVMFence => false
       | LLVMCall => negb (calls_void inst)
       | _ => true
       end.

Definition term_needs_name (term : ValueRef) : exec bool :=
  let! s := get_value_name term in
  if negb (bool_decide (s = "")) then Done true else
  Done match LLVMGetInstructionOpcode term with
       | LLVMInvoke => true
       | LLVMCatchSwitch => true
       | LLVMCallBr => true
       | _ => false
       end.

(** ** The first pass over a block *)

(** The counter is the state. *)
Definition name_value (v : ValueRef) : reader nat (ValueRef * Name) := fun ctr =>
  let! s := get_value_name v in
  let '(n, ctr) := name_or_num s ctr in Done ((v, n), ctr).

Fixpoint name_instrs (l : list ValueRef) : reader nat (list (ValueRef * Name)) :=
  match l with
  | [] => r_ret []
  | inst :: l' =>
      let& needs := r_lift (needs_name inst) in
      if (needs : bool) then
        let& p := name_value inst in
        let& ps := name_instrs l' in
        r_ret (p :: ps)
      else name_instrs l'
  end.

Definition first_pass_names (bb : BlockRef) : reader nat (Name * list (ValueRef * Name)) :=
  let& s := r_lift (get_bb_name bb) in
  let& bbname := (fun ctr => let '(n, ctr) := name_or_num s ctr in Done (n, ctr)) in
  let& insts := r_lift (get_instructions bb) in
  let& instnames := name_instrs (all_but_last insts) in
  let term := LLVMGetBasicBlockTerminator bb in
  let& needs := r_lift (term_needs_name term) in
  if (needs : bool) then
    let& p := name_value term in
    r_ret (bbname, (instnames ++ [p])%list)
  else r_ret (bbname, instnames).

(** ** Blocks *)

Definition BasicBlock_from_llvm_ref (global_names : GlobalNames) (func_ctx : FunctionNames)
    (bb : BlockRef) : reader FState BasicBlock :=
  let& s := r_lift (get_bb_name bb) in
  let& name := next_name s in
  let& _ := r_assert (negb debug_assertions || bool_decide (bb_names func_ctx !! bb = Some name)) in
  let& insts := r_lift (get_instructions bb) in
  let& instrs := r_map (Instruction_from_llvm_ref global_names func_ctx) (all_but_last insts) in
  let& term := Terminator_from_llvm_ref global_names func_ctx (LLVMGetBasicBlockTerminator bb) in
  r_ret (mk_BasicBlock name instrs term).

(** ** Functions *)

Definition Parameter_from_llvm_ref (func : ValueRef) (ip : nat * ValueRef) : reader FState Parameter_ :=
  let '(i, p) := ip in
  let& name := dest p in
  let& ty := type_ (LLVMTypeOf p) in
  let& attributes := param_attrs (LLVMGetAttributesAtIndex func (Z.of_nat i + 1)) in
  r_ret (mk_Parameter name ty attributes).

(** The counter after the parameters is the one the state ends with. *)
Definition FunctionDeclaration_from_llvm_ref_internal (func : ValueRef)
    : reader FState FunctionDeclaration :=
  let functy := LLVMGlobalGetValueType func in
  let& name := r_lift (get_value_name func) in
  let& ps := r_lift (get_parameters func) in
  let& parameters := r_map (Parameter_from_llvm_ref func) (enumerate ps) in
  let& return_type := type_ (LLVMGetReturnType functy) in
  let& return_attributes := param_attrs (LLVMGetAttributesAtIndex func LLVMAttributeReturnIndex) in
  let& garbage_collector_name := r_lift (wrap_maybe_null LLVMGetGC func) in
  let& loc := r_lift (DebugLoc_from_llvm_no_col func) in
  r_ret (mk_FunctionDeclaration name parameters (LLVMIsFunctionVarArg functy) return_type
           return_attributes (Linkage_from_llvm (LLVMGetLinkage func))
           (Visibility_from_llvm (LLVMGetVisibility func))
           (DLLStorageClass_from_llvm (LLVMGetDLLStorageClass func))
           (CallingConvention_from_u32 (LLVMGetFunctionCallConv func)) (LLVMGetAlignment func)
           garbage_collector_name loc).

(** A computation with a counter of its own, starting at 0 *)
Definition with_counter {A} (m : reader FState A) : reader ModuleContext (A * nat) := fun ctx =>
  let! (a, st) := m (mk_FState ctx 0) in Done ((a, fs_ctr st), fs_ctx st).

Definition FunctionDeclaration_from_llvm_ref (func : ValueRef)
    : reader ModuleContext FunctionDeclaration :=
  let func := LLVMIsAFunction func in
  let& _ := r_assert (negb (is_null func)) in
  let& (decl, _) := with_counter (FunctionDeclaration_from_llvm_ref_internal func) in
  r_ret decl.

(** The first pass over a function: the blocks in order, then the maps.  Later
    entries of a [collect] replace earlier ones. *)
Definition map_of_pairs {A} (l : list (N * A)) : gmap N A := list_to_map (reverse l).
Definition function_names (func : ValueRef) (parameters : list Parameter_) (ctr : nat)
    : exec FunctionNames :=
  let! bbs := get_basic_blocks func in
  let! (bbresults, _) := r_map first_pass_names bbs ctr in
  let! ps := get_parameters func in
  Done (mk_FunctionNames
    (map_of_pairs (zip bbs (map fst bbresults)))
    (map_of_pairs (concat (map snd bbresults) ++ zip ps (map param_name parameters))%list)).

(** The second pass runs on a counter that starts again after the parameters. *)
Definition read_blocks (global_names : GlobalNames) (func_ctx : FunctionNames) (ctr : nat)
    (bbs : list BlockRef) : reader ModuleContext (list BasicBlock) := fun ctx =>
  let! (bs, st) := r_map (BasicBlock_from_llvm_ref global_names func_ctx) bbs (mk_FState ctx ctr) in
  Done (bs, fs_ctx st).

Definition Function_from_llvm_ref (global_names : GlobalNames) (func : ValueRef)
    : reader ModuleContext Function_ :=
  let func := LLVMIsAFunction func in
  let& _ := r_assert (negb (is_null func)) in
  let& (decl, ctr_val_after_parameters) :=
    with_counter (FunctionDeclaration_from_llvm_ref_internal func) in
  let& func_ctx := r_lift (function_names func (decl_parameters decl) ctr_val_after_parameters) in
  let& bbs := r_lift (get_basic_blocks func) in
  let& basic_blocks := read_blocks global_names func_ctx ctr_val_after_parameters bbs in
  let& function_attributes := r_map (fun attr =>
      let& ctx := r_get in r_lift (FunctionAttribute_from_llvm_ref attr (ctx_attrsdata ctx)))
    (LLVMGetAttributesAtIndex func LLVMAttributeFunctionIndex) in
  let& section := r_lift (wrap_maybe_null LLVMGetSection func) in
  let comdat := LLVMGetComdat func in
  let& personality_function :=
    (if LLVMHasPersonalityFn func
     then r_fmap Some (Constant_from_llvm_ref global_names (LLVMGetPersonalityFn func))
     else r_ret None) in
  r_ret {| func_name := decl_name decl; func_parameters := decl_parameters decl;
           func_is_var_arg := decl_is_var_arg decl; func_return_type := decl_return_type decl;
           func_basic_blocks := basic_blocks; func_function_attributes := function_attributes;
           func_return_attributes := decl_return_attributes decl; func_linkage := decl_linkage decl;
           func_visibility := decl_visibility decl;
           func_dll_storage_class := decl_dll_storage_class decl;
           func_calling_convention := decl_calling_convention decl; func_section := section;
           func_comdat := if is_null comdat then None else Some (Comdat_from_llvm_ref comdat);
           func_alignment := decl_alignment decl;
           func_garbage_collector_name := decl_garbage_collector_name decl;
           func_personality_function := personality_function; func_debugloc := decl_debugloc decl |}.

(** ** Global objects *)

Definition addr_space_of (ty : Ty) : exec Z :=
  match ty with PointerType addr_space => Done addr_space | _ => Panic end.

Definition GlobalVariable_from_llvm_ref (global_names : GlobalNames) (global : ValueRef)
    : reader FState GlobalVariable :=
  let& ty := type_ (LLVMTypeOf global) in
  let& addr_space := r_lift (addr_space_of ty) in
  let& name := dest global in
  let it := LLVMGetInitializer global in
  let& initializer := (if is_null it then r_ret None
                       else r_fmap Some (in_ctx (Constant_from_llvm_ref global_names it))) in
  let& section := r_lift (wrap_maybe_null LLVMGetSection global) in
  let comdat := LLVMGetComdat global in
  let& loc := r_lift (DebugLoc_from_llvm_no_col global) in
  r_ret (mk_GlobalVariable name (Linkage_from_llvm (LLVMGetLinkage global))
           (Visibility_from_llvm (LLVMGetVisibility global)) (LLVMIsGlobalConstant global) ty addr_space
           (DLLStorageClass_from_llvm (LLVMGetDLLStorageClass global))
           (ThreadLocalMode_from_llvm (LLVMGetThreadLocalMode global))
           (UnnamedAddr_from_llvm (LLVMGetUnnamedAddress global)) initializer section
           (if is_null comdat then None else Some (Comdat_from_llvm_ref comdat))
           (LLVMGetAlignment global) loc).

Definition GlobalAlias_from_llvm_ref (global_names : GlobalNames) (alias : ValueRef)
    : reader FState GlobalAlias :=
  let& ty := type_ (LLVMTypeOf alias) in
  let& addr_space := r_lift (addr_space_of ty) in
  let& name := dest alias in
  let& aliasee := in_ctx (Constant_from_llvm_ref global_names (LLVMAliasGetAliasee alias)) in
  r_ret (mk_GlobalAlias name aliasee (Linkage_from_llvm (LLVMGetLinkage alias))
           (Visibility_from_llvm (LLVMGetVisibility alias)) ty addr_space
           (DLLStorageClass_from_llvm (LLVMGetDLLStorageClass alias))
           (ThreadLocalMode_from_llvm (LLVMGetThreadLocalMode alias))
           (UnnamedAddr_from_llvm (LLVMGetUnnamedAddress alias))).

Definition GlobalIFunc_from_llvm_ref (global_names : GlobalNames) (ifunc : ValueRef)
    : reader FState GlobalIFunc :=
  let& name := dest ifunc in
  let& ty := type_ (LLVMTypeOf ifunc) in
  let& resolver_fn := in_ctx (Constant_from_llvm_ref global_names (LLVMGetGlobalIFuncResolver ifunc)) in
  r_ret (mk_GlobalIFunc name (Linkage_from_llvm (LLVMGetLinkage ifunc))
           (Visibility_from_llvm (LLVMGetVisibility ifunc)) ty resolver_fn).

(** ** Modules *)

(** The first pass: every global object in the order of the source *)
Definition global_objects (m : ModuleRef) : exec (list ValueRef) :=
  let! defined := get_defined_functions m in
  let! declared := get_declared_functions m in
  let! globals := get_globals m in
  let! aliases := get_global_aliases m in
  let! ifuncs := get_global_ifuncs m in
  Done (defined ++ declared ++ globals ++ aliases ++ ifuncs)%list.
Definition global_names_of (m : ModuleRef) : exec GlobalNames :=
  let! objects := global_objects m in
  let! (names, _) := r_map name_value objects 0 in
  Done (map_of_pairs names).

Definition ModuleContext_new : ModuleContext :=
  mk_ModuleContext TypesBuilder_empty AttributesData_create ∅.

Definition Module_from_llvm_ref (m : ModuleRef) : exec Module_ :=
  let! global_names := global_names_of m in
  let! name := wrap LLVMGetModuleIdentifier m in
  let! source_file_name := wrap LLVMGetSourceFileName m in
  let! layout_str := wrap LLVMGetDataLayoutStr m in
  let! data_layout := from_layout_str layout_str in
  let! target_triple := wrap_maybe_null LLVMGetTarget m in
  let! defined := get_defined_functions m in
  let! (functions, ctx) := r_map (Function_from_llvm_ref global_names) defined ModuleContext_new in
  let! declared := get_declared_functions m in
  let! (func_declarations, ctx) := r_map FunctionDeclaration_from_llvm_ref declared ctx in
  let! globals := get_globals m in
  let! (global_vars, st) := r_map (GlobalVariable_from_llvm_ref global_names) globals (mk_FState ctx 0) in
  let! aliases := get_global_aliases m in
  let! (global_aliases, st) := r_map (GlobalAlias_from_llvm_ref global_names) aliases st in
  let! ifuncs := get_global_ifuncs m in
  let! (global_ifuncs, st) := r_map (GlobalIFunc_from_llvm_ref global_names) ifuncs st in
  let! inline_assembly := wrap LLVMGetModuleInlineAsm m in
  Done (mk_Module name source_file_name data_layout target_triple functions func_declarations
          global_vars global_aliases global_ifuncs inline_assembly (build (ctx_types (fs_ctx st)))).
End read.
