(* ===== verification/ReadNames.v ===== *)
(** * ReadNames: names given by the readers

    A function is read in two passes: the first one names blocks and values, the
    second one builds them, resolving references by the names of the first.  Both
    number what has no name with a counter of their own; here it is shown that they
    give the same names and that names are not given twice, and what this means for
    global objects. *)

From S2P Require Import Prelude Text Types Layout Constants Instr Llvm ReadSamples ReadTypes ReadConst ReadAttr ReadInstr ReadModule.
From stdpp Require Import base gmap list strings.
From Stdlib Require Import ZArith Lia.
#[local] Open Scope string_scope.
#[local] Open Scope list_scope.

Create HintDb names.

(** ** Readers that leave the counter alone *)

Definition keeps {A} (m : reader FState A) : Prop :=
  forall st a st', m st = Done (a, st') -> fs_ctr st' = fs_ctr st.

Lemma keeps_ret {A} (a : A) : keeps (r_ret a).
Proof. by intros st b st' [= <- <-]. Qed.
Lemma keeps_panic {A} : keeps (@r_panic FState A).
Proof. done. Qed.
Lemma keeps_get : keeps r_get.
Proof. by intros st b st' [= <- <-]. Qed.
Lemma keeps_lift {A} (m : exec A) : keeps (r_lift m).
Proof. intros st a st' Hm. by inv_r. Qed.
Lemma keeps_assert b : keeps (r_assert b).
Proof. intros st a st' Hm. by inv_r. Qed.
Lemma keeps_in_ctx {A} (m : reader ModuleContext A) : keeps (in_ctx m).
Proof. intros st a st' ([b ctx] & _ & Hm)%exec_bind_done. by injection Hm as <- <-. Qed.
Lemma keeps_bind {A B} (m : reader FState A) (k : A -> reader FState B) :
  keeps m -> (forall a, keeps (k a)) -> keeps (r_bind m k).
Proof.
  intros Hm Hk st b st' H. apply r_bind_done in H as (a & s1 & H1 & H2).
  apply Hm in H1. apply Hk in H2. congruence.
Qed.
Lemma keeps_map {A B} (f : A -> reader FState B) l : (forall a, keeps (f a)) -> keeps (r_map f l).
Proof.
  intros Hf st bs st' Hm. refine (proj2 (r_map_done f (fun _ _ => True)
    (fun s => fs_ctr s = fs_ctr st) l st bs st' _ eq_refl Hm)).
  intros a s b s' _ Hs Hb. split; [done|]. apply Hf in Hb. congruence.
Qed.
Lemma keeps_if {A} (b : bool) (m1 m2 : reader FState A) : keeps m1 -> keeps m2 -> keeps (if b then m1 else m2).
Proof. by destruct b. Qed.
#[export] Hint Resolve keeps_ret keeps_panic keeps_get keeps_lift keeps_assert keeps_in_ctx keeps_if : names.

(** ** Readers that name one value *)

Section names.
Context `{LLVM, Bounds}.

(** When [has], the reader takes one name for [v] and [res] is that name;
    otherwise it takes none and has no result. *)
Definition names_as {A} (has : bool) (v : ValueRef) (res : A -> option Name) (m : reader FState A) : Prop :=
  forall st a st', m st = Done (a, st') ->
  if has then exists s n, get_value_name v = Done s /\
                name_or_num s (fs_ctr st) = (n, fs_ctr st') /\ res a = Some n
  else fs_ctr st' = fs_ctr st /\ res a = None.

(** What follows the name *)
Definition returns {A} (res : A -> option Name) (o : option Name) (m : reader FState A) : Prop :=
  forall st a st', m st = Done (a, st') -> fs_ctr st' = fs_ctr st /\ res a = o.

Lemma returns_ret {A} (res : A -> option Name) o (a : A) : res a = o -> returns res o (r_ret a).
Proof. by intros Ha st b st' [= <- <-]. Qed.
Lemma returns_bind {A B} (res : B -> option Name) o (m : reader FState A) k :
  keeps m -> (forall a, returns res o (k a)) -> returns res o (r_bind m k).
Proof.
  intros Hm Hk st b st' Hb. apply r_bind_done in Hb as (a & s1 & H1 & H2).
  apply Hm in H1. destruct (Hk _ _ _ _ H2). split; [congruence|done].
Qed.
Lemma returns_panic {A} (res : A -> option Name) o : returns res o r_panic.
Proof. done. Qed.

Lemma names_bind {A B} has v (res : B -> option Name) (m : reader FState A) k :
  keeps m -> (forall a, names_as has v res (k a)) -> names_as has v res (r_bind m k).
Proof.
  intros Hm Hk st b st' Hb. apply r_bind_done in Hb as (a & s1 & H1 & H2).
  apply Hm in H1. specialize (Hk _ _ _ _ H2). by rewrite H1 in Hk.
Qed.
Lemma names_dest {A} v (res : A -> option Name) k :
  (forall n, returns res (Some n) (k n)) -> names_as true v res (r_bind (dest v) k).
Proof.
  intros Hk st a st' Hm. apply r_bind_done in Hm as (n & s1 & Hd & H2). unfold dest in Hd. inv_r.
  unfold next_name in *. destruct (name_or_num _ _) as [n' c] eqn:En. simplify_eq.
  destruct (Hk _ _ _ _ H2) as [Hc ->]. simpl in Hc. eexists _, n. split_and!; [done| |done].
  by rewrite Hc.
Qed.
Lemma names_none {A} v (res : A -> option Name) m : returns res None m -> names_as false v res m.
Proof. intros Hm st a st' Ha. apply (Hm _ _ _ Ha). Qed.
Lemma names_fmap {A B} has v (res : B -> option Name) (f : A -> B) m :
  names_as has v (fun a => res (f a)) m -> names_as has v res (r_fmap f m).
Proof.
  intros Hm st b st' Hb. unfold r_fmap in Hb. inv_r. by apply Hm.
Qed.
Lemma names_panic {A} has v (res : A -> option Name) : names_as has v res r_panic.
Proof. done. Qed.
End names.

(** Follow a reader down to the place where it takes its name. *)
Ltac solve_keeps :=
  repeat first
  [ apply keeps_ret | apply keeps_panic | apply keeps_get | apply keeps_lift | apply keeps_assert
  | apply keeps_in_ctx | apply keeps_if | apply keeps_map; intros
  | apply keeps_bind; [|intros] | progress case_match
  | progress unfold num_operands, op, operand, constant, type_, debugloc, block, maybe_block,
      block_operand, param_attrs, function_attrs, shuffle_mask, arg_operands,
      LandingPadClause_from_llvm_ref, InlineAssembly_from_llvm_ref, CallInfo_from_llvm_ref, r_fmap ].
Ltac solve_names :=
  repeat first
  [ apply names_panic | apply names_dest; intros | apply names_none
  | apply returns_ret; reflexivity | apply returns_panic
  | apply returns_bind; [solve_keeps; fail|intros]
  | apply names_bind; [solve_keeps; fail|intros]
  | progress case_match ].

Section instructions.
Context `{LLVM, Bounds}.
Context (global_names : GlobalNames) (func_ctx : FunctionNames).

(** Whether an instruction, or a terminator, defines a value *)
Definition has_result (inst : ValueRef) : bool :=
  match LLVMGetInstructionOpcode inst with
  | LLVMStore | LLVMFence => false
  | LLVMCall => negb (calls_void inst)
  | _ => true
  end.
Definition term_has_result (term : ValueRef) : bool :=
  match LLVMGetInstructionOpcode term with
  | LLVMInvoke | LLVMCatchSwitch | LLVMCallBr => true
  | _ => false
  end.

Lemma call_names inst :
  names_as (negb (calls_void inst)) inst Call_dest (Call_from_llvm_ref global_names func_ctx inst).
Proof.
  unfold Call_from_llvm_ref. apply names_bind; [solve_keeps|]. intros ci.
  destruct (calls_void inst); simpl.
  - intros st a st' Ha. apply r_bind_done in Ha as (d & s1 & [= <- <-] & Ha).
    unfold debugloc in Ha. by inv_r.
  - intros st a st' Ha. apply r_bind_done in Ha as (d & s1 & Hd & Ha). unfold r_fmap in Hd. inv_r.
    assert (names_as true inst Some (r_bind (dest inst) r_ret)) as Hn by solve_names.
    destruct (Hn st x1 s1) as (s & n & Hs & Hnum & [= ->]).
    { apply r_bind_done. eauto. }
    unfold debugloc in *. inv_r. eauto.
Qed.

Lemma instruction_names inst :
  names_as (has_result inst) inst try_get_result (Instruction_from_llvm_ref global_names func_ctx inst).
Proof.
  unfold Instruction_from_llvm_ref, has_result.
  destruct (LLVMGetInstructionOpcode inst); try apply names_panic; apply names_fmap;
    try apply call_names; cbv beta iota;
    unfold unop_from_llvm, binop_from_llvm, binop_from_llvm_with_nuw_nsw, binop_from_llvm_with_exact,
      typed_unop_from_llvm, ExtractElement_from_llvm_ref, InsertElement_from_llvm_ref,
      ShuffleVector_from_llvm_ref, ExtractValue_from_llvm_ref, InsertValue_from_llvm_ref,
      Alloca_from_llvm_ref, Load_from_llvm_ref, Store_from_llvm_ref, Fence_from_llvm_ref,
      CmpXchg_from_llvm_ref, AtomicRMW_from_llvm_ref, GetElementPtr_from_llvm_ref,
      ICmp_from_llvm_ref, FCmp_from_llvm_ref, Phi_from_llvm_ref, Select_from_llvm_ref,
      VAArg_from_llvm_ref, LandingPad_from_llvm_ref, CatchPad_from_llvm_ref, CleanupPad_from_llvm_ref;
    solve_names.
Qed.

Lemma terminator_names term :
  names_as (term_has_result term) term term_try_get_result
    (Terminator_from_llvm_ref global_names func_ctx term).
Proof.
  unfold Terminator_from_llvm_ref, term_has_result.
  destruct (LLVMGetInstructionOpcode term); try apply names_panic;
    repeat (case_match; try apply names_panic);
    unfold Ret_from_llvm_ref, Br_from_llvm_ref, CondBr_from_llvm_ref, Switch_from_llvm_ref,
      IndirectBr_from_llvm_ref, Invoke_from_llvm_ref, Resume_from_llvm_ref,
      Unreachable_from_llvm_ref, CleanupRet_from_llvm_ref, CatchRet_from_llvm_ref,
      CatchSwitch_from_llvm_ref, CallBr_from_llvm_ref;
    solve_names.
Qed.
End instructions.

(** ** The two passes over a block *)

Section passes.
Context `{LLVM, Bounds}.
Context (global_names : GlobalNames).

(** LLVM gives no name to what is void. *)
Definition void_unnamed (inst : ValueRef) : Prop :=
  has_result inst = false -> LLVMGetValueName2 inst = "".
Definition void_term_unnamed (term : ValueRef) : Prop :=
  term_has_result term = false -> LLVMGetValueName2 term = "".

Definition insts_of (bb : BlockRef) : list ValueRef :=
  match get_instructions bb with Done l => all_but_last l | _ => [] end.
Definition block_ok (bb : BlockRef) : Prop :=
  Forall void_unnamed (insts_of bb) /\ void_term_unnamed (LLVMGetBasicBlockTerminator bb).

(** What a block defines: the references with the names of what was read *)
Definition results (l : list ValueRef) (il : list Instruction) : list (ValueRef * Name) :=
  omap (fun p => pair p.1 <$> try_get_result p.2) (zip l il).
Definition term_results (term : ValueRef) (t : Terminator) : list (ValueRef * Name) :=
  match term_try_get_result t with Some n => [(term, n)] | None => [] end.
Definition block_results (bb : BlockRef) (b : BasicBlock) : list (ValueRef * Name) :=
  results (insts_of bb) (bb_instrs b) ++ term_results (LLVMGetBasicBlockTerminator bb) (bb_term b).

Lemma get_value_name_raw v s : get_value_name v = Done s -> s = LLVMGetValueName2 v.
Proof.
  unfold get_value_name, wrap, raw_to_string. repeat case_match; try done. by intros [= <-].
Qed.

Lemma needs_name_result inst b :
  void_unnamed inst -> needs_name inst = Done b -> b = has_result inst.
Proof.
  unfold needs_name, void_unnamed. intros Hv (s & Hs & Hb)%exec_bind_done.
  apply get_value_name_raw in Hs as ->. case_bool_decide as He; simpl in Hb; [|injection Hb as <-].
  - injection Hb as <-. by unfold has_result.
  - destruct (has_result inst); [done|]. by destruct He; apply Hv.
Qed.

Lemma term_needs_name_result term b :
  void_term_unnamed term -> term_needs_name term = Done b -> b = term_has_result term.
Proof.
  unfold term_needs_name, void_term_unnamed. intros Hv (s & Hs & Hb)%exec_bind_done.
  apply get_value_name_raw in Hs as ->. case_bool_decide as He; simpl in Hb; [|injection Hb as <-].
  - injection Hb as <-. by unfold term_has_result.
  - destruct (term_has_result term); [done|]. by destruct He; apply Hv.
Qed.

Lemma name_value_done v c p c' :
  name_value v c = Done (p, c') ->
  exists s n, get_value_name v = Done s /\ name_or_num s c = (n, c') /\ p = (v, n).
Proof.
  unfold name_value. intros (s & Hs & Hp)%exec_bind_done.
  destruct (name_or_num s c) as [n c1] eqn:En. injection Hp as <- <-. eauto.
Qed.

Lemma instrs_agree fc l c ps c' st il st' :
  Forall void_unnamed l -> name_instrs l c = Done (ps, c') -> fs_ctr st = c ->
  r_map (Instruction_from_llvm_ref global_names fc) l st = Done (il, st') ->
  fs_ctr st' = c' /\ ps = results l il.
Proof.
  intros Hl. revert c ps st il. induction Hl as [|v l Hv _ IH]; intros c ps st il Hps Hc His; simpl in *.
  - by injection Hps as <- <-; injection His as <- <-.
  - apply r_bind_done in His as (i & st1 & Hi & His). apply r_bind_done in His as (il' & st2 & His & Hr).
    injection Hr as <- <-. apply r_bind_done in Hps as (needs & c1 & Hn & Hps).
    apply r_lift_done in Hn as [Hn ->]. apply needs_name_result in Hn as ->; [|done].
    pose proof (instruction_names global_names fc v st i st1 Hi) as Hnm.
    unfold results. simpl. destruct (has_result v).
    + apply r_bind_done in Hps as (p & c2 & Hp & Hps). apply r_bind_done in Hps as (ps' & c3 & Hps & Hr).
      injection Hr as <- <-. destruct (name_value_done _ _ _ _ Hp) as (s & n & Hs & Hnum & ->).
      destruct Hnm as (s' & n' & Hs' & Hnum' & ->). rewrite Hs in Hs'. injection Hs' as <-.
      rewrite Hc, Hnum in Hnum'. injection Hnum' as <- Hst1.
      destruct (IH c2 ps' st1 il' Hps (eq_sym Hst1) His) as [-> ->]. done.
    + destruct Hnm as [Hst1 ->]. simpl. apply (IH c ps st1 il' Hps); [congruence|done].
Qed.

Lemma next_name_done s st n st' :
  next_name s st = Done (n, st') -> name_or_num s (fs_ctr st) = (n, fs_ctr st').
Proof. unfold next_name. destruct (name_or_num _ _). by intros [= <- <-]. Qed.

(** The steps of the first pass and of the second *)
Lemma first_pass_done bb c r c' :
  first_pass_names bb c = Done (r, c') ->
  exists s nm c1 l ps c2 needs,
    get_bb_name bb = Done s /\ name_or_num s c = (nm, c1) /\ get_instructions bb = Done l /\
    name_instrs (all_but_last l) c1 = Done (ps, c2) /\
    term_needs_name (LLVMGetBasicBlockTerminator bb) = Done needs /\
    if needs : bool then exists p, name_value (LLVMGetBasicBlockTerminator bb) c2 = Done (p, c') /\ r = (nm, (ps ++ [p])%list)
    else r = (nm, ps) /\ c' = c2.
Proof.
  unfold first_pass_names. intros Hr. apply r_bind_done in Hr as (s & ? & [Hs ->]%r_lift_done & Hr).
  apply r_bind_done in Hr as (nm & c1 & Hn & Hr). destruct (name_or_num s c) as [n c1'] eqn:En.
  injection Hn as -> ->. apply r_bind_done in Hr as (l & ? & [Hl ->]%r_lift_done & Hr).
  apply r_bind_done in Hr as (ps & c2 & Hps & Hr).
  apply r_bind_done in Hr as (needs & ? & [Hnd ->]%r_lift_done & Hr).
  exists s, nm, c1, l, ps, c2, needs. split_and!; try done. destruct needs.
  - apply r_bind_done in Hr as (q & c3 & Hq & Hr). injection Hr as <- <-. eauto.
  - by injection Hr as <- <-.
Qed.

Lemma block_done dbg fc bb st b st' :
  BasicBlock_from_llvm_ref dbg global_names fc bb st = Done (b, st') ->
  exists s st1 l st2,
    get_bb_name bb = Done s /\ name_or_num s (fs_ctr st) = (bb_name b, fs_ctr st1) /\
    get_instructions bb = Done l /\
    r_map (Instruction_from_llvm_ref global_names fc) (all_but_last l) st1 = Done (bb_instrs b, st2) /\
    Terminator_from_llvm_ref global_names fc (LLVMGetBasicBlockTerminator bb) st2 = Done (bb_term b, st').
Proof.
  unfold BasicBlock_from_llvm_ref. intros Hb. apply r_bind_done in Hb as (s & ? & [Hs ->]%r_lift_done & Hb).
  apply r_bind_done in Hb as (nm & st1 & Hn%next_name_done & Hb).
  apply r_bind_done in Hb as (? & ? & [_ ->]%r_assert_done & Hb).
  apply r_bind_done in Hb as (l & ? & [Hl ->]%r_lift_done & Hb).
  apply r_bind_done in Hb as (il & st2 & Hi & Hb). apply r_bind_done in Hb as (t & st3 & Ht & Hb).
  injection Hb as <- <-. exists s, st1, l, st2. done.
Qed.

Lemma block_agrees dbg fc bb c nm ps c' st b st' :
  block_ok bb -> first_pass_names bb c = Done ((nm, ps), c') -> fs_ctr st = c ->
  BasicBlock_from_llvm_ref dbg global_names fc bb st = Done (b, st') ->
  fs_ctr st' = c' /\ bb_name b = nm /\ ps = block_results bb b.
Proof.
  intros [Hv Ht] Hps Hc Hb. unfold block_results, insts_of in *.
  destruct (first_pass_done _ _ _ _ Hps) as (s & nm1 & c1 & l & ps1 & c2 & needs & Hs & Hn & Hl & Hi & Hnd & Hr).
  destruct (block_done _ _ _ _ _ _ Hb) as (s' & st1 & l' & st2 & Hs' & Hn' & Hl' & Hi' & Ht').
  rewrite Hs in Hs'. injection Hs' as <-. rewrite Hl in Hl', Hv |- *. injection Hl' as <-.
  rewrite Hc, Hn in Hn'. injection Hn' as -> Hc1.
  destruct (instrs_agree _ _ _ _ _ _ _ _ Hv Hi (eq_sym Hc1) Hi') as [Hc2 ->].
  apply term_needs_name_result in Hnd as ->; [|done].
  pose proof (terminator_names global_names fc _ _ _ _ Ht') as Hnm. unfold term_results.
  destruct (term_has_result _).
  - destruct Hr as (q & Hq & [= -> ->]). destruct (name_value_done _ _ _ _ Hq) as (s2 & n & Hs2 & Hnum & ->).
    destruct Hnm as (s2' & n' & Hs2' & Hnum' & ->). rewrite Hs2 in Hs2'. injection Hs2' as <-.
    rewrite Hc2, Hnum in Hnum'. injection Hnum' as -> ->. done.
  - destruct Hr as [[= -> ->] ->]. destruct Hnm as [Hst' ->]. rewrite app_nil_r. by rewrite Hst'.
Qed.

(** ** The two passes over a function *)

Lemma blocks_agree dbg fc bbs c rs c' st bs st' :
  Forall block_ok bbs -> r_map first_pass_names bbs c = Done (rs, c') -> fs_ctr st = c ->
  r_map (BasicBlock_from_llvm_ref dbg global_names fc) bbs st = Done (bs, st') ->
  rs = zip_with (fun bb b => (bb_name b, block_results bb b)) bbs bs /\ length bs = length bbs.
Proof.
  intros Hbbs. revert c rs st bs. induction Hbbs as [|bb bbs Hbb _ IH]; intros c rs st bs Hrs Hc Hbs; simpl in *.
  - by injection Hrs as <- <-; injection Hbs as <- <-.
  - apply r_bind_done in Hbs as (b & st1 & Hb & Hbs). apply r_bind_done in Hbs as (bs' & st2 & Hbs & Hr).
    injection Hr as <- <-. apply r_bind_done in Hrs as ([nm ps] & c1 & Hp & Hrs).
    apply r_bind_done in Hrs as (rs' & c2 & Hrs & Hr). injection Hr as <- <-.
    destruct (block_agrees _ _ _ _ _ _ _ _ _ _ Hbb Hp Hc Hb) as (Hc1 & <- & ->).
    destruct (IH c1 rs' st1 bs' Hrs Hc1 Hbs) as [-> Hlen]. simpl. by rewrite Hlen.
Qed.

(** The first pass determines the name of every block, so the assertion in the
    second pass does not fail. *)
Lemma blocks_assert fc bbs c rs c' st :
  Forall block_ok bbs -> r_map first_pass_names bbs c = Done (rs, c') -> fs_ctr st = c ->
  (forall i bb r, bbs !! i = Some bb -> rs !! i = Some r -> bb_names fc !! bb = Some r.1) ->
  r_map (BasicBlock_from_llvm_ref true global_names fc) bbs st
  = r_map (BasicBlock_from_llvm_ref false global_names fc) bbs st.
Proof.
  intros Hbbs. revert c rs st. induction Hbbs as [|bb bbs Hbb _ IH]; intros c rs st Hrs Hc Hfc; simpl in *; [done|].
  apply r_bind_done in Hrs as ([nm ps] & c1 & Hp & Hrs).
  apply r_bind_done in Hrs as (rs' & c2 & Hrs & Hr). injection Hr as <- <-.
  assert (BasicBlock_from_llvm_ref true global_names fc bb st
          = BasicBlock_from_llvm_ref false global_names fc bb st) as Heq.
  { destruct (first_pass_done _ _ _ _ Hp) as (s & nm1 & c3 & l & ps1 & c4 & needs & Hs & Hn & _ & _ & _ & Hr).
    assert (nm1 = nm) as -> by (destruct needs; naive_solver).
    unfold BasicBlock_from_llvm_ref, r_bind, r_lift. rewrite Hs. simpl. unfold next_name. rewrite Hc, Hn. simpl.
    rewrite (bool_decide_eq_true_2 (bb_names fc !! bb = Some nm)); [done|]. by apply (Hfc 0 bb (nm, ps)). }
  unfold r_bind at 1 3. rewrite Heq. destruct (BasicBlock_from_llvm_ref false _ _ _ _) as [[b st1]| |] eqn:Eb; [|done..].
  simpl. destruct (block_agrees _ _ _ _ _ _ _ _ _ _ Hbb Hp Hc Eb) as (Hc1 & _ & _).
  unfold r_bind. rewrite (IH c1 rs' st1 Hrs Hc1); [done|]. intros i bb' r Hi Hr. by apply (Hfc (S i)).
Qed.
End passes.

(** ** Functions *)

Section functions.
Context `{LLVM, Bounds}.
Context (global_names : GlobalNames).

Definition blocks_of (func : ValueRef) : list BlockRef :=
  match get_basic_blocks func with Done l => l | _ => [] end.
Definition params_of (func : ValueRef) : list ValueRef :=
  match get_parameters func with Done l => l | _ => [] end.

(** The names of a function as it was read, by reference *)
Definition block_pairs (func : ValueRef) (f : Function_) : list (BlockRef * Name) :=
  zip (blocks_of func) (map bb_name (func_basic_blocks f)).
Definition value_pairs (func : ValueRef) (f : Function_) : list (ValueRef * Name) :=
  concat (zip_with block_results (blocks_of func) (func_basic_blocks f))
  ++ zip (params_of func) (map param_name (func_parameters f)).
Definition names_of (func : ValueRef) (f : Function_) : FunctionNames :=
  mk_FunctionNames (map_of_pairs (block_pairs func f)) (map_of_pairs (value_pairs func f)).

(** The steps of [Function::from_llvm_ref] *)
Lemma function_done dbg func ctx f ctx' :
  Function_from_llvm_ref dbg global_names func ctx = Done (f, ctx') ->
  let F := LLVMIsAFunction func in
  exists decl st fc ctx2,
    FunctionDeclaration_from_llvm_ref_internal F (mk_FState ctx 0) = Done (decl, st) /\
    function_names F (decl_parameters decl) (fs_ctr st) = Done fc /\
    read_blocks dbg global_names fc (fs_ctr st) (blocks_of F) (fs_ctx st)
    = Done (func_basic_blocks f, ctx2) /\
    func_parameters f = decl_parameters decl.
Proof.
  intros Hf F. unfold Function_from_llvm_ref in Hf. fold F in Hf.
  apply r_bind_done in Hf as (? & ? & [_ ->]%r_assert_done & Hf).
  apply r_bind_done in Hf as ([decl c] & ctx1 & Hd & Hf).
  unfold with_counter in Hd. apply exec_bind_done in Hd as ([decl' st] & Hd & Hr).
  injection Hr as -> <- <-. apply r_bind_done in Hf as (fc & ? & [Hfc ->]%r_lift_done & Hf).
  apply r_bind_done in Hf as (bbs & ? & [Hbbs ->]%r_lift_done & Hf).
  apply r_bind_done in Hf as (bs & ctx2 & Hbs & Hf).
  exists decl, st, fc, ctx2. unfold blocks_of. rewrite Hbbs.
  repeat match goal with Hf : r_bind _ _ _ = Done _ |- _ => apply r_bind_done in Hf as (? & ? & ? & Hf) end.
  by injection Hf as <- <-.
Qed.

Lemma function_names_done func ps c fc :
  function_names func ps c = Done fc ->
  exists rs c', r_map first_pass_names (blocks_of func) c = Done (rs, c') /\
    fc = mk_FunctionNames (map_of_pairs (zip (blocks_of func) (map fst rs)))
           (map_of_pairs (concat (map snd rs) ++ zip (params_of func) (map param_name ps))).
Proof.
  unfold function_names, blocks_of, params_of. intros (bbs & -> & Hf)%exec_bind_done.
  apply exec_bind_done in Hf as ([rs c'] & Hrs & Hf). apply exec_bind_done in Hf as (l & -> & Hf).
  injection Hf as <-. eauto.
Qed.

Lemma map_of_pairs_lookup {A} (l : list (N * A)) k a :
  NoDup (l.*1) -> (k, a) ∈ l -> map_of_pairs l !! k = Some a.
Proof.
  intros Hl Ha. unfold map_of_pairs. apply elem_of_list_to_map_1; [|by apply elem_of_reverse].
  rewrite fmap_reverse. by rewrite reverse_Permutation.
Qed.

Lemma zip_snd_names (bbs : list N) (bs : list BasicBlock) :
  length bs = length bbs ->
  map fst (zip_with (fun bb b => (bb_name b, block_results bb b)) bbs bs) = map bb_name bs /\
  map snd (zip_with (fun bb b => (bb_name b, block_results bb b)) bbs bs) = zip_with block_results bbs bs.
Proof.
  revert bs. induction bbs as [|bb bbs IH]; intros [|b bs]; simpl; try done. intros [= Hl].
  destruct (IH bs Hl) as [-> ->]. done.
Qed.

(** What LLVM guarantees of a function: void values have no names, blocks are
    distinct objects *)
Definition function_ok (func : ValueRef) : Prop :=
  Forall block_ok (blocks_of func) /\ NoDup (blocks_of func).

Lemma self_named dbg func ctx f ctx' :
  function_ok (LLVMIsAFunction func) ->
  Function_from_llvm_ref dbg global_names func ctx = Done (f, ctx') ->
  let F := LLVMIsAFunction func in
  length (func_basic_blocks f) = length (blocks_of F) /\
  exists c ctx1 ctx2, read_blocks dbg global_names (names_of F f) c (blocks_of F) ctx1
                      = Done (func_basic_blocks f, ctx2).
Proof.
  intros [Hok _] Hf F. destruct (function_done _ _ _ _ _ Hf) as (decl & st & fc & ctx2 & _ & Hfc & Hbs & Hps).
  fold F in Hok, Hfc, Hbs. destruct (function_names_done _ _ _ _ Hfc) as (rs & c' & Hrs & ->).
  pose proof Hbs as Hbs'. unfold read_blocks in Hbs'. apply exec_bind_done in Hbs' as ([bs st'] & Hm & Hr).
  injection Hr as -> <-.
  destruct (blocks_agree global_names dbg _ (blocks_of F) (fs_ctr st) rs c'
    (mk_FState (fs_ctx st) (fs_ctr st)) _ st' Hok Hrs eq_refl Hm) as [-> Hlen]. split; [done|].
  destruct (zip_snd_names _ _ Hlen) as [E1 E2]. rewrite E1, E2 in Hbs.
  exists (fs_ctr st), (fs_ctx st), (fs_ctx st'). unfold names_of, block_pairs, value_pairs. by rewrite Hps.
Qed.

Lemma zip_fst_sublist {A B} (l : list A) (l' : list B) : (zip l l').*1 `sublist_of` l.
Proof.
  revert l'. induction l as [|a l IH]; intros [|b l']; simpl; try apply sublist_nil_l. by apply sublist_skip.
Qed.

Lemma lookup_zip_fst (bbs : list N) (rs : list (Name * list (N * Name))) i bb r :
  NoDup bbs -> bbs !! i = Some bb -> rs !! i = Some r ->
  map_of_pairs (zip bbs (map fst rs)) !! bb = Some r.1.
Proof.
  intros Hd Hbb Hr. apply map_of_pairs_lookup.
  - eapply sublist_NoDup; [exact Hd|apply zip_fst_sublist].
  - apply list_elem_of_lookup. exists i. apply lookup_zip_with_Some. exists bb, r.1.
    split_and!; [done..|]. by rewrite list_lookup_fmap, Hr.
Qed.

(** The values of a function, as objects *)
Definition values_of (func : ValueRef) : list ValueRef :=
  concat (map (fun bb => insts_of bb ++ [LLVMGetBasicBlockTerminator bb]) (blocks_of func))
  ++ params_of func.

Lemma results_fst l il : (results l il).*1 `sublist_of` l.
Proof.
  unfold results. revert il. induction l as [|v l IH]; intros [|i il]; simpl; try apply sublist_nil_l.
  destruct (try_get_result i); simpl; [by apply sublist_skip|by apply sublist_cons].
Qed.
Lemma block_results_fst bb b :
  (block_results bb b).*1 `sublist_of` insts_of bb ++ [LLVMGetBasicBlockTerminator bb].
Proof.
  unfold block_results, term_results. rewrite fmap_app. apply sublist_app; [apply results_fst|].
  destruct (term_try_get_result _); [done|apply sublist_nil_l].
Qed.
Lemma value_pairs_fst func f : (value_pairs func f).*1 `sublist_of` values_of func.
Proof.
  unfold value_pairs, values_of. rewrite fmap_app. apply sublist_app; [|apply zip_fst_sublist].
  generalize (func_basic_blocks f). induction (blocks_of func) as [|bb bbs IH]; intros [|b bs]; simpl;
    try apply sublist_nil_l. rewrite fmap_app. apply sublist_app; [apply block_results_fst|done].
Qed.

Lemma elem_of_zip_with {A B C} (g : A -> B -> C) l l' a b :
  (a, b) ∈ zip l l' -> g a b ∈ zip_with g l l'.
Proof.
  intros [i (x & y & [= <- <-] & Hx & Hy)%lookup_zip_with_Some]%list_elem_of_lookup.
  apply list_elem_of_lookup. exists i. apply lookup_zip_with_Some. eauto.
Qed.
Lemma elem_of_zip_map {A B C} (g : B -> C) (l : list A) l' a b :
  (a, b) ∈ zip l l' -> (a, g b) ∈ zip l (map g l').
Proof.
  intros Hab%(elem_of_zip_with (fun a b => (a, g b))). clear -Hab. revert l' Hab.
  induction l as [|x l IH]; intros [|y l']; simpl; try done.
  intros [->|Hin]%elem_of_cons; [by left|right; by apply IH].
Qed.

(** The assertion of the second pass never fails. *)
Lemma function_assert func ctx :
  function_ok (LLVMIsAFunction func) ->
  Function_from_llvm_ref true global_names func ctx = Function_from_llvm_ref false global_names func ctx.
Proof.
  set (F := LLVMIsAFunction func). intros Hok.
  unfold Function_from_llvm_ref. fold F. unfold r_bind, r_lift. destruct (r_assert _ _) as [[? ctx0]| |]; [|done..].
  simpl. destruct (with_counter _ _) as [[[decl c] ctx1]| |]; [|done..]. simpl.
  destruct (function_names F _ _) as [fc| |] eqn:Efc; [|done..]. simpl.
  destruct (get_basic_blocks F) as [bbs| |] eqn:Eb; [|done..]. simpl. unfold read_blocks.
  destruct (function_names_done _ _ _ _ Efc) as (rs & c' & Hrs & ->). destruct Hok as [Hok Hbd].
  unfold blocks_of in *. rewrite Eb in *.
  rewrite (blocks_assert global_names _ bbs c rs c'); [done..|].
  intros i bb r Hi Hr. by apply (lookup_zip_fst bbs rs i).
Qed.

(** C34. The two passes over a function agree, as the comment in its reader says
    they should: the assertion on block names never fails; the blocks are what is
    read when references are resolved by the names of the function itself; and each
    block, parameter and instruction is resolved by the name it was given. *)
Theorem passes_agree func ctx :
  let F := LLVMIsAFunction func in
  function_ok F -> NoDup (values_of F) ->
  Function_from_llvm_ref true global_names func ctx = Function_from_llvm_ref false global_names func ctx /\
  forall dbg f ctx', Function_from_llvm_ref dbg global_names func ctx = Done (f, ctx') ->
    (exists c ctx1 ctx2, read_blocks dbg global_names (names_of F f) c (blocks_of F) ctx1
                         = Done (func_basic_blocks f, ctx2)) /\
    (forall bb b, (bb, b) ∈ zip (blocks_of F) (func_basic_blocks f) ->
       bb_names (names_of F f) !! bb = Some (bb_name b) /\
       forall v n, (v, n) ∈ block_results bb b -> val_names (names_of F f) !! v = Some n) /\
    (forall v p, (v, p) ∈ zip (params_of F) (func_parameters f) ->
       val_names (names_of F f) !! v = Some (param_name p)).
Proof.
  intros F Hok Hd. split; [by apply function_assert|intros dbg f ctx' Hf; split_and!].
  - by apply (self_named dbg func ctx f ctx').
  - intros bb b Hb. split.
    + apply map_of_pairs_lookup.
      * eapply sublist_NoDup; [exact (proj2 Hok)|apply zip_fst_sublist].
      * by apply elem_of_zip_map.
    + intros v n Hv. apply map_of_pairs_lookup.
      * eapply sublist_NoDup; [exact Hd|apply value_pairs_fst].
      * unfold value_pairs. apply elem_of_app. left. apply list_elem_of_In, in_concat.
        exists (block_results bb b). split; [|by apply list_elem_of_In].
        by apply list_elem_of_In, (elem_of_zip_with block_results).
  - intros v p Hv. apply map_of_pairs_lookup.
    + eapply sublist_NoDup; [exact Hd|apply value_pairs_fst].
    + unfold value_pairs. apply elem_of_app. right. by apply elem_of_zip_map.
Qed.
(** ** The names of a function *)

(** Naming a list of values one after the other *)
Fixpoint names_run (c : nat) (l : list string) : list Name * nat :=
  match l with
  | [] => ([], c)
  | s :: l' => let '(n, c) := name_or_num s c in let '(ns, c) := names_run c l' in (n :: ns, c)
  end.

Lemma names_run_app c l1 l2 ns1 c1 ns2 c2 :
  names_run c l1 = (ns1, c1) -> names_run c1 l2 = (ns2, c2) -> names_run c (l1 ++ l2) = (ns1 ++ ns2, c2).
Proof.
  revert c ns1. induction l1 as [|s l1 IH]; intros c ns1; simpl; [intros [= <- <-]; by intros ->|].
  destruct (name_or_num s c) as [n c']. destruct (names_run c' l1) as [ns c''] eqn:E.
  intros [= <- <-] H2. by rewrite (IH c' ns E H2).
Qed.

(** The numbers are consecutive. *)
Definition number_of (n : Name) : option nat := match n with Number k => Some k | NameStr _ => None end.
Lemma names_run_numbers c l ns c' :
  names_run c l = (ns, c') -> omap number_of ns = seq c (length (filter (fun s => s = "") l)).
Proof.
  revert c ns. induction l as [|s l IH]; intros c ns; simpl; [by intros [= <- <-]|].
  unfold name_or_num. rewrite filter_cons. destruct (decide (s = "")).
  - destruct (names_run (S c) l) as [ns2 c2] eqn:E. intros [= <- <-]. simpl. f_equal. by apply (IH (S c)).
  - destruct (names_run c l) as [ns2 c2] eqn:E. intros [= <- <-]. simpl. by apply IH.
Qed.

Lemma names_run_elem c l ns c' n :
  names_run c l = (ns, c') -> n ∈ ns ->
  match n with NameStr s => s ∈ l /\ s <> "" | Number k => c <= k end.
Proof.
  revert c ns. induction l as [|s l IH]; intros c ns; simpl; [intros [= <- <-]; by intros ?%elem_of_nil|].
  unfold name_or_num. destruct (decide (s = "")).
  - destruct (names_run (S c) l) as [ns' c''] eqn:E. intros [= <- <-] [->|Hn]%elem_of_cons; [done|].
    specialize (IH _ _ E Hn). destruct n; [set_solver|lia].
  - destruct (names_run c l) as [ns' c''] eqn:E. intros [= <- <-] [->|Hn]%elem_of_cons; [set_solver|].
    specialize (IH _ _ E Hn). destruct n; [set_solver|lia].
Qed.

Lemma names_run_nodup c l ns c' :
  names_run c l = (ns, c') -> NoDup (filter (fun s => s <> "") l) -> NoDup ns.
Proof.
  revert c ns. induction l as [|s l IH]; intros c ns; simpl; [intros [= <- <-] _; constructor|].
  unfold name_or_num. rewrite filter_cons. destruct (decide (s = "")) as [->|Hs].
  - rewrite decide_False by naive_solver. destruct (names_run (S c) l) as [ns' c''] eqn:E.
    intros [= <- <-] Hd. constructor; [|by apply (IH _ _ E)].
    intros Hn. pose proof (names_run_elem _ _ _ _ _ E Hn). simpl in *. lia.
  - rewrite decide_True by done. destruct (names_run c l) as [ns' c''] eqn:E.
    intros [= <- <-] [Hni Hd]%NoDup_cons. constructor; [|by apply (IH _ _ E)].
    intros Hn. apply Hni. pose proof (names_run_elem _ _ _ _ _ E Hn). apply list_elem_of_filter. naive_solver.
Qed.

(** The names in LLVM of what defines a value, in the order of the text *)
Definition block_strings (bb : BlockRef) : list string :=
  let term := LLVMGetBasicBlockTerminator bb in
  LLVMGetBasicBlockName bb ::
  map LLVMGetValueName2 (filter (fun v => has_result v = true) (insts_of bb)) ++
  (if term_has_result term then [LLVMGetValueName2 term] else []).
Definition function_strings (func : ValueRef) : list string :=
  map LLVMGetValueName2 (params_of func) ++ concat (map block_strings (blocks_of func)).

(** The names of the function that was read, in the same order *)
Definition block_names (b : BasicBlock) : list Name :=
  bb_name b :: omap try_get_result (bb_instrs b) ++
  match term_try_get_result (bb_term b) with Some n => [n] | None => [] end.
Definition all_names (f : Function_) : list Name :=
  map param_name (func_parameters f) ++ concat (map block_names (func_basic_blocks f)).

Lemma names_as_run {A} v (res : A -> option Name) has m st (a : A) st' :
  names_as has v res m -> m st = Done (a, st') ->
  names_run (fs_ctr st) (if has then [LLVMGetValueName2 v] else [])
  = (match res a with Some n => [n] | None => [] end, fs_ctr st').
Proof.
  intros Hn Hm. specialize (Hn _ _ _ Hm). destruct has.
  - destruct Hn as (s & n & Hs%get_value_name_raw & Hnum & ->). subst s. simpl. by rewrite Hnum.
  - destruct Hn as [-> ->]. done.
Qed.

Lemma instrs_run fc l st il st' :
  r_map (Instruction_from_llvm_ref global_names fc) l st = Done (il, st') ->
  names_run (fs_ctr st) (map LLVMGetValueName2 (filter (fun v => has_result v = true) l))
  = (omap try_get_result il, fs_ctr st').
Proof.
  revert st il. induction l as [|v l IH]; intros st il Hl; simpl in Hl; [by injection Hl as <- <-|].
  apply r_bind_done in Hl as (i & st1 & Hi & Hl). apply r_bind_done in Hl as (il' & st2 & Hl & Hr).
  injection Hr as <- <-. pose proof (names_as_run _ _ _ _ _ _ _ (instruction_names global_names fc v) Hi) as Hv.
  pose proof (names_run_app _ _ _ _ _ _ _ Hv (IH _ _ Hl)) as Happ. rewrite filter_cons.
  destruct (has_result v); simpl in *; rewrite Happ; by destruct (try_get_result i).
Qed.

Lemma block_run dbg fc bb st b st' :
  BasicBlock_from_llvm_ref dbg global_names fc bb st = Done (b, st') ->
  names_run (fs_ctr st) (block_strings bb) = (block_names b, fs_ctr st').
Proof.
  intros Hb. destruct (block_done _ _ _ _ _ _ _ Hb) as (s & st1 & l & st2 & Hs & Hn & Hl & Hi & Ht).
  unfold block_strings, block_names, insts_of. rewrite Hl. cbn [names_run].
  assert (s = LLVMGetBasicBlockName bb) as <-.
  { revert Hs. unfold get_bb_name, wrap, raw_to_string. repeat case_match; try done. by intros [= <-]. }
  rewrite Hn. erewrite names_run_app; [done|by apply instrs_run in Hi|].
  exact (names_as_run _ _ _ _ _ _ _ (terminator_names global_names fc _) Ht).
Qed.

Lemma blocks_run dbg fc bbs st bs st' :
  r_map (BasicBlock_from_llvm_ref dbg global_names fc) bbs st = Done (bs, st') ->
  names_run (fs_ctr st) (concat (map block_strings bbs)) = (concat (map block_names bs), fs_ctr st').
Proof.
  revert st bs. induction bbs as [|bb bbs IH]; intros st bs Hb; simpl in Hb; [by injection Hb as <- <-|].
  apply r_bind_done in Hb as (b & st1 & Hb & Hbs). apply r_bind_done in Hbs as (bs' & st2 & Hbs & Hr).
  injection Hr as <- <-. exact (names_run_app _ _ _ _ _ _ _ (block_run _ _ _ _ _ _ Hb) (IH _ _ Hbs)).
Qed.

Lemma parameter_names func ip :
  names_as true ip.2 (fun p => Some (param_name p)) (Parameter_from_llvm_ref func ip).
Proof. destruct ip as [i p]. unfold Parameter_from_llvm_ref. solve_names. Qed.

Lemma params_run func l st ps st' :
  r_map (Parameter_from_llvm_ref func) l st = Done (ps, st') ->
  names_run (fs_ctr st) (map LLVMGetValueName2 l.*2) = (map param_name ps, fs_ctr st').
Proof.
  revert st ps. induction l as [|ip l IH]; intros st ps Hl; simpl in Hl; [by injection Hl as <- <-|].
  apply r_bind_done in Hl as (p & st1 & Hp & Hl). apply r_bind_done in Hl as (ps' & st2 & Hl & Hr).
  injection Hr as <- <-.
  pose proof (names_as_run _ _ _ _ _ _ _ (parameter_names func ip) Hp) as Hv.
  exact (names_run_app _ _ _ _ _ _ _ Hv (IH _ _ Hl)).
Qed.

Lemma declaration_run func st decl st' :
  FunctionDeclaration_from_llvm_ref_internal func st = Done (decl, st') ->
  names_run (fs_ctr st) (map LLVMGetValueName2 (params_of func))
  = (map param_name (decl_parameters decl), fs_ctr st').
Proof.
  unfold FunctionDeclaration_from_llvm_ref_internal, params_of. intros Hd.
  apply r_bind_done in Hd as (nm & ? & [_ ->]%r_lift_done & Hd).
  apply r_bind_done in Hd as (l & ? & [-> ->]%r_lift_done & Hd).
  apply r_bind_done in Hd as (ps & st1 & Hps & Hd). apply params_run in Hps.
  assert (forall l : list N, (enumerate l).*2 = l) as Hen.
  { intros l'. unfold enumerate. apply snd_zip. by rewrite length_seq. }
  rewrite Hen in Hps. rewrite Hps.
  apply r_bind_done in Hd as (ty & st2 & Hty & Hd). apply r_bind_done in Hd as (ra & st3 & Hra & Hd).
  apply r_bind_done in Hd as (gc & ? & [_ ->]%r_lift_done & Hd).
  apply r_bind_done in Hd as (loc & ? & [_ ->]%r_lift_done & Hd). injection Hd as <- <-. simpl.
  apply keeps_in_ctx in Hty. assert (keeps (param_attrs (LLVMGetAttributesAtIndex func LLVMAttributeReturnIndex)))
    as Hk by solve_keeps. apply Hk in Hra. congruence.
Qed.

Lemma function_run dbg func ctx f ctx' :
  Function_from_llvm_ref dbg global_names func ctx = Done (f, ctx') ->
  exists c, names_run 0 (function_strings (LLVMIsAFunction func)) = (all_names f, c).
Proof.
  intros Hf. destruct (function_done _ _ _ _ _ Hf) as (decl & st & fc & ctx2 & Hd & _ & Hbs & Hps).
  unfold read_blocks in Hbs. apply exec_bind_done in Hbs as ([bs st'] & Hm & Hr). injection Hr as -> <-.
  exists (fs_ctr st'). unfold function_strings, all_names. rewrite Hps.
  eapply names_run_app; [exact (declaration_run _ _ _ _ Hd)|exact (blocks_run _ _ _ _ _ _ Hm)].
Qed.

(** C35. Names are given once: if LLVM's own names of local values are distinct,
    then the parameters, blocks and results of a function that was read have
    pairwise different names, and what LLVM left unnamed is numbered 0, 1, 2 and so
    on in the order of the text. *)
Theorem names_unique dbg func ctx f ctx' :
  let F := LLVMIsAFunction func in
  NoDup (filter (fun s => s <> "") (function_strings F)) ->
  Function_from_llvm_ref dbg global_names func ctx = Done (f, ctx') ->
  NoDup (all_names f) /\
  omap number_of (all_names f) = seq 0 (length (filter (fun s => s = "") (function_strings F))).
Proof.
  intros F Hd Hf. destruct (function_run _ _ _ _ _ Hf) as [c Hc]. split.
  - by apply (names_run_nodup _ _ _ _ Hc).
  - by apply (names_run_numbers _ _ _ _ Hc).
Qed.
End functions.

(** ** Modules *)

Section modules.
Context `{LLVM, Bounds}.

Lemma name_values_run l c ps c' :
  r_map name_value l c = Done (ps, c') ->
  names_run c (map LLVMGetValueName2 l) = (ps.*2, c') /\ ps.*1 = l.
Proof.
  revert c ps. induction l as [|v l IH]; intros c ps Hl; simpl in Hl; [by injection Hl as <- <-|].
  apply r_bind_done in Hl as (p & c1 & Hp & Hl). apply r_bind_done in Hl as (ps' & c2 & Hl & Hr).
  injection Hr as <- <-. destruct (name_value_done _ _ _ _ Hp) as (s & n & Hs%get_value_name_raw & Hn & ->).
  subst s. destruct (IH _ _ Hl) as [Hrun Hfst]. split.
  - cbn [map names_run]. by rewrite Hn, Hrun.
  - rewrite fmap_cons. by rewrite Hfst.
Qed.

(** A list of named objects leaves the counter alone. *)
Lemma names_run_named l c : Forall (fun s => s <> "") l -> names_run c l = (map NameStr l, c).
Proof.
  induction 1 as [|s l Hs _ IH]; [done|]. simpl. unfold name_or_num. rewrite decide_False by done. by rewrite IH.
Qed.

(** A list of objects whose readers take one name each *)
Lemma objects_run {A} (name : A -> Name) (read : N -> reader FState A) l st xs st' :
  (forall v, names_as true v (fun x => Some (name x)) (read v)) ->
  r_map read l st = Done (xs, st') ->
  names_run (fs_ctr st) (map LLVMGetValueName2 l) = (map name xs, fs_ctr st').
Proof.
  intros Hread. revert st xs. induction l as [|v l IH]; intros st xs Hl; simpl in Hl; [by injection Hl as <- <-|].
  apply r_bind_done in Hl as (x & st1 & Hx & Hl). apply r_bind_done in Hl as (xs' & st2 & Hl & Hr).
  injection Hr as <- <-. exact (names_run_app _ _ _ _ _ _ _ (names_as_run _ _ _ _ _ _ _ (Hread v) Hx) (IH _ _ Hl)).
Qed.

Lemma global_variable_names gn v :
  names_as true v (fun x => Some (gv_name x)) (GlobalVariable_from_llvm_ref gn v).
Proof. unfold GlobalVariable_from_llvm_ref. solve_names. Qed.
Lemma global_alias_names gn v :
  names_as true v (fun x => Some (ga_name x)) (GlobalAlias_from_llvm_ref gn v).
Proof. unfold GlobalAlias_from_llvm_ref. solve_names. Qed.
Lemma global_ifunc_names gn v :
  names_as true v (fun x => Some (gi_name x)) (GlobalIFunc_from_llvm_ref gn v).
Proof. unfold GlobalIFunc_from_llvm_ref. solve_names. Qed.

Lemma zip_app_elem {A B} (l1 l2 : list A) (k1 k2 : list B) p :
  length l1 = length k1 -> p ∈ zip l1 k1 \/ p ∈ zip l2 k2 -> p ∈ zip (l1 ++ l2) (k1 ++ k2).
Proof. intros Hl Hp. rewrite zip_with_app by done. by apply elem_of_app. Qed.

Lemma names_run_length c l ns c' : names_run c l = (ns, c') -> length ns = length l.
Proof.
  revert c ns. induction l as [|s l IH]; intros c ns; simpl; [by intros [= <- <-]|].
  destruct (name_or_num s c) as [n c1]. destruct (names_run c1 l) as [ns' c''] eqn:E.
  intros [= <- <-]. simpl. f_equal. by apply (IH c1).
Qed.

(** The steps of [Module::from_llvm_ref] that name global objects *)
Lemma module_done dbg m M :
  Module_from_llvm_ref dbg m = Done M ->
  exists gn globals aliases ifuncs st st1 st2 st3,
    global_names_of m = Done gn /\ fs_ctr st = 0 /\
    get_globals m = Done globals /\ get_global_aliases m = Done aliases /\
    get_global_ifuncs m = Done ifuncs /\
    r_map (GlobalVariable_from_llvm_ref gn) globals st = Done (mod_global_vars M, st1) /\
    r_map (GlobalAlias_from_llvm_ref gn) aliases st1 = Done (mod_global_aliases M, st2) /\
    r_map (GlobalIFunc_from_llvm_ref gn) ifuncs st2 = Done (mod_global_ifuncs M, st3).
Proof.
  unfold Module_from_llvm_ref. intros HM. apply exec_bind_done in HM as (gn & Hgn & HM). exists gn.
  do 6 (apply exec_bind_done in HM as (? & _ & HM)).
  apply exec_bind_done in HM as ([fs ctx] & _ & HM). apply exec_bind_done in HM as (? & _ & HM).
  apply exec_bind_done in HM as ([ds ctx'] & _ & HM). apply exec_bind_done in HM as (globals & Hg & HM).
  apply exec_bind_done in HM as ([gvs st1] & Hgv & HM). apply exec_bind_done in HM as (aliases & Ha & HM).
  apply exec_bind_done in HM as ([gas st2] & Hga & HM). apply exec_bind_done in HM as (ifuncs & Hi & HM).
  apply exec_bind_done in HM as ([gis st3] & Hgi & HM). apply exec_bind_done in HM as (? & _ & HM).
  injection HM as <-. exists globals, aliases, ifuncs, (mk_FState ctx' 0), st1, st2, st3.
  split_and!; done.
Qed.

Definition functions_of (m : ModuleRef) : list ValueRef :=
  match get_functions m with Done l => l | _ => [] end.

Lemma global_names_done m gn :
  global_names_of m = Done gn -> Forall (fun f => LLVMGetValueName2 f <> "") (functions_of m) ->
  exists funcs globals aliases ifuncs ns c,
    get_globals m = Done globals /\ get_global_aliases m = Done aliases /\ get_global_ifuncs m = Done ifuncs /\
    global_objects m = Done (funcs ++ globals ++ aliases ++ ifuncs) /\
    names_run 0 (map LLVMGetValueName2 (globals ++ aliases ++ ifuncs)) = (ns, c) /\
    gn = map_of_pairs (zip (funcs ++ globals ++ aliases ++ ifuncs)
           (map NameStr (map LLVMGetValueName2 funcs) ++ ns)).
Proof.
  unfold global_names_of, global_objects, functions_of, get_defined_functions, get_declared_functions.
  intros Hgn Hnamed. destruct (get_functions m) as [l| |]; [|done..]. simpl in Hgn |- *.
  destruct (get_globals m) as [globals| |]; [|done..]. destruct (get_global_aliases m) as [aliases| |]; [|done..].
  destruct (get_global_ifuncs m) as [ifuncs| |]; [|done..]. simpl in Hgn |- *.
  set (funcs := filter (fun f => is_defined f = true) l ++ filter (fun f => is_defined f = false) l).
  rewrite app_assoc in Hgn |- *. fold funcs in Hgn |- *.
  apply exec_bind_done in Hgn as ([ps c] & Hps & Hgn). injection Hgn as <-.
  destruct (name_values_run _ _ _ _ Hps) as [Hrun Hfst].
  destruct (names_run 0 (map LLVMGetValueName2 (globals ++ aliases ++ ifuncs))) as [ns c'] eqn:En.
  exists funcs, globals, aliases, ifuncs, ns, c'. split_and!; try done. f_equal.
  rewrite map_app in Hrun. erewrite names_run_app in Hrun; [|apply names_run_named|exact En].
  - injection Hrun as Hns _. rewrite Hns, <-Hfst. symmetry. apply zip_fst_snd.
  - apply Forall_map. rewrite Forall_forall in Hnamed |- *. intros f [Hf|Hf]%elem_of_app; apply Hnamed;
      by apply list_elem_of_filter in Hf as [_ Hf].
Qed.

(** C36. References to global objects are resolved by the names the objects get:
    in a module all of whose functions are named, the second pass gives every
    global variable, alias and ifunc the name under which references find it. *)
Theorem global_references_resolved dbg m M objects :
  Forall (fun f => LLVMGetValueName2 f <> "") (functions_of m) ->
  global_objects m = Done objects -> NoDup objects ->
  Module_from_llvm_ref dbg m = Done M ->
  exists gn globals aliases ifuncs,
    global_names_of m = Done gn /\ get_globals m = Done globals /\
    get_global_aliases m = Done aliases /\ get_global_ifuncs m = Done ifuncs /\
    (forall r g, (r, g) ∈ zip globals (mod_global_vars M) -> gn !! r = Some (gv_name g)) /\
    (forall r g, (r, g) ∈ zip aliases (mod_global_aliases M) -> gn !! r = Some (ga_name g)) /\
    (forall r g, (r, g) ∈ zip ifuncs (mod_global_ifuncs M) -> gn !! r = Some (gi_name g)).
Proof.
  intros Hnamed Hobj Hd HM.
  destruct (module_done _ _ _ HM) as (gn & globals & aliases & ifuncs & st & st1 & st2 & st3 & Hgn & Hst & Hg & Ha & Hi & Hgv & Hga & Hgi).
  exists gn, globals, aliases, ifuncs. split; [done|]. do 3 (split; [done|]).
  destruct (global_names_done _ _ Hgn Hnamed) as (funcs & gl & al' & il & ns & c & Hg' & Ha' & Hi' & Hobj' & Hns & ->).
  rewrite Hg in Hg'. rewrite Ha in Ha'. rewrite Hi in Hi'. simplify_eq. rewrite Hobj in Hobj'. simplify_eq.
  apply (objects_run gv_name) in Hgv; [|apply global_variable_names].
  apply (objects_run ga_name) in Hga; [|apply global_alias_names].
  apply (objects_run gi_name) in Hgi; [|apply global_ifunc_names]. rewrite Hst in Hgv.
  rewrite !map_app in Hns.
  rewrite (names_run_app _ _ _ _ _ _ _ Hgv (names_run_app _ _ _ _ _ _ _ Hga Hgi)) in Hns.
  injection Hns as <- _. apply names_run_length in Hgv, Hga. rewrite !length_map in Hgv, Hga.
  assert (forall r n, (r, n) ∈ zip (gl ++ al' ++ il)
            (map gv_name (mod_global_vars M) ++ map ga_name (mod_global_aliases M) ++ map gi_name (mod_global_ifuncs M)) ->
          map_of_pairs (zip (funcs ++ gl ++ al' ++ il) (map NameStr (map LLVMGetValueName2 funcs) ++
            map gv_name (mod_global_vars M) ++ map ga_name (mod_global_aliases M) ++ map gi_name (mod_global_ifuncs M))) !! r = Some n) as Hlook.
  { intros r n Hr. apply map_of_pairs_lookup.
    - eapply sublist_NoDup; [exact Hd|apply zip_fst_sublist].
    - apply zip_app_elem; [by rewrite !length_map|by right]. }
  split_and!; intros r g Hr; apply Hlook, zip_app_elem; rewrite ?length_map; try done.
  - left. by apply elem_of_zip_map.
  - right. apply zip_app_elem; [by rewrite length_map|]. left. by apply elem_of_zip_map.
  - right. apply zip_app_elem; [by rewrite length_map|]. right. by apply elem_of_zip_map.
Qed.
End modules.

(** ** On the samples *)

(** Decide a closed proposition made of lists, equations and memberships. *)
Ltac decide_closed := apply (bool_decide_unpack _); vm_compute; exact I.

Definition read_sample (t : Sample) (dbg : bool) (func : N) : exec (Function_ * ModuleContext) :=
  @Function_from_llvm_ref (sample_llvm t) _ dbg ∅ func (@ModuleContext_new (sample_llvm t)).

Lemma passes_agree_witness :
  exists f ctx', read_sample f_sample true 10 = Done (f, ctx') /\
    read_sample f_sample false 10 = Done (f, ctx') /\
    exists b, (22%N, b) ∈ zip [21%N; 22%N] (func_basic_blocks f) /\
      @bb_names (@names_of (sample_llvm f_sample) _ 10 f) !! 22%N = Some (bb_name b).
Proof.
  destruct (@passes_agree (sample_llvm f_sample) sample_bounds ∅ 10%N
    (@ModuleContext_new (sample_llvm f_sample))) as [Heq Hread].
  - split; [|decide_closed]. repeat constructor; vm_compute; done.
  - decide_closed.
  - assert (exists f ctx', read_sample f_sample true 10 = Done (f, ctx') /\
      exists b, (22%N, b) ∈ zip [21%N; 22%N] (func_basic_blocks f)) as (f & ctx' & Hf & b & Hb).
    { vm_compute. do 2 eexists. split; [reflexivity|]. eexists. right. left. }
    unfold read_sample in *. exists f, ctx'. split; [exact Hf|]. split; [rewrite <-Heq; exact Hf|].
    exists b. split; [exact Hb|]. destruct (Hread true f ctx' Hf) as (_ & Hbb & _). by apply Hbb.
Defined.

Lemma names_unique_witness :
  exists f ctx', read_sample f_sample true 10 = Done (f, ctx') /\ NoDup (all_names f).
Proof.
  assert (exists f ctx', read_sample f_sample true 10 = Done (f, ctx')) as (f & ctx' & Hf)
    by (vm_compute; do 2 eexists; reflexivity).
  unfold read_sample in *. exists f, ctx'. split; [exact Hf|].
  refine (proj1 (@names_unique (sample_llvm f_sample) sample_bounds ∅ true 10%N
    (@ModuleContext_new (sample_llvm f_sample)) f ctx' _ Hf)). decide_closed.
Defined.

Definition module_sample (named : bool) : exec Module_ :=
  @Module_from_llvm_ref (sample_llvm (g_sample named)) _ true 1.

Lemma global_references_resolved_witness :
  exists M gn, module_sample true = Done M /\
    @global_names_of (sample_llvm (g_sample true)) _ 1%N = Done gn /\ length (mod_global_vars M) = 2 /\
    forall r g, (r, g) ∈ zip [50%N; 51%N] (mod_global_vars M) -> gn !! r = Some (gv_name g).
Proof.
  assert (exists M, module_sample true = Done M /\ length (mod_global_vars M) = 2) as (M & HM & Hlen)
    by (vm_compute; eexists; split; reflexivity).
  unfold module_sample in *.
  destruct (@global_references_resolved (sample_llvm (g_sample true)) sample_bounds true 1%N M
    [10%N; 50%N; 51%N]) as (gn & globals & aliases & ifuncs & Hgn & Hg & _ & _ & Hres & _);
    [decide_closed|vm_compute; reflexivity|decide_closed|exact HM|].
  exists M, gn. split; [exact HM|]. split; [exact Hgn|]. split; [exact Hlen|].
  assert (globals = [50%N; 51%N]) as -> by (vm_compute in Hg; congruence). exact Hres.
Defined.

(** The second pass does not number the functions: after one without a name, a
    global variable without a name gets another number than the references to it. *)
Example unnamed_function_shifts :
  match module_sample false with
  | Done M => map gv_name (mod_global_vars M) = [Number 0; NameStr "p"] /\
              map gv_initializer (mod_global_vars M)
              = [None; Some (CGlobalReference (Number 1) (IntegerType 64))] /\
              get_global_var_by_name M (Number 1) = None
  | _ => False
  end.
Proof. by vm_compute. Qed.
