(* ===== verification/ReadRefs.v ===== *)
(** * ReadRefs: references inside a function

    A function refers to its values by [LocalOperand] and to its blocks by name.
    Whatever the reader of a function returns, each such reference has its target
    in the function: a parameter or the result of an instruction or a terminator,
    and a block.  [instr_operands], [instr_labels] and their counterparts for
    terminators list the references of the data model. *)

From S2P Require Import Prelude Text Types Layout Constants Instr Llvm ReadSamples ReadTypes ReadConst ReadAttr ReadInstr ReadModule ReadNames.
From stdpp Require Import base gmap list strings.
From Stdlib Require Import ZArith Lia.
#[local] Open Scope string_scope.
#[local] Open Scope list_scope.

(** ** The references of an instruction *)

Definition callee_operands (f : InlineAssembly + Operand) : list Operand :=
  match f with inl _ => [] | inr o => [o] end.

Definition instr_operands (i : Instruction) : list Operand :=
  match i with
  | IAdd i => [Add_operand0 i; Add_operand1 i]
  | ISub i => [Sub_operand0 i; Sub_operand1 i]
  | IMul i => [Mul_operand0 i; Mul_operand1 i]
  | IUDiv i => [UDiv_operand0 i; UDiv_operand1 i]
  | ISDiv i => [SDiv_operand0 i; SDiv_operand1 i]
  | IURem i => [URem_operand0 i; URem_operand1 i]
  | ISRem i => [SRem_operand0 i; SRem_operand1 i]
  | IAnd i => [And_operand0 i; And_operand1 i]
  | IOr i => [Or_operand0 i; Or_operand1 i]
  | IXor i => [Xor_operand0 i; Xor_operand1 i]
  | IShl i => [Shl_operand0 i; Shl_operand1 i]
  | ILShr i => [LShr_operand0 i; LShr_operand1 i]
  | IAShr i => [AShr_operand0 i; AShr_operand1 i]
  | IFAdd i => [FAdd_operand0 i; FAdd_operand1 i]
  | IFSub i => [FSub_operand0 i; FSub_operand1 i]
  | IFMul i => [FMul_operand0 i; FMul_operand1 i]
  | IFDiv i => [FDiv_operand0 i; FDiv_operand1 i]
  | IFRem i => [FRem_operand0 i; FRem_operand1 i]
  | IFNeg i => [FNeg_operand i]
  | IExtractElement i => [ExtractElement_vector i; ExtractElement_index i]
  | IInsertElement i => [InsertElement_vector i; InsertElement_element i; InsertElement_index i]
  | IShuffleVector i => [ShuffleVector_operand0 i; ShuffleVector_operand1 i]
  | IExtractValue i => [ExtractValue_aggregate i]
  | IInsertValue i => [InsertValue_aggregate i; InsertValue_element i]
  | IAlloca i => [Alloca_num_elements i]
  | ILoad i => [Load_address i]
  | IStore i => [Store_address i; Store_value i]
  | IFence _ => []
  | ICmpXchg i => [CmpXchg_address i; CmpXchg_expected i; CmpXchg_replacement i]
  | IAtomicRMW i => [AtomicRMW_address i; AtomicRMW_value i]
  | IGetElementPtr i => [GetElementPtr_address i] ++ GetElementPtr_indices i
  | ITrunc i => [Trunc_operand i]
  | IZExt i => [ZExt_operand i]
  | ISExt i => [SExt_operand i]
  | IFPTrunc i => [FPTrunc_operand i]
  | IFPExt i => [FPExt_operand i]
  | IFPToUI i => [FPToUI_operand i]
  | IFPToSI i => [FPToSI_operand i]
  | IUIToFP i => [UIToFP_operand i]
  | ISIToFP i => [SIToFP_operand i]
  | IPtrToInt i => [PtrToInt_operand i]
  | IIntToPtr i => [IntToPtr_operand i]
  | IBitCast i => [BitCast_operand i]
  | IAddrSpaceCast i => [AddrSpaceCast_operand i]
  | IICmp i => [ICmp_operand0 i; ICmp_operand1 i]
  | IFCmp i => [FCmp_operand0 i; FCmp_operand1 i]
  | IPhi i => map fst (Phi_incoming_values i)
  | ISelect i => [Select_condition i; Select_true_value i; Select_false_value i]
  | IFreeze i => [Freeze_operand i]
  | ICall i => callee_operands (Call_function i) ++ map fst (Call_arguments i)
  | IVAArg i => [VAArg_arg_list i]
  | ILandingPad _ => []
  | ICatchPad i => [CatchPad_catch_switch i] ++ CatchPad_args i
  | ICleanupPad i => [CleanupPad_parent_pad i] ++ CleanupPad_args i
  end.
Definition instr_labels (i : Instruction) : list Name :=
  match i with IPhi i => map snd (Phi_incoming_values i) | _ => [] end.

Definition term_operands (t : Terminator) : list Operand :=
  match t with
  | TRet o _ => option_list o
  | TBr _ _ | TUnreachable _ => []
  | TCondBr o _ _ _ | TSwitch o _ _ _ | TIndirectBr o _ _ | TResume o _ | TCleanupRet o _ _
  | TCatchRet o _ _ | TCatchSwitch o _ _ _ _ => [o]
  | TInvoke f _ args _ _ _ _ _ _ _ => callee_operands f ++ map fst args
  | TCallBr f args _ _ _ _ _ _ => callee_operands f ++ map fst args
  end.
Definition term_labels (t : Terminator) : list Name :=
  match t with
  | TRet _ _ | TResume _ _ | TUnreachable _ => []
  | TBr d _ => [d]
  | TCondBr _ d d' _ => [d; d']
  | TSwitch _ dests d _ => map snd dests ++ [d]
  | TIndirectBr _ dests _ => dests
  | TInvoke _ _ _ _ _ d d' _ _ _ => [d; d']
  | TCleanupRet _ d _ => option_list d
  | TCatchRet _ d _ => [d]
  | TCatchSwitch _ handlers d _ _ => handlers ++ option_list d
  | TCallBr _ _ _ _ d _ _ _ => [d]
  end.

Definition block_operands (b : BasicBlock) : list Operand :=
  concat (map instr_operands (bb_instrs b)) ++ term_operands (bb_term b).
Definition block_labels (b : BasicBlock) : list Name :=
  concat (map instr_labels (bb_instrs b)) ++ term_labels (bb_term b).
(** The names a function gives to values *)
Definition block_values (b : BasicBlock) : list Name :=
  omap try_get_result (bb_instrs b) ++ option_list (term_try_get_result (bb_term b)).
Definition value_names (f : Function_) : list Name :=
  concat (map block_values (func_basic_blocks f)) ++ map param_name (func_parameters f).

(** ** Postconditions of readers *)

Definition yields {S A} (P : A -> Prop) (m : reader S A) : Prop :=
  forall s a s', m s = Done (a, s') -> P a.

Section yields.
Context {S : Type}.

Lemma yields_any {A} (m : reader S A) : yields (fun _ => True) m.
Proof. done. Qed.
Lemma yields_ret {A} (P : A -> Prop) a : P a -> yields P (r_ret (S := S) a).
Proof. by intros Ha s b s' [= <- <-]. Qed.
Lemma yields_panic {A} (P : A -> Prop) : yields P (@r_panic S A).
Proof. done. Qed.
Lemma yields_bind {A B} (Q : A -> Prop) (P : B -> Prop) (m : reader S A) k :
  yields Q m -> (forall a, Q a -> yields P (k a)) -> yields P (r_bind m k).
Proof. intros Hm Hk s b s' (a & s1 & H1 & H2)%r_bind_done. eapply Hk; [by eapply Hm|done]. Qed.
Lemma yields_fmap {A B} (P : B -> Prop) (f : A -> B) (m : reader S A) :
  yields (fun a => P (f a)) m -> yields P (r_fmap f m).
Proof. intros Hm. eapply yields_bind; [exact Hm|]. intros a Ha. by apply yields_ret. Qed.
Lemma yields_map {A B} (P : B -> Prop) (f : A -> reader S B) l :
  (forall a, yields P (f a)) -> yields (Forall P) (r_map f l).
Proof.
  intros Hf. induction l as [|a l IH]; simpl; [by apply yields_ret|].
  eapply yields_bind; [apply Hf|]. intros b Hb. eapply yields_bind; [exact IH|]. intros bs Hbs.
  apply yields_ret. by constructor.
Qed.
Lemma yields_lookup {K} `{Countable K} {A} (M : gmap K A) (P : A -> Prop) k :
  map_Forall (fun _ a => P a) M -> yields P (r_lift (S := S) (expect (M !! k))).
Proof.
  intros HM s a s' [Ha ->]%r_lift_done. destruct (M !! k) as [b|] eqn:E; [|done].
  injection Ha as <-. by apply (HM k).
Qed.
End yields.
Lemma yields_in_ctx {A} (P : A -> Prop) (m : reader ModuleContext A) : yields P m -> yields P (in_ctx m).
Proof. intros Hm st a st' ([b ctx] & Hb & Hr)%exec_bind_done. injection Hr as <- _. by eapply Hm. Qed.

(** ** References go where the maps of the first pass say *)

Section refs.
Context `{LLVM, Bounds}.
Context (global_names : GlobalNames) (func_ctx : FunctionNames).
Context (value label : Name -> Prop).
Context (Hvalue : map_Forall (fun _ n => value n) (val_names func_ctx)).
Context (Hlabel : map_Forall (fun _ n => label n) (bb_names func_ctx)).

Definition operand_ok (o : Operand) : Prop :=
  match o with LocalOperand n _ => value n | _ => True end.
Definition refs_ok (operands : list Operand) (labels : list Name) : Prop :=
  Forall operand_ok operands /\ Forall label labels.

Lemma operand_yields v : yields operand_ok (operand global_names func_ctx v).
Proof using Hvalue.
  apply yields_in_ctx. unfold Operand_from_llvm_ref. destruct (negb _).
  { eapply yields_bind; [apply yields_any|]. intros c _. by apply yields_ret. }
  case_bool_decide; [by apply yields_ret|].
  eapply yields_bind; [by apply yields_lookup, Hvalue|]. intros n Hn.
  eapply yields_bind; [apply yields_any|]. intros ty _. by apply yields_ret.
Qed.
Lemma block_yields bb : yields label (ReadInstr.block func_ctx bb).
Proof using Hlabel. by apply yields_lookup. Qed.
Lemma maybe_block_yields bb : yields (fun o => Forall label (option_list o)) (maybe_block func_ctx bb).
Proof using Hlabel.
  unfold maybe_block. destruct (is_null bb); [by apply yields_ret|]. apply yields_fmap.
  intros s n s' Hn. repeat constructor. by eapply block_yields.
Qed.
Lemma block_operand_yields t i : yields label (block_operand func_ctx t i).
Proof using Hlabel. eapply yields_bind; [apply yields_any|]. intros bb _. apply block_yields. Qed.

(** Follow a reader, keeping what its operands and blocks satisfy. *)
Ltac known_yields :=
  first [ apply operand_yields | apply block_yields | apply maybe_block_yields | apply block_operand_yields ].
Ltac list_yields := first [ known_yields | apply yields_map; intros; known_yields ].
Ltac solve_refs :=
  split; simpl; rewrite ?Forall_app, ?Forall_map; repeat split; repeat constructor; auto.
Ltac solve_yields :=
  repeat first
  [ apply yields_panic | apply yields_ret; solve_refs; fail
  | eapply yields_bind; [first [list_yields | apply yields_any]|intros ? ?]
  | progress case_match ].

Lemma arg_operands_yields inst : yields (Forall operand_ok) (arg_operands global_names func_ctx inst).
Proof using Hvalue. apply yields_map. intros. apply operand_yields. Qed.

Definition call_ok (ci : CallInfo) : Prop :=
  Forall operand_ok (callee_operands (ci_function ci)) /\
  Forall (fun p => operand_ok p.1) (ci_arguments ci).
Lemma call_info_yields inst : yields call_ok (CallInfo_from_llvm_ref global_names func_ctx inst).
Proof using Hvalue.
  unfold CallInfo_from_llvm_ref.
  apply yields_bind with (Q := fun f => Forall operand_ok (callee_operands f)).
  { destruct (negb _); apply yields_fmap; intros s o s' Ho; repeat constructor.
    by eapply operand_yields. }
  intros f Hf. eapply yields_bind; [apply yields_any|]. intros ty _.
  apply yields_bind with (Q := Forall (fun p => operand_ok p.1)).
  { apply yields_map. intros i. solve_yields. by apply yields_ret. }
  intros args Hargs. do 2 (eapply yields_bind; [apply yields_any|]; intros ? _). by apply yields_ret.
Qed.

Lemma phi_yields inst :
  yields (fun i => refs_ok (instr_operands (IPhi i)) (instr_labels (IPhi i)))
    (Phi_from_llvm_ref global_names func_ctx inst).
Proof using Hvalue Hlabel.
  unfold Phi_from_llvm_ref.
  apply yields_bind with (Q := Forall (fun p => operand_ok p.1 /\ label p.2)).
  { apply yields_map. intros i. eapply yields_bind; [apply operand_yields|]. intros o Ho.
    eapply yields_bind; [apply block_yields|]. intros n Hn. by apply yields_ret. }
  intros l [Ho Hl]%Forall_and. solve_yields.
Qed.
Lemma call_yields inst :
  yields (fun i => refs_ok (instr_operands (ICall i)) (instr_labels (ICall i)))
    (Call_from_llvm_ref global_names func_ctx inst).
Proof using Hvalue.
  unfold Call_from_llvm_ref. eapply yields_bind; [apply call_info_yields|]. intros ci [Hf Hargs].
  solve_yields.
Qed.

Lemma instruction_yields inst :
  yields (fun i => refs_ok (instr_operands i) (instr_labels i))
    (Instruction_from_llvm_ref global_names func_ctx inst).
Proof using Hvalue Hlabel.
  unfold Instruction_from_llvm_ref.
  destruct (LLVMGetInstructionOpcode inst); try apply yields_panic; apply yields_fmap;
    unfold unop_from_llvm, binop_from_llvm, binop_from_llvm_with_nuw_nsw, binop_from_llvm_with_exact,
      typed_unop_from_llvm, ExtractElement_from_llvm_ref, InsertElement_from_llvm_ref,
      ShuffleVector_from_llvm_ref, ExtractValue_from_llvm_ref, InsertValue_from_llvm_ref,
      Alloca_from_llvm_ref, Load_from_llvm_ref, Store_from_llvm_ref, Fence_from_llvm_ref,
      CmpXchg_from_llvm_ref, AtomicRMW_from_llvm_ref, GetElementPtr_from_llvm_ref,
      ICmp_from_llvm_ref, FCmp_from_llvm_ref, Select_from_llvm_ref,
      VAArg_from_llvm_ref, LandingPad_from_llvm_ref, CatchPad_from_llvm_ref, CleanupPad_from_llvm_ref.
  all: first [apply phi_yields | apply call_yields | solve [solve_yields]].
Qed.

Lemma switch_yields term :
  yields (fun t => refs_ok (term_operands t) (term_labels t)) (Switch_from_llvm_ref global_names func_ctx term).
Proof using Hvalue Hlabel.
  unfold Switch_from_llvm_ref. eapply yields_bind; [apply operand_yields|]. intros o Ho.
  apply yields_bind with (Q := Forall (fun p => label p.2)).
  { apply yields_map. intros i. eapply yields_bind; [apply yields_any|]. intros c _.
    eapply yields_bind; [apply block_yields|]. intros n Hn. by apply yields_ret. }
  intros l Hl. solve_yields.
Qed.
Lemma ret_yields term :
  yields (fun t => refs_ok (term_operands t) (term_labels t)) (Ret_from_llvm_ref global_names func_ctx term).
Proof using Hvalue.
  unfold Ret_from_llvm_ref. apply yields_bind with (Q := fun o => Forall operand_ok (option_list o)).
  { repeat case_match; [by apply yields_ret| |apply yields_panic]. apply yields_fmap.
    intros s o s' Ho. repeat constructor. by eapply operand_yields. }
  intros o Ho. solve_yields.
Qed.

Lemma terminator_yields term :
  yields (fun t => refs_ok (term_operands t) (term_labels t))
    (Terminator_from_llvm_ref global_names func_ctx term).
Proof using Hvalue Hlabel.
  unfold Terminator_from_llvm_ref.
  destruct (LLVMGetInstructionOpcode term); try apply yields_panic;
    repeat (case_match; try apply yields_panic); try apply ret_yields; try apply switch_yields;
    unfold Br_from_llvm_ref, CondBr_from_llvm_ref, IndirectBr_from_llvm_ref, Invoke_from_llvm_ref,
      Resume_from_llvm_ref, Unreachable_from_llvm_ref, CleanupRet_from_llvm_ref,
      CatchRet_from_llvm_ref, CatchSwitch_from_llvm_ref, CallBr_from_llvm_ref;
    try (eapply yields_bind; [apply call_info_yields|]; intros ci [? ?]); solve_yields.
Qed.

Lemma block_yields_refs dbg bb :
  yields (fun b => refs_ok (block_operands b) (block_labels b))
    (BasicBlock_from_llvm_ref dbg global_names func_ctx bb).
Proof using Hvalue Hlabel.
  unfold BasicBlock_from_llvm_ref. do 4 (eapply yields_bind; [apply yields_any|]; intros ? _).
  eapply yields_bind; [apply yields_map; intros; apply instruction_yields|]. intros instrs Hi.
  eapply yields_bind; [apply terminator_yields|]. intros t [Ho Hl]. apply yields_ret.
  unfold refs_ok, block_operands, block_labels. simpl. rewrite !Forall_app, !Forall_concat, !Forall_map.
  apply Forall_and in Hi as [??]. done.
Qed.
End refs.

(** ** Functions *)

Section functions.
Context `{LLVM, Bounds}.
Context (global_names : GlobalNames).

Lemma map_of_pairs_values {A} (P : A -> Prop) (l : list (N * A)) :
  Forall (fun p => P p.2) l -> map_Forall (fun _ a => P a) (map_of_pairs l).
Proof.
  intros Hl k a Ha%elem_of_list_to_map_2. rewrite Forall_forall in Hl.
  apply (Hl (k, a)). by apply elem_of_reverse.
Qed.

Lemma results_values l il p : p ∈ results l il -> p.2 ∈ omap try_get_result il.
Proof.
  unfold results. revert il. induction l as [|v l IH]; intros [|i il]; simpl; try by intros ?%elem_of_nil.
  destruct (try_get_result i); simpl; [|apply IH].
  intros [->|Hp]%elem_of_cons; [by left|right; by apply IH].
Qed.
Lemma block_results_values bb b p : p ∈ block_results bb b -> p.2 ∈ block_values b.
Proof.
  unfold block_results, block_values, term_results. rewrite !elem_of_app.
  intros [Hp|Hp]; [left; by eapply results_values|right].
  destruct (term_try_get_result _); simpl in *; [|by apply elem_of_nil in Hp].
  apply list_elem_of_singleton in Hp as ->. by left.
Qed.

Lemma zip_snd_elem {A B} (l : list A) (l' : list B) p : p ∈ zip l l' -> p.2 ∈ l'.
Proof. destruct p. by intros ?%elem_of_zip_r. Qed.

Lemma value_pairs_values func f : Forall (fun p => p.2 ∈ value_names f) (value_pairs func f).
Proof.
  apply Forall_forall. intros p. unfold value_pairs, value_names. rewrite !elem_of_app.
  intros [Hp|Hp]; [left|right; by eapply zip_snd_elem].
  apply list_elem_of_In, in_concat in Hp as (ps & Hps & Hp). apply list_elem_of_In in Hps, Hp.
  apply list_elem_of_lookup in Hps as [k (bb & b & -> & _ & Hb)%lookup_zip_with_Some].
  apply list_elem_of_lookup_2 in Hb.
  apply list_elem_of_In, in_concat. exists (block_values b).
  split; apply list_elem_of_In; [by apply list_elem_of_fmap_2|by eapply block_results_values].
Qed.

(** A block whose references have their targets in the function *)
Definition block_closed (f : Function_) (b : BasicBlock) : Prop :=
  (forall n ty, LocalOperand n ty ∈ block_operands b -> n ∈ value_names f) /\
  (forall n, n ∈ block_labels b -> exists b', get_bb_by_name f n = Some b' /\ bb_name b' = n).

Lemma label_found f n :
  n ∈ map bb_name (func_basic_blocks f) -> exists b, get_bb_by_name f n = Some b /\ bb_name b = n.
Proof.
  intros (b & -> & Hb)%list_elem_of_fmap. unfold get_bb_by_name. destruct (find _ _) as [b'|] eqn:E.
  - apply find_some in E as [_ E]. apply bool_decide_eq_true in E. eauto.
  - apply find_none with (x := b) in E; [|by apply list_elem_of_In]. by rewrite bool_decide_eq_false in E.
Qed.

Lemma function_closed dbg func ctx f ctx' :
  function_ok (LLVMIsAFunction func) ->
  Function_from_llvm_ref dbg global_names func ctx = Done (f, ctx') ->
  Forall (block_closed f) (func_basic_blocks f).
Proof.
  intros Hok Hf. destruct (self_named _ _ _ _ _ _ Hok Hf) as (_ & c & ctx1 & ctx2 & Hbs).
  unfold read_blocks in Hbs. apply exec_bind_done in Hbs as ([bs st] & Hbs & Hr). injection Hr as -> _.
  assert (Forall (fun b => refs_ok (fun n => n ∈ value_names f) (fun n => n ∈ map bb_name (func_basic_blocks f))
            (block_operands b) (block_labels b)) (func_basic_blocks f)) as Hrefs.
  { revert Hbs. apply yields_map. intros bb. apply block_yields_refs.
    - apply map_of_pairs_values, value_pairs_values.
    - apply map_of_pairs_values, Forall_forall. intros p Hp. by eapply zip_snd_elem. }
  eapply Forall_impl; [exact Hrefs|]. intros b [Ho Hl]. rewrite !Forall_forall in *. split.
  - intros n ty Hn. exact (Ho _ Hn).
  - intros n Hn. by apply label_found, Hl.
Qed.

(** C39. A function that was read is closed: each local value an instruction or a
    terminator uses is a parameter or a result of the function itself, and each
    label of a branch, a switch, a handler or a phi is the name of a block of the
    function, which [get_bb_by_name] finds. *)
Theorem references_closed dbg func ctx f ctx' b :
  function_ok (LLVMIsAFunction func) ->
  Function_from_llvm_ref dbg global_names func ctx = Done (f, ctx') ->
  b ∈ func_basic_blocks f ->
  (forall n ty, LocalOperand n ty ∈ block_operands b -> n ∈ value_names f) /\
  (forall n, n ∈ block_labels b -> exists b', get_bb_by_name f n = Some b' /\ bb_name b' = n).
Proof.
  intros Hok Hf Hb. pose proof (function_closed _ _ _ _ _ Hok Hf) as Hc. rewrite Forall_forall in Hc.
  exact (Hc b Hb).
Qed.
End functions.

(** ** On a sample: the branch to [next] *)

Lemma references_closed_witness :
  exists f ctx' b b', read_sample f_sample true 10 = Done (f, ctx') /\ b ∈ func_basic_blocks f /\
    NameStr "next" ∈ block_labels b /\ get_bb_by_name f (NameStr "next") = Some b' /\
    exists ty, LocalOperand (Number 0) ty ∈ block_operands b /\ Number 0 ∈ value_names f.
Proof.
  assert (exists f ctx' b ty, read_sample f_sample true 10 = Done (f, ctx') /\ b ∈ func_basic_blocks f /\
    NameStr "next" ∈ block_labels b /\ LocalOperand (Number 0) ty ∈ block_operands b)
    as (f & ctx' & b & ty & Hf & Hb & Hl & Ho).
  { vm_compute. do 4 eexists. split; [reflexivity|]. split; [left|]. split; [left|]. left. }
  unfold read_sample in *.
  destruct (@references_closed (sample_llvm f_sample) sample_bounds ∅ true 10%N
    (@ModuleContext_new (sample_llvm f_sample)) f ctx' b) as [Hv Hn]; [|exact Hf|exact Hb|].
  - split; [|decide_closed]. repeat constructor; vm_compute; done.
  - destruct (Hn _ Hl) as (b' & Hb' & _). exists f, ctx', b, b'. split; [exact Hf|]. split; [exact Hb|].
    split; [exact Hl|]. split; [exact Hb'|]. exists ty. split; [exact Ho|]. exact (Hv _ _ Ho).
Defined.
