(* ===== verification/ReadFaith.v ===== *)
(** * ReadFaith: constants and operands are read as what they mean

    What a constant of LLVM stands for is said without caches, tables or state by
    [means]; the reader of [constant.rs] returns it from every context it can be in,
    and so does the reader of operands.  That a constant is read only once, although
    the reader asserts it, is part of the proof: it holds because no constant
    contains itself. *)

From S2P Require Import Prelude Text Types Layout Constants Instr Llvm ReadSamples ReadTypes ReadConst.
From stdpp Require Import base gmap list strings.
From Stdlib Require Import ZArith Lia.
#[local] Open Scope string_scope.

(** ** The size of a constant *)

Fixpoint csize (c : Constant) : nat :=
  S match c with
    | CStruct _ l _ | CArray _ l | CVector l => sum_list_with csize l
    | CPtrAuth a b c d => csize a + csize b + csize c + csize d
    | CAdd a b | CSub a b | CMul a b | CXor a b | CExtractElement a b => csize a + csize b
    | CInsertElement a b c | CShuffleVector a b c => csize a + csize b + csize c
    | CGetElementPtr a l _ => csize a + sum_list_with csize l
    | CTrunc a _ | CPtrToInt a _ | CIntToPtr a _ | CBitCast a _ | CAddrSpaceCast a _ => csize a
    | _ => 0
    end.

Lemma sum_elem c l : c ∈ l -> csize c <= sum_list_with csize l.
Proof. induction 1; simpl; lia. Qed.

(** ** What a constant stands for *)

Section meaning.
Context `{LLVM, Bounds} (global_names : GlobalNames).

Definition type_is (ty : TypeRef) (t : Ty) : Prop := exists k, k <= type_depth /\ denotes k ty t.

Definition operand_refs (v : ValueRef) (idx : list Z) : list ValueRef :=
  map (fun i => LLVMGetOperand v (as_u32 i)) idx.
Definition aggregate_refs (v : ValueRef) (idx : list Z) : list ValueRef :=
  map (fun i => LLVMGetAggregateElement v (as_u32 i)) idx.

(** The elements of arrays, which LLVM keeps as operands or packed as data *)
Definition array_refs (v : ValueRef) (n : Z) : option (list ValueRef) :=
  match LLVMGetValueKind v with
  | LLVMConstantArrayValueKind => Some (operand_refs v (range 0 n))
  | LLVMConstantDataArrayValueKind => Some (aggregate_refs v (range 0 n))
  | _ => None
  end.

(** Constants that are given by their type alone, or by their kind alone *)
Definition typed_leaf (k : LLVMValueKind) : option (Ty -> Constant) :=
  match k with
  | LLVMConstantPointerNullValueKind => Some CNull
  | LLVMConstantAggregateZeroValueKind => Some CAggregateZero
  | LLVMUndefValueValueKind => Some CUndef
  | LLVMPoisonValueKind => Some CPoison
  | _ => None
  end.
Definition plain_leaf (k : LLVMValueKind) : option Constant :=
  match k with
  | LLVMConstantTokenNoneValueKind => Some CTokenNone
  | LLVMBlockAddressValueKind => Some CBlockAddress
  | _ => None
  end.

Definition binary_expr (op : LLVMOpcode) : option (Constant -> Constant -> Constant) :=
  match op with
  | LLVMAdd => Some CAdd
  | LLVMSub => Some CSub
  | LLVMMul => Some CMul
  | LLVMXor => Some CXor
  | LLVMExtractElement => Some CExtractElement
  | _ => None
  end.
Definition unary_expr (op : LLVMOpcode) : option (Constant -> Ty -> Constant) :=
  match op with
  | LLVMTrunc => Some CTrunc
  | LLVMPtrToInt => Some CPtrToInt
  | LLVMIntToPtr => Some CIntToPtr
  | LLVMBitCast => Some CBitCast
  | LLVMAddrSpaceCast => Some CAddrSpaceCast
  | _ => None
  end.

(** One step of the meaning, given that of the parts *)
Inductive shape (R : ValueRef -> Constant -> Prop) (v : ValueRef) : Constant -> Prop :=
  | sh_int bits :
      LLVMGetValueKind v = LLVMConstantIntValueKind -> type_is (LLVMTypeOf v) (IntegerType bits) ->
      shape R v (CInt bits (LLVMConstIntGetZExtValue v))
  | sh_float f :
      LLVMGetValueKind v = LLVMConstantFPValueKind -> type_is (LLVMTypeOf v) (FPTy f) ->
      shape R v (CFloat (float_of v f))
  | sh_struct es packed cs :
      LLVMGetValueKind v = LLVMConstantStructValueKind -> type_is (LLVMTypeOf v) (StructType es packed) ->
      Forall2 R (operand_refs v (range 0 (Z.of_nat (length es)))) cs -> shape R v (CStruct None cs packed)
  | sh_named s cs :
      LLVMGetValueKind v = LLVMConstantStructValueKind -> type_is (LLVMTypeOf v) (NamedStructType s) ->
      LLVMIsOpaqueStruct (LLVMTypeOf v) = false ->
      Forall2 R (operand_refs v (range 0 (Z.of_nat (length (LLVMGetStructElementTypes (LLVMTypeOf v)))))) cs ->
      shape R v (CStruct None cs (LLVMIsPackedStruct (LLVMTypeOf v)))
  | sh_array e n refs cs :
      array_refs v n = Some refs -> type_is (LLVMTypeOf v) (ArrayType e n) -> Forall2 R refs cs ->
      shape R v (CArray e cs)
  | sh_vector cs :
      LLVMGetValueKind v = LLVMConstantVectorValueKind ->
      Forall2 R (operand_refs v (range 0 (LLVMGetNumOperands v))) cs -> shape R v (CVector cs)
  | sh_data_vector e n scalable cs :
      LLVMGetValueKind v = LLVMConstantDataVectorValueKind -> type_is (LLVMTypeOf v) (VectorType e n scalable) ->
      Forall2 R (aggregate_refs v (range 0 n)) cs -> shape R v (CVector cs)
  | sh_typed mk t :
      typed_leaf (LLVMGetValueKind v) = Some mk -> type_is (LLVMTypeOf v) t -> shape R v (mk t)
  | sh_plain c : plain_leaf (LLVMGetValueKind v) = Some c -> shape R v c
  | sh_binary mk a b :
      LLVMGetValueKind v = LLVMConstantExprValueKind -> binary_expr (LLVMGetConstOpcode v) = Some mk ->
      LLVMGetNumOperands v = 2%Z -> R (LLVMGetOperand v 0) a -> R (LLVMGetOperand v 1) b -> shape R v (mk a b)
  | sh_insert a b c :
      LLVMGetValueKind v = LLVMConstantExprValueKind -> LLVMGetConstOpcode v = LLVMInsertElement ->
      LLVMGetNumOperands v = 3%Z -> R (LLVMGetOperand v 0) a -> R (LLVMGetOperand v 1) b ->
      R (LLVMGetOperand v 2) c -> shape R v (CInsertElement a b c)
  | sh_gep a cs :
      LLVMGetValueKind v = LLVMConstantExprValueKind -> LLVMGetConstOpcode v = LLVMGetElementPtr ->
      R (LLVMGetOperand v 0) a ->
      Forall2 R (map (LLVMGetOperand v) (range 1 (LLVMGetNumOperands v))) cs ->
      shape R v (CGetElementPtr a cs (LLVMIsInBounds v))
  | sh_unary mk a t :
      LLVMGetValueKind v = LLVMConstantExprValueKind -> unary_expr (LLVMGetConstOpcode v) = Some mk ->
      LLVMGetNumOperands v = 1%Z -> R (LLVMGetOperand v 0) a -> type_is (LLVMTypeOf v) t -> shape R v (mk a t)
  | sh_ptrauth a b c d :
      LLVMGetValueKind v = LLVMConstantPtrAuthValueKind -> R (LLVMGetConstantPtrAuthPointer v) a ->
      R (LLVMGetConstantPtrAuthKey v) b -> R (LLVMGetConstantPtrAuthDiscriminator v) c ->
      R (LLVMGetConstantPtrAuthAddrDiscriminator v) d -> shape R v (CPtrAuth a b c d)
  | sh_global k name t :
      LLVMGetValueKind v = LLVMOtherValueKind k -> is_null (LLVMIsAGlobalValue v) = false ->
      global_names !! v = Some name -> type_is (LLVMGlobalGetValueType v) t ->
      shape R v (CGlobalReference name t).

(** [means n v c]: the reference [v], at most [n] deep, is the constant [c]. *)
Fixpoint means (n : nat) (v : ValueRef) (c : Constant) : Prop :=
  match n with
  | O => False
  | S n => is_null (LLVMIsAConstant v) = false /\ shape (means n) v c
  end.

(** What an operand stands for, given the names of the function's values *)
Inductive operand_means (val_names : gmap N Name) (n : nat) (v : ValueRef) : Operand -> Prop :=
  | om_constant c :
      is_null (LLVMIsAConstant v) = false -> means n (LLVMIsAConstant v) c ->
      operand_means val_names n v (ConstantOperand c)
  | om_metadata :
      is_null (LLVMIsAConstant v) = true -> LLVMGetValueKind v = LLVMMetadataAsValueValueKind ->
      operand_means val_names n v MetadataOperand
  | om_local name t :
      is_null (LLVMIsAConstant v) = true -> LLVMGetValueKind v <> LLVMMetadataAsValueValueKind ->
      val_names !! v = Some name -> type_is (LLVMTypeOf v) t -> operand_means val_names n v (LocalOperand name t).

(** *** It is a function of the reference *)

Lemma type_is_unique ty t t' : type_is ty t -> type_is ty t' -> t = t'.
Proof. intros (k & _ & Hk) (k' & _ & Hk'). by eapply denotes_unique. Qed.

Lemma Forall2_unique {A B} (R S : A -> B -> Prop) :
  (forall a b b', R a b -> S a b' -> b = b') ->
  forall l k k', Forall2 R l k -> Forall2 S l k' -> k = k'.
Proof.
  intros Hu l k k' Hl. revert k'. induction Hl as [|a b l k Hab _ IH]; intros k' Hk'; inversion Hk'; subst; [done|].
  f_equal; eauto.
Qed.

(** The types two readings give to one reference are the same. *)
Ltac same_types :=
  repeat match goal with
         | H1 : type_is ?ty ?t, H2 : type_is ?ty ?t' |- _ =>
             let E := fresh in pose proof (type_is_unique _ _ _ H1 H2) as E; clear H2; simplify_eq
         end.

Lemma shape_unique (R S : ValueRef -> Constant -> Prop) v c c' :
  (forall u a b, R u a -> S u b -> a = b) -> shape R v c -> shape S v c' -> c = c'.
Proof.
  intros Hu Hc Hc'. pose proof (Forall2_unique R S Hu) as Hl.
  destruct Hc; inversion Hc'; subst; unfold array_refs, typed_leaf, plain_leaf in *;
    repeat match goal with Hk : LLVMGetValueKind _ = _ |- _ => rewrite Hk in *; clear Hk end;
    try discriminate; simplify_eq; same_types; try (f_equal; by eauto).
  all: unfold binary_expr, unary_expr in *; repeat case_match; congruence.
Qed.

Lemma means_unique n m v c c' : means n v c -> means m v c' -> c = c'.
Proof.
  revert m v c c'. induction n as [|n IH]; intros m v c c' Hc Hc'; [done|]. destruct m as [|m]; [done|].
  destruct Hc as [_ Hc], Hc' as [_ Hc']. eapply shape_unique; [|exact Hc|exact Hc']. intros u a b. apply IH.
Qed.

Lemma shape_mono (R S : ValueRef -> Constant -> Prop) v c :
  (forall u a, R u a -> S u a) -> shape R v c -> shape S v c.
Proof.
  intros HRS Hc. assert (forall l k, Forall2 R l k -> Forall2 S l k) as Hl
    by (intros l k Hk; eapply Forall2_impl; [exact Hk|]; auto).
  destruct Hc; [apply sh_int|apply sh_float|eapply sh_struct|eapply sh_named|eapply sh_array|eapply sh_vector
    |eapply sh_data_vector|apply sh_typed|apply sh_plain|apply sh_binary|apply sh_insert|apply sh_gep|apply sh_unary
    |apply sh_ptrauth|eapply sh_global]; eauto.
Qed.

Lemma means_le n m v c : n <= m -> means n v c -> means m v c.
Proof.
  revert m v c. induction n as [|n IH]; intros m v c Hle; [done|]. destruct m as [|m]; [lia|].
  intros [Hn Hc]. split; [done|]. eapply shape_mono; [|exact Hc]. intros u a. apply IH. lia.
Qed.
End meaning.

(** ** The reader computes it *)

Section correct.
Context `{LLVM, Bounds} (global_names : GlobalNames).
#[local] Notation means := (means global_names).
#[local] Notation shape := (shape global_names).

(** The context between two readings: types as in [ReadTypes], every named struct
    settled, and each constant kept under a reference that stands for it *)
Record ctx_faithful (ctx : ModuleContext) : Prop := {
  cf_types : builder_ok (ctx_types ctx);
  cf_settled : forall s, named (ctx_types ctx) s -> defined (ctx_types ctx) s;
  cf_constants : forall v c, ctx_constants ctx !! v = Some c -> exists n, means n v c
}.

(** [m] returns [a] from every such context, and keeps new constants of size at most
    [k] only. *)
Definition creads {A} (k : nat) (m : reader ModuleContext A) (a : A) : Prop :=
  forall ctx, ctx_faithful ctx -> exists ctx', m ctx = Done (a, ctx') /\ ctx_faithful ctx' /\
    forall u c, ctx_constants ctx' !! u = Some c -> ctx_constants ctx !! u = Some c \/ csize c <= k.

Lemma creads_ret {A} k (a : A) : creads k (r_ret a) a.
Proof. intros ctx Hc. exists ctx. auto. Qed.
Lemma creads_bind {A B} k (m : reader ModuleContext A) (f : A -> reader ModuleContext B) a b :
  creads k m a -> creads k (f a) b -> creads k (r_bind m f) b.
Proof.
  intros Hm Hf ctx Hc. destruct (Hm ctx Hc) as (c1 & E1 & Hc1 & Hn1).
  destruct (Hf c1 Hc1) as (c2 & E2 & Hc2 & Hn2). exists c2. split; [|split; [done|]].
  - unfold r_bind. by rewrite E1.
  - intros u c Hu. destruct (Hn2 u c Hu) as [|]; auto.
Qed.
Lemma creads_weaken {A} j k (m : reader ModuleContext A) a : j <= k -> creads j m a -> creads k m a.
Proof.
  intros Hle Hm ctx Hc. destruct (Hm ctx Hc) as (c1 & E1 & Hc1 & Hn1). exists c1. split_and!; [done..|].
  intros u c Hu. destruct (Hn1 u c Hu); [auto|right; lia].
Qed.
Lemma creads_assert k b : b = true -> creads k (r_assert b) tt.
Proof. intros ->. apply creads_ret. Qed.
Lemma creads_map {A B} k (f : A -> reader ModuleContext B) l bs :
  Forall2 (fun a b => creads k (f a) b) l bs -> creads k (r_map f l) bs.
Proof.
  induction 1 as [|a b l bs Hab _ IH]; [apply creads_ret|]. simpl.
  eapply creads_bind; [exact Hab|]. eapply creads_bind; [exact IH|]. apply creads_ret.
Qed.
Lemma creads_lift {A} k (x : exec A) a : x = Done a -> creads k (r_lift x) a.
Proof. intros ->. intros ctx Hc. exists ctx. auto. Qed.

(** Reading a type: a named struct has its definition afterwards. *)
Lemma creads_type k ty t : type_is ty t -> creads k (in_types (type_from_llvm_ref ty)) t.
Proof.
  intros (n & Hn & Ht) ctx [Hb Hs Hk].
  destruct (depth_reads type_depth n ty t Ht Hn _ Hb) as (b' & E & Hb' & [Hx1 Hx2 Hx3] & _).
  unfold in_types, type_from_llvm_ref. rewrite E. eexists. split; [reflexivity|]. split; [|auto]. split; simpl; [done| |done].
  intros s Hs'. destruct (Hx3 s Hs') as [|Hs'']; [done|]. unfold defined. rewrite Hx2 by done. by apply Hs.
Qed.

(** *** The shape of constant structs *)

(** LLVM keeps its named structs apart by their names. *)
Context (names_unique : forall ty ty' s,
  LLVMGetTypeKind ty = LLVMStructTypeKind -> LLVMGetTypeKind ty' = LLVMStructTypeKind ->
  struct_name ty = Some s -> struct_name ty' = Some s -> ty = ty').

Lemma denotes_named n ty s :
  denotes n ty (NamedStructType s) -> LLVMGetTypeKind ty = LLVMStructTypeKind /\ struct_name ty = Some s.
Proof using.
  intros Ht. inversion Ht as [? ? ? Hl| | | | | |]; subst; [|done].
  unfold leaf_type in Hl. by destruct (LLVMGetTypeKind ty).
Qed.

(** The number of fields and the packing of the type [t] of [v] *)
Inductive fields_are (ty : TypeRef) : Ty -> nat * bool -> Prop :=
  | fa_literal es packed : fields_are ty (StructType es packed) (length es, packed)
  | fa_named s :
      LLVMIsOpaqueStruct ty = false ->
      fields_are ty (NamedStructType s) (length (LLVMGetStructElementTypes ty), LLVMIsPackedStruct ty).

Lemma fields_found ty t p b :
  builder_ok b -> (forall s, named b s -> defined b s) -> type_is ty t -> fields_are ty t p ->
  (forall s, t = NamedStructType s -> named b s) -> struct_shape t (tb_types b) = Done p.
Proof using names_unique.
  intros Hb Hset (n & _ & Ht) Hp Hnamed. destruct Hp as [es packed|s Ho]; [done|]. simpl.
  unfold types_named_struct_def. destruct (Hset s (Hnamed s eq_refl)) as [d Hd]. rewrite Hd.
  destruct (denotes_named _ _ _ Ht) as [Hk Hs].
  destruct (bo_defs _ Hb _ _ Hd) as (ty' & Hk' & Hs' & Hdef).
  assert (ty' = ty) as -> by by eapply names_unique. destruct d as [|t]; [congruence|].
  destruct Hdef as (_ & m & es & Hes & ->). apply Forall2_length in Hes. by rewrite Hes.
Qed.

Lemma creads_fields {A} k v t p (f : nat * bool -> reader ModuleContext A) a :
  type_is (LLVMTypeOf v) t -> fields_are (LLVMTypeOf v) t p -> creads k (f p) a ->
  creads k (let& ty := ty_of v in
            let& ctx := r_get in
            let& p := r_lift (struct_shape ty (tb_types (ctx_types ctx))) in f p) a.
Proof using names_unique.
  intros Ht Hp Hf ctx Hc. pose proof Hc as [Hb Hs Hk]. pose proof Ht as (n & Hn & Hd).
  destruct (depth_reads type_depth n _ t Hd Hn _ Hb) as (b' & E & Hb' & [Hx1 Hx2 Hx3] & Hnm).
  assert (forall s, named b' s -> defined b' s) as Hset.
  { intros s Hs'. destruct (Hx3 s Hs') as [|Hs'']; [done|]. unfold defined. rewrite Hx2 by done. by apply Hs. }
  destruct (Hf (mk_ModuleContext b' (ctx_attrsdata ctx) (ctx_constants ctx))) as (ctx' & E' & Hc' & Hn').
  { by split. }
  exists ctx'. split; [|by split]. unfold r_bind, ty_of, in_types, type_from_llvm_ref, r_get, r_lift. rewrite E. simpl.
  by rewrite (fields_found _ _ _ _ Hb' Hset Ht Hp Hnm).
Qed.

(** *** Every kind of constant *)

Lemma binary_size op mk a b : binary_expr op = Some mk -> csize (mk a b) = S (csize a + csize b).
Proof using. by destruct op; simpl; intros [= <-]. Qed.
Lemma unary_size op mk a t : unary_expr op = Some mk -> csize (mk a t) = S (csize a).
Proof using. by destruct op; simpl; intros [= <-]. Qed.

Section self.
Context (rec : ValueRef -> reader ModuleContext Constant) (n : nat).
Hypothesis rec_reads : forall u a, means n u a -> creads (csize a) (rec u) a.

Lemma rec_within k u a : means n u a -> csize a <= k -> creads k (rec u) a.
Proof using rec_reads. intros Hu Hk. eapply creads_weaken; [exact Hk|auto]. Qed.

Lemma refs_within k (g : Z -> ValueRef) idx cs :
  Forall2 (means n) (map g idx) cs -> sum_list_with csize cs <= k -> creads k (r_map (fun i => rec (g i)) idx) cs.
Proof using rec_reads.
  intros Hcs Hk. apply creads_map.
  assert (forall c, c ∈ cs -> csize c <= k) as Hall by (intros c Hc; pose proof (sum_elem _ _ Hc); lia).
  clear Hk. revert cs Hcs Hall. induction idx as [|i idx IH]; intros cs Hcs Hall; inversion Hcs; subst; constructor.
  - apply rec_within; [done|]. apply Hall. by left.
  - apply IH; [done|]. intros c' Hc'. apply Hall. by right.
Qed.

(** One read of a type, of a constituent, or of a list of them *)
Ltac reads_step :=
  first [ apply creads_ret
        | eapply creads_bind; [first [ apply creads_assert; by apply Z.eqb_eq
                                     | apply creads_type; eassumption
                                     | apply rec_within; [eassumption|simpl; lia]
                                     | apply refs_within; [eassumption|simpl; lia] ]|]; cbv beta iota ].

Lemma binary_reads v mk a b :
  binary_expr (LLVMGetConstOpcode v) = Some mk -> LLVMGetNumOperands v = 2%Z ->
  means n (LLVMGetOperand v 0) a -> means n (LLVMGetOperand v 1) b ->
  creads (csize a + csize b) (constant_expr rec v) (mk a b).
Proof using rec_reads.
  intros Hmk Hn Ha Hb. unfold constant_expr, const_binop_from_llvm, ConstExtractElement_from_llvm_ref.
  destruct (LLVMGetConstOpcode v); simplify_eq/=; repeat reads_step.
Qed.
Lemma unary_reads v mk a t :
  unary_expr (LLVMGetConstOpcode v) = Some mk -> LLVMGetNumOperands v = 1%Z ->
  means n (LLVMGetOperand v 0) a -> type_is (LLVMTypeOf v) t ->
  creads (csize a) (constant_expr rec v) (mk a t).
Proof using rec_reads.
  intros Hmk Hn Ha Ht. unfold constant_expr, const_typed_unop_from_llvm, ty_of.
  destruct (LLVMGetConstOpcode v); simplify_eq/=; repeat reads_step.
Qed.

Lemma parse_reads v c :
  is_null (LLVMIsAConstant v) = false -> shape (means n) v c ->
  creads (pred (csize c)) (parse_constant global_names rec v) c.
Proof using rec_reads names_unique.
  intros Hnull Hc. unfold parse_constant. rewrite Hnull.
  destruct Hc as [bits Hk Ht|f Hk Ht|es packed cs Hk Ht Hcs|s cs Hk Ht Ho Hcs|e m refs cs Hk Ht Hcs|cs Hk Hcs
    |e m scalable cs Hk Ht Hcs|mk t Hk Ht|c Hk|mk a b Hk Hmk Hm Ha Hb|a b c Hk Hop Hm Ha Hb Hc|a cs Hk Hop Ha Hcs
    |mk a t Hk Hmk Hm Ha Ht|a b c d Hk Ha Hb Hc Hd|k name t Hk Hg Hname Ht]; unfold operands_of, elements_of.
  - rewrite Hk. repeat reads_step.
  - rewrite Hk. repeat reads_step.
  - rewrite Hk. eapply (creads_fields _ _ _ (length es, packed)); [exact Ht|constructor|]. cbv beta iota. repeat reads_step.
  - rewrite Hk. eapply creads_fields; [exact Ht|by constructor|]. cbv beta iota. repeat reads_step.
  - unfold array_refs in Hk. destruct (LLVMGetValueKind v); simplify_eq; repeat reads_step.
  - rewrite Hk. repeat reads_step.
  - rewrite Hk. repeat reads_step.
  - unfold typed_leaf in Hk. destruct (LLVMGetValueKind v); simplify_eq; repeat reads_step.
  - unfold plain_leaf in Hk. destruct (LLVMGetValueKind v); simplify_eq; repeat reads_step.
  - rewrite Hk, (binary_size _ _ _ _ Hmk). by apply binary_reads.
  - rewrite Hk. unfold constant_expr, ConstInsertElement_from_llvm_ref. rewrite Hop. repeat reads_step.
  - rewrite Hk. unfold constant_expr, ConstGetElementPtr_from_llvm_ref. rewrite Hop.
    replace (LLVMGetNumOperands v - 1 + 1)%Z with (LLVMGetNumOperands v) by ring. repeat reads_step.
  - rewrite Hk, (unary_size _ _ _ _ Hmk). by apply unary_reads.
  - rewrite Hk. repeat reads_step.
  - rewrite Hk. unfold global_reference. rewrite Hg.
    eapply creads_bind; [apply creads_lift; by rewrite Hname|]. repeat reads_step.
Qed.
End self.

Lemma csize_pos c : 0 < csize c.
Proof using. destruct c; simpl; lia. Qed.

(** A constant is kept once it is read, and only then: its parts are smaller. *)
Lemma depth_means fuel n v c :
  means n v c -> n <= fuel -> creads (csize c) (constant_at_depth global_names fuel v) c.
Proof using names_unique.
  revert n v c. induction fuel as [|fuel IH]; intros n v c Hc Hn ctx Hctx.
  { assert (n = 0) as -> by lia. done. }
  cbn [constant_at_depth]. destruct (ctx_constants ctx !! v) as [c'|] eqn:Ev.
  { destruct (cf_constants _ Hctx _ _ Ev) as [m Hm]. rewrite (means_unique _ _ _ _ _ _ Hm Hc). eauto. }
  apply (means_le _ _ (S fuel)) in Hc; [|done]. pose proof Hc as [Hnull Hs].
  destruct (parse_reads (constant_at_depth global_names fuel) fuel) with (v := v) (c := c) (ctx := ctx)
    as (ctx1 & E & Hctx1 & Hnew); [|done..|].
  { intros u a Ha. by apply (IH fuel). }
  assert (ctx_constants ctx1 !! v = None) as Hv.
  { destruct (ctx_constants ctx1 !! v) as [c1|] eqn:E1; [|done].
    destruct (Hnew _ _ E1) as [|Hlt]; [congruence|]. destruct (cf_constants _ Hctx1 _ _ E1) as [m Hm].
    rewrite (means_unique _ _ _ _ _ _ Hm Hc) in Hlt. pose proof (csize_pos c). lia. }
  eexists. split; [unfold r_bind; rewrite E; simpl; unfold add_constant; by rewrite Hv|].
  destruct Hctx1 as [Hb Hset Hk]. split; [split; simpl; try done|]; simpl; intros u a.
  - destruct (decide (v = u)) as [->|]; [rewrite lookup_insert_eq; intros [= <-]; eauto|].
    rewrite lookup_insert_ne by done. apply Hk.
  - destruct (decide (v = u)) as [->|]; [rewrite lookup_insert_eq; intros [= <-]; by right|].
    rewrite lookup_insert_ne by done. intros Hu. destruct (Hnew _ _ Hu); [by left|right; lia].
Qed.

Lemma operand_reads val_names n v o ctx :
  operand_means global_names val_names n v o -> n <= constant_depth -> ctx_faithful ctx ->
  exists ctx', Operand_from_llvm_ref global_names val_names v ctx = Done (o, ctx') /\ ctx_faithful ctx'.
Proof using names_unique.
  intros Ho Hn Hctx. unfold Operand_from_llvm_ref. destruct Ho as [c Hnull Hc|Hnull Hk|name t Hnull Hk Hname Ht].
  - rewrite Hnull. cbn [negb].
    destruct (depth_means constant_depth n _ _ Hc Hn ctx Hctx) as (ctx' & E & Hctx' & _).
    exists ctx'. split; [|done]. unfold r_bind, Constant_from_llvm_ref. by rewrite E.
  - rewrite Hnull, Hk. cbn [negb]. by exists ctx.
  - rewrite Hnull, bool_decide_eq_false_2 by done. cbn [negb].
    destruct (creads_type 0 _ _ Ht ctx Hctx) as (ctx' & E & Hctx' & _).
    exists ctx'. split; [|done]. unfold r_bind, ty_of. rewrite Hname. simpl. by rewrite E.
Qed.

(** C23. The readers of constants and operands refine the plain meaning of LLVM's
    values: in any context between two readings, an operand that stands for [o] is
    read as [o], whatever kinds of constants it is made of, without a panic and at any depth the bounds allow; the context stays such a context.  In
    particular the assertion that no constant is read twice holds. *)
Theorem operands_read_faithfully val_names n v o ctx :
  operand_means global_names val_names n v o -> n <= constant_depth -> ctx_faithful ctx ->
  exists ctx', Operand_from_llvm_ref global_names val_names v ctx = Done (o, ctx') /\ ctx_faithful ctx'.
Proof using names_unique. apply operand_reads. Qed.
End correct.

Lemma ctx_faithful_new `{LLVM} global_names (attrs : AttributesData) :
  forall B : Bounds, ctx_faithful global_names (mk_ModuleContext TypesBuilder_empty attrs ∅).
Proof.
  intros B. split; simpl.
  - apply builder_ok_empty.
  - intros s [d Hd]. simpl in Hd. by rewrite lookup_empty in Hd.
  - intros v c. by rewrite lookup_empty.
Qed.

(** A constant of the struct [pair] that has the same constant in both fields *)
Definition pair_constant : Sample := {|
  s_functions := []; s_globals := []; s_params := fun _ => []; s_blocks := fun _ => [];
  s_insts := fun _ => []; s_name := fun ty => if (ty =? 201)%N then "pair" else "";
  s_opcode := fun _ => LLVMUnreachable;
  s_operands := fun v => if (v =? 300)%N then [301%N; 301%N] else if (v =? 201)%N then [100%N; 100%N] else [];
  s_type := fun v => if (v =? 300)%N then 201%N else 100%N; s_value_type := fun _ => 0%N;
  s_return_type := fun _ => 0%N;
  s_type_kind := fun ty => if (ty =? 201)%N then LLVMStructTypeKind else LLVMIntegerTypeKind;
  s_global := fun _ => false; s_initializer := fun _ => 0%N;
  s_int := fun v => if (v =? 301)%N then Some 5%Z else None;
  s_aggregate := fun v => (v =? 300)%N
|}.

Lemma operands_read_faithfully_witness :
  let _ := sample_llvm pair_constant in
  let _ := sample_bounds in
  exists ctx', Operand_from_llvm_ref ∅ ∅ 300%N (mk_ModuleContext TypesBuilder_empty (mk_AttributesData ∅ ∅) ∅)
               = Done (ConstantOperand (CStruct None [CInt 64 5; CInt 64 5] false), ctx').
Proof.
  intros L B.
  assert (@type_is L B 100%N (IntegerType 64)) as Hint.
  { exists 1. split; [vm_compute; lia|]. apply (@den_leaf L 0). reflexivity. }
  destruct (@operands_read_faithfully L B ∅) with (val_names := (∅ : gmap N Name)) (n := 2) (v := 300%N)
    (o := ConstantOperand (CStruct None [CInt 64 5; CInt 64 5] false))
    (ctx := mk_ModuleContext TypesBuilder_empty (mk_AttributesData ∅ ∅) (∅ : gmap N Constant))
    as (ctx' & E & _).
  - intros ty ty' s Hk Hk' _ _. simpl in Hk, Hk'.
    destruct (N.eqb_spec ty 201), (N.eqb_spec ty' 201); congruence.
  - apply om_constant; [reflexivity|]. split; [reflexivity|].
    apply (@sh_named L B ∅ _ 300%N "pair"); [reflexivity| |reflexivity|].
    + exists 2. split; [vm_compute; lia|]. apply (@den_named L 1 _ "pair" [IntegerType 64; IntegerType 64]); [reflexivity| |reflexivity|].
      * right. split; [done|]. intros s [= <-]. reflexivity.
      * intros _. repeat constructor.
    + repeat constructor; exact Hint.
  - vm_compute. lia.
  - apply ctx_faithful_new.
  - exists ctx'. exact E.
Defined.
