(* ===== verification/ReadInv.v ===== *)
(** * ReadInv: what every reader keeps of the module's context

    The readers change the tables of types only through the operations of
    [TypesBuilder], and never the table of attribute names.  So the tables of a
    module that was read are well formed, which the soundness of the analysis
    asks of a module, and every function was read with the table of
    [AttributesData::create]. *)

From S2P Require Import Prelude Text Types Layout Constants Instr Llvm ReadTypes ReadConst ReadAttr ReadInstr ReadModule ReadNames ReadRefs.
From stdpp Require Import base gmap list strings.
From Stdlib Require Import ZArith Lia.
#[local] Open Scope string_scope.

(** ** Readers that keep a property of the state *)

Definition preserves {S A} (I : S -> Prop) (m : reader S A) : Prop :=
  forall s a s', I s -> m s = Done (a, s') -> I s'.

Section preserves.
Context {S : Type} (I : S -> Prop).

Lemma preserves_ret {A} (a : A) : preserves I (r_ret a).
Proof. by intros s b s' Hs [= <- <-]. Qed.
Lemma preserves_panic {A} : preserves I (@r_panic S A).
Proof. done. Qed.
Lemma preserves_get : preserves I r_get.
Proof. by intros s b s' Hs [= <- <-]. Qed.
Lemma preserves_lift {A} (m : exec A) : preserves I (r_lift m).
Proof. by intros s a s' Hs [_ ->]%r_lift_done. Qed.
Lemma preserves_assert b : preserves I (r_assert b).
Proof. by intros s a s' Hs [_ ->]%r_assert_done. Qed.
Lemma preserves_bind {A B} (m : reader S A) (k : A -> reader S B) :
  preserves I m -> (forall a, preserves I (k a)) -> preserves I (r_bind m k).
Proof. intros Hm Hk s b s' Hs (a & s1 & H1 & H2)%r_bind_done. eapply Hk; [|done]. by eapply Hm. Qed.
Lemma preserves_fmap {A B} (f : A -> B) (m : reader S A) : preserves I m -> preserves I (r_fmap f m).
Proof. intros Hm. apply preserves_bind; [done|]. intros a. apply preserves_ret. Qed.
Lemma preserves_map {A B} (f : A -> reader S B) l :
  (forall a, preserves I (f a)) -> preserves I (r_map f l).
Proof.
  intros Hf. induction l as [|a l IH]; simpl; [apply preserves_ret|].
  apply preserves_bind; [apply Hf|]. intros b. apply preserves_bind; [exact IH|]. intros bs. apply preserves_ret.
Qed.
Lemma preserves_if {A} (b : bool) (m1 m2 : reader S A) :
  preserves I m1 -> preserves I m2 -> preserves I (if b then m1 else m2).
Proof. by destruct b. Qed.
End preserves.

(** Follow a reader through its steps; [base] closes the calls of other readers. *)
Ltac preserve base :=
  repeat first
  [ base | apply preserves_ret | apply preserves_panic | apply preserves_get | apply preserves_lift
  | apply preserves_assert | apply preserves_if | apply preserves_fmap | apply preserves_map; intros
  | apply preserves_bind; [|intros] | progress case_match ].

(** ** Types *)

Definition tables_ok (b : TypesBuilder) : Prop := types_ok (tb_types b).

Lemma on_types_preserves f :
  (forall T, types_ok T -> types_ok (f T).2) -> preserves tables_ok (on_types f).
Proof.
  intros Hf b t b' Hb Ht. unfold on_types in Ht. specialize (Hf _ Hb).
  destruct (f (tb_types b)) as [t' T]. by injection Ht as <- <-.
Qed.
Lemma def_preserves name d : preserves tables_ok (on_types_unit (tb_add_named_struct_def name d)).
Proof.
  intros b [] b' Hb (T & HT & [= <-])%exec_bind_done. eapply tb_step_ok; [|exact Hb].
  by econstructor.
Qed.
Lemma field_preserves f : preserves tables_ok (field f).
Proof. by intros b t b' Hb [= <- <-]. Qed.

Ltac types_base :=
  first [ apply field_preserves | apply def_preserves
        | apply on_types_preserves; intros; eapply tb_step_ok; [by econstructor|done] ].

Section readers.
Context `{LLVM, Bounds}.

Lemma types_preserve fuel ty : preserves tables_ok (type_at_depth fuel ty).
Proof.
  revert ty. induction fuel as [|fuel IH]; intros ty b t b' Hb Ht; simpl in Ht.
  { case_match; [by injection Ht as <- <-|done]. }
  case_match; [by injection Ht as <- <-|]. apply exec_bind_done in Ht as ([t' b1] & Ht & Hr).
  injection Hr as <- <-. change (tables_ok b1). revert Hb Ht.
  assert (preserves tables_ok (parse_type_from_llvm_ref (type_at_depth fuel) ty)) as Hp; [|by apply Hp].
  unfold parse_type_from_llvm_ref, named_struct_from_llvm_ref, struct_type_from_llvm_ref.
  preserve ltac:(first [apply IH | types_base]).
Qed.

(** ** Constants and operands *)

(** The tables of types are well formed, and the attribute names those of
    [AttributesData::create]. *)
Definition ctx_ok (ctx : ModuleContext) : Prop :=
  tables_ok (ctx_types ctx) /\ ctx_attrsdata ctx = AttributesData_create.

Lemma in_types_preserves {A} (m : reader TypesBuilder A) :
  preserves tables_ok m -> preserves ctx_ok (in_types m).
Proof.
  intros Hm ctx a ctx' [Hb Ha] ([a' b] & Hr & [= <- <-])%exec_bind_done. split; [by eapply Hm|done].
Qed.
Lemma ty_preserves ty : preserves ctx_ok (in_types (type_from_llvm_ref ty)).
Proof. apply in_types_preserves, types_preserve. Qed.
Lemma add_constant_preserves r c : preserves ctx_ok (add_constant r c).
Proof. intros ctx [] ctx' Hctx Hr. unfold add_constant in Hr. case_match; simplify_eq. done. Qed.

Context (global_names : GlobalNames).

Lemma constants_preserve fuel c : preserves ctx_ok (constant_at_depth global_names fuel c).
Proof.
  revert c. induction fuel as [|fuel IH]; intros c ctx a ctx' Hctx Ha; simpl in Ha.
  { case_match; [by injection Ha as <- <-|done]. }
  case_match; [by injection Ha as <- <-|]. revert Hctx Ha.
  match goal with |- _ -> ?m _ = _ -> _ => assert (preserves ctx_ok m) as Hp; [|by apply Hp] end.
  unfold parse_constant, constant_expr, global_reference, const_binop_from_llvm, const_typed_unop_from_llvm,
    ConstExtractElement_from_llvm_ref, ConstInsertElement_from_llvm_ref, ConstShuffleVector_from_llvm_ref,
    ConstGetElementPtr_from_llvm_ref, operands_of, elements_of, ty_of.
  preserve ltac:(first [apply IH | apply ty_preserves | apply add_constant_preserves]).
Qed.
Lemma operand_preserves vals v : preserves ctx_ok (Operand_from_llvm_ref global_names vals v).
Proof.
  unfold Operand_from_llvm_ref, ty_of.
  preserve ltac:(first [apply constants_preserve | apply ty_preserves]).
Qed.
Lemma param_attr_preserves a : preserves ctx_ok (ParameterAttribute_from_llvm_ref a).
Proof. unfold ParameterAttribute_from_llvm_ref. preserve ltac:(apply ty_preserves). Qed.

(** ** Instructions, terminators, blocks *)

Definition fs_ok (st : FState) : Prop := ctx_ok (fs_ctx st).

Lemma in_ctx_preserves {A} (m : reader ModuleContext A) : preserves ctx_ok m -> preserves fs_ok (in_ctx m).
Proof. intros Hm st a st' Hst ([a' ctx] & Hr & [= <- <-])%exec_bind_done. by eapply Hm. Qed.
Lemma next_name_preserves s : preserves fs_ok (next_name s).
Proof. intros st n st' Hst Hn. unfold next_name in Hn. case_match. by injection Hn as <- <-. Qed.
Lemma mask_preserves sc u v : preserves ctx_ok (mask_constant sc u v).
Proof.
  unfold mask_constant. preserve ltac:(apply in_types_preserves; types_base).
Qed.

Context (func_ctx : FunctionNames).

Ltac reader_base :=
  first [ apply next_name_preserves
        | apply in_ctx_preserves;
          first [ apply operand_preserves | apply constants_preserve | apply ty_preserves
                | apply param_attr_preserves | apply mask_preserves ] ].
Ltac unfold_shared :=
  unfold op, operand, constant, type_, dest, debugloc, num_operands, maybe_block, block_operand,
    ReadInstr.block, arg_operands, param_attrs, function_attrs, shuffle_mask,
    LandingPadClause_from_llvm_ref, InlineAssembly_from_llvm_ref.

Lemma call_info_preserves inst : preserves fs_ok (CallInfo_from_llvm_ref global_names func_ctx inst).
Proof. unfold CallInfo_from_llvm_ref; unfold_shared; preserve reader_base. Qed.

Lemma instruction_preserves inst : preserves fs_ok (Instruction_from_llvm_ref global_names func_ctx inst).
Proof.
  unfold Instruction_from_llvm_ref.
  destruct (LLVMGetInstructionOpcode inst); try apply preserves_panic; apply preserves_fmap;
    unfold unop_from_llvm, binop_from_llvm, binop_from_llvm_with_nuw_nsw, binop_from_llvm_with_exact,
      typed_unop_from_llvm, ExtractElement_from_llvm_ref, InsertElement_from_llvm_ref,
      ShuffleVector_from_llvm_ref, ExtractValue_from_llvm_ref, InsertValue_from_llvm_ref,
      Alloca_from_llvm_ref, Load_from_llvm_ref, Store_from_llvm_ref, Fence_from_llvm_ref,
      CmpXchg_from_llvm_ref, AtomicRMW_from_llvm_ref, GetElementPtr_from_llvm_ref,
      ICmp_from_llvm_ref, FCmp_from_llvm_ref, Phi_from_llvm_ref, Select_from_llvm_ref,
      Call_from_llvm_ref, VAArg_from_llvm_ref, LandingPad_from_llvm_ref, CatchPad_from_llvm_ref,
      CleanupPad_from_llvm_ref;
    unfold_shared; preserve ltac:(first [apply call_info_preserves | reader_base]).
Qed.

Lemma terminator_preserves term : preserves fs_ok (Terminator_from_llvm_ref global_names func_ctx term).
Proof.
  unfold Terminator_from_llvm_ref.
  destruct (LLVMGetInstructionOpcode term); try apply preserves_panic;
    unfold Ret_from_llvm_ref, Br_from_llvm_ref, CondBr_from_llvm_ref, Switch_from_llvm_ref,
      IndirectBr_from_llvm_ref, Invoke_from_llvm_ref, Resume_from_llvm_ref,
      Unreachable_from_llvm_ref, CleanupRet_from_llvm_ref, CatchRet_from_llvm_ref,
      CatchSwitch_from_llvm_ref, CallBr_from_llvm_ref;
    unfold_shared; preserve ltac:(first [apply call_info_preserves | reader_base]).
Qed.

Lemma block_preserves dbg bb : preserves fs_ok (BasicBlock_from_llvm_ref dbg global_names func_ctx bb).
Proof.
  unfold BasicBlock_from_llvm_ref.
  preserve ltac:(first [apply next_name_preserves | apply instruction_preserves | apply terminator_preserves]).
Qed.

(** ** Functions and global objects *)

Lemma with_counter_preserves {A} (m : reader FState A) :
  preserves fs_ok m -> preserves ctx_ok (with_counter m).
Proof.
  intros Hm ctx [a c] ctx' Hctx ([a' st] & Hr & [= <- <- <-])%exec_bind_done.
  by apply (Hm (mk_FState ctx 0) a' st).
Qed.
Lemma declaration_preserves func : preserves fs_ok (FunctionDeclaration_from_llvm_ref_internal func).
Proof.
  unfold FunctionDeclaration_from_llvm_ref_internal, Parameter_from_llvm_ref. unfold_shared. preserve reader_base.
Qed.
End readers.

Section modules.
Context `{LLVM, Bounds}.

Lemma read_blocks_preserves dbg gn fc c bbs : preserves ctx_ok (read_blocks dbg gn fc c bbs).
Proof.
  intros ctx bs ctx' Hctx ([bs' st] & Hr & [= <- <-])%exec_bind_done.
  assert (preserves fs_ok (r_map (BasicBlock_from_llvm_ref dbg gn fc) bbs)) as Hp
    by (apply preserves_map; intros; apply block_preserves).
  by apply (Hp (mk_FState ctx c) bs' st).
Qed.
Lemma function_preserves dbg gn func : preserves ctx_ok (Function_from_llvm_ref dbg gn func).
Proof.
  unfold Function_from_llvm_ref.
  preserve ltac:(first [ apply with_counter_preserves, declaration_preserves | apply read_blocks_preserves
                       | apply constants_preserve ]).
Qed.
Lemma declared_preserves func : preserves ctx_ok (FunctionDeclaration_from_llvm_ref func).
Proof.
  unfold FunctionDeclaration_from_llvm_ref.
  preserve ltac:(apply with_counter_preserves, declaration_preserves).
Qed.

Ltac global_base :=
  first [ apply next_name_preserves
        | apply in_ctx_preserves; first [ apply constants_preserve | apply ty_preserves ] ].
Lemma variable_preserves gn g : preserves fs_ok (GlobalVariable_from_llvm_ref gn g).
Proof. unfold GlobalVariable_from_llvm_ref, type_, dest. preserve global_base. Qed.
Lemma alias_preserves gn g : preserves fs_ok (GlobalAlias_from_llvm_ref gn g).
Proof. unfold GlobalAlias_from_llvm_ref, type_, dest. preserve global_base. Qed.
Lemma ifunc_preserves gn g : preserves fs_ok (GlobalIFunc_from_llvm_ref gn g).
Proof. unfold GlobalIFunc_from_llvm_ref, type_, dest. preserve global_base. Qed.

Lemma context_new_ok : ctx_ok ModuleContext_new.
Proof. split; [apply types_ok_new|done]. Qed.

(** ** Modules *)

(** What a module that was read is made of: its functions are the defined
    functions of LLVM, each read in a good context, and its tables are well
    formed. *)
Lemma module_read dbg m M :
  Module_from_llvm_ref dbg m = Done M ->
  exists gn defined,
    global_names_of m = Done gn /\ get_defined_functions m = Done defined /\
    types_ok (mod_types M) /\
    Forall2 (fun func f => exists ctx ctx', ctx_ok ctx /\
      Function_from_llvm_ref dbg gn func ctx = Done (f, ctx')) defined (mod_functions M).
Proof.
  intros HM. unfold Module_from_llvm_ref in HM.
  apply exec_bind_done in HM as (gn & Hgn & HM).
  do 5 (apply exec_bind_done in HM as (? & _ & HM)).
  apply exec_bind_done in HM as (defined & Hdef & HM).
  apply exec_bind_done in HM as ([functions ctx1] & Hf & HM).
  apply exec_bind_done in HM as (? & _ & HM). apply exec_bind_done in HM as ([decls ctx2] & Hd & HM).
  apply exec_bind_done in HM as (? & _ & HM). apply exec_bind_done in HM as ([gvs st1] & Hv & HM).
  apply exec_bind_done in HM as (? & _ & HM). apply exec_bind_done in HM as ([gas st2] & Ha & HM).
  apply exec_bind_done in HM as (? & _ & HM). apply exec_bind_done in HM as ([gis st3] & Hi & HM).
  apply exec_bind_done in HM as (? & _ & HM). injection HM as <-. simpl.
  exists gn, defined. split; [done|]. split; [done|].
  apply r_map_done with (I := ctx_ok) (P := fun func f => exists ctx ctx', ctx_ok ctx /\
    Function_from_llvm_ref dbg gn func ctx = Done (f, ctx')) in Hf as [Hf Hctx1]; [|clear; intros|apply context_new_ok].
  - split; [|done].
    apply (preserves_map ctx_ok) in Hd; [|apply declared_preserves|done].
    apply (preserves_map fs_ok) in Hv; [|apply variable_preserves|done].
    apply (preserves_map fs_ok) in Ha; [|apply alias_preserves|done].
    apply (preserves_map fs_ok) in Hi; [|apply ifunc_preserves|done]. exact (proj1 Hi).
  - split; [eauto|]. by eapply function_preserves.
Qed.
End modules.
