(* ===== verification/ReadTotal.v ===== *)
(** * ReadTotal: a well-formed module is read

    The readers stop the process on anything LLVM does not promise: a missing
    name, an operand too many, a string that is not UTF-8.  [module_ok] says, of the
    references alone, what a module must be like; on such a module every reader
    returns, without a panic and within the bounds, and what it returns does not
    depend on what the caches hold. *)

From S2P Require Import Prelude Text Types Layout Constants Instr Llvm ReadSamples ReadTypes ReadConst ReadAttr ReadInstr ReadModule ReadNames ReadRefs ReadFaith ReadInv.
From stdpp Require Import base gmap list strings.
From Stdlib Require Import ZArith Lia.
#[local] Open Scope string_scope.

(** ** What a module must be like *)

(** *** Strings and attributes *)

Definition text_ok (o : option string) : Prop := match o with Some s => utf8_valid s = true | None => True end.
#[export] Instance text_ok_dec o : Decision (text_ok o).
Proof. destruct o; simpl; apply _. Defined.

Section attributes.
Context `{LLVM, Bounds}.

Definition typed (ty : TypeRef) : Prop := exists t, type_is ty t.
Definition named_ok (v : ValueRef) : Prop := is_null v = false /\ utf8_valid (LLVMGetValueName2 v) = true.
Definition located_ok (v : ValueRef) : Prop :=
  text_ok (LLVMGetDebugLocFilename v) /\ text_ok (LLVMGetDebugLocDirectory v).

Definition string_attr_ok (a : AttributeRef) : Prop :=
  is_null a = false /\ utf8_valid (LLVMGetStringAttributeKind a) = true /\
  utf8_valid (LLVMGetStringAttributeValue a) = true.
(** The parameter attributes that have a type and no number *)
Definition type_attributes : list string := ["byval"; "preallocated"; "inalloca"; "sret"].
Definition param_attr_ok (a : AttributeRef) : Prop :=
  let name := attribute_kinds param_attribute_list !! LLVMGetEnumAttributeKind a in
  if LLVMIsEnumAttribute a then forall s, name = Some s -> s ∉ type_attributes
  else if LLVMIsStringAttribute a then string_attr_ok a
  else if LLVMIsTypeAttribute a then
    typed (LLVMGetTypeAttributeValue a) /\ forall s, name = Some s -> s ∈ type_attributes
  else True.
Definition function_attr_ok (a : AttributeRef) : Prop :=
  LLVMIsEnumAttribute a = false -> LLVMIsStringAttribute a = true -> string_attr_ok a.
End attributes.

(** *** Instructions *)

(** The number of operands of an instruction that has no more to it than its operands
    and its type *)
Definition arity (opc : LLVMOpcode) : option Z :=
  match opc with
  | LLVMFence => Some 0%Z
  | LLVMFNeg | LLVMExtractValue | LLVMLoad | LLVMTrunc | LLVMZExt | LLVMSExt | LLVMFPTrunc | LLVMFPExt
  | LLVMFPToUI | LLVMFPToSI | LLVMUIToFP | LLVMSIToFP | LLVMPtrToInt | LLVMIntToPtr | LLVMBitCast
  | LLVMAddrSpaceCast | LLVMFreeze | LLVMVAArg => Some 1%Z
  | LLVMAdd | LLVMSub | LLVMMul | LLVMUDiv | LLVMSDiv | LLVMURem | LLVMSRem | LLVMAnd | LLVMOr | LLVMXor
  | LLVMShl | LLVMLShr | LLVMAShr | LLVMFAdd | LLVMFSub | LLVMFMul | LLVMFDiv | LLVMFRem
  | LLVMExtractElement | LLVMInsertValue | LLVMStore | LLVMAtomicRMW | LLVMICmp | LLVMFCmp => Some 2%Z
  | LLVMInsertElement | LLVMAtomicCmpXchg | LLVMSelect => Some 3%Z
  | _ => None
  end.

Section wf.
Context `{LLVM, Bounds} (global_names : GlobalNames).
(** The values of the function that have a name, and its blocks *)
Context (vals : list ValueRef) (bbs : list BlockRef).

Definition constant_ok (v : ValueRef) : Prop := exists n c, n <= constant_depth /\ means global_names n v c.
Definition value_ok (v : ValueRef) : Prop :=
  if is_null (LLVMIsAConstant v)
  then LLVMGetValueKind v = LLVMMetadataAsValueValueKind \/ v ∈ vals /\ typed (LLVMTypeOf v)
  else constant_ok (LLVMIsAConstant v).
Definition values_ok (v : ValueRef) (n : Z) : Prop :=
  LLVMGetNumOperands v = n /\ forall i, (0 <= i < n)%Z -> value_ok (LLVMGetOperand v i).
Definition label_ok (bb : BlockRef) : Prop := bb ∈ bbs.
Definition label_operand_ok (v : ValueRef) : Prop :=
  LLVMValueIsBasicBlock v = true /\ label_ok (LLVMValueAsBasicBlock v).

Definition shuffle_ok (inst : ValueRef) : Prop :=
  exists e n scalable, type_is (LLVMTypeOf inst) (VectorType e n scalable) /\
    (0 <= n < u32_modulus)%Z /\ LLVMGetNumMaskElements inst = n /\
    forall i, (0 <= i < n)%Z ->
      LLVMGetMaskValue inst i = LLVMGetUndefMaskElem \/
      (if scalable : bool then LLVMGetMaskValue inst i = 0 else 0 <= LLVMGetMaskValue inst i)%Z.

Definition callee_ok (called : ValueRef) : Prop :=
  if is_null (LLVMIsAInlineAsm called) then value_ok called else typed (LLVMTypeOf (LLVMIsAInlineAsm called)).
Record call_ok (inst : ValueRef) : Prop := {
  co_callee : callee_ok (LLVMGetCalledValue inst);
  co_type : typed (LLVMGetCalledFunctionType inst);
  co_args : forall i, (0 <= i < LLVMGetNumArgOperands inst)%Z ->
    value_ok (LLVMGetOperand inst i) /\ Forall param_attr_ok (LLVMGetCallSiteAttributes inst (i + 1));
  co_return : Forall param_attr_ok (LLVMGetCallSiteAttributes inst LLVMAttributeReturnIndex);
  co_function : Forall function_attr_ok (LLVMGetCallSiteAttributes inst LLVMAttributeFunctionIndex)
}.

Definition pad_args_ok (inst : ValueRef) : Prop :=
  forall i, (0 <= i < LLVMGetNumArgOperands inst)%Z -> value_ok (LLVMGetArgOperand inst i).

(** What an instruction needs besides a name, a location and a type *)
Definition parts_ok (inst : ValueRef) : Prop :=
  match LLVMGetInstructionOpcode inst with
  | LLVMShuffleVector => values_ok inst 2 /\ shuffle_ok inst
  | LLVMAlloca => values_ok inst 1 /\ typed (LLVMGetAllocatedType inst)
  | LLVMGetElementPtr =>
      (0 <= LLVMGetNumIndices inst)%Z /\ values_ok inst (LLVMGetNumIndices inst + 1) /\
      typed (LLVMGetGEPSourceElementType inst)
  | LLVMPHI => forall i, (0 <= i < LLVMCountIncoming inst)%Z ->
      value_ok (LLVMGetIncomingValue inst i) /\ label_ok (LLVMGetIncomingBlock inst i)
  | LLVMCall => call_ok inst
  | LLVMLandingPad => forall i, (0 <= i < LLVMGetNumClauses inst)%Z -> constant_ok (LLVMGetClause inst i)
  | LLVMCatchPad => value_ok (LLVMGetParentCatchSwitch inst) /\ pad_args_ok inst
  | LLVMCleanupPad => value_ok (LLVMGetOperand inst 0) /\ pad_args_ok inst
  | opc => match arity opc with Some n => values_ok inst n | None => False end
  end.
Record instruction_ok (inst : ValueRef) : Prop := {
  io_named : named_ok inst;
  io_located : located_ok inst;
  io_typed : typed (LLVMTypeOf inst);
  io_parts : parts_ok inst
}.

(** *** Terminators *)

Definition successors_ok (term : ValueRef) (lo : Z) : Prop :=
  forall i, (lo <= i < LLVMGetNumSuccessors term)%Z -> label_ok (LLVMGetSuccessor term i).
Definition maybe_label_ok (bb : BlockRef) : Prop := is_null bb = true \/ label_ok bb.

Definition term_parts_ok (term : ValueRef) : Prop :=
  match LLVMGetInstructionOpcode term with
  | LLVMRet => values_ok term 0 \/ values_ok term 1
  | LLVMBr =>
      LLVMGetNumOperands term = 1%Z /\ label_operand_ok (LLVMGetOperand term 0) \/
      LLVMGetNumOperands term = 3%Z /\ value_ok (LLVMGetOperand term 0) /\
        label_operand_ok (LLVMGetOperand term 1) /\ label_operand_ok (LLVMGetOperand term 2)
  | LLVMSwitch =>
      value_ok (LLVMGetOperand term 0) /\ successors_ok term 1 /\ label_ok (LLVMGetSwitchDefaultDest term) /\
      forall i, (1 <= i < LLVMGetNumSuccessors term)%Z -> constant_ok (LLVMGetOperand term (2 * i))
  | LLVMIndirectBr => value_ok (LLVMGetOperand term 0) /\ successors_ok term 0
  | LLVMInvoke => call_ok term /\ label_ok (LLVMGetNormalDest term) /\ label_ok (LLVMGetUnwindDest term)
  | LLVMResume => values_ok term 1
  | LLVMUnreachable => values_ok term 0
  | LLVMCleanupRet => values_ok term 1 /\ maybe_label_ok (LLVMGetUnwindDest term)
  | LLVMCatchRet => value_ok (LLVMGetOperand term 0) /\ label_ok (LLVMGetSuccessor term 0)
  | LLVMCatchSwitch =>
      value_ok (LLVMGetOperand term 0) /\ Forall label_ok (LLVMGetHandlers term) /\
      maybe_label_ok (LLVMGetUnwindDest term)
  | LLVMCallBr => call_ok term /\ label_ok (LLVMGetNormalDest term)
  | _ => False
  end.
Record terminator_ok (term : ValueRef) : Prop := {
  to_named : named_ok term;
  to_located : located_ok term;
  to_parts : term_parts_ok term
}.

(** *** Blocks *)

Record basic_block_ok (bb : BlockRef) : Prop := {
  bk_named : is_null bb = false /\ utf8_valid (LLVMGetBasicBlockName bb) = true;
  bk_insts : exists l, get_instructions bb = Done l /\ Forall instruction_ok (all_but_last l);
  bk_term : terminator_ok (LLVMGetBasicBlockTerminator bb);
  bk_void : block_ok bb
}.
End wf.

(** *** Functions, global objects, modules *)

Section module.
Context `{LLVM, Bounds}.

Record declaration_ok (func : ValueRef) : Prop := {
  do_named : named_ok func;
  do_located : located_ok func;
  do_gc : text_ok (LLVMGetGC func);
  do_params : exists ps, get_parameters func = Done ps /\
    Forall (fun p => named_ok p /\ typed (LLVMTypeOf p)) ps;
  do_attrs : forall i, (0 < i)%Z -> Forall param_attr_ok (LLVMGetAttributesAtIndex func i);
  do_return : typed (LLVMGetReturnType (LLVMGlobalGetValueType func));
  do_return_attrs : Forall param_attr_ok (LLVMGetAttributesAtIndex func LLVMAttributeReturnIndex)
}.

(** The values of a function that get a name *)
Definition named_values (bb : BlockRef) : list ValueRef :=
  filter (fun v => has_result v = true) (insts_of bb)
  ++ filter (fun v => term_has_result v = true) [LLVMGetBasicBlockTerminator bb].
Definition locals (func : ValueRef) : list ValueRef :=
  concat (map named_values (blocks_of func)) ++ params_of func.

Record defined_ok (global_names : GlobalNames) (func : ValueRef) : Prop := {
  fo_declared : declaration_ok func;
  fo_blocks : exists bbs, get_basic_blocks func = Done bbs /\ NoDup bbs /\
    Forall (basic_block_ok global_names (locals func) bbs) bbs;
  fo_attrs : Forall function_attr_ok (LLVMGetAttributesAtIndex func LLVMAttributeFunctionIndex);
  fo_section : text_ok (LLVMGetSection func);
  fo_personality : LLVMHasPersonalityFn func = true -> constant_ok global_names (LLVMGetPersonalityFn func)
}.

Definition pointer_typed (v : ValueRef) : Prop := exists a, type_is (LLVMTypeOf v) (PointerType a).
Record variable_ok (global_names : GlobalNames) (g : ValueRef) : Prop := {
  vo_named : named_ok g;
  vo_type : pointer_typed g;
  vo_init : is_null (LLVMGetInitializer g) = true \/ constant_ok global_names (LLVMGetInitializer g);
  vo_section : text_ok (LLVMGetSection g);
  vo_located : located_ok g
}.
Record alias_ok (global_names : GlobalNames) (g : ValueRef) : Prop := {
  ao_named : named_ok g;
  ao_type : pointer_typed g;
  ao_aliasee : constant_ok global_names (LLVMAliasGetAliasee g)
}.
Record ifunc_ok (global_names : GlobalNames) (g : ValueRef) : Prop := {
  uo_named : named_ok g;
  uo_type : typed (LLVMTypeOf g);
  uo_resolver : constant_ok global_names (LLVMGetGlobalIFuncResolver g)
}.

(** [LLVMIsAFunction] of a function is the function. *)
Definition is_function (func : ValueRef) : Prop := LLVMIsAFunction func = func.

Record module_ok (m : ModuleRef) : Prop := {
  mo_strings : is_null m = false /\ utf8_valid (LLVMGetModuleIdentifier m) = true /\
    utf8_valid (LLVMGetSourceFileName m) = true /\ utf8_valid (LLVMGetDataLayoutStr m) = true /\
    utf8_valid (LLVMGetModuleInlineAsm m) = true /\ text_ok (LLVMGetTarget m);
  mo_layout : exists dl, from_layout_str (LLVMGetDataLayoutStr m) = Done dl;
  (** named structs are kept apart by their names *)
  mo_structs : forall ty ty' s,
    LLVMGetTypeKind ty = LLVMStructTypeKind -> LLVMGetTypeKind ty' = LLVMStructTypeKind ->
    struct_name ty = Some s -> struct_name ty' = Some s -> ty = ty';
  mo_objects : exists functions globals aliases ifuncs global_names,
    get_functions m = Done functions /\ get_globals m = Done globals /\
    get_global_aliases m = Done aliases /\ get_global_ifuncs m = Done ifuncs /\
    global_names_of m = Done global_names /\
    Forall (fun f => is_function f /\
      if is_defined f then defined_ok global_names f else declaration_ok f) functions /\
    Forall (variable_ok global_names) globals /\ Forall (alias_ok global_names) aliases /\
    Forall (ifunc_ok global_names) ifuncs
}.
End module.

(** ** Readers that return *)

Section total.
Context `{LLVM, Bounds} (global_names : GlobalNames).
Context (names_unique : forall ty ty' s,
  LLVMGetTypeKind ty = LLVMStructTypeKind -> LLVMGetTypeKind ty' = LLVMStructTypeKind ->
  struct_name ty = Some s -> struct_name ty' = Some s -> ty = ty').

(** The context between two readings *)
Definition good (ctx : ModuleContext) : Prop := ctx_faithful global_names ctx /\ ctx_ok ctx.

(** [m] returns one value, of which [P] holds, from every such context. *)
Definition total {A} (P : A -> Prop) (m : reader ModuleContext A) : Prop :=
  exists a, P a /\ forall ctx, good ctx -> exists ctx', m ctx = Done (a, ctx') /\ good ctx'.
(** The same for each value of the counter, which alone decides the one after it *)
Definition ftotal {A} (P : A -> Prop) (m : reader FState A) : Prop :=
  forall c, exists a c', P a /\
    forall ctx, good ctx -> exists ctx', m (mk_FState ctx c) = Done (a, mk_FState ctx' c') /\ good ctx'.

Definition any {A} (_ : A) : Prop := True.

Lemma ftotal_ret {A} (P : A -> Prop) a : P a -> ftotal P (r_ret a).
Proof using. intros Ha c. exists a, c. split; [done|]. intros ctx Hg. by exists ctx. Qed.
Lemma ftotal_bind {A B} (Q : A -> Prop) (P : B -> Prop) (m : reader FState A) k :
  ftotal Q m -> (forall a, Q a -> ftotal P (k a)) -> ftotal P (r_bind m k).
Proof using.
  intros Hm Hk c. destruct (Hm c) as (a & c1 & Ha & E1). destruct (Hk a Ha c1) as (b & c2 & Hb & E2).
  exists b, c2. split; [done|]. intros ctx Hg. destruct (E1 ctx Hg) as (ctx1 & E1' & Hg1).
  destruct (E2 ctx1 Hg1) as (ctx2 & E2' & Hg2). exists ctx2. split; [|done]. unfold r_bind. by rewrite E1'.
Qed.
Lemma ftotal_then {A B} (P : B -> Prop) (m : reader FState A) k :
  ftotal any m -> (forall a, ftotal P (k a)) -> ftotal P (r_bind m k).
Proof using. intros Hm Hk. eapply ftotal_bind; [exact Hm|]. auto. Qed.
Lemma ftotal_fmap {A B} (f : A -> B) (m : reader FState A) : ftotal any m -> ftotal any (r_fmap f m).
Proof using. intros Hm. apply ftotal_then; [done|]. intros a. by apply ftotal_ret. Qed.
Lemma ftotal_map {A B} (f : A -> reader FState B) l :
  Forall (fun a => ftotal any (f a)) l -> ftotal (fun bs => length bs = length l) (r_map f l).
Proof using.
  induction 1 as [|a l Ha _ IH]; [by apply ftotal_ret|]. simpl.
  eapply ftotal_then; [exact Ha|]. intros b. eapply ftotal_bind; [exact IH|]. intros bs Hbs.
  apply ftotal_ret. simpl. by rewrite Hbs.
Qed.
Lemma ftotal_weaken {A} (P Q : A -> Prop) m : (forall a, P a -> Q a) -> ftotal P m -> ftotal Q m.
Proof using. intros HPQ Hm c. destruct (Hm c) as (a & c' & Ha & E). exists a, c'. auto. Qed.
Lemma ftotal_lift {A} (P : A -> Prop) (x : exec A) a : x = Done a -> P a -> ftotal P (r_lift x).
Proof using. intros -> Ha c. exists a, c. split; [done|]. intros ctx Hg. by exists ctx. Qed.
Lemma ftotal_assert b : b = true -> ftotal any (r_assert b).
Proof using. intros ->. by apply ftotal_ret. Qed.
Lemma ftotal_in_ctx {A} (P : A -> Prop) (m : reader ModuleContext A) : total P m -> ftotal P (in_ctx m).
Proof using.
  intros (a & Ha & E) c. exists a, c. split; [done|]. intros ctx Hg. destruct (E ctx Hg) as (ctx' & E' & Hg').
  exists ctx'. split; [|done]. unfold in_ctx. simpl. by rewrite E'.
Qed.

(** The same rules without a counter *)
Lemma total_ret {A} (P : A -> Prop) a : P a -> total P (r_ret a).
Proof using. intros Ha. exists a. split; [done|]. intros ctx Hg. by exists ctx. Qed.
Lemma total_bind {A B} (Q : A -> Prop) (P : B -> Prop) (m : reader ModuleContext A) k :
  total Q m -> (forall a, Q a -> total P (k a)) -> total P (r_bind m k).
Proof using.
  intros (a & Ha & E1) Hk. destruct (Hk a Ha) as (b & Hb & E2). exists b. split; [done|]. intros ctx Hg.
  destruct (E1 ctx Hg) as (ctx1 & E1' & Hg1). destruct (E2 ctx1 Hg1) as (ctx2 & E2' & Hg2).
  exists ctx2. split; [|done]. unfold r_bind. by rewrite E1'.
Qed.
Lemma total_map {A B} (f : A -> reader ModuleContext B) l :
  Forall (fun a => total any (f a)) l -> total (fun bs => length bs = length l) (r_map f l).
Proof using.
  induction 1 as [|a l Ha _ IH]; [by apply total_ret|]. simpl.
  eapply total_bind; [exact Ha|]. intros b _. eapply total_bind; [exact IH|]. intros bs Hbs.
  apply total_ret. simpl. by rewrite Hbs.
Qed.
Lemma total_weaken {A} (P Q : A -> Prop) m : (forall a, P a -> Q a) -> total P m -> total Q m.
Proof using. intros HPQ (a & Ha & E). exists a. auto. Qed.
Lemma total_lift {A} (P : A -> Prop) (x : exec A) a : x = Done a -> P a -> total P (r_lift x).
Proof using. intros -> Ha. exists a. split; [done|]. intros ctx Hg. by exists ctx. Qed.
Lemma total_assert b : b = true -> total any (r_assert b).
Proof using. intros ->. by apply total_ret. Qed.
Lemma total_fmap {A B} (f : A -> B) (m : reader ModuleContext A) : total any m -> total any (r_fmap f m).
Proof using. intros Hm. eapply total_bind; [exact Hm|]. intros a _. by apply total_ret. Qed.
(** A reader that looks at the table of attribute names, which never changes *)
Lemma total_get {A} (P : A -> Prop) (k : ModuleContext -> reader ModuleContext A) (k' : AttributesData -> reader ModuleContext A) :
  (forall ctx, k ctx = k' (ctx_attrsdata ctx)) -> total P (k' AttributesData_create) ->
  total P (let& ctx := r_get in k ctx).
Proof using.
  intros Hk (a & Ha & E). exists a. split; [done|]. intros ctx Hg. unfold r_bind, r_get. simpl.
  rewrite Hk. destruct Hg as [Hf [Ht Hat]] eqn:Eg. rewrite Hat. apply E. by split.
Qed.

(** *** Types, constants, operands, attributes *)

Lemma total_creads {A} k (P : A -> Prop) (m : reader ModuleContext A) a :
  creads global_names k m a -> preserves ctx_ok m -> P a -> total P m.
Proof using.
  intros Hm Hp Ha. exists a. split; [done|]. intros ctx [Hf Hok]. destruct (Hm ctx Hf) as (ctx' & E & Hf' & _).
  exists ctx'. split; [done|]. split; [done|]. by eapply Hp.
Qed.
Lemma total_type ty t : type_is ty t -> total (eq t) (in_types (type_from_llvm_ref ty)).
Proof using. intros Ht. by eapply (total_creads 0); [apply creads_type|apply ty_preserves|]. Qed.
Lemma total_typed ty : typed ty -> total any (in_types (type_from_llvm_ref ty)).
Proof using. intros [t Ht]. destruct (total_type _ _ Ht) as (a & _ & E). by exists a. Qed.
Lemma total_constant v : constant_ok global_names v -> total any (Constant_from_llvm_ref global_names v).
Proof using names_unique.
  intros (n & c & Hn & Hc). eapply total_creads; [by eapply depth_means| |done].
  unfold Constant_from_llvm_ref. apply constants_preserve.
Qed.

Lemma total_u32 : total any (in_types (on_types (tb_int 32))).
Proof using.
  exists (IntegerType 32). split; [done|]. intros ctx [[Hb Hs Hk] [Ht Ha]].
  destruct (reads_int 32 _ Hb) as (b' & E & Hb' & [Hx1 Hx2 Hx3]). unfold in_types. rewrite E.
  eexists. split; [reflexivity|]. split; [split; simpl|split; simpl]; try done; [|apply Hb'].
  intros s Hs'. destruct (Hx3 s Hs') as [|Hn]; [done|]. unfold defined. rewrite Hx2 by done. by apply Hs.
Qed.
Lemma total_mask scalable undef val :
  val = undef \/ (if scalable : bool then val = 0 else 0 <= val)%Z -> total any (mask_constant scalable undef val).
Proof using.
  intros Hv. unfold mask_constant. destruct (Z.eqb_spec val undef) as [|Hne].
  - eapply total_bind; [apply total_u32|]. intros t _. by apply total_ret.
  - destruct Hv as [|Hv]; [done|].
    assert ((if scalable then val =? 0 else 0 <=? val)%Z = true) as Hb
      by (destruct scalable; [by apply Z.eqb_eq|by apply Z.leb_le]).
    eapply total_bind; [by apply total_assert|]. intros ? _. by apply total_ret.
Qed.

Lemma wrap_done f v : is_null v = false -> utf8_valid (f v) = true -> wrap f v = Done (f v).
Proof using. intros Hn Hu. unfold wrap, raw_to_string. by rewrite Hn, Hu. Qed.
Lemma wrap_maybe_done f v : is_null v = false -> text_ok (f v) -> wrap_maybe_null f v = Done (f v).
Proof using.
  intros Hn. unfold wrap_maybe_null, text_ok, raw_to_string. rewrite Hn. destruct (f v); [|done]. by intros ->.
Qed.

Lemma string_attr a :
  string_attr_ok a ->
  wrap LLVMGetStringAttributeKind a = Done (LLVMGetStringAttributeKind a) /\
  wrap LLVMGetStringAttributeValue a = Done (LLVMGetStringAttributeValue a).
Proof using. intros (Hn & Hk & Hv). split; by apply wrap_done. Qed.

Lemma function_attr_total a :
  function_attr_ok a -> exists fa, FunctionAttribute_from_llvm_ref a AttributesData_create = Done fa.
Proof using.
  intros Ha. destruct (LLVMIsEnumAttribute a) eqn:Ee; [by apply function_enum_total|].
  unfold FunctionAttribute_from_llvm_ref, function_attr_ok in *. rewrite Ee in *.
  destruct (LLVMIsStringAttribute a); [|eauto].
  destruct (string_attr a) as [-> ->]; [by apply Ha|]. simpl. eauto.
Qed.

(** Every number a parameter attribute can have an arm for *)
Definition param_name_handled (s : string) : bool :=
  bool_decide (s = "align") || bool_decide (s = "dereferenceable") || bool_decide (s = "dereferenceable_or_null")
  || bool_decide (is_Some (arm param_attr_arms s)) || bool_decide (s ∈ type_attributes).
Lemma param_names_handled s : s ∈ param_attribute_list -> param_name_handled s = true.
Proof using.
  intros Hs. assert (forallb param_name_handled param_attribute_list = true) as Hall by by vm_compute.
  rewrite forallb_forall in Hall. by apply Hall, list_elem_of_In.
Qed.

Lemma total_param_attr a : param_attr_ok a -> total any (ParameterAttribute_from_llvm_ref a).
Proof using.
  intros Ha. unfold ParameterAttribute_from_llvm_ref.
  match goal with |- total _ (let& ctx := r_get in @?k ctx) =>
    eapply (total_get _ k (fun D => k (mk_ModuleContext TypesBuilder_empty D ∅))) end; [done|]. simpl.
  unfold param_attr_ok in Ha. destruct (LLVMIsEnumAttribute a).
  { destruct (attribute_kinds param_attribute_list !! _) as [s|] eqn:Ek; [|by apply total_ret].
    specialize (Ha s eq_refl). apply attribute_kinds_elem, param_names_handled in Ek. unfold param_name_handled in Ek.
    rewrite (bool_decide_eq_false_2 (s ∈ type_attributes)), orb_false_r in Ek by done.
    repeat (case_match; [by apply total_ret|]). repeat case_bool_decide; simpl in Ek; try done.
    match goal with Hs : is_Some _ |- _ => destruct Hs as [pa Hpa] end. by apply (total_lift _ _ pa); [rewrite Hpa|]. }
  destruct (LLVMIsStringAttribute a).
  { destruct (string_attr a Ha) as [Hk Hv]. eapply total_bind; [by eapply (total_lift any)|]. intros k _.
    eapply total_bind; [by eapply (total_lift any)|]. intros v _. by apply total_ret. }
  destruct (LLVMIsTypeAttribute a); [|by apply total_ret]. destruct Ha as [Ht Ha].
  eapply total_bind; [by apply total_typed|]. intros t _.
  destruct (attribute_kinds param_attribute_list !! _) as [s|]; [|by apply total_ret].
  specialize (Ha s eq_refl). unfold type_attributes in Ha.
  repeat (apply elem_of_cons in Ha as [->|Ha]; [by apply total_ret|]). by apply elem_of_nil in Ha.
Qed.

(** *** What the readers of instructions share *)

Section function.
Context (vals : list ValueRef) (bbs : list BlockRef) (fc : FunctionNames).
Context (vals_named : forall v, v ∈ vals -> is_Some (val_names fc !! v)).
Context (bbs_named : forall bb, bb ∈ bbs -> is_Some (bb_names fc !! bb)).
#[local] Notation value_ok := (value_ok global_names vals).
#[local] Notation constant_ok := (constant_ok global_names).
#[local] Notation label_ok := (label_ok bbs).
#[local] Notation call_ok := (call_ok global_names vals).
#[local] Notation values_ok := (values_ok global_names vals).

Lemma value_means v :
  value_ok v -> exists n o, n <= constant_depth /\ operand_means global_names (val_names fc) n v o.
Proof using vals_named.
  unfold ReadTotal.value_ok. destruct (is_null (LLVMIsAConstant v)) eqn:En.
  - destruct (decide (LLVMGetValueKind v = LLVMMetadataAsValueValueKind)) as [Hk|Hk].
    + intros _. exists 0, MetadataOperand. split; [lia|by constructor].
    + intros [|[Hv [t Ht]]]; [done|]. destruct (vals_named v Hv) as [name Hn].
      exists 0, (LocalOperand name t). split; [lia|by constructor].
  - intros (n & c & Hn & Hc). exists n, (ConstantOperand c). split; [done|by constructor].
Qed.

Lemma ftotal_operand v : value_ok v -> ftotal any (operand global_names fc v).
Proof using names_unique vals_named.
  intros Hv. destruct (value_means v Hv) as (n & o & Hn & Ho). apply ftotal_in_ctx.
  exists o. split; [done|]. intros ctx [Hf Hok].
  destruct (operand_reads global_names names_unique _ _ _ _ _ Ho Hn Hf) as (ctx' & E & Hf').
  exists ctx'. split; [done|]. split; [done|]. by eapply operand_preserves.
Qed.
Lemma ftotal_op inst n i : values_ok inst n -> (0 <= i < n)%Z -> ftotal any (op global_names fc inst i).
Proof using names_unique vals_named. intros [_ Hv] Hi. apply ftotal_operand. by apply Hv. Qed.
Lemma ftotal_num inst n : values_ok inst n -> ftotal any (num_operands inst n).
Proof using. intros [Hn _]. apply ftotal_assert. by rewrite Hn, Z.eqb_refl. Qed.
Lemma ftotal_constant v : constant_ok v -> ftotal any (constant global_names v).
Proof using names_unique. intros Hv. by apply ftotal_in_ctx, total_constant. Qed.
Lemma ftotal_type ty : typed ty -> ftotal any (type_ ty).
Proof using. intros Ht. by apply ftotal_in_ctx, total_typed. Qed.
Lemma ftotal_next s : ftotal any (next_name s).
Proof using.
  intros c. unfold next_name. simpl. destruct (name_or_num s c) as [n c']. exists n, c'. split; [done|].
  intros ctx Hg. by exists ctx.
Qed.
Lemma ftotal_dest inst : named_ok inst -> ftotal any (dest inst).
Proof using.
  intros [Hn Hu]. eapply ftotal_then; [by eapply ftotal_lift; [apply wrap_done|]|]. intros s. apply ftotal_next.
Qed.
Lemma located_no_col v : named_ok v -> located_ok v -> exists l, DebugLoc_from_llvm_no_col v = Done l.
Proof using.
  intros [Hn _] [Hf Hd]. unfold DebugLoc_from_llvm_no_col. rewrite (wrap_maybe_done _ _ Hn Hf). simpl.
  destruct (LLVMGetDebugLocFilename v); [|eauto]. rewrite (wrap_maybe_done _ _ Hn Hd). simpl. eauto.
Qed.
Lemma ftotal_debugloc inst : named_ok inst -> located_ok inst -> ftotal any (debugloc inst).
Proof using.
  intros Hn Hl. destruct (located_no_col _ Hn Hl) as [l E]. unfold debugloc, DebugLoc_from_llvm_with_col. rewrite E.
  simpl. by destruct l; eapply ftotal_lift.
Qed.
Lemma ftotal_block bb : label_ok bb -> ftotal any (ReadInstr.block fc bb).
Proof using bbs_named. intros [n Hn]%bbs_named. unfold ReadInstr.block. by eapply ftotal_lift; [rewrite Hn|]. Qed.
Lemma ftotal_maybe_block bb : maybe_label_ok bbs bb -> ftotal any (maybe_block fc bb).
Proof using bbs_named.
  unfold maybe_block. intros [->|Hb]; [by apply ftotal_ret|]. destruct (is_null bb); [by apply ftotal_ret|].
  by apply ftotal_fmap, ftotal_block.
Qed.
Lemma ftotal_label_operand term i :
  label_operand_ok bbs (LLVMGetOperand term i) -> ftotal any (block_operand fc term i).
Proof using bbs_named.
  intros [Hb Hl]. unfold block_operand, op_to_bb. rewrite Hb. intros c.
  destruct (ftotal_block _ Hl c) as (n & c' & _ & E). exists n, c'. split; [done|]. intros ctx Hg.
  unfold r_bind, r_lift. simpl. by apply E.
Qed.
Lemma ftotal_range {A} (f : Z -> reader FState A) lo hi :
  (forall i, (lo <= i < hi)%Z -> ftotal any (f i)) -> ftotal any (r_map f (range lo hi)).
Proof using.
  intros Hf. eapply ftotal_weaken; [|apply ftotal_map]; [done|]. apply Forall_forall. intros i Hi.
  apply Hf. unfold range in Hi. apply elem_of_seqZ in Hi. lia.
Qed.
Lemma ftotal_list {A B} (f : A -> reader FState B) (P : A -> Prop) l :
  (forall a, P a -> ftotal any (f a)) -> Forall P l -> ftotal any (r_map f l).
Proof using.
  intros Hf Hl. eapply ftotal_weaken; [|apply ftotal_map]; [done|]. eapply Forall_impl; [exact Hl|]. done.
Qed.
Lemma ftotal_param_attrs attrs : Forall param_attr_ok attrs -> ftotal any (param_attrs attrs).
Proof using. apply ftotal_list. intros a Ha. by apply ftotal_in_ctx, total_param_attr. Qed.
Lemma ftotal_function_attrs attrs : Forall function_attr_ok attrs -> ftotal any (function_attrs attrs).
Proof using.
  apply ftotal_list. intros a Ha c. destruct (function_attr_total a Ha) as [fa E]. exists fa, c. split; [done|].
  intros ctx Hg. exists ctx. split; [|done]. unfold r_bind, r_get, r_lift. simpl.
  destruct Hg as [_ [_ ->]]. by rewrite E.
Qed.

(** One step of a reader; [by lia] closes the ranges. *)
Ltac total_step :=
  first
  [ by apply ftotal_ret | by apply ftotal_dest | by apply ftotal_debugloc | by apply ftotal_type
  | by apply ftotal_num | eapply ftotal_op; [eassumption|lia]
  | by apply ftotal_operand | by apply ftotal_constant | by apply ftotal_block | by apply ftotal_maybe_block
  | by apply ftotal_label_operand | by apply ftotal_param_attrs | by apply ftotal_function_attrs
  | match goal with
    | |- ftotal _ (r_fmap _ _) => apply ftotal_fmap
    | |- ftotal _ (r_bind _ _) => apply ftotal_then; [|intros ?; cbv beta iota]
    end ].
Ltac totally := repeat total_step.

Lemma ftotal_callinfo inst : call_ok inst -> ftotal any (CallInfo_from_llvm_ref global_names fc inst).
Proof using names_unique vals_named.
  intros [Hc Ht Ha Hr Hf]. unfold CallInfo_from_llvm_ref. apply ftotal_then.
  { unfold callee_ok in Hc. destruct (is_null (LLVMIsAInlineAsm _)); cbn [negb]; [totally|].
    apply ftotal_fmap. unfold InlineAssembly_from_llvm_ref. totally. }
  intros f. totally. apply ftotal_range. intros i Hi. destruct (Ha i Hi). unfold op. totally.
Qed.

Lemma ftotal_shuffle inst : shuffle_ok inst -> ftotal any (shuffle_mask inst).
Proof using.
  intros (e & n & sc & Ht & Hn & Hm & Hv). unfold shuffle_mask.
  eapply ftotal_bind; [apply ftotal_in_ctx, (total_type _ _ Ht)|]. intros ? <-. cbv iota.
  apply ftotal_then; [apply ftotal_assert; unfold as_u32; rewrite Z.mod_small, Hm by done; apply Z.eqb_refl|].
  intros _. apply ftotal_then; [|intros; by apply ftotal_ret]. apply ftotal_range. intros i Hi.
  apply ftotal_then; [apply ftotal_assert, Z.ltb_lt; lia|]. intros _. apply ftotal_in_ctx, total_mask. by apply Hv.
Qed.

Lemma ftotal_args inst : pad_args_ok global_names vals inst -> ftotal any (arg_operands global_names fc inst).
Proof using names_unique vals_named. intros Ha. apply ftotal_range. intros i Hi. apply ftotal_operand. by apply Ha. Qed.

Lemma ftotal_phi inst :
  named_ok inst -> located_ok inst -> typed (LLVMTypeOf inst) ->
  (forall i, (0 <= i < LLVMCountIncoming inst)%Z ->
     value_ok (LLVMGetIncomingValue inst i) /\ label_ok (LLVMGetIncomingBlock inst i)) ->
  ftotal any (Phi_from_llvm_ref global_names fc inst).
Proof using names_unique vals_named bbs_named.
  intros Hn Hl Ht Hi. unfold Phi_from_llvm_ref. totally.
  apply ftotal_range. intros i Hr. destruct (Hi i Hr). totally.
Qed.
Lemma ftotal_gep inst :
  named_ok inst -> located_ok inst -> (0 <= LLVMGetNumIndices inst)%Z ->
  values_ok inst (LLVMGetNumIndices inst + 1) -> typed (LLVMGetGEPSourceElementType inst) ->
  ftotal any (GetElementPtr_from_llvm_ref global_names fc inst).
Proof using names_unique vals_named.
  intros Hn Hl Hi Hv Ht. unfold GetElementPtr_from_llvm_ref. totally. apply ftotal_range. intros i Hr. totally.
Qed.
Lemma ftotal_call inst :
  named_ok inst -> located_ok inst -> call_ok inst -> ftotal any (Call_from_llvm_ref global_names fc inst).
Proof using names_unique vals_named.
  intros Hn Hl Hc. unfold Call_from_llvm_ref. apply ftotal_then; [by apply ftotal_callinfo|]. intros ci.
  apply ftotal_then; [destruct (calls_void inst); totally|]. intros d. totally.
Qed.
Lemma ftotal_landing_pad inst :
  named_ok inst -> located_ok inst -> typed (LLVMTypeOf inst) ->
  (forall i, (0 <= i < LLVMGetNumClauses inst)%Z -> constant_ok (LLVMGetClause inst i)) ->
  ftotal any (LandingPad_from_llvm_ref global_names inst).
Proof using names_unique.
  intros Hn Hl Ht Hc. unfold LandingPad_from_llvm_ref. totally. apply ftotal_range. intros i Hi.
  unfold LandingPadClause_from_llvm_ref. specialize (Hc i Hi). totally.
Qed.

Lemma ftotal_instruction inst :
  instruction_ok global_names vals bbs inst -> ftotal any (Instruction_from_llvm_ref global_names fc inst).
Proof using names_unique vals_named bbs_named.
  intros [Hn Hl Ht Hp]. unfold parts_ok, Instruction_from_llvm_ref in *.
  destruct (LLVMGetInstructionOpcode inst); simpl arity in Hp; cbv iota in Hp; try done; apply ftotal_fmap;
    try (unfold unop_from_llvm, binop_from_llvm, binop_from_llvm_with_nuw_nsw, binop_from_llvm_with_exact,
      typed_unop_from_llvm, ExtractElement_from_llvm_ref, InsertElement_from_llvm_ref,
      ExtractValue_from_llvm_ref, InsertValue_from_llvm_ref, Load_from_llvm_ref, Store_from_llvm_ref,
      Fence_from_llvm_ref, CmpXchg_from_llvm_ref, AtomicRMW_from_llvm_ref, ICmp_from_llvm_ref,
      FCmp_from_llvm_ref, Select_from_llvm_ref, VAArg_from_llvm_ref; by totally).
  - destruct Hp as [Hv Hs]. unfold ShuffleVector_from_llvm_ref. totally. by apply ftotal_shuffle.
  - destruct Hp as [Hv Ha]. unfold Alloca_from_llvm_ref. totally.
  - destruct Hp as (Hi & Hv & Hs). by apply ftotal_gep.
  - by apply ftotal_phi.
  - by apply ftotal_call.
  - by apply ftotal_landing_pad.
  - destruct Hp as [Hv Ha]. unfold CatchPad_from_llvm_ref. totally. by apply ftotal_args.
  - destruct Hp as [Hv Ha]. unfold CleanupPad_from_llvm_ref, op. totally. by apply ftotal_args.
Qed.

(** *** Terminators *)

Lemma ftotal_terminator term :
  terminator_ok global_names vals bbs term -> ftotal any (Terminator_from_llvm_ref global_names fc term).
Proof using names_unique vals_named bbs_named.
  intros [Hn Hl Hp]. unfold term_parts_ok, Terminator_from_llvm_ref in *.
  destruct (LLVMGetInstructionOpcode term); try done.
  - unfold Ret_from_llvm_ref. apply ftotal_then; [|intros; totally].
    destruct Hp as [[-> _]|[Hnum Hv]]; simpl; [totally|]. rewrite Hnum. simpl. apply ftotal_fmap, ftotal_operand.
    apply Hv. lia.
  - destruct Hp as [(Hnum & Hb)|(Hnum & Hv & Hb1 & Hb2)]; rewrite Hnum; simpl.
    + unfold Br_from_llvm_ref, num_operands. rewrite Hnum. apply ftotal_then; [by apply ftotal_assert|]. intros _. totally.
    + unfold CondBr_from_llvm_ref, num_operands, op. rewrite Hnum.
      apply ftotal_then; [by apply ftotal_assert|]. intros _. totally.
  - destruct Hp as (Hv & Hs & Hd & Hc). unfold Switch_from_llvm_ref, op. totally. apply ftotal_range.
    intros i Hi. specialize (Hs i Hi). specialize (Hc i Hi). totally.
  - destruct Hp as [Hv Hs]. unfold IndirectBr_from_llvm_ref, op. totally. apply ftotal_range.
    intros i Hi. specialize (Hs i Hi). totally.
  - destruct Hp as (Hc & Hd & Hu). unfold Invoke_from_llvm_ref. totally. by apply ftotal_callinfo.
  - unfold Resume_from_llvm_ref. totally.
  - unfold Unreachable_from_llvm_ref. totally.
  - destruct Hp as [Hv Hu]. unfold CleanupRet_from_llvm_ref. totally.
  - destruct Hp as [Hv Hs]. unfold CatchRet_from_llvm_ref, op. totally.
  - destruct Hp as (Hv & Hh & Hu). unfold CatchSwitch_from_llvm_ref, op. totally.
    eapply ftotal_list; [|exact Hh]. intros bb Hb. totally.
  - destruct Hp as [Hc Hd]. unfold CallBr_from_llvm_ref. totally. by apply ftotal_callinfo.
Qed.

(** *** Blocks, without the debug assertion *)

Lemma ftotal_basic_block bb :
  basic_block_ok global_names vals bbs bb -> ftotal any (BasicBlock_from_llvm_ref false global_names fc bb).
Proof using names_unique vals_named bbs_named.
  intros [[Hn Hu] (l & El & Hi) Ht _]. unfold BasicBlock_from_llvm_ref, get_bb_name.
  apply ftotal_then; [by eapply ftotal_lift; [apply wrap_done|]|]. intros s.
  apply ftotal_then; [apply ftotal_next|]. intros name. apply ftotal_then; [by apply ftotal_assert|]. intros _.
  rewrite El. eapply ftotal_bind; [by apply (ftotal_lift (eq l) _ l)|]. intros ? <-.
  apply ftotal_then; [eapply ftotal_list; [|exact Hi]; by apply ftotal_instruction|]. intros il.
  apply ftotal_then; [by apply ftotal_terminator|]. intros t. totally.
Qed.
End function.

(** ** Functions *)

Lemma total_with_counter {A} (P : A -> Prop) (m : reader FState A) :
  ftotal P m -> total (fun p => P p.1) (with_counter m).
Proof using.
  intros Hm. destruct (Hm 0) as (a & c & Ha & E). exists (a, c). split; [done|]. intros ctx Hg.
  destruct (E ctx Hg) as (ctx' & E' & Hg'). exists ctx'. split; [|done]. unfold with_counter. by rewrite E'.
Qed.

Lemma ftotal_declaration func :
  declaration_ok func ->
  ftotal (fun d => length (decl_parameters d) = length (params_of func))
    (FunctionDeclaration_from_llvm_ref_internal func).
Proof using.
  intros [Hn Hl Hgc (ps & Eps & Hps) Hat Hr Hra]. unfold FunctionDeclaration_from_llvm_ref_internal, params_of.
  rewrite Eps. pose proof Hn as [Hnull Hu].
  apply ftotal_then; [by eapply ftotal_lift; [apply wrap_done|]|]. intros name.
  eapply ftotal_bind; [by apply (ftotal_lift (eq ps) _ ps)|]. intros ? <-.
  eapply ftotal_bind; [apply ftotal_map|].
  { apply Forall_forall. intros [i p] Hip%elem_of_enumerate. apply list_elem_of_lookup_2 in Hip.
    rewrite Forall_forall in Hps. destruct (Hps p Hip) as [Hp Ht]. simpl.
    apply ftotal_then; [by apply ftotal_dest|]. intros nm. apply ftotal_then; [by apply ftotal_type|]. intros t.
    apply ftotal_then; [apply ftotal_param_attrs, Hat; lia|]. intros ats. by apply ftotal_ret. }
  intros params Hlen. unfold enumerate in Hlen; rewrite length_zip_with, length_seq, Nat.min_id in Hlen.
  apply ftotal_then; [by apply ftotal_type|]. intros t.
  apply ftotal_then; [by apply ftotal_param_attrs|]. intros ras.
  apply ftotal_then; [by eapply ftotal_lift; [apply wrap_maybe_done|]|]. intros gc.
  destruct (located_no_col _ Hn Hl) as [loc E]. apply ftotal_then; [by eapply ftotal_lift|]. intros l.
  by apply ftotal_ret.
Qed.

(** *** The first pass *)

Lemma name_of v : named_ok v -> get_value_name v = Done (LLVMGetValueName2 v).
Proof using. intros [Hn Hu]. by apply wrap_done. Qed.
Lemma name_value_total v c : named_ok v -> exists n c', name_value v c = Done ((v, n), c').
Proof using. intros Hn. unfold name_value. rewrite name_of by done. simpl. destruct (name_or_num _ c). eauto. Qed.
Lemma needs_name_total v : named_ok v -> void_unnamed v -> needs_name v = Done (has_result v).
Proof using.
  intros Hn Hv. assert (exists b, needs_name v = Done b) as [b Hb].
  { unfold needs_name. rewrite name_of by done. simpl. case_match; eauto. }
  by rewrite Hb, (needs_name_result _ _ Hv Hb).
Qed.
Lemma term_needs_name_total v : named_ok v -> void_term_unnamed v -> term_needs_name v = Done (term_has_result v).
Proof using.
  intros Hn Hv. assert (exists b, term_needs_name v = Done b) as [b Hb].
  { unfold term_needs_name. rewrite name_of by done. simpl. case_match; eauto. }
  by rewrite Hb, (term_needs_name_result _ _ Hv Hb).
Qed.
Lemma name_instrs_total l c :
  Forall named_ok l -> Forall void_unnamed l ->
  exists ps c', name_instrs l c = Done (ps, c') /\ ps.*1 = filter (fun v => has_result v = true) l.
Proof using.
  intros Hl. revert c. induction Hl as [|v l Hv _ IH]; intros c Hvoid; [by exists [], c|].
  inversion Hvoid as [|? ? Hv1 Hvl]; subst. simpl. unfold r_bind at 1, r_lift.
  rewrite needs_name_total by done. simpl. rewrite filter_cons. destruct (has_result v) eqn:Hr.
  - destruct (name_value_total v c Hv) as (n & c1 & E1). destruct (IH c1 Hvl) as (ps & c2 & E2 & Hps).
    exists ((v, n) :: ps), c2. rewrite decide_True by done. split; [|by simpl; f_equal].
    unfold r_bind. rewrite E1. simpl. by rewrite E2.
  - rewrite decide_False by done. by apply IH.
Qed.

Lemma first_pass_total vals bbs bb c :
  basic_block_ok global_names vals bbs bb ->
  exists nm ps c', first_pass_names bb c = Done ((nm, ps), c') /\ ps.*1 = named_values bb.
Proof using.
  intros [[Hn Hu] (l & El & Hi) [Ht _ _] [Hv Hvt]]. unfold insts_of in Hv. rewrite El in Hv.
  unfold first_pass_names, named_values, insts_of. rewrite El.
  unfold r_bind at 1, r_lift, get_bb_name. rewrite wrap_done by done. simpl.
  unfold r_bind at 1. destruct (name_or_num (LLVMGetBasicBlockName bb) c) as [nm c1]. simpl.
  unfold r_bind at 1. simpl.
  destruct (name_instrs_total (all_but_last l) c1) as (ps & c2 & E & Hps); [|done|].
  { eapply Forall_impl; [exact Hi|]. by intros v [Hnv _ _ _]. }
  unfold r_bind at 1. rewrite E. simpl. unfold r_bind at 1. rewrite term_needs_name_total by done. simpl.
  rewrite filter_cons, filter_nil. destruct (term_has_result _).
  - destruct (name_value_total _ c2 Ht) as (n & c3 & E3). unfold r_bind. rewrite E3. simpl.
    do 3 eexists. split; [done|]. by rewrite fmap_app, Hps.
  - do 3 eexists. split; [done|]. by rewrite app_nil_r.
Qed.

Lemma first_passes_total vals bbs l c :
  Forall (basic_block_ok global_names vals bbs) l ->
  exists rs c', r_map first_pass_names l c = Done (rs, c') /\ length rs = length l /\
    (concat (map snd rs)).*1 = concat (map named_values l).
Proof using.
  intros Hl. revert c. induction Hl as [|bb l Hb _ IH]; intros c; [by exists [], c|].
  destruct (first_pass_total _ _ _ c Hb) as (nm & ps & c1 & E1 & Hps).
  destruct (IH c1) as (rs & c2 & E2 & Hlen & Hrs). exists ((nm, ps) :: rs), c2. split_and!.
  - simpl. unfold r_bind. rewrite E1. simpl. by rewrite E2.
  - simpl. by rewrite Hlen.
  - simpl. rewrite fmap_app. by rewrite Hps, Hrs.
Qed.

(** Every key of the list has an entry. *)
Lemma map_of_pairs_some {A} (l : list (N * A)) k : k ∈ l.*1 -> is_Some (map_of_pairs l !! k).
Proof using.
  intros Hk. unfold map_of_pairs. destruct (list_to_map (reverse l) !! k) eqn:E; [by eexists|].
  exfalso. apply not_elem_of_list_to_map in E. apply E. rewrite fmap_reverse. by apply elem_of_reverse.
Qed.
Lemma zip_keys {A B} (l : list A) (l' : list B) : length l = length l' -> (zip l l').*1 = l.
Proof using. intros Hl. apply fst_zip. lia. Qed.

Lemma function_names_total func params c :
  defined_ok global_names func -> length params = length (params_of func) ->
  exists fc, function_names func params c = Done fc /\
    (forall v, v ∈ locals func -> is_Some (val_names fc !! v)) /\
    (forall bb, bb ∈ blocks_of func -> is_Some (bb_names fc !! bb)).
Proof using.
  intros [Hd (bbs & Eb & _ & Hb) _ _ _] Hlen. destruct (do_params _ Hd) as (ps & Eps & _).
  unfold function_names, locals, blocks_of, params_of in *. rewrite Eb, Eps in *. simpl.
  destruct (first_passes_total _ _ _ c Hb) as (rs & c' & E & Hl & Hrs). rewrite E. simpl.
  eexists. split; [done|]. simpl. split; intros v Hv; apply map_of_pairs_some.
  - rewrite fmap_app, Hrs. rewrite zip_keys by (by rewrite length_map). done.
  - rewrite zip_keys by (by rewrite length_map). done.
Qed.

(** *** The second pass *)

Lemma total_function_attr a :
  function_attr_ok a ->
  total any (let& ctx := r_get in r_lift (FunctionAttribute_from_llvm_ref a (ctx_attrsdata ctx))).
Proof using.
  intros [fa E]%function_attr_total.
  apply (total_get _ _ (fun D => r_lift (FunctionAttribute_from_llvm_ref a D))); [done|]. by eapply total_lift.
Qed.

Lemma total_function func :
  is_function func -> defined_ok global_names func -> total any (Function_from_llvm_ref false global_names func).
Proof using names_unique.
  intros Hf Hd. unfold Function_from_llvm_ref, is_function in *. cbv zeta. rewrite Hf.
  pose proof Hd as [Hdecl (bbs & Eb & Hnd & Hb) Hat Hsec Hpers]. pose proof (do_named _ Hdecl) as [Hn _].
  eapply total_bind; [apply total_assert; by rewrite Hn|]. intros [] _.
  eapply total_bind; [by apply total_with_counter, ftotal_declaration|]. intros [decl c] Hlen. simpl in Hlen.
  destruct (function_names_total func (decl_parameters decl) c Hd Hlen) as (fc & Efc & Hvals & Hbbs).
  eapply total_bind; [by apply (total_lift (eq fc) _ fc)|]. intros ? <-. rewrite Eb.
  eapply total_bind; [by apply (total_lift (eq bbs) _ bbs)|]. intros ? <-.
  unfold blocks_of in Hbbs. rewrite Eb in Hbbs.
  apply (total_bind any); [|intros bs _].
  { destruct (ftotal_list (BasicBlock_from_llvm_ref false global_names fc) _ bbs
      (fun bb => ftotal_basic_block (locals func) bbs fc Hvals Hbbs bb) Hb c) as (bs & c' & _ & E).
    exists bs. split; [done|]. intros ctx Hg. destruct (E ctx Hg) as (ctx' & E' & Hg').
    exists ctx'. split; [|done]. unfold read_blocks. by rewrite E'. }
  apply (total_bind any); [|intros ats _].
  { eapply total_weaken; [|apply total_map; eapply Forall_impl; [exact Hat|exact total_function_attr]]. done. }
  apply (total_bind any); [by eapply total_lift; [apply wrap_maybe_done|]|]. intros section _.
  apply (total_bind any); [|intros pf _; by apply total_ret].
  destruct (LLVMHasPersonalityFn func); [|by apply total_ret]. apply total_fmap, total_constant. by apply Hpers.
Qed.

Lemma total_declared func : is_function func -> declaration_ok func -> total any (FunctionDeclaration_from_llvm_ref func).
Proof using.
  intros Hf Hd. unfold FunctionDeclaration_from_llvm_ref, is_function in *. cbv zeta. rewrite Hf. pose proof (do_named _ Hd) as [Hn _].
  eapply total_bind; [apply total_assert; by rewrite Hn|]. intros [] _.
  eapply total_bind; [by apply total_with_counter, ftotal_declaration|]. intros [d c] _. by apply total_ret.
Qed.

(** ** Global objects *)

Lemma ftotal_pointer_type {B} v (P : B -> Prop) (k : Ty -> Z -> reader FState B) :
  pointer_typed v -> (forall t a, ftotal P (k t a)) ->
  ftotal P (let& ty := type_ (LLVMTypeOf v) in let& addr_space := r_lift (addr_space_of ty) in k ty addr_space).
Proof using.
  intros [a Ht] Hk. eapply ftotal_bind; [apply ftotal_in_ctx, (total_type _ _ Ht)|]. intros ? <-. simpl.
  apply ftotal_then; [by eapply ftotal_lift|]. auto.
Qed.
Lemma ftotal_global_constant v :
  constant_ok global_names v -> ftotal any (in_ctx (Constant_from_llvm_ref global_names v)).
Proof using names_unique. intros Hv. by apply ftotal_in_ctx, total_constant. Qed.

Lemma ftotal_variable g :
  variable_ok global_names g -> ftotal any (GlobalVariable_from_llvm_ref global_names g).
Proof using names_unique.
  intros [Hn Ht Hi Hs Hl]. apply ftotal_pointer_type; [done|]. intros t a. pose proof Hn as [Hnull _].
  apply ftotal_then; [by apply ftotal_dest|]. intros name. apply ftotal_then.
  { destruct (is_null (LLVMGetInitializer g)); [by apply ftotal_ret|]. destruct Hi as [|Hi]; [done|].
    by apply ftotal_fmap, ftotal_global_constant. }
  intros init. apply ftotal_then; [by eapply ftotal_lift; [apply wrap_maybe_done|]|]. intros sec.
  destruct (located_no_col _ Hn Hl) as [loc E]. apply ftotal_then; [by eapply ftotal_lift|]. intros l.
  by apply ftotal_ret.
Qed.
Lemma ftotal_alias g : alias_ok global_names g -> ftotal any (GlobalAlias_from_llvm_ref global_names g).
Proof using names_unique.
  intros [Hn Ht Ha]. apply ftotal_pointer_type; [done|]. intros t a.
  apply ftotal_then; [by apply ftotal_dest|]. intros name.
  apply ftotal_then; [by apply ftotal_global_constant|]. intros c. by apply ftotal_ret.
Qed.
Lemma ftotal_ifunc g : ifunc_ok global_names g -> ftotal any (GlobalIFunc_from_llvm_ref global_names g).
Proof using names_unique.
  intros [Hn Ht Hr]. unfold GlobalIFunc_from_llvm_ref. apply ftotal_then; [by apply ftotal_dest|]. intros name.
  apply ftotal_then; [by apply ftotal_type|]. intros t.
  apply ftotal_then; [by apply ftotal_global_constant|]. intros c. by apply ftotal_ret.
Qed.
End total.

(** ** Modules *)

Lemma r_map_ext {S A B} (f g : A -> reader S B) l s :
  Forall (fun a => forall s, f a s = g a s) l -> r_map f l s = r_map g l s.
Proof.
  intros Hl. revert s. induction Hl as [|a l Ha _ IH]; intros s; [done|]. simpl. unfold r_bind. rewrite Ha.
  destruct (g a s) as [[b s1]| |]; [|done..]. simpl. by rewrite IH.
Qed.

Section modules.
Context `{LLVM, Bounds}.

(** What a list of readers does from a good context *)
Lemma total_run {A B} gn (P : A -> Prop) (f : A -> reader ModuleContext B) l ctx :
  (forall a, P a -> total gn any (f a)) -> Forall P l -> good gn ctx ->
  exists bs ctx', r_map f l ctx = Done (bs, ctx') /\ good gn ctx' /\ length bs = length l.
Proof.
  intros Hf Hl Hg. destruct (total_map gn f l) as (bs & Hlen & E); [by eapply Forall_impl|].
  destruct (E ctx Hg) as (ctx' & E' & Hg'). eauto.
Qed.
Lemma ftotal_run {A B} gn (P : A -> Prop) (f : A -> reader FState B) l st :
  (forall a, P a -> ftotal gn any (f a)) -> Forall P l -> good gn (fs_ctx st) ->
  exists bs st', r_map f l st = Done (bs, st') /\ good gn (fs_ctx st') /\ length bs = length l.
Proof.
  intros Hf Hl Hg. destruct st as [ctx c]. destruct (ftotal_map gn f l) with (c := c) as (bs & c' & Hlen & E);
    [by eapply Forall_impl|]. destruct (E ctx Hg) as (ctx' & E' & Hg'). exists bs, (mk_FState ctx' c'). done.
Qed.

Lemma good_new gn : good gn ModuleContext_new.
Proof. split; [apply ctx_faithful_new|apply context_new_ok]. Qed.

Lemma defined_function_ok gn f : is_function f -> defined_ok gn f -> function_ok (LLVMIsAFunction f).
Proof.
  intros -> [_ (bbs & Eb & Hnd & Hb) _ _ _]. unfold function_ok, blocks_of. rewrite Eb. split; [|done].
  eapply Forall_impl; [exact Hb|]. by intros bb [_ _ _ Hv].
Qed.

Lemma module_reads m :
  module_ok m ->
  exists M, (forall dbg, Module_from_llvm_ref dbg m = Done M) /\
    exists functions globals aliases ifuncs,
      get_functions m = Done functions /\ get_globals m = Done globals /\
      get_global_aliases m = Done aliases /\ get_global_ifuncs m = Done ifuncs /\
      length (mod_functions M) = length (filter (fun f => is_defined f = true) functions) /\
      length (mod_func_declarations M) = length (filter (fun f => is_defined f = false) functions) /\
      length (mod_global_vars M) = length globals /\ length (mod_global_aliases M) = length aliases /\
      length (mod_global_ifuncs M) = length ifuncs.
Proof.
  intros [(Hm & Hid & Hsrc & Hlay & Hasm & Htgt) (dl & Edl) Hst
    (fns & gs & als & ifs & gn & Efn & Eg & Ea & Ei & Egn & Hfn & Hg & Ha & Hi)].
  set (defd := filter (fun f => is_defined f = true) fns). set (decd := filter (fun f => is_defined f = false) fns).
  assert (Forall (fun f => is_function f /\ defined_ok gn f) defd) as Hdef.
  { rewrite Forall_forall in Hfn |- *. intros f [Hd Hf]%list_elem_of_filter. specialize (Hfn f Hf). by rewrite Hd in Hfn. }
  assert (Forall (fun f => is_function f /\ declaration_ok f) decd) as Hdec.
  { rewrite Forall_forall in Hfn |- *. intros f [Hd Hf]%list_elem_of_filter. specialize (Hfn f Hf). by rewrite Hd in Hfn. }
  destruct (total_run gn _ (Function_from_llvm_ref false gn) defd ModuleContext_new
    (fun f Hf => total_function gn Hst f (proj1 Hf) (proj2 Hf)) Hdef (good_new gn)) as (fl & ctx1 & E1 & Hg1 & L1).
  destruct (total_run gn _ FunctionDeclaration_from_llvm_ref decd ctx1
    (fun f Hf => total_declared gn f (proj1 Hf) (proj2 Hf)) Hdec Hg1) as (dcl & ctx2 & E2 & Hg2 & L2).
  destruct (ftotal_run gn _ _ gs (mk_FState ctx2 0) (ftotal_variable gn Hst) Hg Hg2) as (gvs & st3 & E3 & Hg3 & L3).
  destruct (ftotal_run gn _ _ als st3 (ftotal_alias gn Hst) Ha Hg3) as (gas & st4 & E4 & Hg4 & L4).
  destruct (ftotal_run gn _ _ ifs st4 (ftotal_ifunc gn Hst) Hi Hg4) as (gis & st5 & E5 & Hg5 & L5).
  exists (mk_Module (LLVMGetModuleIdentifier m) (LLVMGetSourceFileName m) dl (LLVMGetTarget m) fl dcl gvs gas gis
    (LLVMGetModuleInlineAsm m) (build (ctx_types (fs_ctx st5)))).
  split; [|exists fns, gs, als, ifs; by split_and!].
  intros dbg. assert (r_map (Function_from_llvm_ref dbg gn) defd ModuleContext_new = Done (fl, ctx1)) as E1'.
  { destruct dbg; [|done]. rewrite <- E1. apply r_map_ext. eapply Forall_impl; [exact Hdef|].
    intros f [Hf Hd] ctx. apply function_assert. by eapply defined_function_ok. }
  unfold Module_from_llvm_ref, get_defined_functions, get_declared_functions. rewrite Egn. cbn [mbind exec_bind].
  rewrite !wrap_done by done. cbn [mbind exec_bind]. rewrite Edl. cbn [mbind exec_bind].
  rewrite wrap_maybe_done by done. cbn [mbind exec_bind]. rewrite Efn. cbn [mbind exec_bind]. fold defd decd.
  rewrite E1'. cbn [mbind exec_bind]. rewrite E2. cbn [mbind exec_bind]. rewrite Eg. cbn [mbind exec_bind].
  rewrite E3. cbn [mbind exec_bind]. rewrite Ea. cbn [mbind exec_bind]. rewrite E4. cbn [mbind exec_bind].
  rewrite Ei. cbn [mbind exec_bind]. rewrite E5. reflexivity.
Qed.

End modules.

(** ** A module that is well formed: the driver of [ReadSamples] *)

Section sample.
#[local] Instance driver : LLVM := sample_llvm k_sample.
Definition driver_names : GlobalNames :=
  {[ 10%N := NameStr "f"; 12%N := NameStr "kmalloc"; 13%N := NameStr "kfree" ]}.

Lemma driver_int v : (v = 60 \/ v = 61)%N -> constant_ok driver_names v.
Proof.
  intros Hv. exists 1, (CInt 64 (LLVMConstIntGetZExtValue v)). split; [vm_compute; lia|].
  assert (type_is 100%N (IntegerType 64)) as Ht.
  { exists 1. split; [vm_compute; lia|]. by apply den_leaf. }
  destruct Hv as [-> | ->]; (split; [done|]).
  - by apply (sh_int driver_names _ 60%N 64).
  - by apply (sh_int driver_names _ 61%N 64).
Qed.
Lemma driver_void : type_is 104%N VoidType.
Proof. exists 1. split; [vm_compute; lia|]. by apply den_leaf. Qed.
Lemma driver_pointer : type_is 101%N (PointerType 0).
Proof. exists 1. split; [vm_compute; lia|]. by apply den_leaf. Qed.
Lemma driver_alloc : type_is 102%N (FuncType (PointerType 0) [] false).
Proof.
  exists 2. split; [vm_compute; lia|]. refine (den_func 1 102%N (PointerType 0) [] eq_refl _ _); [|constructor].
  by apply den_leaf.
Qed.
Lemma driver_free : type_is 103%N (FuncType VoidType [] false).
Proof.
  exists 2. split; [vm_compute; lia|]. refine (den_func 1 103%N VoidType [] eq_refl _ _); [|constructor].
  by apply den_leaf.
Qed.
Lemma driver_function v : (v = 12 \/ v = 13)%N -> constant_ok driver_names v.
Proof.
  intros [-> | ->].
  - exists 1, (CGlobalReference (NameStr "kmalloc") (FuncType (PointerType 0) [] false)).
    split; [vm_compute; lia|]. split; [done|]. by eapply sh_global; [..|exact driver_alloc].
  - exists 1, (CGlobalReference (NameStr "kfree") (FuncType VoidType [] false)).
    split; [vm_compute; lia|]. split; [done|]. by eapply sh_global; [..|exact driver_free].
Qed.

#[local] Hint Resolve driver_int driver_function : core.
#[local] Notation value_ok := (value_ok driver_names (locals 10%N)).

Lemma driver_values :
  Forall value_ok [60%N; 61%N; 12%N; 13%N] /\ value_ok 31%N.
Proof.
  split; [repeat constructor; unfold ReadTotal.value_ok; simpl; auto|].
  right. split; [apply (bool_decide_unpack _); by vm_compute|]. exists (PointerType 0). exact driver_pointer.
Qed.
Lemma driver_arg inst n :
  (forall i, (0 <= i < n)%Z -> value_ok (LLVMGetOperand inst i)) ->
  forall i, (0 <= i < n)%Z ->
    value_ok (LLVMGetOperand inst i) /\ Forall param_attr_ok (LLVMGetCallSiteAttributes inst (i + 1)).
Proof. intros Hv i Hi. split; [by apply Hv|constructor]. Qed.

Lemma driver_named v : is_null v = false -> (v =? 10)%N || (v =? 12)%N || (v =? 13)%N || (v =? 21)%N = false -> named_ok v.
Proof.
  intros Hn Hv. split; [done|]. simpl. repeat (apply orb_false_iff in Hv as [Hv ->]). by rewrite Hv.
Qed.
Lemma driver_call inst called t :
  LLVMGetNumArgOperands inst = 1%Z -> LLVMGetCalledValue inst = called -> value_ok called ->
  value_ok (LLVMGetOperand inst 0) -> type_is (LLVMGetCalledFunctionType inst) t ->
  call_ok driver_names (locals 10%N) inst.
Proof.
  intros Hn Hc Hv Ha Ht. split.
  - unfold callee_ok. rewrite Hc. exact Hv.
  - by exists t.
  - rewrite Hn. apply driver_arg. intros i Hi. by assert (i = 0)%Z as -> by lia.
  - constructor.
  - constructor.
Qed.

Lemma driver_instruction inst :
  named_ok inst -> typed (LLVMTypeOf inst) -> parts_ok driver_names (locals 10%N) [21%N] inst ->
  instruction_ok driver_names (locals 10%N) [21%N] inst.
Proof. intros Hn Ht Hp. by split; [|split| |]. Qed.

Lemma driver_block : basic_block_ok driver_names (locals 10%N) [21%N] 21%N.
Proof.
  destruct driver_values as [Hv H31]. rewrite !Forall_cons in Hv. destruct Hv as (H60 & H61 & H12 & H13 & _).
  assert (typed 101%N) as Hptr by (exists (PointerType 0); exact driver_pointer). split.
  - done.
  - exists [31%N; 32%N; 33%N; 34%N]. split; [by vm_compute|]. repeat apply Forall_cons_2; [..|constructor].
    + apply driver_instruction; [by apply driver_named|done|].
      exact (driver_call 31%N 12%N _ eq_refl eq_refl H12 H60 driver_alloc).
    + apply driver_instruction; [by apply driver_named|done|]. split; [done|]. intros i Hi.
      assert (i = 0 \/ i = 1)%Z as [-> | ->] by lia; [exact H61|exact H31].
    + apply driver_instruction; [by apply driver_named|done|].
      exact (driver_call 33%N 13%N _ eq_refl eq_refl H13 H31 driver_free).
  - split; [by apply driver_named|done|]. left. split; [done|lia].
  - split; [|done]. repeat constructor; vm_compute; done.
Qed.

Lemma driver_declared f t :
  f ∈ [10%N; 12%N; 13%N] -> type_is (LLVMGetReturnType (LLVMGlobalGetValueType f)) t -> declaration_ok f.
Proof.
  intros Hf Ht. split; try done.
  - repeat (apply elem_of_cons in Hf as [->|Hf]; [done|]). by apply elem_of_nil in Hf.
  - exists []. split; [|constructor].
    repeat (apply elem_of_cons in Hf as [->|Hf]; [by vm_compute|]). by apply elem_of_nil in Hf.
  - by exists t.
Qed.

Lemma driver_ok : module_ok 1%N.
Proof.
  split.
  - done.
  - eexists. by vm_compute.
  - intros ty ty' s Hk. simpl in Hk. repeat case_match; done.
  - exists [12%N; 13%N; 10%N], [], [], [], driver_names.
    do 5 (split; [by vm_compute|]). split; [|by repeat constructor].
    repeat apply Forall_cons_2; [..|constructor]; (split; [done|]).
    + apply (driver_declared _ (PointerType 0)); [set_solver|exact driver_pointer].
    + apply (driver_declared _ VoidType); [set_solver|exact driver_void].
    + split; try done.
      * apply (driver_declared _ VoidType); [set_solver|exact driver_void].
      * exists [21%N]. split; [by vm_compute|]. split; [apply (bool_decide_unpack _); by vm_compute|].
        constructor; [exact driver_block|constructor].
Qed.

End sample.
