(* ===== verification/Smt.v ===== *)
(** * Smt: the part of the Z3 interface the analyzer uses

    Z3 is outside the repository.  Its terms are syntax with their standard
    denotation over the integers; the solver is a parameter, the class
    [SmtSolver], that answers a query from the assertions in scope and from the
    number of queries already made (a timeout may strike at any of them).  What
    Z3 documents about its answers is the class [SoundSolver]. *)

From S2P Require Import Prelude.
From stdpp Require Import base list.
From Stdlib Require Import ZArith Lia.

(** [z3::ast::Int]: numerals and the two operators the analyzer applies *)
Inductive Int :=
  | Int_from_u64 (n : Z)
  | Int_add (a b : Int)
  | Int_sub (a b : Int).

Fixpoint Int_eval (e : Int) : Z :=
  match e with
  | Int_from_u64 n => n
  | Int_add a b => Int_eval a + Int_eval b
  | Int_sub a b => Int_eval a - Int_eval b
  end.

(** [z3::ast::Bool] *)
Inductive BoolAst :=
  | Int_gt (a b : Int)
  | Int_lt (a b : Int)
  | Bool_or (l : list BoolAst).

Fixpoint Bool_eval (b : BoolAst) : bool :=
  match b with
  | Int_gt x y => Int_eval y <? Int_eval x
  | Int_lt x y => Int_eval x <? Int_eval y
  | Bool_or l => existsb Bool_eval l
  end%Z.

Inductive SatResult := Sat | Unsat | SatUnknown.

Class SmtSolver := smt_check : nat -> list BoolAst -> SatResult.

(** [Sat] and [Unsat] are right about ground assertions; [Unknown] says nothing. *)
Class SoundSolver `{SmtSolver} : Prop := {
  smt_sat_sound n l : smt_check n l = Sat -> forallb Bool_eval l = true;
  smt_unsat_sound n l : smt_check n l = Unsat -> forallb Bool_eval l = false
}.

(** A solver that moreover never gives up. *)
Class CompleteSolver `{SmtSolver} : Prop :=
  smt_decides n l : smt_check n l <> SatUnknown.

(** [z3::Solver]: the assertions of each open scope, innermost first, and how
    many checks have been made. *)
Record Solver := mk_Solver {
  solver_scopes : list (list BoolAst);
  solver_queries : nat
}.

Definition Solver_new : Solver := {| solver_scopes := [[]]; solver_queries := 0 |}.
Definition solver_push (s : Solver) : Solver :=
  {| solver_scopes := [] :: solver_scopes s; solver_queries := solver_queries s |}.
Definition solver_assert (b : BoolAst) (s : Solver) : Solver :=
  match solver_scopes s with
  | top :: rest => {| solver_scopes := (top ++ [b]) :: rest; solver_queries := solver_queries s |}
  | [] => {| solver_scopes := [[b]]; solver_queries := solver_queries s |}
  end.
Definition solver_pop (n : nat) (s : Solver) : Solver :=
  {| solver_scopes := drop n (solver_scopes s); solver_queries := solver_queries s |}.
Definition solver_check `{SmtSolver} (s : Solver) : SatResult * Solver :=
  (smt_check (solver_queries s) (concat (reverse (solver_scopes s))),
   {| solver_scopes := solver_scopes s; solver_queries := S (solver_queries s) |}).

(** The reference solver evaluates the assertions. *)
Definition eval_solver : SmtSolver :=
  fun _ l => if forallb Bool_eval l then Sat else Unsat.
#[export] Instance eval_solver_sound : @SoundSolver eval_solver.
Proof. split; intros n l; unfold smt_check, eval_solver; by destruct (forallb _ _). Qed.
#[export] Instance eval_solver_complete : @CompleteSolver eval_solver.
Proof. intros n l. unfold smt_check, eval_solver. by destruct (forallb _ _). Qed.
