(* ===== verification/Gate.v ===== *)
(** * Gate: analysis results and the human-in-the-loop gate of [main.rs]

    [AnalysisResult] with [mark_unknown]; [HitlGate] with
    [should_run_solver]; the identifiers of verification conditions and of
    their classes; [check_access], the one place the solver is asked; the
    approval-file parser, the VC emission and [enforce_hitl_policy]. *)

From S2P Require Import Prelude Text Smt.
From stdpp Require Import base gmap list strings pretty sorting.
From Stdlib Require Import Ascii ZArith Lia.
#[local] Open Scope string_scope.

(** ** Results, ordered by severity *)

Inductive AnalysisResult :=
  | APass
  | AFail (msg : string)
  | AUnknown (reason : string).

#[export] Instance AnalysisResult_eq_dec : EqDecision AnalysisResult.
Proof. solve_decision. Defined.

Definition mark_unknown (r : AnalysisResult) (reason : string) : AnalysisResult :=
  if decide (r = APass) then AUnknown reason else r.

Definition is_fail (r : AnalysisResult) : bool :=
  match r with AFail _ => true | _ => false end.

(** Pass below Unknown below Fail *)
Definition severity (r : AnalysisResult) : nat :=
  match r with APass => 0 | AUnknown _ => 1 | AFail _ => 2 end.

Lemma mark_unknown_severity r s : severity r <= severity (mark_unknown r s).
Proof. unfold mark_unknown. case_decide; [subst|]; simpl; lia. Qed.
Lemma mark_unknown_not_pass r s : mark_unknown r s ≠ APass.
Proof. unfold mark_unknown. by case_decide. Qed.
Lemma mark_unknown_fail r s : is_fail (mark_unknown r s) = is_fail r.
Proof. unfold mark_unknown. case_decide; by subst. Qed.
#[export] Hint Resolve mark_unknown_severity mark_unknown_not_pass : skv.

(** ** The gate *)

Inductive HitlMode := HitlOff | HitlRequire.
#[export] Instance HitlMode_eq_dec : EqDecision HitlMode.
Proof. solve_decision. Defined.
Definition HitlMode_label (m : HitlMode) : string :=
  match m with HitlOff => "off" | HitlRequire => "require" end.

Record HitlGate := mk_HitlGate {
  gate_mode : HitlMode;
  gate_approved : gset string;
  gate_approved_classes : gset string;
  gate_seen : list string;
  gate_blocked : list string;
  gate_seen_classes : list string;
  gate_blocked_classes : list string
}.

(** What a reviewer has approved. *)
Definition vc_approved (g : HitlGate) (vc cls : string) : bool :=
  bool_decide (vc ∈ gate_approved g) || bool_decide (cls ∈ gate_approved_classes g).

Definition should_run_solver (g : HitlGate) (vc_id vc_class : string) : bool * HitlGate :=
  let g1 := mk_HitlGate (gate_mode g) (gate_approved g) (gate_approved_classes g)
              (gate_seen g ++ [vc_id]) (gate_blocked g)
              (gate_seen_classes g ++ [vc_class]) (gate_blocked_classes g) in
  match gate_mode g with
  | HitlOff => (true, g1)
  | HitlRequire =>
      if vc_approved g vc_id vc_class then (true, g1)
      else (false,
            mk_HitlGate (gate_mode g1) (gate_approved g1) (gate_approved_classes g1)
              (gate_seen g1) (gate_blocked g1 ++ [vc_id])
              (gate_seen_classes g1) (gate_blocked_classes g1 ++ [vc_class]))
  end.

Definition vc_id (function_name : string) (bb_idx instr_idx : nat) (kind : string) : string :=
  function_name +:+ "::bb" +:+ pretty bb_idx +:+ "::i" +:+ pretty instr_idx +:+ "::" +:+ kind.

Definition vc_class_id (kind : string) (access_size : Z) : string :=
  "class::" +:+ kind +:+ "::size" +:+ pretty access_size.

(** ** Asking the solver *)

Inductive AccessCheckResult := Oob | Safe | SolverUnknown | HitlBlocked.
#[export] Instance AccessCheckResult_eq_dec : EqDecision AccessCheckResult.
Proof. solve_decision. Defined.

Section check_access.
Context `{SmtSolver}.

Definition check_access (solver : Solver) (alloc_size offset : Int) (access_size : Z)
    (vc cls : string) (g : HitlGate) : AccessCheckResult * Solver * HitlGate :=
  let '(run, g') := should_run_solver g vc cls in
  if run then
    let end_ := Int_add offset (Int_from_u64 access_size) in
    let oob_cond := Bool_or [Int_gt end_ alloc_size; Int_lt offset (Int_from_u64 0)] in
    let solver := solver_assert oob_cond (solver_push solver) in
    let '(sat, solver) := solver_check solver in
    let solver := solver_pop 1 solver in
    (match sat with Sat => Oob | Unsat => Safe | SatUnknown => SolverUnknown end, solver, g')
  else (HitlBlocked, solver, g').
End check_access.

(** ** Approvals, emission, policy *)

(** The loop of [load_hitl_approvals] over the text of the file *)
Definition approval_of_line (line : string) : option string :=
  let t := str_trim line in
  if bool_decide (t = "") || starts_with "#" t then None else Some t.
Definition parse_approvals (raw : string) : gset string :=
  list_to_set (omap approval_of_line (str_lines raw)).

(** [Vec::dedup] *)
Fixpoint dedup (l : list string) : list string :=
  match l with
  | [] => []
  | x :: l' => match l' with
               | y :: _ => if decide (x = y) then dedup l' else x :: dedup l'
               | [] => [x]
               end
  end.

Definition sort_dedup (l : list string) : list string := dedup (merge_sort String.le l).

Definition json_escape (s : string) : string :=
  str_replace dquote (chr backslash +:+ chr dquote)
    (str_replace backslash (chr backslash +:+ chr backslash) s).

Definition json_string (s : string) : string := chr dquote +:+ s +:+ chr dquote.

Definition json_array (items : list string) : string :=
  "[" +:+ comma_join (map (fun i => json_string (json_escape i)) items) +:+ "]".

Definition json_field (name value : string) : string := json_string name +:+ ":" +:+ value.

Definition hitl_vcs_json (g : HitlGate) : string :=
  let seen := sort_dedup (gate_seen g) in
  let blocked := sort_dedup (gate_blocked g) in
  let seen_classes := sort_dedup (gate_seen_classes g) in
  let blocked_classes := sort_dedup (gate_blocked_classes g) in
  "{" +:+ comma_join
    [json_field "hitl_mode" (json_string (HitlMode_label (gate_mode g)));
     json_field "seen_count" (pretty (length seen));
     json_field "blocked_count" (pretty (length blocked));
     json_field "seen_class_count" (pretty (length seen_classes));
     json_field "blocked_class_count" (pretty (length blocked_classes));
     json_field "seen_vcs" (json_array seen);
     json_field "blocked_vcs" (json_array blocked);
     json_field "seen_classes" (json_array seen_classes);
     json_field "blocked_classes" (json_array blocked_classes)]
  +:+ "}" +:+ chr nl.

Definition enforce_hitl_policy (r : AnalysisResult) (mode : HitlMode) (blocked_vcs : nat)
    : AnalysisResult :=
  match mode with
  | HitlRequire =>
      if decide (0 < blocked_vcs) then
        AFail ("HITL require mode rejected " +:+ pretty blocked_vcs
               +:+ " unapproved verification condition(s)")
      else r
  | HitlOff => r
  end.

(** [iter().cloned().collect::<HashSet<_>>().len()] *)
Definition distinct (l : list string) : nat := size (list_to_set l : gset string).

(** ** The gate records exactly what it refuses *)

Definition vc_unapproved (g : HitlGate) (p : string * string) : Prop :=
  vc_approved g p.1 p.2 = false.
#[export] Instance vc_unapproved_dec g p : Decision (vc_unapproved g p).
Proof. unfold vc_unapproved. apply _. Defined.

(** Every identifier is logged with its class; in require mode the blocked
    lists are the logged pairs nobody approved, in order; otherwise empty. *)
Record gate_inv (g : HitlGate) : Prop := {
  gi_len : length (gate_seen g) = length (gate_seen_classes g);
  gi_blocked :
    zip (gate_blocked g) (gate_blocked_classes g)
    = match gate_mode g with
      | HitlOff => []
      | HitlRequire => filter (vc_unapproved g) (zip (gate_seen g) (gate_seen_classes g))
      end;
  gi_blocked_len : length (gate_blocked g) = length (gate_blocked_classes g)
}.

(** A gate before the analysis, as [run] builds it *)
Definition gate_fresh (g : HitlGate) : Prop :=
  gate_seen g = [] /\ gate_blocked g = [] /\
  gate_seen_classes g = [] /\ gate_blocked_classes g = [].

Lemma gate_fresh_inv g : gate_fresh g -> gate_inv g.
Proof. destruct g; unfold gate_fresh; simpl. intros (-> & -> & -> & ->). split; by destruct gate_mode0. Qed.

(** [g'] is [g] after some more calls: same reviewer decisions, longer logs. *)
Record gate_extends (g g' : HitlGate) : Prop := {
  ge_mode : gate_mode g' = gate_mode g;
  ge_approved : gate_approved g' = gate_approved g;
  ge_classes : gate_approved_classes g' = gate_approved_classes g;
  ge_seen : gate_seen g `prefix_of` gate_seen g';
  ge_seen_classes : gate_seen_classes g `prefix_of` gate_seen_classes g';
  ge_blocked : gate_blocked g `prefix_of` gate_blocked g'
}.
#[export] Instance gate_extends_preorder : PreOrder gate_extends.
Proof. split; [by split|]. intros ??? [] []; split; by etrans. Qed.

Lemma should_run_solver_extends g vc cls :
  gate_extends g (should_run_solver g vc cls).2.
Proof.
  unfold should_run_solver. destruct (gate_mode g) eqn:?; [|case_match];
    split; simpl; try done; eexists; done.
Qed.

Lemma should_run_solver_inv g vc cls :
  gate_inv g -> gate_inv (should_run_solver g vc cls).2.
Proof.
  intros [Hlen Hb Hbl]. unfold should_run_solver.
  assert (forall (l1 l1' : list string) x y, length l1 = length l1' ->
    zip (l1 ++ [x])%list (l1' ++ [y])%list = (zip l1 l1' ++ [(x, y)])%list) as Hzip.
  { intros. by rewrite zip_with_app. }
  destruct (gate_mode g) eqn:Hm.
  - split; simpl; rewrite ?length_app, ?Hm; auto with lia.
  - destruct (vc_approved g vc cls) eqn:Ha.
    + split; simpl; rewrite ?length_app, ?Hm; auto with lia.
      rewrite Hzip, list.filter_app by done. rewrite filter_cons_False, filter_nil, app_nil_r.
      * rewrite Hb. by apply list_filter_iff.
      * unfold vc_unapproved, vc_approved in *. simpl. by rewrite Ha.
    + split; simpl; rewrite ?length_app, ?Hm; auto with lia.
      rewrite !Hzip, list.filter_app by done. rewrite filter_cons_True, filter_nil.
      * f_equal. rewrite Hb. by apply list_filter_iff.
      * done.
Qed.

(** What the answer means. *)
Lemma should_run_solver_spec g vc cls :
  (should_run_solver g vc cls).1
  = match gate_mode g with HitlOff => true | HitlRequire => vc_approved g vc cls end.
Proof. unfold should_run_solver. destruct (gate_mode g); [done|]. by destruct (vc_approved _ _ _). Qed.

Lemma should_run_solver_blocked g vc cls :
  (should_run_solver g vc cls).1 = false ->
  gate_mode g = HitlRequire /\ vc_approved g vc cls = false /\
  gate_blocked (should_run_solver g vc cls).2 = (gate_blocked g ++ [vc])%list.
Proof.
  unfold should_run_solver. destruct (gate_mode g); [done|].
  by destruct (vc_approved _ _ _).
Qed.

Lemma should_run_solver_allowed g vc cls :
  (should_run_solver g vc cls).1 = true ->
  gate_blocked (should_run_solver g vc cls).2 = gate_blocked g.
Proof.
  unfold should_run_solver. destruct (gate_mode g); [done|]. by destruct (vc_approved _ _ _).
Qed.

(** ** [check_access] decides the bounds *)

(** The access [off, off+len) lies inside an allocation of [size] bytes. *)
Definition in_bounds (size off len : Z) : Prop := (0 <= off /\ off + len <= size)%Z.
#[export] Instance in_bounds_dec s o l : Decision (in_bounds s o l).
Proof. unfold in_bounds. apply _. Defined.

(** No assertion is in scope between queries. *)
Definition solver_idle (s : Solver) : Prop := solver_scopes s = [[]].

Section check_access_spec.
Context `{SmtSolver}.

Lemma check_access_idle sv sz off len vc cls g r sv' g' :
  check_access sv sz off len vc cls g = (r, sv', g') ->
  solver_idle sv -> solver_idle sv'.
Proof.
  unfold check_access, solver_idle. destruct (should_run_solver g vc cls) as [[] ?].
  - intros [= <- <- <-]. simpl. by intros ->.
  - by intros [= <- <- <-].
Qed.

Lemma check_access_gate sv sz off len vc cls g r sv' g' :
  check_access sv sz off len vc cls g = (r, sv', g') ->
  g' = (should_run_solver g vc cls).2.
Proof. unfold check_access. by destruct (should_run_solver g vc cls) as [[] ?]; intros [=]. Qed.

(** The solver runs once for an approved condition and not at all otherwise. *)
Lemma check_access_queries sv sz off len vc cls g r sv' g' :
  check_access sv sz off len vc cls g = (r, sv', g') ->
  if (should_run_solver g vc cls).1
  then r ≠ HitlBlocked /\ solver_queries sv' = S (solver_queries sv)
  else r = HitlBlocked /\ sv' = sv.
Proof.
  unfold check_access. destruct (should_run_solver g vc cls) as [[] ?]; simpl; intros [= <- <- <-].
  - split; [by destruct smt_check|done].
  - done.
Qed.

Lemma check_access_safe `{!SoundSolver} sv sz off len vc cls g sv' g' :
  check_access sv sz off len vc cls g = (Safe, sv', g') ->
  solver_idle sv -> in_bounds (Int_eval sz) (Int_eval off) len.
Proof.
  unfold check_access, solver_idle, in_bounds.
  destruct (should_run_solver g vc cls) as [[] ?]; [|done].
  simpl. intros [= Hsat _ _] Hidle. rewrite Hidle in Hsat. simpl in Hsat.
  destruct (smt_check _ _) eqn:E; try done. apply smt_unsat_sound in E. simpl in E. lia.
Qed.

Lemma check_access_oob `{!SoundSolver} sv sz off len vc cls g sv' g' :
  check_access sv sz off len vc cls g = (Oob, sv', g') ->
  solver_idle sv -> ~ in_bounds (Int_eval sz) (Int_eval off) len.
Proof.
  unfold check_access, solver_idle, in_bounds.
  destruct (should_run_solver g vc cls) as [[] ?]; [|done].
  simpl. intros [= Hsat _ _] Hidle. rewrite Hidle in Hsat. simpl in Hsat.
  destruct (smt_check _ _) eqn:E; try done. apply smt_sat_sound in E. simpl in E. lia.
Qed.
End check_access_spec.

(** C10. The bounds check is exact: on an idle solver that answers soundly,
    [check_access] says Safe only for an access inside the allocation and Oob
    only for one outside it; it leaves the solver idle; and in require mode the
    solver is queried if and only if a reviewer approved the condition or its
    class, an unapproved one being answered HitlBlocked with the solver
    untouched. *)
Theorem check_access_correct `{SoundSolver} sv sz off len vc cls g r sv' g' :
  solver_idle sv ->
  check_access sv sz off len vc cls g = (r, sv', g') ->
  (r = Safe -> in_bounds (Int_eval sz) (Int_eval off) len) /\
  (r = Oob -> ~ in_bounds (Int_eval sz) (Int_eval off) len) /\
  solver_idle sv' /\
  (r = HitlBlocked <-> gate_mode g = HitlRequire /\ vc_approved g vc cls = false) /\
  solver_queries sv' = (if decide (r = HitlBlocked) then 0 else 1) + solver_queries sv.
Proof.
  intros Hidle Hc. pose proof (check_access_queries _ _ _ _ _ _ _ _ _ _ Hc) as Hq.
  rewrite should_run_solver_spec in Hq.
  split_and!.
  - intros ->. by eapply check_access_safe.
  - intros ->. by eapply check_access_oob.
  - by eapply check_access_idle.
  - destruct (gate_mode g), (vc_approved g vc cls); naive_solver.
  - destruct (gate_mode g); [|destruct (vc_approved g vc cls)]; destruct Hq as [Hr Hs];
      case_decide; simplify_eq; simpl; congruence.
Qed.

Lemma check_access_correct_witness :
  let g := mk_HitlGate HitlOff ∅ ∅ [] [] [] [] in
  let out := @check_access eval_solver Solver_new (Int_from_u64 8)
               (Int_add (Int_from_u64 0) (Int_from_u64 4)) 4 "f::bb0::i1::store" "c" g in
  out.1.1 = Safe /\ in_bounds 8 4 4.
Proof.
  split; [vm_compute; reflexivity|].
  exact (proj1 (@check_access_correct eval_solver eval_solver_sound Solver_new
    (Int_from_u64 8) (Int_add (Int_from_u64 0) (Int_from_u64 4)) 4 "f::bb0::i1::store" "c"
    (mk_HitlGate HitlOff ∅ ∅ [] [] [] []) Safe _ _ eq_refl eq_refl) eq_refl).
Defined.

(** ** Identifiers *)

Lemma vc_id_inj f bb bb' i i' k k' :
  vc_id f bb i k = vc_id f bb' i' k' -> bb = bb' /\ i = i' /\ k = k'.
Proof.
  unfold vc_id. intros Heq%str_app_inj_l%(str_app_inj_l "::bb").
  apply (str_split_unique is_digit ":" (pretty bb) (pretty bb')) in Heq as [Hb Heq];
    [|done|apply pretty_nat_digits..].
  apply (str_app_inj_l ":i") in Heq.
  apply (str_split_unique is_digit ":" (pretty i) (pretty i')) in Heq as [Hi Heq];
    [|done|apply pretty_nat_digits..].
  apply (str_app_inj_l ":") in Heq. by apply (inj pretty) in Hb, Hi.
Qed.

(** Inside one function a verification condition is named by its block, its
    instruction and its kind: two conditions with the same identifier are the
    same condition, so approving one identifier never approves another access
    of that function. *)
Theorem vc_id_unique f p p' k k' :
  vc_id f p.1 p.2 k = vc_id f p'.1 p'.2 k' <-> p = p' /\ k = k'.
Proof.
  split; [|by intros [-> ->]].
  intros (? & ? & ->)%vc_id_inj. destruct p, p'. by simplify_eq/=.
Qed.

(** ** Emission *)

Lemma dedup_elem x l : x ∈ dedup l <-> x ∈ l.
Proof.
  induction l as [|y l IH]; [done|]. simpl. destruct l as [|z l]; [done|].
  case_decide; subst; rewrite ?elem_of_cons, IH, ?elem_of_cons; naive_solver.
Qed.

Definition str_lt (s1 s2 : string) : Prop := String.le s1 s2 /\ s1 ≠ s2.

Lemma dedup_sorted l : StronglySorted String.le l -> StronglySorted str_lt (dedup l).
Proof.
  induction 1 as [|x l Hl IH Hx]; [constructor|]. simpl.
  destruct l as [|y l]; [by repeat constructor|].
  case_decide as Hxy; [done|]. constructor; [done|].
  apply Forall_forall. intros z Hz. apply (proj1 (dedup_elem _ _)) in Hz.
  rewrite Forall_forall in Hx.
  split; [by apply Hx|]. intros <-.
  apply Hxy. apply (anti_symm String.le); [apply Hx; left|].
  apply elem_of_cons in Hz as [->|Hz]; [done|].
  inversion Hl as [|?? _ Hy]; subst. rewrite Forall_forall in Hy. by apply Hy.
Qed.

Lemma str_lt_sorted_NoDup l : StronglySorted str_lt l -> NoDup l.
Proof.
  induction 1 as [|x l Hl IH Hx]; [constructor|]. constructor; [|done].
  intros Hin. rewrite Forall_forall in Hx. by destruct (Hx x Hin).
Qed.

Lemma sort_dedup_elem x l : x ∈ sort_dedup l <-> x ∈ l.
Proof. unfold sort_dedup. by rewrite dedup_elem, (merge_sort_Permutation _ l). Qed.

Lemma sort_dedup_sorted l : StronglySorted str_lt (sort_dedup l).
Proof. apply dedup_sorted, (StronglySorted_merge_sort _ _). Qed.

Lemma sort_dedup_length l : length (sort_dedup l) = distinct l.
Proof.
  unfold distinct. rewrite <- (size_list_to_set (C := gset string) (sort_dedup l)).
  - f_equal. apply set_eq. intros x. rewrite !elem_of_list_to_set. apply sort_dedup_elem.
  - apply str_lt_sorted_NoDup, sort_dedup_sorted.
Qed.

(** The VC emission lists each logged identifier once, in strictly
    increasing byte order, loses none and invents none, and its counts are the
    counts the verdict reports. *)
Theorem emission_lists_the_log l :
  StronglySorted str_lt (sort_dedup l) /\
  (forall x, x ∈ sort_dedup l <-> x ∈ l) /\
  length (sort_dedup l) = distinct l.
Proof. eauto using sort_dedup_sorted, sort_dedup_elem, sort_dedup_length. Qed.

(** ** Policy *)

Lemma distinct_zero l : distinct l = 0 <-> l = [].
Proof.
  unfold distinct. rewrite size_empty_iff. split; [|by intros ->].
  destruct l as [|x l]; [done|]. intros H. exfalso. specialize (H x). set_solver.
Qed.

Lemma enforce_severity r m n : severity r <= severity (enforce_hitl_policy r m n).
Proof. unfold enforce_hitl_policy. destruct m; [lia|]. case_decide; destruct r; simpl; lia. Qed.
#[export] Hint Resolve enforce_severity : skv.

(** What a Pass that got through the policy means. *)
Lemma enforce_pass g r :
  gate_inv g -> gate_mode g = HitlRequire ->
  enforce_hitl_policy r (gate_mode g) (distinct (gate_blocked g)) = APass ->
  r = APass /\
  Forall (fun p => vc_approved g p.1 p.2 = true) (zip (gate_seen g) (gate_seen_classes g)).
Proof.
  intros [Hlen Hb Hbl] Hm Hout. rewrite Hm in *. simpl in Hout.
  case_decide as Hd; [done|]. split; [done|].
  assert (gate_blocked g = []) as Hnil by (apply distinct_zero; lia).
  rewrite Hnil in Hb. simpl in Hb. symmetry in Hb.
  apply Forall_forall. intros p Hp.
  destruct (vc_approved g p.1 p.2) eqn:E; [done|].
  assert (p ∈ filter (vc_unapproved g) (zip (gate_seen g) (gate_seen_classes g))) as Hin
    by (apply list_elem_of_filter; auto).
  rewrite Hb in Hin. by apply elem_of_nil in Hin.
Qed.



(** ** The approval file *)

(** An identifier that survives the file format: one trimmed, non-empty line
    that is not a comment. *)
Definition approvable (s : string) : bool :=
  negb (str_mem nl s) && bool_decide (str_trim s = s) && negb (bool_decide (s = ""))
  && negb (starts_with "#" s).

Definition approvals_text (ids : list string) : string :=
  str_concat (map (fun s => s +:+ chr nl) ids).

Lemma approvals_text_cons s ids :
  approvals_text (s :: ids) = s +:+ String nl (approvals_text ids).
Proof. unfold approvals_text, chr. simpl. by rewrite str_app_assoc. Qed.

(** C20. Approvals round-trip: a file with one approvable identifier per line
    loads as exactly that set. *)
Theorem approvals_round_trip ids :
  forallb approvable ids = true ->
  parse_approvals (approvals_text ids) = list_to_set ids.
Proof.
  induction ids as [|s ids IH]; simpl; [done|].
  unfold approvable at 1.
  rewrite !andb_true_iff, !negb_true_iff, bool_decide_eq_true, bool_decide_eq_false.
  intros [[[[Hnl Htrim] Hne] Hc] Hids]. specialize (IH Hids). revert IH.
  unfold parse_approvals. rewrite approvals_text_cons, str_lines_line by done.
  rewrite strip_cr_fixed by done. simpl.
  assert (approval_of_line s = Some s) as ->.
  { unfold approval_of_line. by rewrite Htrim, bool_decide_eq_false_2, Hc. }
  intros IH. rewrite <- IH. reflexivity.
Qed.

Lemma approvals_round_trip_witness :
  forallb approvable ["f::bb0::i1::load"; "f::bb0::i2::store"] = true /\
  parse_approvals (approvals_text ["f::bb0::i1::load"; "f::bb0::i2::store"])
  = {["f::bb0::i1::load"; "f::bb0::i2::store"]}.
Proof.
  split; [vm_compute; reflexivity|].
  rewrite (approvals_round_trip ["f::bb0::i1::load"; "f::bb0::i2::store"]);
    vm_compute; reflexivity.
Defined.
