(* ===== verification/Analyzer.v ===== *)
(** * Analyzer: the memory-safety analysis of [main.rs]

    Helpers on operands and types, the pre-scan for interrupt handlers, and
    [analyze]: one pass over the instructions of all functions that tracks
    pointer provenance, allocation sizes and frees, and asks the gate and the
    solver about every tracked access.  The mutable locals of [analyze] are the
    record [AState]; one definition per arm of its [match].  [Next] is the end
    of an arm or [continue], [Break] is [break] out of the instruction loop.

    [dbg] selects the build profile (debug assertions and overflow checks),
    [fuel] bounds the depth of the recursion through named structs. *)

From S2P Require Import Prelude Text Types Constants Instr Smt Gate.
From stdpp Require Import base gmap list strings pretty.
From Stdlib Require Import ZArith Lia.
#[local] Open Scope string_scope.

(** ** Policies and tracked values *)

Inductive InlineAsmPolicy := Conservative | Trap.
Inductive DmaPolicy := Verify | RequireIommu | Ignore.
#[export] Instance DmaPolicy_eq_dec : EqDecision DmaPolicy.
Proof. solve_decision. Defined.

Definition SAFE_ASM_PATTERNS : list string :=
  ["rdtsc"; "rdtscp"; "cpuid"; "pause"; "mfence"; "sfence"; "lfence"; "cli"; "sti"; "nop";
   "rep nop"; "ud2"; "int3"; "wbinvd"; "invlpg"; "xgetbv"].

Definition is_safe_inline_asm (asm_string : string) : bool :=
  let normalized := to_ascii_lowercase (str_trim asm_string) in
  existsb (fun pattern => bool_decide (normalized = pattern) || starts_with pattern normalized)
    SAFE_ASM_PATTERNS
  || bool_decide (normalized = "").

Inductive PtrVal :=
  | Kmalloc (alloc_id : nat) (offset : Int)
  | DmaAlloc (alloc_id : nat) (offset : Int)
  | PtrUnknown.

Inductive IntVal :=
  | PtrOffset (alloc_id : nat) (offset : Int)
  | IntUnknown.

Definition ptrval_alloc_info (pv : PtrVal) : option (nat * Int) :=
  match pv with
  | Kmalloc id off | DmaAlloc id off => Some (id, off)
  | PtrUnknown => None
  end.

(** ** Operands *)

Definition function_name_of_call (call : Call) : option string :=
  match Call_function call with
  | inr (ConstantOperand (CGlobalReference (NameStr s) _)) => Some s
  | _ => None
  end.

Definition operand_const_u64 (op : Operand) : option Z :=
  match op with ConstantOperand (CInt _ value) => Some value | _ => None end.

Definition operand_local_name (op : Operand) : option Name :=
  match op with LocalOperand name _ => Some name | _ => None end.

Definition int_const_ast (op : Operand) : option Int := Int_from_u64 <$> operand_const_u64 op.

(** ** Sizes *)

Section sizes.
Context (dbg : bool) (T : Types).

Fixpoint resolve_named_type (fuel : nat) (ty : Ty) : exec (option Ty) :=
  match ty with
  | NamedStructType name =>
      match types_named_struct_def T name with
      | Some (Defined_ inner) =>
          match fuel with O => Diverge | S fuel => resolve_named_type fuel inner end
      | _ => Done None
      end
  | _ => Done (Some ty)
  end.

Fixpoint type_size (fuel : nat) (ty : Ty) : exec (option Z) :=
  match fuel with
  | O => Diverge
  | S fuel =>
      let! resolved := resolve_named_type fuel ty in
      match resolved with
      | None => Done None
      | Some (IntegerType bits) => Done (Some (u64_div_ceil bits 8))
      | Some (PointerType _) => Done (Some 8%Z)
      | Some (ArrayType element_type num_elements) =>
          let! s := type_size fuel element_type in
          match s with
          | Some s => Some <$> u64_mul dbg s num_elements
          | None => Done None
          end
      | Some (StructType element_types _) =>
          (fix go (total : Z) (l : list Ty) {struct l} : exec (option Z) :=
            match l with
            | [] => Done (Some total)
            | elem :: l' =>
                let! s := type_size fuel elem in
                match s with
                | Some s => match u64_checked_add total s with
                            | Some total' => go total' l'
                            | None => Done None
                            end
                | None => Done None
                end
            end) 0%Z element_types
      | Some _ => Done None
      end
  end.

(** The offset a [getelementptr] adds: the first index is scaled by the size
    of the base's type (a pointer), every other index by four. *)
Fixpoint gep_offsets (fuel : nat) (first : bool) (base_ty : Ty) (computed : Int)
    (indices : list Operand) : exec (option Int) :=
  match indices with
  | [] => Done (Some computed)
  | idx :: rest =>
      match idx with
      | ConstantOperand (CInt _ idx_val) =>
          if first then
            let! elem_size := match base_ty with
                              | PointerType _ => Done (Some 8%Z)
                              | other => type_size fuel other
                              end in
            match elem_size with
            | None => Done None
            | Some elem_size =>
                gep_offsets fuel false base_ty
                  (Int_add computed (Int_from_u64 (u64_saturating_mul idx_val elem_size))) rest
            end
          else
            gep_offsets fuel false base_ty
              (Int_add computed (Int_from_u64 (u64_saturating_mul idx_val 4))) rest
      | _ => Done None
      end
  end.

(** The type of the base is only asked for at the first index. *)
Definition infer_gep_offset (fuel : nat) (gep : GetElementPtr) (base_offset : Int)
    : exec (option Int) :=
  match GetElementPtr_indices gep with
  | [] => Done (Some base_offset)
  | ConstantOperand (CInt _ _) :: _ =>
      let! base_ty := Operand_type dbg T (GetElementPtr_address gep) in
      gep_offsets fuel true base_ty base_offset (GetElementPtr_indices gep)
  | _ => Done None
  end.
End sizes.

(** ** Interrupt handlers that free *)

Definition instrs_of (f : Function_) : list Instruction :=
  concat (map bb_instrs (func_basic_blocks f)).

Definition irq_handler_of (i : Instruction) : option string :=
  match i with
  | ICall call =>
      if decide (function_name_of_call call = Some "request_irq") then
        match Call_arguments call !! 1%nat with
        | Some (ConstantOperand (CGlobalReference (NameStr s) _), _) => Some s
        | _ => None
        end
      else None
  | _ => None
  end.

Definition calls_kfree (i : Instruction) : bool :=
  match i with
  | ICall call => bool_decide (function_name_of_call call = Some "kfree")
  | _ => false
  end.

Definition scan_irq_handlers (m : Module_) : gset string :=
  let handler_names : gset string :=
    list_to_set (omap irq_handler_of (concat (map instrs_of (mod_functions m)))) in
  list_to_set (map func_name (filter (fun f =>
    func_name f ∈ handler_names /\ existsb calls_kfree (instrs_of f) = true)
    (mod_functions m))).

(** ** The state of [analyze] *)

Record AState := mk_AState {
  solver : Solver;
  gate : HitlGate;
  ptr_env : gmap Name PtrVal;
  int_env : gmap Name IntVal;
  alloc_sizes : gmap nat Int;
  freed_allocs : gset nat;
  alloc_counter : nat;
  final_result : AnalysisResult;
  alloca_store_map : gmap Name PtrVal;
  alloca_names : gset Name;
  inline_asm_vcs : nat;
  dma_vcs : nat;
  dma_allocs : gset nat;
  iommu_mapped : gset nat;
  irq_race_vcs : nat
}.

(** Assignment to one of the locals. *)
Definition set_solver (v : Solver) (s : AState) : AState :=
  mk_AState v (gate s) (ptr_env s) (int_env s) (alloc_sizes s) (freed_allocs s) (alloc_counter s) (final_result s) (alloca_store_map s) (alloca_names s) (inline_asm_vcs s) (dma_vcs s) (dma_allocs s) (iommu_mapped s) (irq_race_vcs s).
Definition set_gate (v : HitlGate) (s : AState) : AState :=
  mk_AState (solver s) v (ptr_env s) (int_env s) (alloc_sizes s) (freed_allocs s) (alloc_counter s) (final_result s) (alloca_store_map s) (alloca_names s) (inline_asm_vcs s) (dma_vcs s) (dma_allocs s) (iommu_mapped s) (irq_race_vcs s).
Definition set_ptr_env (v : gmap Name PtrVal) (s : AState) : AState :=
  mk_AState (solver s) (gate s) v (int_env s) (alloc_sizes s) (freed_allocs s) (alloc_counter s) (final_result s) (alloca_store_map s) (alloca_names s) (inline_asm_vcs s) (dma_vcs s) (dma_allocs s) (iommu_mapped s) (irq_race_vcs s).
Definition set_int_env (v : gmap Name IntVal) (s : AState) : AState :=
  mk_AState (solver s) (gate s) (ptr_env s) v (alloc_sizes s) (freed_allocs s) (alloc_counter s) (final_result s) (alloca_store_map s) (alloca_names s) (inline_asm_vcs s) (dma_vcs s) (dma_allocs s) (iommu_mapped s) (irq_race_vcs s).
Definition set_alloc_sizes (v : gmap nat Int) (s : AState) : AState :=
  mk_AState (solver s) (gate s) (ptr_env s) (int_env s) v (freed_allocs s) (alloc_counter s) (final_result s) (alloca_store_map s) (alloca_names s) (inline_asm_vcs s) (dma_vcs s) (dma_allocs s) (iommu_mapped s) (irq_race_vcs s).
Definition set_freed_allocs (v : gset nat) (s : AState) : AState :=
  mk_AState (solver s) (gate s) (ptr_env s) (int_env s) (alloc_sizes s) v (alloc_counter s) (final_result s) (alloca_store_map s) (alloca_names s) (inline_asm_vcs s) (dma_vcs s) (dma_allocs s) (iommu_mapped s) (irq_race_vcs s).
Definition set_alloc_counter (v : nat) (s : AState) : AState :=
  mk_AState (solver s) (gate s) (ptr_env s) (int_env s) (alloc_sizes s) (freed_allocs s) v (final_result s) (alloca_store_map s) (alloca_names s) (inline_asm_vcs s) (dma_vcs s) (dma_allocs s) (iommu_mapped s) (irq_race_vcs s).
Definition set_final_result (v : AnalysisResult) (s : AState) : AState :=
  mk_AState (solver s) (gate s) (ptr_env s) (int_env s) (alloc_sizes s) (freed_allocs s) (alloc_counter s) v (alloca_store_map s) (alloca_names s) (inline_asm_vcs s) (dma_vcs s) (dma_allocs s) (iommu_mapped s) (irq_race_vcs s).
Definition set_alloca_store_map (v : gmap Name PtrVal) (s : AState) : AState :=
  mk_AState (solver s) (gate s) (ptr_env s) (int_env s) (alloc_sizes s) (freed_allocs s) (alloc_counter s) (final_result s) v (alloca_names s) (inline_asm_vcs s) (dma_vcs s) (dma_allocs s) (iommu_mapped s) (irq_race_vcs s).
Definition set_alloca_names (v : gset Name) (s : AState) : AState :=
  mk_AState (solver s) (gate s) (ptr_env s) (int_env s) (alloc_sizes s) (freed_allocs s) (alloc_counter s) (final_result s) (alloca_store_map s) v (inline_asm_vcs s) (dma_vcs s) (dma_allocs s) (iommu_mapped s) (irq_race_vcs s).
Definition set_inline_asm_vcs (v : nat) (s : AState) : AState :=
  mk_AState (solver s) (gate s) (ptr_env s) (int_env s) (alloc_sizes s) (freed_allocs s) (alloc_counter s) (final_result s) (alloca_store_map s) (alloca_names s) v (dma_vcs s) (dma_allocs s) (iommu_mapped s) (irq_race_vcs s).
Definition set_dma_vcs (v : nat) (s : AState) : AState :=
  mk_AState (solver s) (gate s) (ptr_env s) (int_env s) (alloc_sizes s) (freed_allocs s) (alloc_counter s) (final_result s) (alloca_store_map s) (alloca_names s) (inline_asm_vcs s) v (dma_allocs s) (iommu_mapped s) (irq_race_vcs s).
Definition set_dma_allocs (v : gset nat) (s : AState) : AState :=
  mk_AState (solver s) (gate s) (ptr_env s) (int_env s) (alloc_sizes s) (freed_allocs s) (alloc_counter s) (final_result s) (alloca_store_map s) (alloca_names s) (inline_asm_vcs s) (dma_vcs s) v (iommu_mapped s) (irq_race_vcs s).
Definition set_iommu_mapped (v : gset nat) (s : AState) : AState :=
  mk_AState (solver s) (gate s) (ptr_env s) (int_env s) (alloc_sizes s) (freed_allocs s) (alloc_counter s) (final_result s) (alloca_store_map s) (alloca_names s) (inline_asm_vcs s) (dma_vcs s) (dma_allocs s) v (irq_race_vcs s).
Definition set_irq_race_vcs (v : nat) (s : AState) : AState :=
  mk_AState (solver s) (gate s) (ptr_env s) (int_env s) (alloc_sizes s) (freed_allocs s) (alloc_counter s) (final_result s) (alloca_store_map s) (alloca_names s) (inline_asm_vcs s) (dma_vcs s) (dma_allocs s) (iommu_mapped s) v.

Definition unknown (reason : string) (s : AState) : AState :=
  set_final_result (mark_unknown (final_result s) reason) s.
Definition failed (msg : string) (s : AState) : AState := set_final_result (AFail msg) s.
Definition bind_ptr (n : Name) (v : PtrVal) (s : AState) : AState :=
  set_ptr_env (<[n := v]> (ptr_env s)) s.
Definition bind_int (n : Name) (v : IntVal) (s : AState) : AState :=
  set_int_env (<[n := v]> (int_env s)) s.
Definition bind_ptr_opt (d : option Name) (v : PtrVal) (s : AState) : AState :=
  match d with Some n => bind_ptr n v s | None => s end.

(** A fresh allocation of [size] bytes: its id and the state with it. *)
Definition fresh_alloc (size : Z) (s : AState) : nat * AState :=
  let id := alloc_counter s in
  (id, set_alloc_sizes (<[id := Int_from_u64 size]> (alloc_sizes s))
         (set_alloc_counter (S id) s)).

(** [hitl_gate.should_run_solver] on the state *)
Definition ask_gate (vc cls : string) (s : AState) : bool * AState :=
  let '(b, g) := should_run_solver (gate s) vc cls in (b, set_gate g s).

Inductive flow := Next (s : AState) | Break (s : AState).

Definition flow_state (f : flow) : AState := match f with Next s | Break s => s end.

(** How an access arm goes on after its bounds check. *)
Inductive access := AccOn (s : AState) | AccNext (s : AState) | AccBreak (s : AState).

Section step.
Context `{SmtSolver} (dbg : bool) (fuel : nat) (T : Types).
Context (asm_policy : InlineAsmPolicy) (dma_policy : DmaPolicy) (has_irq_risk : bool).
Context (fname : string) (bb_idx instr_idx : nat).

#[local] Notation vc kind := (vc_id fname bb_idx instr_idx kind).
#[local] Notation in_func := (" in function " +:+ fname).

Definition arg (call : Call) (i : nat) : option Operand := fst <$> Call_arguments call !! i.

Definition ask_solver (alloc_size offset : Int) (size : Z) (v cls : string) (s : AState)
    : AccessCheckResult * AState :=
  let '(r, sv, g) := check_access (solver s) alloc_size offset size v cls (gate s) in
  (r, set_solver sv (set_gate g s)).

(** Look up the size of the allocation and ask about the access. *)
Definition access_vc (id : nat) (offset : Int) (size : Z) (kind cls oob unk : string)
    (s : AState) : access :=
  match alloc_sizes s !! id with
  | None => AccNext (unknown "Missing allocation size metadata" s)
  | Some alloc_size =>
      let '(r, s) := ask_solver alloc_size offset size (vc kind) cls s in
      match r with
      | Oob => AccBreak (failed oob s)
      | Safe => AccOn s
      | SolverUnknown => AccOn (unknown unk s)
      | HitlBlocked => AccOn (unknown ("HITL gate blocked unapproved VC: " +:+ vc kind) s)
      end
  end.

(** *** Calls *)

Definition do_kmalloc (call : Call) (s : AState) : flow :=
  let? size_op := arg call 0
    else Next (unknown "kmalloc/kzalloc missing size argument" s) in
  let? size := operand_const_u64 size_op
    else Next (unknown "kmalloc/kzalloc with non-constant size unsupported" s) in
  let '(id, s) := fresh_alloc size s in
  Next (bind_ptr_opt (Call_dest call) (Kmalloc id (Int_from_u64 0)) s).

Definition do_kcalloc (call : Call) (s : AState) : flow :=
  let? nmemb_op := arg call 0 else Next (unknown "kcalloc missing nmemb argument" s) in
  let? size_op := arg call 1 else Next (unknown "kcalloc missing size argument" s) in
  match operand_const_u64 nmemb_op, operand_const_u64 size_op with
  | Some nmemb, Some elem_size =>
      let? total := u64_checked_mul nmemb elem_size
        else Break (failed "kcalloc size multiplication overflow" s) in
      let '(id, s) := fresh_alloc total s in
      Next (bind_ptr_opt (Call_dest call) (Kmalloc id (Int_from_u64 0)) s)
  | _, _ => Next (unknown "kcalloc with non-constant nmemb/size unsupported" s)
  end.

Definition do_kfree (call : Call) (s : AState) : flow :=
  let? ptr_op := arg call 0 else Next (unknown "kfree missing pointer argument" s) in
  let? name := operand_local_name ptr_op
    else Next (unknown "kfree on non-local operand unsupported" s) in
  match ptr_env s !! name with
  | Some (Kmalloc id _) =>
      if decide (id ∈ freed_allocs s) then
        Break (failed ("Double free detected" +:+ in_func) s)
      else Next (set_freed_allocs ({[id]} ∪ freed_allocs s) s)
  | _ => Next s
  end.

(** The body shared by [memset] and by each side of [memcpy]. *)
Definition mem_access (id : nat) (offset : Int) (len : Z) (what kind : string) (s : AState)
    : access :=
  if decide (id ∈ freed_allocs s) then
    AccBreak (failed ("Use-after-free in " +:+ what +:+ in_func) s)
  else
    access_vc id offset len kind (vc_class_id kind len)
      ("Out-of-bounds " +:+ what +:+ in_func)
      ("Solver returned unknown for "
         +:+ (if decide (kind = "memset") then "memset" else "memcpy") +:+ " bound check") s.

Definition do_memset (call : Call) (s : AState) : flow :=
  let? dest_op := arg call 0 else Next s in
  let? len_op := arg call 2 else Next (unknown "memset missing length argument" s) in
  let? dest_name := operand_local_name dest_op else Next s in
  let? len := operand_const_u64 len_op
    else Next (unknown "memset with non-constant length unsupported" s) in
  match ptr_env s !! dest_name with
  | Some (Kmalloc id offset) =>
      match mem_access id offset len "memset" "memset" s with
      | AccOn s | AccNext s => Next s
      | AccBreak s => Break s
      end
  | _ => Next s
  end.

(** One turn of the loop over destination and source *)
Definition memcpy_side (op : Operand) (kind : string) (len : Z) (s : AState) : flow :=
  let? name := operand_local_name op else Next s in
  match ptr_env s !! name with
  | Some (Kmalloc id offset) =>
      match mem_access id offset len ("memcpy " +:+ kind) ("memcpy_" +:+ kind) s with
      | AccOn s | AccNext s => Next s
      | AccBreak s => Break s
      end
  | _ => Next s
  end.

Definition do_memcpy (call : Call) (s : AState) : flow :=
  let? dest_op := arg call 0 else Next s in
  let? src_op := arg call 1 else Next (unknown "memcpy missing source argument" s) in
  let? len_op := arg call 2 else Next (unknown "memcpy missing length argument" s) in
  let? len := operand_const_u64 len_op
    else Next (unknown "memcpy with non-constant length unsupported" s) in
  let s := match memcpy_side dest_op "destination" len s with
           | Next s => flow_state (memcpy_side src_op "source" len s)
           | Break s => s
           end in
  if is_fail (final_result s) then Break s else Next s.

Definition do_inline_asm (call : Call) (s : AState) : flow :=
  match Call_function call with
  | inl asm =>
      match asm_policy with
      | Trap =>
          Break (failed ("Inline assembly detected in function " +:+ fname +:+ " (trap policy)")
                  (set_inline_asm_vcs (S (inline_asm_vcs s)) s))
      | Conservative =>
          if is_safe_inline_asm (InlineAssembly_assembly asm) then Next s else
          let s := set_inline_asm_vcs (S (inline_asm_vcs s)) s in
          let '(run, s) := ask_gate (vc "inline_asm") "class::inline_asm::opaque" s in
          Next (if run
                then unknown ("Opaque inline assembly in function " +:+ fname +:+ ": '"
                              +:+ InlineAssembly_assembly asm +:+ "'") s
                else unknown ("HITL gate blocked inline asm VC: " +:+ vc "inline_asm") s)
      end
  | inr _ => Next s
  end.

Definition do_dma_alloc (call : Call) (s : AState) : flow :=
  let? size_op := arg call 1
    else Next (unknown "dma_alloc_coherent missing size argument" s) in
  let? size := operand_const_u64 size_op
    else Next (unknown "dma_alloc_coherent with non-constant size" s) in
  let '(id, s) := fresh_alloc size s in
  let s := set_dma_allocs ({[id]} ∪ dma_allocs s) s in
  let s := bind_ptr_opt (Call_dest call) (DmaAlloc id (Int_from_u64 0)) s in
  let s := set_dma_vcs (S (dma_vcs s)) s in
  Next (ask_gate (vc "dma_alloc") (vc_class_id "dma_alloc" size) s).2.

Definition do_dma_map (call : Call) (s : AState) : flow :=
  let? ptr_op := arg call 1 else Next (unknown "dma_map_single missing ptr argument" s) in
  let? size_op := arg call 2 else Next (unknown "dma_map_single missing size argument" s) in
  let? map_size := operand_const_u64 size_op
    else Next (unknown "dma_map_single with non-constant size" s) in
  match operand_local_name ptr_op ≫= fun n => ptr_env s !! n ≫= ptrval_alloc_info with
  | Some (id, offset) =>
      match alloc_sizes s !! id with
      | Some alloc_size =>
          let '(r, s) := ask_solver alloc_size offset map_size (vc "dma_map")
                           (vc_class_id "dma_bounds" map_size) s in
          match r with
          | Oob => Break (failed ("DMA mapping exceeds allocation bounds" +:+ in_func)
                           (set_dma_vcs (S (dma_vcs s)) s))
          | Safe => Next s
          | SolverUnknown => Next (unknown "Solver unknown for DMA mapping bound check"
                                    (set_dma_vcs (S (dma_vcs s)) s))
          | HitlBlocked => Next (unknown ("HITL gate blocked DMA VC: " +:+ vc "dma_map")
                                  (set_dma_vcs (S (dma_vcs s)) s))
          end
      | None => Next s
      end
  | None => Next s
  end.

Definition do_iommu_map (s : AState) : flow :=
  Next (set_iommu_mapped (dma_allocs s ∪ iommu_mapped s) s).

Definition do_call (call : Call) (s : AState) : flow :=
  if is_fail (final_result s) then Break s else
  match function_name_of_call call with
  | None => do_inline_asm call s
  | Some f =>
      if decide (f = "kmalloc" \/ f = "kzalloc") then do_kmalloc call s
      else if decide (f = "kcalloc") then do_kcalloc call s
      else if decide (f = "kfree") then do_kfree call s
      else if decide (f = "memset") then do_memset call s
      else if decide (f = "memcpy" \/ f = "__memcpy") then do_memcpy call s
      else if decide (f = "dma_alloc_coherent" /\ dma_policy <> Ignore) then do_dma_alloc call s
      else if decide (f = "dma_map_single" /\ dma_policy <> Ignore) then do_dma_map call s
      else if decide (f = "iommu_map") then do_iommu_map s
      else Next s
  end.

(** *** Pointer arithmetic and casts *)

Definition do_gep (gep : GetElementPtr) (s : AState) : exec flow :=
  let dest := GetElementPtr_dest gep in
  match operand_local_name (GetElementPtr_address gep) with
  | Some base =>
      let base_ptr := match ptr_env s !! base with
                      | Some v => Some v
                      | None => alloca_store_map s !! base
                      end in
      match base_ptr with
      | Some (Kmalloc id offset) =>
          let! o := infer_gep_offset dbg T fuel gep offset in
          Done (Next (match o with
            | Some new_offset => bind_ptr dest (Kmalloc id new_offset) s
            | None => unknown "GEP with unsupported index/type pattern" (bind_ptr dest PtrUnknown s)
            end))
      | Some (DmaAlloc id offset) =>
          let! o := infer_gep_offset dbg T fuel gep offset in
          Done (Next (match o with
            | Some new_offset => bind_ptr dest (DmaAlloc id new_offset) s
            | None => unknown "GEP with unsupported index/type pattern (DMA)"
                        (bind_ptr dest PtrUnknown s)
            end))
      | _ => Done (Next (bind_ptr dest PtrUnknown s))
      end
  | None => Done (Next (unknown "GEP base is not a local operand" (bind_ptr dest PtrUnknown s)))
  end.

Definition do_ptrtoint (cast : PtrToInt) (s : AState) : flow :=
  let dest := PtrToInt_dest cast in
  match operand_local_name (PtrToInt_operand cast) with
  | Some base =>
      Next (bind_int dest (match ptr_env s !! base with
                           | Some (Kmalloc id offset) => PtrOffset id offset
                           | _ => IntUnknown
                           end) s)
  | None => Next (unknown "PtrToInt from non-local operand unsupported" (bind_int dest IntUnknown s))
  end.

Definition do_inttoptr (cast : IntToPtr) (s : AState) : flow :=
  let dest := IntToPtr_dest cast in
  match operand_local_name (IntToPtr_operand cast) with
  | Some base =>
      Next (bind_ptr dest (match int_env s !! base with
                           | Some (PtrOffset id offset) => Kmalloc id offset
                           | _ => PtrUnknown
                           end) s)
  | None => Next (unknown "IntToPtr from non-local operand unsupported" (bind_ptr dest PtrUnknown s))
  end.

Definition tracked_int (op : Operand) (s : AState) : option IntVal :=
  operand_local_name op ≫= fun n => int_env s !! n.

Definition do_add (add : Instr.Add) (s : AState) : flow :=
  let lhs := tracked_int (Add_operand0 add) s in
  let rhs := tracked_int (Add_operand1 add) s in
  let tracked := bool_decide (is_Some lhs) || bool_decide (is_Some rhs) in
  let out := match lhs, rhs with
             | Some (PtrOffset id offset), _ =>
                 (fun r => PtrOffset id (Int_add offset r)) <$> int_const_ast (Add_operand1 add)
             | _, Some (PtrOffset id offset) =>
                 (fun l => PtrOffset id (Int_add offset l)) <$> int_const_ast (Add_operand0 add)
             | _, _ => None
             end in
  match out with
  | Some v => Next (bind_int (Add_dest add) v s)
  | None =>
      if tracked then
        Next (unknown "Unsupported pointer-derived integer add pattern"
                (bind_int (Add_dest add) IntUnknown s))
      else Next s
  end.

Definition do_sub (sub : Instr.Sub) (s : AState) : flow :=
  let lhs := tracked_int (Sub_operand0 sub) s in
  let rhs := tracked_int (Sub_operand1 sub) s in
  let rhs_was_ptr := bool_decide (is_Some rhs) in
  let tracked := bool_decide (is_Some lhs) || rhs_was_ptr in
  let out := match lhs with
             | Some (PtrOffset id offset) =>
                 (fun r => PtrOffset id (Int_sub offset r)) <$> int_const_ast (Sub_operand1 sub)
             | _ => None
             end in
  let s := match out with
           | Some v => bind_int (Sub_dest sub) v s
           | None =>
               if tracked then
                 unknown "Unsupported pointer-derived integer sub pattern"
                   (bind_int (Sub_dest sub) IntUnknown s)
               else s
           end in
  Next (if rhs_was_ptr
        then unknown "Subtracting pointer-derived integer as RHS is unsupported" s else s).

Definition do_bitcast (cast : BitCast) (s : AState) : flow :=
  let dest := BitCast_dest cast in
  match operand_local_name (BitCast_operand cast) with
  | Some base => Next (bind_ptr dest (default PtrUnknown (ptr_env s !! base)) s)
  | None => Next (unknown "BitCast from non-local operand unsupported" (bind_ptr dest PtrUnknown s))
  end.

(** *** Loads and stores *)

(** "store" or "load" *)
Definition irq_check (id : nat) (what : string) (s : AState) : AState :=
  if has_irq_risk then
    let v := vc ("irq_race_" +:+ what) in
    let s := set_irq_race_vcs (S (irq_race_vcs s)) s in
    let '(run, s) := ask_gate v ("class::irq_race::alloc" +:+ pretty id) s in
    if run
    then unknown ("Potential IRQ race: interrupt handler may free allocation " +:+ pretty id
                  +:+ " before " +:+ what +:+ " in " +:+ fname) s
    else unknown ("HITL gate blocked IRQ race VC: " +:+ v) s
  else s.

(** The checks both arms make on the address, given the size of the access. *)
Definition check_address (addr : Name) (size : exec (option Z)) (what no_size : string)
    (s : AState) : exec flow :=
  match ptr_env s !! addr ≫= ptrval_alloc_info with
  | Some (id, offset) =>
      if decide (id ∈ freed_allocs s) then
        Done (Break (failed ("Use-after-free " +:+ what +:+ in_func) s))
      else
        let! size := size in
        match size with
        | None => Done (Next (unknown no_size s))
        | Some size =>
            match access_vc id offset size what (vc_class_id what size)
                    ("Out-of-bounds " +:+ what +:+ in_func)
                    ("Solver returned unknown for " +:+ what +:+ " bound check") s with
            | AccOn s => Done (Next (irq_check id what s))
            | AccNext s => Done (Next s)
            | AccBreak s => Done (Break s)
            end
        end
  | None => Done (Next s)
  end.

Definition do_store (store : Store) (s : AState) : exec flow :=
  match operand_local_name (Store_address store) with
  | Some dest_name =>
      let s := if decide (dest_name ∈ alloca_names s) then
                 match operand_local_name (Store_value store) ≫= fun v => ptr_env s !! v with
                 | Some pv => set_alloca_store_map (<[dest_name := pv]> (alloca_store_map s)) s
                 | None => s
                 end
               else s in
      check_address dest_name
        (let! ty := Operand_type dbg T (Store_value store) in type_size dbg T fuel ty)
        "store" "Store with unknown value type size" s
  | None => Done (Next s)
  end.

Definition do_load (load : Load) (s : AState) : exec flow :=
  match operand_local_name (Load_address load) with
  | Some src_name =>
      let s := if decide (src_name ∈ alloca_names s) then
                 match alloca_store_map s !! src_name with
                 | Some pv => bind_ptr (Load_dest load) pv s
                 | None => s
                 end
               else s in
      check_address src_name (type_size dbg T fuel (Load_loaded_ty load))
        "load" "Load with unknown type size" s
  | None => Done (Next s)
  end.

Definition step (i : Instruction) (s : AState) : exec flow :=
  match i with
  | IAlloca a => Done (Next (set_alloca_names ({[Alloca_dest a]} ∪ alloca_names s) s))
  | ICall call => Done (do_call call s)
  | IGetElementPtr gep => do_gep gep s
  | IPtrToInt c => Done (do_ptrtoint c s)
  | IIntToPtr c => Done (do_inttoptr c s)
  | IAdd a => Done (do_add a s)
  | ISub a => Done (do_sub a s)
  | IBitCast c => Done (do_bitcast c s)
  | IStore st => do_store st s
  | ILoad l => do_load l s
  | _ => Done (Next s)
  end.
End step.

(** ** The loops *)

Section analyze.
Context `{SmtSolver} (dbg : bool) (fuel : nat).
(** The order in which a [HashSet<usize>] is iterated. *)
Context (hash_order : gset nat -> list nat).
Context (m : Module_) (asm_policy : InlineAsmPolicy) (dma_policy : DmaPolicy).

Definition has_irq_risk : bool := negb (bool_decide (scan_irq_handlers m = ∅)).

Fixpoint run_instrs (fname : string) (bb_idx : nat) (l : list (nat * Instruction)) (s : AState)
    : exec AState :=
  match l with
  | [] => Done s
  | (instr_idx, i) :: l' =>
      let! f := step dbg fuel (mod_types m) asm_policy dma_policy has_irq_risk
                  fname bb_idx instr_idx i s in
      match f with
      | Next s => run_instrs fname bb_idx l' s
      | Break s => Done s
      end
  end.

Fixpoint run_blocks (fname : string) (l : list (nat * BasicBlock)) (s : AState) : exec AState :=
  match l with
  | [] => Done s
  | (bb_idx, bb) :: l' =>
      let! s := run_instrs fname bb_idx (enumerate (bb_instrs bb)) s in
      if is_fail (final_result s) then Done s else run_blocks fname l' s
  end.

Fixpoint run_functions (l : list Function_) (s : AState) : exec AState :=
  match l with
  | [] => Done s
  | f :: l' =>
      let! s := run_blocks (func_name f) (enumerate (func_basic_blocks f)) s in
      if is_fail (final_result s) then Done s else run_functions l' s
  end.

Definition initial_state (g : HitlGate) : AState :=
  {| solver := Solver_new; gate := g; ptr_env := ∅; int_env := ∅; alloc_sizes := ∅;
     freed_allocs := ∅; alloc_counter := 0; final_result := APass; alloca_store_map := ∅;
     alloca_names := ∅; inline_asm_vcs := 0; dma_vcs := 0; dma_allocs := ∅;
     iommu_mapped := ∅; irq_race_vcs := 0 |}.

(** The require-iommu check after the loops *)
Definition iommu_check (s : AState) : AState :=
  match dma_policy with
  | RequireIommu =>
      match find (fun id => negb (bool_decide (id ∈ iommu_mapped s))) (hash_order (dma_allocs s)) with
      | Some id => failed ("DMA allocation " +:+ pretty id
                           +:+ " has no paired iommu_map call (require-iommu policy)") s
      | None => s
      end
  | _ => s
  end.

Record AnalysisOutcome := mk_AnalysisOutcome {
  out_result : AnalysisResult;
  out_hitl_seen_vcs : nat;
  out_hitl_blocked_vcs : nat;
  out_hitl_seen_classes : nat;
  out_hitl_blocked_classes : nat;
  out_inline_asm_vcs : nat;
  out_dma_vcs : nat;
  out_irq_race_vcs : nat
}.

Definition outcome (s : AState) : AnalysisOutcome :=
  {| out_result := final_result s;
     out_hitl_seen_vcs := distinct (gate_seen (gate s));
     out_hitl_blocked_vcs := distinct (gate_blocked (gate s));
     out_hitl_seen_classes := distinct (gate_seen_classes (gate s));
     out_hitl_blocked_classes := distinct (gate_blocked_classes (gate s));
     out_inline_asm_vcs := inline_asm_vcs s;
     out_dma_vcs := dma_vcs s;
     out_irq_race_vcs := irq_race_vcs s |}.

Definition analyze_state (g : HitlGate) : exec AState :=
  iommu_check <$> run_functions (mod_functions m) (initial_state g).

Definition analyze (g : HitlGate) : exec (AnalysisOutcome * HitlGate) :=
  let! s := analyze_state g in Done (outcome s, gate s).
End analyze.
