(* ===== verification/Samples.v ===== *)
(** * Samples: small IR programs

    Constructors for instructions with the fields the analysis ignores filled
    in, and the programs the examples and witnesses of the other files run. *)

From S2P Require Import Prelude Layout Text Types Constants Instr Smt Gate Analyzer.
From stdpp Require Import base gmap list strings.
From Stdlib Require Import ZArith.
#[local] Open Scope string_scope.

(** ** Builders *)

Definition i64 : Ty := IntegerType 64.
Definition ptr_ty : Ty := PointerType 0.
Definition nm (s : string) : Name := NameStr s.
Definition loc (s : string) : Operand := LocalOperand (nm s) ptr_ty.
Definition num (n : Z) : Operand := ConstantOperand (CInt 64 n).
Definition gref (f : string) : Operand := ConstantOperand (CGlobalReference (nm f) ptr_ty).

Definition call_op (callee : InlineAssembly + Operand) (args : list Operand) (d : option string)
    : Instruction :=
  ICall (mk_Call callee (FuncType ptr_ty [] true) (map (fun o => (o, [])) args) []
           (nm <$> d) [] false CC_C None).
Definition call (f : string) (args : list Operand) (d : option string) : Instruction :=
  call_op (inr (gref f)) args d.
Definition asm (text : string) : Instruction :=
  call_op (inl (mk_InlineAssembly VoidType text)) [] None.

Definition gep_ty (ty : Ty) (d base : string) (idx : list Z) : Instruction :=
  IGetElementPtr (mk_GetElementPtr (loc base) (map num idx) (nm d) true None ty).
Definition gep (d base : string) (idx : Z) : Instruction := gep_ty i64 d base [idx].
Definition store_op (v : Operand) (addr : string) : Instruction :=
  IStore (mk_Store (loc addr) v false None 8 None).
Definition store (addr : string) : Instruction := store_op (num 0) addr.
Definition load (d addr : string) : Instruction :=
  ILoad (mk_Load (loc addr) (nm d) i64 false None 8 None).
Definition alloca (d : string) : Instruction :=
  IAlloca (mk_Alloca ptr_ty (num 1) (nm d) 8 None).

Definition bblock (name : string) (ins : list Instruction) (t : Terminator) : BasicBlock :=
  mk_BasicBlock (nm name) ins t.
Definition ret : Terminator := TRet None None.
Definition br (d : string) : Terminator := TBr (nm d) None.
Definition cond_br (c t f : string) : Terminator := TCondBr (loc c) (nm t) (nm f) None.

Definition func (name : string) (bbs : list BasicBlock) : Function_ :=
  let f := Function_new name in
  mk_Function name (func_parameters f) false (func_return_type f) bbs [] [] L_External
    V_Default DLL_Default CC_C None None 4 None None None.
Definition modl (fs : list Function_) : Module_ :=
  mk_Module "m" "m.c" DataLayout_default None fs [] [] [] [] "" TypesBuilder_new.
Definition straight (ins : list Instruction) : Module_ := modl [func "f" [bblock "entry" ins ret]].

(** ** Running them *)

Definition open_gate : HitlGate := mk_HitlGate HitlOff ∅ ∅ [] [] [] [].
Definition strict_gate (vcs : gset string) : HitlGate := mk_HitlGate HitlRequire vcs ∅ [] [] [] [].

Definition run_sample (m : Module_) : exec AnalysisResult :=
  (fun p => out_result p.1) <$>
    @analyze eval_solver true 8 elements m Conservative Verify open_gate.

(** Allocate 32 bytes, write the last word, free. *)
Definition good : Module_ :=
  straight [call "kmalloc" [num 32; num 0] (Some "p"); gep "q" "p" 3; store "q"; load "x" "q";
            call "memset" [loc "p"; num 0; num 32] None; call "kfree" [loc "p"] None].

Example good_passes : run_sample good = Done APass.
Proof. by vm_compute. Qed.

Example overflow_fails :
  run_sample (straight [call "kmalloc" [num 32; num 0] (Some "p"); gep "q" "p" 4; store "q"])
  = Done (AFail "Out-of-bounds store in function f").
Proof. by vm_compute. Qed.

Example use_after_free_fails :
  run_sample (straight [call "kmalloc" [num 8] (Some "p"); call "kfree" [loc "p"] None; load "x" "p"])
  = Done (AFail "Use-after-free load in function f").
Proof. by vm_compute. Qed.

Example double_free_fails :
  run_sample (straight [call "kcalloc" [num 4; num 8] (Some "p"); call "kfree" [loc "p"] None;
                        call "kfree" [loc "p"] None])
  = Done (AFail "Double free detected in function f").
Proof. by vm_compute. Qed.

(** The pointer survives a spill to the stack. *)
Example spilled_overflow_fails :
  run_sample (straight [alloca "s"; call "kmalloc" [num 8] (Some "p"); store_op (loc "p") "s";
                        load "r" "s"; gep "q" "r" 1; load "x" "q"])
  = Done (AFail "Out-of-bounds load in function f").
Proof. by vm_compute. Qed.

(** A handler that frees makes every tracked access suspect. *)
Example irq_race_unknown :
  run_sample (modl [func "handler" [bblock "entry" [call "kfree" [loc "arg"] None] ret];
                    func "f" [bblock "entry" [call "request_irq" [num 4; gref "handler"] None;
                                             call "kmalloc" [num 8] (Some "p"); store "p"] ret]])
  = Done (AUnknown "Potential IRQ race: interrupt handler may free allocation 0 before store in f").
Proof. by vm_compute. Qed.

(** Assembly counts as safe when it begins with a safe pattern, whatever follows. *)
Example asm_prefix_accepted :
  is_safe_inline_asm "nop; call *%rax" = true /\
  run_sample (straight [asm "nop; call *%rax"]) = Done APass.
Proof. by vm_compute. Qed.
