(* ===== verification/Sizes.v ===== *)
(** * Sizes: what [type_size] computes and when it returns

    The specification [byte_size] gives the size of a type as the sum of the
    sizes of its parts, each of them within [u64]; it is compared with the
    recursive [type_size] of [main.rs] on both build profiles. *)

From S2P Require Import Prelude Text Types Constants Instr Analyzer.
From stdpp Require Import base gmap list strings.
From Stdlib Require Import ZArith Lia.
#[local] Open Scope string_scope.

Definition list_sum (l : list Z) : Z := foldr Z.add 0%Z l.

Section spec.
Context (T : Types).

(** [ty] has [n] bytes, and no part of it is too large for a [u64]. *)
Inductive byte_size : Ty -> Z -> Prop :=
  | bs_int bits : byte_size (IntegerType bits) (u64_div_ceil bits 8)
  | bs_ptr a : byte_size (PointerType a) 8
  | bs_array e n s :
      byte_size e s -> (s * n <= u64_max)%Z -> byte_size (ArrayType e n) (s * n)
  | bs_struct es pk total :
      byte_sizes 0 es total -> byte_size (StructType es pk) total
  | bs_named name inner s :
      types_named_struct_def T name = Some (Defined_ inner) ->
      byte_size inner s -> byte_size (NamedStructType name) s
with byte_sizes : Z -> list Ty -> Z -> Prop :=
  | bss_nil acc : byte_sizes acc [] acc
  | bss_cons acc e es s total :
      byte_size e s -> (acc + s <= u64_max)%Z ->
      byte_sizes (acc + s) es total -> byte_sizes acc (e :: es) total.

(** The definitions of named structs do not refer to themselves: there is a
    rank that decreases from a struct to the structs its body names. *)
Fixpoint named_in (ty : Ty) : list string :=
  match ty with
  | NamedStructType name => [name]
  | ArrayType e _ | VectorType e _ _ => named_in e
  | StructType es _ => concat (map named_in es)
  | _ => []
  end.

Definition well_founded_defs (rank : string -> nat) : Prop :=
  forall name inner, types_named_struct_def T name = Some (Defined_ inner) ->
  Forall (fun name' => rank name' < rank name) (named_in inner).
End spec.

Scheme byte_size_ind' := Minimality for byte_size Sort Prop
  with byte_sizes_ind' := Minimality for byte_sizes Sort Prop.
Combined Scheme byte_size_mutind from byte_size_ind', byte_sizes_ind'.

(** ** One level of the recursion *)

Section level.
Context (dbg : bool) (f : Ty -> exec (option Z)).

Fixpoint sum_sizes (total : Z) (l : list Ty) : exec (option Z) :=
  match l with
  | [] => Done (Some total)
  | elem :: l' =>
      let! s := f elem in
      match s with
      | Some s => match u64_checked_add total s with
                  | Some total' => sum_sizes total' l'
                  | None => Done None
                  end
      | None => Done None
      end
  end.

Definition size_of_resolved (r : option Ty) : exec (option Z) :=
  match r with
  | None => Done None
  | Some (IntegerType bits) => Done (Some (u64_div_ceil bits 8))
  | Some (PointerType _) => Done (Some 8%Z)
  | Some (ArrayType e n) =>
      let! s := f e in
      match s with Some s => Some <$> u64_mul dbg s n | None => Done None end
  | Some (StructType es _) => sum_sizes 0%Z es
  | Some _ => Done None
  end.
End level.

Lemma type_size_unfold dbg T fuel ty :
  type_size dbg T (S fuel) ty
  = let! r := resolve_named_type T fuel ty in size_of_resolved dbg (type_size dbg T fuel) r.
Proof. reflexivity. Qed.

Definition is_named (ty : Ty) : bool :=
  match ty with NamedStructType _ => true | _ => false end.

Lemma type_size_plain dbg T fuel ty :
  is_named ty = false ->
  type_size dbg T (S fuel) ty = size_of_resolved dbg (type_size dbg T fuel) (Some ty).
Proof. intros H. rewrite type_size_unfold. by destruct fuel, ty. Qed.

(** [r] says at most what [r'] says: more fuel only replaces divergence. *)
Definition exec_le {A} (r r' : exec A) : Prop := r = Diverge \/ r = r'.

Lemma exec_le_done {A} (r r' : exec A) a : exec_le r r' -> r = Done a -> r' = Done a.
Proof. intros [->| ->]; done. Qed.

Lemma exec_le_bind {A B} (r r' : exec A) (k k' : A -> exec B) :
  exec_le r r' -> (forall a, exec_le (k a) (k' a)) -> exec_le (r ≫= k) (r' ≫= k').
Proof. intros [->| ->] Hk; [by left|]. destruct r'; simpl; [apply Hk|by right..]. Qed.

Lemma exec_le_refl {A} (r : exec A) : exec_le r r.
Proof. by right. Qed.
#[export] Hint Resolve exec_le_refl : skv.

Section fuel_facts.
Context (dbg : bool) (T : Types).

Lemma sum_sizes_mono f f' total l :
  (forall ty, exec_le (f ty) (f' ty)) -> exec_le (sum_sizes f total l) (sum_sizes f' total l).
Proof.
  intros Hf. revert total. induction l as [|e l IH]; intros total; simpl; [by right|].
  apply exec_le_bind; [done|]. intros [s|]; [|by right]. case_match; [done|by right].
Qed.

Lemma size_of_resolved_mono f f' r :
  (forall ty, exec_le (f ty) (f' ty)) ->
  exec_le (size_of_resolved dbg f r) (size_of_resolved dbg f' r).
Proof.
  intros Hf. destruct r as [[]|]; simpl; auto with skv.
  - apply exec_le_bind; auto with skv.
  - by apply sum_sizes_mono.
Qed.

Lemma resolve_mono n m ty :
  n <= m -> exec_le (resolve_named_type T n ty) (resolve_named_type T m ty).
Proof.
  revert m ty. induction n as [|n IH]; intros m ty Hm.
  - destruct ty, m; simpl; auto with skv; case_match; auto with skv;
      case_match; auto with skv; by left.
  - destruct m as [|m]; [lia|]. destruct ty; simpl; auto with skv.
    case_match; auto with skv. case_match; auto with skv. apply IH. lia.
Qed.

Lemma type_size_mono n m ty :
  n <= m -> exec_le (type_size dbg T n ty) (type_size dbg T m ty).
Proof.
  revert m ty. induction n as [|n IH]; intros m ty Hm; [by left|].
  destruct m as [|m]; [lia|]. rewrite !type_size_unfold.
  apply exec_le_bind; [apply resolve_mono; lia|]. intros r.
  apply size_of_resolved_mono. intros. apply IH. lia.
Qed.

Lemma type_size_named n name inner r :
  types_named_struct_def T name = Some (Defined_ inner) ->
  type_size dbg T n inner = r -> r <> Diverge ->
  type_size dbg T (S n) (NamedStructType name) = r.
Proof.
  intros Hdef Hr Hnd. destruct n as [|n]; [by subst|].
  rewrite type_size_unfold in Hr. rewrite type_size_unfold.
  assert (resolve_named_type T (S n) (NamedStructType name) = resolve_named_type T n inner)
    as -> by (simpl; by rewrite Hdef).
  assert (exec_le r (let! r0 := resolve_named_type T n inner in
                     size_of_resolved dbg (type_size dbg T (S n)) r0)) as [?|<-]; [|done..].
  rewrite <- Hr. apply exec_le_bind; [by right|]. intros r0.
  apply size_of_resolved_mono. intros. apply type_size_mono. lia.
Qed.
End fuel_facts.

(** ** Completeness and soundness against [byte_size] *)

Lemma byte_size_complete dbg T :
  (forall ty s, byte_size T ty s -> exists n, forall m, n <= m -> type_size dbg T m ty = Done (Some s))
  /\ (forall acc es total, byte_sizes T acc es total ->
        exists n, forall m, n <= m -> sum_sizes (type_size dbg T m) acc es = Done (Some total)).
Proof.
  apply byte_size_mutind.
  - intros bits. exists 1. intros [|m] ?; [lia|by rewrite type_size_plain].
  - intros a. exists 1. intros [|m] ?; [lia|by rewrite type_size_plain].
  - intros e k s _ [n Hn] Hle. exists (S n). intros [|m] ?; [lia|].
    rewrite type_size_plain by done. simpl. rewrite Hn by lia. simpl.
    unfold u64_mul. by rewrite decide_True.
  - intros es pk total _ [n Hn]. exists (S n). intros [|m] ?; [lia|].
    rewrite type_size_plain by done. apply Hn. lia.
  - intros name inner s Hdef _ [n Hn]. exists (S n). intros [|m] ?; [lia|].
    eapply type_size_named; [done|apply Hn; lia|done].
  - intros acc. by exists 0.
  - intros acc e es s total _ [n Hn] Hle _ [n' Hn']. exists (n `max` n'). intros m Hm.
    simpl. rewrite Hn by lia. simpl.
    rewrite (proj2 (u64_checked_add_some _ _ _) (conj eq_refl Hle)). apply Hn'. lia.
Qed.

Lemma resolve_byte_size T n ty r s :
  resolve_named_type T n ty = Done (Some r) -> byte_size T r s -> byte_size T ty s.
Proof.
  revert ty. induction n as [|n IH]; intros ty Hr Hs.
  - destruct ty; simpl in Hr; simplify_eq; try done. repeat case_match; simplify_eq.
  - destruct ty; simpl in Hr; simplify_eq; try done.
    repeat case_match; simplify_eq. econstructor; eauto.
Qed.

Lemma sum_sizes_sound T f acc es total :
  (forall ty s, f ty = Done (Some s) -> byte_size T ty s) ->
  sum_sizes f acc es = Done (Some total) -> byte_sizes T acc es total.
Proof.
  intros Hf. revert acc. induction es as [|e es IH]; intros acc H; simpl in H.
  - simplify_eq. constructor.
  - inv_ok. repeat case_match; simplify_eq.
    match goal with H : u64_checked_add _ _ = Some _ |- _ =>
      apply u64_checked_add_some in H as [-> Hle] end.
    econstructor; eauto.
Qed.

Lemma type_size_sound T n ty s :
  type_size true T n ty = Done (Some s) -> byte_size T ty s.
Proof.
  revert ty s. induction n as [|n IH]; intros ty s H; [done|].
  rewrite type_size_unfold in H. apply exec_bind_done in H as (r & Hr & H).
  destruct r as [r|]; [|done]. eapply resolve_byte_size; [done|].
  destruct r; simpl in H; simplify_eq; try constructor.
  - apply exec_bind_done in H as (o & Ho & H). destruct o as [k|]; [|done].
    unfold u64_mul in H. case_decide; simplify_eq/=. constructor; auto.
  - by eapply sum_sizes_sound.
Qed.

(** ** Termination *)

Section termination.
Context (dbg : bool) (T : Types).

Definition converges (ty : Ty) : Prop :=
  exists n, forall m, n <= m -> type_size dbg T m ty <> Diverge.

Lemma sum_sizes_converges es :
  Forall converges es ->
  exists n, forall m acc, n <= m -> sum_sizes (type_size dbg T m) acc es <> Diverge.
Proof.
  induction 1 as [|e es [n Hn] _ [n' Hn']]; [by exists 0|].
  exists (n `max` n'). intros m acc Hm. simpl.
  specialize (Hn m ltac:(lia)). destruct (type_size dbg T m e) as [[s|]| |]; try done.
  simpl. case_match; [|done]. apply Hn'. lia.
Qed.

Lemma type_converges rank k ty :
  well_founded_defs T rank -> Forall (fun x => rank x < k) (named_in ty) -> converges ty.
Proof.
  intros Hwf. revert ty. induction k as [k IHk] using lt_wf_ind.
  apply (Ty_ind_list (fun ty => Forall (fun x => rank x < k) (named_in ty) -> converges ty)).
  - intros. exists 1. intros [|m] ?; [lia|by rewrite type_size_plain].
  - intros. exists 1. intros [|m] ?; [lia|by rewrite type_size_plain].
  - intros e n IH [N HN]%IH. exists (S N). intros [|m] ?; [lia|].
    rewrite type_size_plain by done. simpl. specialize (HN m ltac:(lia)).
    destruct (type_size dbg T m e) as [[s|]| |]; try done. simpl. unfold u64_mul.
    case_decide; [done|]. by destruct dbg.
  - intros es pk IH Hes. simpl in Hes.
    destruct (sum_sizes_converges es) as [N HN].
    { induction IH as [|e es He _ IH']; [constructor|]. simpl in Hes.
      apply Forall_app in Hes as [??]. constructor; auto. }
    exists (S N). intros [|m] ?; [lia|]. rewrite type_size_plain by done. apply HN. lia.
  - intros [| | | | | | | |name| | | | | |]; try exact I;
      try (intros _; exists 1; intros [|m] ?; [lia|by rewrite type_size_plain]).
    simpl. intros Hk. apply (proj1 (Forall_singleton _ _)) in Hk.
    destruct (types_named_struct_def T name) as [[|inner]|] eqn:Hdef.
    + exists 2. intros [|[|m]] ?; [lia..|]. rewrite type_size_unfold. simpl. by rewrite Hdef.
    + destruct (IHk (rank name) Hk inner (Hwf _ _ Hdef)) as [N HN].
      exists (S N). intros [|m] ?; [lia|]. specialize (HN m ltac:(lia)).
      by erewrite type_size_named.
    + exists 2. intros [|[|m]] ?; [lia..|]. rewrite type_size_unfold. simpl. by rewrite Hdef.
Qed.

Lemma type_converges_always rank ty : well_founded_defs T rank -> converges ty.
Proof.
  intros Hwf. apply (type_converges rank (S (list_max (map rank (named_in ty))))); [done|].
  apply Forall_forall. intros x Hx.
  pose proof (proj1 (list_max_le (map rank (named_in ty)) _) (le_n _)) as Hm.
  rewrite List.Forall_forall in Hm. apply Nat.lt_succ_r, Hm, in_map, list_elem_of_In, Hx.
Qed.
End termination.

(** C14. [type_size] is the size of the type: when the named structs of the
    module do not contain themselves the recursion ends on every type; with
    overflow checks it answers [n] exactly for the types whose size and the
    sizes of whose parts are representable and whose size is [n]; and on those
    types the release build answers the same. *)
Theorem type_size_correct T rank ty :
  well_founded_defs T rank ->
  exists fuel, forall m, fuel <= m ->
    (forall dbg, type_size dbg T m ty <> Diverge) /\
    (forall n, type_size true T m ty = Done (Some n) <-> byte_size T ty n) /\
    (forall n, byte_size T ty n -> type_size false T m ty = Done (Some n)).
Proof.
  intros Hwf.
  destruct (type_converges_always true T rank ty Hwf) as [N1 H1].
  destruct (type_converges_always false T rank ty Hwf) as [N2 H2].
  assert (forall dbg n m, N1 `max` N2 <= m -> byte_size T ty n ->
            type_size dbg T m ty = Done (Some n)) as Hc.
  { intros dbg n m Hm Hs. destruct (byte_size_complete dbg T) as [Hc _].
    destruct (Hc _ _ Hs) as [N HN]. specialize (HN (N `max` m) ltac:(lia)).
    destruct (type_size_mono dbg T m (N `max` m) ty ltac:(lia)) as [Hd|E]; [|congruence].
    destruct dbg; [destruct (H1 m)|destruct (H2 m)]; (lia || done). }
  exists (N1 `max` N2). intros m Hm. split_and!.
  - intros []; [apply H1|apply H2]; lia.
  - intros n. split; [apply type_size_sound|by apply Hc].
  - intros n. by apply Hc.
Qed.

(** A driver's register block: a struct of a 32-bit word, a pointer and a named
    struct of sixteen bytes. *)
Definition sample_types : Types :=
  with_named_struct_defs TypesBuilder_new
    {["dev" := Defined_ (StructType [IntegerType 32; PointerType 0; NamedStructType "buf"] false);
      "buf" := Defined_ (ArrayType (IntegerType 8) 16)]}.

Lemma sample_types_wf : well_founded_defs sample_types (fun n => if decide (n = "dev") then 1 else 0).
Proof.
  intros name inner H. unfold types_named_struct_def, sample_types in H. simpl in H.
  apply lookup_insert_Some in H as [[<- [= <-]]|[_ H]]; [repeat constructor|].
  apply lookup_singleton_Some in H as [<- [= <-]]. constructor.
Qed.

Lemma type_size_correct_witness :
  well_founded_defs sample_types (fun n => if decide (n = "dev") then 1 else 0) /\
  byte_size sample_types (NamedStructType "dev") 28.
Proof.
  split; [exact sample_types_wf|].
  destruct (type_size_correct sample_types _ (NamedStructType "dev") sample_types_wf) as [n Hn].
  destruct (Hn (n + 10) ltac:(lia)) as (_ & Hiff & _).
  apply Hiff. rewrite Nat.add_comm. vm_compute. reflexivity.
Defined.

(** Without overflow checks the array product wraps: the 2^64 bytes of
    [[2^61 x i64]] count as none. *)
Example type_size_release_wraps :
  type_size false TypesBuilder_new 2 (ArrayType (IntegerType 64) (2 ^ 61)) = Done (Some 0%Z) /\
  type_size true TypesBuilder_new 2 (ArrayType (IntegerType 64) (2 ^ 61)) = Panic.
Proof. by vm_compute. Qed.

(** Field padding is not counted: twenty-four bytes under a natural-alignment
    layout, thirteen here. *)
Example type_size_ignores_padding :
  type_size true TypesBuilder_new 2
    (StructType [IntegerType 8; IntegerType 64; IntegerType 32] false) = Done (Some 13%Z).
Proof. by vm_compute. Qed.
