(* ===== verification/AnalyzerInv.v ===== *)
(** * AnalyzerInv: what every run of [analyze] maintains

    Each arm of the analysis is a sequence of a few kinds of updates, the steps
    of [micro]; [step_micro] shows it once, and each invariant is then proved by
    rule induction on that relation: provenance and allocation metadata
    ([state_inv]), monotone evolution ([state_extends]), and what a result of
    Pass says about the instructions that were visited. *)

From S2P Require Import Prelude Text Types Constants Instr Smt Gate Analyzer Samples Sizes.
From stdpp Require Import base gmap list strings pretty relations.
From Stdlib Require Import ZArith Lia.
#[local] Open Scope string_scope.

(** ** The updates an arm is made of *)

Definition same_alloc (v v' : PtrVal) : Prop :=
  match v, v' with
  | Kmalloc id _, Kmalloc id' _ => id = id'
  | DmaAlloc id _, DmaAlloc id' _ => id = id'
  | _, _ => False
  end.

(** [v] points into an allocation the state already has a pointer to. *)
Definition known_ptr (s : AState) (v : PtrVal) : Prop :=
  v = PtrUnknown \/
  (exists n v0, ptr_env s !! n = Some v0 /\ same_alloc v0 v) \/
  (exists n v0, alloca_store_map s !! n = Some v0 /\ same_alloc v0 v) \/
  (exists n id off off', int_env s !! n = Some (PtrOffset id off) /\ v = Kmalloc id off').

Definition known_int (s : AState) (v : IntVal) : Prop :=
  v = IntUnknown \/
  (exists n id off off', ptr_env s !! n = Some (Kmalloc id off) /\ v = PtrOffset id off') \/
  (exists n id off off', int_env s !! n = Some (PtrOffset id off) /\ v = PtrOffset id off').

Section micro.
Context `{SmtSolver}.

Inductive micro (s : AState) : AState -> Prop :=
  | mi_unknown r : micro s (unknown r s)
  | mi_failed msg : micro s (failed msg s)
  | mi_kmalloc size d :
      micro s (bind_ptr_opt d (Kmalloc (alloc_counter s) (Int_from_u64 0)) (fresh_alloc size s).2)
  | mi_dma size d :
      micro s (bind_ptr_opt d (DmaAlloc (alloc_counter s) (Int_from_u64 0))
        (set_dma_allocs ({[alloc_counter s]} ∪ dma_allocs s) (fresh_alloc size s).2))
  | mi_ptr n v : known_ptr s v -> micro s (bind_ptr n v s)
  | mi_int n v : known_int s v -> micro s (bind_int n v s)
  | mi_spill n v : known_ptr s v ->
      micro s (set_alloca_store_map (<[n := v]> (alloca_store_map s)) s)
  | mi_alloca n : micro s (set_alloca_names ({[n]} ∪ alloca_names s) s)
  | mi_free n id off : ptr_env s !! n = Some (Kmalloc id off) -> id ∉ freed_allocs s ->
      micro s (set_freed_allocs ({[id]} ∪ freed_allocs s) s)
  | mi_ask vc cls : micro s (ask_gate vc cls s).2
  | mi_query sz off len vc cls : micro s (ask_solver sz off len vc cls s).2
  | mi_dma_vc : micro s (set_dma_vcs (S (dma_vcs s)) s)
  | mi_asm_vc : final_result s <> APass ->
      micro s (set_inline_asm_vcs (S (inline_asm_vcs s)) s)
  | mi_irq_vc : final_result s <> APass ->
      micro s (set_irq_race_vcs (S (irq_race_vcs s)) s)
  | mi_iommu : micro s (set_iommu_mapped (dma_allocs s ∪ iommu_mapped s) s).

End micro.
Notation micros := (rtc micro).
#[export] Hint Constructors micro : skv.
#[export] Hint Resolve rtc_once rtc_refl : skv.

Lemma known_ptr_env s n v : ptr_env s !! n = Some v -> known_ptr s v.
Proof.
  intros Hn. destruct v as [id off|id off|]; [right; left|right; left|by left];
    exists n; eexists; (split; [done|]); done.
Qed.
Lemma known_ptr_spilled s n v : alloca_store_map s !! n = Some v -> known_ptr s v.
Proof.
  intros Hn. destruct v as [id off|id off|]; [do 2 right; left..|by left];
    exists n; eexists; (split; [done|]); done.
Qed.
#[export] Hint Resolve known_ptr_env known_ptr_spilled : skv.

Section step_micro.
Context `{SmtSolver} (dbg : bool) (fuel : nat) (T : Types).
Context (asm_policy : InlineAsmPolicy) (dma_policy : DmaPolicy) (risk : bool).
Context (fname : string) (bb_idx instr_idx : nat).

#[local] Notation step := (step dbg fuel T asm_policy dma_policy risk fname bb_idx instr_idx).

(** The outcomes of an access arm. *)
Definition access_state (a : access) : AState :=
  match a with AccOn s | AccNext s | AccBreak s => s end.

Lemma access_vc_micros id off len kind cls oob unk s :
  micros s (access_state (access_vc fname bb_idx instr_idx id off len kind cls oob unk s)).
Proof.
  unfold access_vc. case_match; [|apply rtc_once; constructor].
  destruct (ask_solver _ _ _ _ _ _) as [r s'] eqn:E.
  pose proof (mi_query s i off len (vc_id fname bb_idx instr_idx kind) cls) as Hq.
  rewrite E in Hq. destruct r; simpl; (eapply rtc_l; [exact Hq|]); eauto with skv.
Qed.

Lemma mem_access_micros id off len what kind s :
  micros s (access_state (mem_access fname bb_idx instr_idx id off len what kind s)).
Proof. unfold mem_access. case_decide; [eauto with skv|apply access_vc_micros]. Qed.

Lemma memcpy_side_micros op kind len s :
  micros s (flow_state (memcpy_side fname bb_idx instr_idx op kind len s)).
Proof.
  unfold memcpy_side. case_match; [|constructor]. case_match; [|constructor].
  case_match; try constructor.
  match goal with |- context [mem_access ?a ?b ?c ?d ?e ?f ?g ?h ?i] =>
    pose proof (mem_access_micros d e f g h i) as Hm; destruct (mem_access a b c d e f g h i) end;
    exact Hm.
Qed.

Lemma irq_check_micros id what s :
  micros s (irq_check risk fname bb_idx instr_idx id what s).
Proof.
  unfold irq_check. destruct risk; [|constructor].
  set (v := vc_id _ _ _ _). set (cls := "class::irq_race::alloc" +:+ _).
  assert (forall r, micros s (unknown r (ask_gate v cls (set_irq_race_vcs (S (irq_race_vcs s)) s)).2))
    as Hm.
  { intros r. eapply rtc_l; [apply (mi_ask s v cls)|].
    eapply rtc_l; [apply (mi_unknown _ r)|]. apply rtc_once.
    assert (unknown r (ask_gate v cls (set_irq_race_vcs (S (irq_race_vcs s)) s)).2
            = set_irq_race_vcs (S (irq_race_vcs (unknown r (ask_gate v cls s).2)))
                (unknown r (ask_gate v cls s).2)) as ->.
    { unfold ask_gate. simpl. by destruct (should_run_solver _ _ _). }
    constructor. apply mark_unknown_not_pass. }
  destruct (ask_gate v cls _) as [b s']. by destruct b; apply Hm.
Qed.

Lemma check_address_micros addr size what no_size s f :
  check_address risk fname bb_idx instr_idx addr size what no_size s = Done f ->
  micros s (flow_state f).
Proof.
  unfold check_address. destruct (ptr_env s !! addr ≫= ptrval_alloc_info) as [[id off]|];
    [|intros [= <-]; constructor].
  case_decide; [intros [= <-]; eauto with skv|].
  intros (len & _ & Hf)%exec_bind_done. destruct len as [len|]; [|inv_ok; eauto with skv].
  match type of Hf with context [access_vc ?a ?b ?c ?d ?e ?g ?h ?i ?j ?k ?l] =>
    pose proof (access_vc_micros d e g h i j k l) as Hm;
    destruct (access_vc a b c d e g h i j k l) end; simplify_eq/=; try done.
  etrans; [exact Hm|apply irq_check_micros].
Qed.

Lemma do_inline_asm_micros call s :
  micros s (flow_state (do_inline_asm asm_policy fname bb_idx instr_idx call s)).
Proof.
  unfold do_inline_asm. destruct (Call_function call) as [asm|]; [|constructor].
  destruct asm_policy; [case_match; [constructor|]|].
  - set (v := vc_id _ _ _ _). set (cls := "class::inline_asm::opaque").
    assert (forall r, micros s
      (unknown r (ask_gate v cls (set_inline_asm_vcs (S (inline_asm_vcs s)) s)).2)) as Hm.
    { intros r. eapply rtc_l; [apply (mi_ask s v cls)|].
      eapply rtc_l; [apply (mi_unknown _ r)|]. apply rtc_once.
      assert (unknown r (ask_gate v cls (set_inline_asm_vcs (S (inline_asm_vcs s)) s)).2
              = set_inline_asm_vcs (S (inline_asm_vcs (unknown r (ask_gate v cls s).2)))
                  (unknown r (ask_gate v cls s).2)) as ->.
      { unfold ask_gate. simpl. by destruct (should_run_solver _ _ _). }
      constructor. apply mark_unknown_not_pass. }
    destruct (ask_gate v cls _) as [b s']. by destruct b; apply Hm.
  - eapply rtc_l; [eapply mi_failed|]. apply rtc_once.
    refine (mi_asm_vc (failed _ s) _). done.
Qed.

Lemma do_memset_micros call s :
  micros s (flow_state (do_memset fname bb_idx instr_idx call s)).
Proof.
  unfold do_memset. repeat (case_match; try solve [simpl; eauto with skv]).
  all: match goal with H : mem_access ?a ?b ?c ?d ?e ?f ?g ?h ?i = _ |- _ =>
    pose proof (mem_access_micros d e f g h i) as Hm; rewrite H in Hm; exact Hm end.
Qed.

Lemma do_memcpy_micros call s :
  micros s (flow_state (do_memcpy fname bb_idx instr_idx call s)).
Proof.
  unfold do_memcpy. repeat (case_match; try solve [simpl; eauto with skv]).
  all: match goal with H : memcpy_side ?a ?b ?c ?op ?k ?l ?s = _ |- _ =>
    pose proof (memcpy_side_micros op k l s) as Hm; rewrite H in Hm end; simpl in *; try done.
  all: etrans; [exact Hm|]; apply memcpy_side_micros.
Qed.

Lemma do_dma_map_micros call s :
  micros s (flow_state (do_dma_map fname bb_idx instr_idx call s)).
Proof.
  unfold do_dma_map. repeat (case_match; try solve [simpl; eauto with skv]).
  all: match goal with H : ask_solver ?a ?b ?c ?d ?e ?s = (_, ?s') |- _ =>
    pose proof (mi_query s a b c d e) as Hq; rewrite H in Hq end; simpl in *.
  all: eapply rtc_l; [exact Hq|]; eauto with skv.
  all: eapply rtc_l; [apply mi_dma_vc|]; eauto with skv.
Qed.

Lemma do_call_micros call s :
  micros s (flow_state (do_call asm_policy dma_policy fname bb_idx instr_idx call s)).
Proof.
  unfold do_call. case_match; [constructor|].
  case_match; [|apply do_inline_asm_micros].
  repeat case_decide; try constructor;
    auto using do_memset_micros, do_memcpy_micros, do_dma_map_micros.
  - unfold do_kmalloc, fresh_alloc. repeat case_match; simplify_eq; simpl; eauto with skv.
    apply rtc_once, mi_kmalloc.
  - unfold do_kcalloc, fresh_alloc. repeat case_match; simplify_eq; simpl; eauto with skv.
    apply rtc_once, mi_kmalloc.
  - unfold do_kfree. repeat case_match; simplify_eq; simpl; eauto with skv.
  - unfold do_dma_alloc, fresh_alloc. repeat case_match; simplify_eq; simpl; eauto with skv.
    eapply rtc_l; [eapply mi_dma|]. eapply rtc_l; [apply mi_dma_vc|].
    apply rtc_once. refine (mi_ask _ _ _).
  - apply rtc_once, mi_iommu.
Qed.

Lemma known_ptr_gep s base id off off' :
  match ptr_env s !! base with Some v => Some v | None => alloca_store_map s !! base end
    = Some (Kmalloc id off) -> known_ptr s (Kmalloc id off').
Proof.
  case_match eqn:E; intros Hb; simplify_eq.
  - right; left. by exists base, (Kmalloc id off).
  - do 2 right; left. by exists base, (Kmalloc id off).
Qed.
Lemma known_ptr_gep_dma s base id off off' :
  match ptr_env s !! base with Some v => Some v | None => alloca_store_map s !! base end
    = Some (DmaAlloc id off) -> known_ptr s (DmaAlloc id off').
Proof.
  case_match eqn:E; intros Hb; simplify_eq.
  - right; left. by exists base, (DmaAlloc id off).
  - do 2 right; left. by exists base, (DmaAlloc id off).
Qed.

Lemma bind_then_unknown n v r s :
  known_ptr s v -> micros s (unknown r (bind_ptr n v s)).
Proof. intros. eapply rtc_l; [by apply mi_ptr|]. eauto with skv. Qed.
Lemma bind_int_then_unknown n v r s :
  known_int s v -> micros s (unknown r (bind_int n v s)).
Proof. intros. eapply rtc_l; [by apply mi_int|]. eauto with skv. Qed.

Lemma do_gep_micros gep s f :
  do_gep dbg fuel T gep s = Done f -> micros s (flow_state f).
Proof.
  unfold do_gep. case_match; [|intros [= <-]; apply bind_then_unknown; by left].
  match goal with |- context [match ?x with _ => _ end = Done f] =>
    destruct x as [[id off|id off|]|] eqn:Hb end.
  1,2: intros (o & _ & [= <-])%exec_bind_done; destruct o; simpl;
    [|apply bind_then_unknown; by left].
  - apply rtc_once, mi_ptr. by eapply known_ptr_gep.
  - apply rtc_once, mi_ptr. by eapply known_ptr_gep_dma.
  - intros [= <-]. apply rtc_once, mi_ptr. by left.
  - intros [= <-]. apply rtc_once, mi_ptr. by left.
Qed.

Lemma tracked_int_known op s id off off' :
  tracked_int op s = Some (PtrOffset id off) -> known_int s (PtrOffset id off').
Proof.
  unfold tracked_int. intros (n & _ & Hn)%bind_Some. right; right. by exists n, id, off, off'.
Qed.

Lemma do_add_micros a s : micros s (flow_state (do_add a s)).
Proof.
  unfold do_add. case_match eqn:Ho.
  - apply rtc_once, mi_int. revert Ho.
    destruct (tracked_int (Add_operand0 a) s) as [[]|] eqn:E1,
             (tracked_int (Add_operand1 a) s) as [[]|] eqn:E2; simpl;
      try (intros (? & _ & ->)%fmap_Some_1); try done; by eapply tracked_int_known.
  - destruct (_ || _); [|constructor]. apply bind_int_then_unknown. by left.
Qed.

Lemma do_sub_micros a s : micros s (flow_state (do_sub a s)).
Proof.
  unfold do_sub. simpl.
  match goal with |- context [if bool_decide ?P then unknown ?r ?x else ?x] =>
    assert (micros s x) as Hx; [|destruct (bool_decide P); simpl; [|exact Hx];
      eapply rtc_r; [exact Hx|constructor]] end.
  case_match eqn:Ho.
  - apply rtc_once, mi_int. revert Ho.
    destruct (tracked_int (Sub_operand0 a) s) as [[]|] eqn:E1; try done.
    intros (? & _ & ->)%fmap_Some_1. by eapply tracked_int_known.
  - destruct (_ || _); [|constructor]. apply bind_int_then_unknown. by left.
Qed.

Lemma step_micro i s f : step i s = Done f -> micros s (flow_state f).
Proof.
  destruct i; simpl; try (intros [= <-]; constructor).
  - intros [= <-]. apply do_add_micros.
  - intros [= <-]. apply do_sub_micros.
  - intros [= <-]. eauto with skv.
  - unfold do_load. case_match; [|intros [= <-]; constructor].
    intros Hc. eapply check_address_micros in Hc. etrans; [|exact Hc].
    case_decide; [|constructor]. case_match; [|constructor]. eauto with skv.
  - unfold do_store. case_match; [|intros [= <-]; constructor].
    intros Hc. eapply check_address_micros in Hc. etrans; [|exact Hc].
    case_decide; [|constructor]. case_match eqn:E; [|constructor].
    apply bind_Some in E as (? & _ & ?). eauto with skv.
  - apply do_gep_micros.
  - intros [= <-]. unfold do_ptrtoint. case_match; [|apply bind_int_then_unknown; by left].
    apply rtc_once, mi_int. repeat case_match; try by left. right; left. naive_solver.
  - intros [= <-]. unfold do_inttoptr. case_match; [|apply bind_then_unknown; by left].
    apply rtc_once, mi_ptr. repeat case_match; try by left. do 3 right. naive_solver.
  - intros [= <-]. unfold do_bitcast. case_match; [|apply bind_then_unknown; by left].
    apply rtc_once, mi_ptr. destruct (ptr_env s !! n) eqn:E; simpl; [eauto with skv|by left].
  - intros [= <-]. apply do_call_micros.
Qed.
End step_micro.

(** ** Provenance and metadata *)

(** What a tracked pointer or integer may name: a heap allocation that is not a
    DMA buffer, or a DMA buffer. *)
Definition heap_id (s : AState) (id : nat) : Prop := id < alloc_counter s /\ id ∉ dma_allocs s.
Definition ptr_ok (s : AState) (v : PtrVal) : Prop :=
  match v with
  | Kmalloc id _ => heap_id s id
  | DmaAlloc id _ => id ∈ dma_allocs s
  | PtrUnknown => True
  end.
Definition int_ok (s : AState) (v : IntVal) : Prop :=
  match v with PtrOffset id _ => heap_id s id | IntUnknown => True end.

Record state_inv (s : AState) : Prop := {
  si_idle : solver_idle (solver s);
  si_gate : gate_inv (gate s);
  si_sizes : forall id, is_Some (alloc_sizes s !! id) <-> id < alloc_counter s;
  si_ptr : map_Forall (fun _ v => ptr_ok s v) (ptr_env s);
  si_int : map_Forall (fun _ v => int_ok s v) (int_env s);
  si_spill : map_Forall (fun _ v => ptr_ok s v) (alloca_store_map s);
  si_freed : forall id, id ∈ freed_allocs s -> heap_id s id;
  si_dma : forall id, id ∈ dma_allocs s -> id < alloc_counter s;
  si_iommu : iommu_mapped s ⊆ dma_allocs s;
  si_pass : final_result s = APass -> inline_asm_vcs s = 0 /\ irq_race_vcs s = 0
}.

Lemma initial_state_inv g : gate_fresh g -> state_inv (initial_state g).
Proof.
  intros Hg. split; simpl; try done; try apply map_Forall_empty; try set_solver.
  - by apply gate_fresh_inv.
  - intros id. rewrite lookup_empty. split; [by intros []|lia].
Qed.

Lemma known_ptr_ok s v : state_inv s -> known_ptr s v -> ptr_ok s v.
Proof.
  intros Hs [->|[(n & v0 & Hn & Hv)|[(n & v0 & Hn & Hv)|(n & id & o & o' & Hn & ->)]]]; [done|..].
  - pose proof (map_Forall_lookup_1 _ _ _ _ (si_ptr s Hs) Hn). by destruct v0, v; simplify_eq/=.
  - pose proof (map_Forall_lookup_1 _ _ _ _ (si_spill s Hs) Hn). by destruct v0, v; simplify_eq/=.
  - exact (map_Forall_lookup_1 _ _ _ _ (si_int s Hs) Hn).
Qed.

Lemma known_int_ok s v : state_inv s -> known_int s v -> int_ok s v.
Proof.
  intros Hs [->|[(n & id & o & o' & Hn & ->)|(n & id & o & o' & Hn & ->)]]; [done|..].
  - exact (map_Forall_lookup_1 _ _ _ _ (si_ptr s Hs) Hn).
  - exact (map_Forall_lookup_1 _ _ _ _ (si_int s Hs) Hn).
Qed.

(** Growing the counter keeps every tracked value meaningful. *)
Definition grows (s s' : AState) : Prop :=
  alloc_counter s <= alloc_counter s' /\
  dma_allocs s ⊆ dma_allocs s' /\
  (forall id, id < alloc_counter s -> id ∈ dma_allocs s' -> id ∈ dma_allocs s).

Lemma heap_id_grows s s' id : grows s s' -> heap_id s id -> heap_id s' id.
Proof. intros (? & ? & Hd) [? Hn]. split; [lia|]. intros ?. by apply Hn, Hd. Qed.
Lemma ptr_ok_grows s s' v : grows s s' -> ptr_ok s v -> ptr_ok s' v.
Proof.
  intros Hg. destruct v; simpl; [by apply heap_id_grows| |done]. destruct Hg as (_ & ? & _). set_solver.
Qed.
Lemma int_ok_grows s s' v : grows s s' -> int_ok s v -> int_ok s' v.
Proof. intros Hg. destruct v; simpl; [by apply heap_id_grows|done]. Qed.

Lemma all_ptr_ok_grows s s' (env : gmap Name PtrVal) :
  grows s s' -> map_Forall (fun _ v => ptr_ok s v) env -> map_Forall (fun _ v => ptr_ok s' v) env.
Proof. intros Hg Hm. eapply map_Forall_impl; [exact Hm|]. intros ? v. by apply ptr_ok_grows. Qed.

Lemma bind_ptr_opt_inv s d v :
  ptr_ok s v -> state_inv s -> state_inv (bind_ptr_opt d v s).
Proof.
  intros Hv []. destruct d as [n|]; [|done]. split; try done. by apply map_Forall_insert_2.
Qed.

(** A new allocation, a DMA buffer when [dma]. *)
Lemma fresh_alloc_inv s size (dma : bool) :
  state_inv s ->
  let s' := (fresh_alloc size s).2 in
  let s'' := if dma then set_dma_allocs ({[alloc_counter s]} ∪ dma_allocs s) s' else s' in
  state_inv s'' /\
  (if dma then alloc_counter s ∈ dma_allocs s'' else heap_id s'' (alloc_counter s)).
Proof.
  intros [] s' s''.
  assert (grows s s'') as Hg.
  { clear -s. subst s'' s'. destruct dma; (split; [simpl; lia|split]); simpl; [apply union_subseteq_r| |done|done].
    intros id ? [Hin|?]%elem_of_union; [|done]. apply elem_of_singleton in Hin. lia. }
  split; [|subst s'' s'; destruct dma; simpl; [set_solver|]; split; simpl;
           [lia|intros ?%si_dma0; lia]].
  assert (alloc_counter s'' = S (alloc_counter s) /\
          alloc_sizes s'' = <[alloc_counter s := Int_from_u64 size]> (alloc_sizes s)) as [Hc Hsz]
    by by destruct dma.
  split; try (by destruct dma).
  - intros id. rewrite Hsz, Hc, lookup_insert_is_Some, si_sizes0. destruct (decide (alloc_counter s = id)); lia.
  - assert (ptr_env s'' = ptr_env s) as -> by by destruct dma. by eapply all_ptr_ok_grows.
  - assert (int_env s'' = int_env s) as -> by by destruct dma.
    eapply map_Forall_impl; [done|]. intros ? v. by apply int_ok_grows.
  - assert (alloca_store_map s'' = alloca_store_map s) as -> by by destruct dma.
    by eapply all_ptr_ok_grows.
  - assert (freed_allocs s'' = freed_allocs s) as -> by by destruct dma.
    intros id ?. eapply heap_id_grows; [done|]. auto.
  - intros id Hid. rewrite Hc. subst s'' s'. destruct dma; simpl in Hid.
    + apply elem_of_union in Hid as [->%elem_of_singleton|?%si_dma0]; lia.
    + apply si_dma0 in Hid. lia.
  - destruct Hg as (_ & Hd & _). assert (iommu_mapped s'' = iommu_mapped s) as -> by by destruct dma.
    set_solver.
Qed.

Lemma ask_gate_inv vc cls s : state_inv s -> state_inv (ask_gate vc cls s).2.
Proof.
  intros []. unfold ask_gate. pose proof (should_run_solver_inv (gate s) vc cls si_gate0).
  destruct (should_run_solver _ _ _). by split.
Qed.

Lemma ask_solver_inv `{SmtSolver} sz off len vc cls s :
  state_inv s -> state_inv (ask_solver sz off len vc cls s).2.
Proof.
  intros []. unfold ask_solver. destruct (check_access _ _ _ _ _ _ _) as [[r sv] g] eqn:E.
  split; try done.
  - by eapply check_access_idle.
  - simpl. rewrite (check_access_gate _ _ _ _ _ _ _ _ _ _ E). by apply should_run_solver_inv.
Qed.

Lemma micro_inv `{SmtSolver} s s' : micro s s' -> state_inv s -> state_inv s'.
Proof.
  intros Hm Hs. destruct Hm; try (destruct Hs; by split).
  - destruct Hs. split; try done. simpl. intros Hp. by apply mark_unknown_not_pass in Hp.
  - destruct (fresh_alloc_inv s size false Hs). by apply bind_ptr_opt_inv.
  - destruct (fresh_alloc_inv s size true Hs). by apply bind_ptr_opt_inv.
  - apply (bind_ptr_opt_inv s (Some n) v); [|done]. by apply known_ptr_ok.
  - pose proof (known_int_ok s v Hs ltac:(done)). destruct Hs. split; try done.
    by apply map_Forall_insert_2.
  - pose proof (known_ptr_ok s v Hs ltac:(done)). destruct Hs. split; try done.
    by apply map_Forall_insert_2.
  - pose proof (map_Forall_lookup_1 _ _ _ _ (si_ptr s Hs) H0) as Hid. destruct Hs.
    split; try done. simpl. intros id' [->%elem_of_singleton|?]%elem_of_union; [exact Hid|].
    by apply si_freed0.
  - by apply ask_gate_inv.
  - by apply ask_solver_inv.
  - destruct Hs. split; try done. simpl. set_solver.
Qed.

Lemma micros_inv `{SmtSolver} s s' : micros s s' -> state_inv s -> state_inv s'.
Proof. induction 1; eauto using micro_inv. Qed.

(** ** Evolution *)

Record state_extends (s s' : AState) : Prop := {
  se_severity : severity (final_result s) <= severity (final_result s');
  se_gate : gate_extends (gate s) (gate s');
  se_counter : alloc_counter s <= alloc_counter s';
  se_freed : freed_allocs s ⊆ freed_allocs s';
  se_dma : dma_allocs s ⊆ dma_allocs s';
  se_iommu : iommu_mapped s ⊆ iommu_mapped s';
  se_asm : inline_asm_vcs s <= inline_asm_vcs s';
  se_dma_vcs : dma_vcs s <= dma_vcs s';
  se_irq : irq_race_vcs s <= irq_race_vcs s';
  se_queries : solver_queries (solver s) <= solver_queries (solver s')
}.
#[export] Instance state_extends_preorder : PreOrder state_extends.
Proof.
  split; [by split|]. intros ??? [] []; split; try (etrans; done); set_solver.
Qed.

Lemma micro_extends `{SmtSolver} s s' : micro s s' -> state_extends s s'.
Proof.
  destruct 1; try (split; simpl; eauto with lia; set_solver).
  - split; simpl; eauto with lia skv; set_solver.
  - split; simpl; eauto with lia; try set_solver. destruct (final_result s); simpl; lia.
  - destruct d; split; simpl; eauto with lia; set_solver.
  - destruct d; split; simpl; eauto with lia; set_solver.
  - pose proof (should_run_solver_extends (gate s) vc cls) as Hg. unfold ask_gate.
    destruct (should_run_solver _ _ _). split; simpl in *; eauto with lia; set_solver.
  - unfold ask_solver. destruct (check_access _ _ _ _ _ _ _) as [[r sv] g] eqn:E.
    pose proof (check_access_queries _ _ _ _ _ _ _ _ _ _ E) as Hq.
    rewrite (check_access_gate _ _ _ _ _ _ _ _ _ _ E) in *.
    split; simpl; eauto using should_run_solver_extends with lia; try set_solver.
    case_match; destruct Hq as [? ?]; subst; lia.
Qed.

Lemma micros_extends `{SmtSolver} s s' : micros s s' -> state_extends s s'.
Proof. induction 1; [done|]. etrans; [by apply micro_extends|done]. Qed.

(** ** The loops *)

Section loops.
Context `{SmtSolver} (dbg : bool) (fuel : nat) (m : Module_).
Context (asm_policy : InlineAsmPolicy) (dma_policy : DmaPolicy).

#[local] Notation step := (step dbg fuel (mod_types m) asm_policy dma_policy (has_irq_risk m)).
#[local] Notation run_instrs := (run_instrs dbg fuel m asm_policy dma_policy).
#[local] Notation run_blocks := (run_blocks dbg fuel m asm_policy dma_policy).
#[local] Notation run_functions := (run_functions dbg fuel m asm_policy dma_policy).

Lemma run_instrs_micros fname bb l s s' :
  run_instrs fname bb l s = Done s' -> micros s s'.
Proof.
  revert s. induction l as [|[idx i] l IH]; intros s; simpl; [intros [= <-]; constructor|].
  intros (f & Hf & Hk)%exec_bind_done. apply step_micro in Hf.
  destruct f; simpl in *; [etrans; eauto|by simplify_eq].
Qed.

Lemma run_blocks_micros fname l s s' :
  run_blocks fname l s = Done s' -> micros s s'.
Proof.
  revert s. induction l as [|[idx bb] l IH]; intros s; simpl; [intros [= <-]; constructor|].
  intros (s1 & Hf & Hk)%exec_bind_done. apply run_instrs_micros in Hf.
  destruct (is_fail _); [by simplify_eq|etrans; eauto].
Qed.

Lemma run_functions_micros l s s' : run_functions l s = Done s' -> micros s s'.
Proof.
  revert s. induction l as [|f l IH]; intros s; simpl; [intros [= <-]; constructor|].
  intros (s1 & Hf & Hk)%exec_bind_done. apply run_blocks_micros in Hf.
  destruct (is_fail _); [by simplify_eq|etrans; eauto].
Qed.

Lemma iommu_check_micros order s : micros s (iommu_check order dma_policy s).
Proof. unfold iommu_check. repeat case_match; eauto with skv. Qed.

Lemma analyze_micros order g s :
  analyze_state dbg fuel order m asm_policy dma_policy g = Done s -> micros (initial_state g) s.
Proof.
  unfold analyze_state.
  destruct (run_functions _ _) as [s0| |] eqn:E; simpl; [intros [= <-]|done..].
  etrans; [by eapply run_functions_micros|apply iommu_check_micros].
Qed.

(** *** A Break is a failure, so a run that does not fail visits everything *)

Lemma access_vc_break fname bb idx id off len kind cls oob unk s s' :
  access_vc fname bb idx id off len kind cls oob unk s = AccBreak s' -> is_fail (final_result s') = true.
Proof.
  unfold access_vc. case_match; [|done]. destruct (ask_solver _ _ _ _ _ _) as [[] ?]; by intros [= <-].
Qed.

Lemma mem_access_break fname bb idx id off len what kind s s' :
  mem_access fname bb idx id off len what kind s = AccBreak s' -> is_fail (final_result s') = true.
Proof. unfold mem_access. case_decide; [by intros [= <-]|apply access_vc_break]. Qed.

Lemma do_call_break fname bb idx call s s' :
  do_call asm_policy dma_policy fname bb idx call s = Break s' -> is_fail (final_result s') = true.
Proof.
  unfold do_call. case_match; [by intros [= <-]|]. case_match.
  - repeat case_decide; try done.
    + unfold do_kmalloc. by repeat case_match.
    + unfold do_kcalloc. repeat case_match; try done. by intros [= <-].
    + unfold do_kfree. repeat case_match; try done. by intros [= <-].
    + unfold do_memset. repeat case_match; try done. intros [= <-]. by eapply mem_access_break.
    + unfold do_memcpy. do 4 (case_match; try done). cbv zeta.
      match goal with |- (if is_fail (final_result ?x) then _ else _) = _ -> _ =>
        destruct (is_fail (final_result x)) eqn:E end; [by intros [= <-]|done].
    + unfold do_dma_alloc. by repeat case_match.
    + unfold do_dma_map. repeat case_match; try done. by intros [= <-].
  - unfold do_inline_asm. repeat case_match; try done. by intros [= <-].
Qed.

Lemma check_address_break risk fname bb idx addr size what no_size s s' :
  check_address risk fname bb idx addr size what no_size s = Done (Break s') ->
  is_fail (final_result s') = true.
Proof.
  unfold check_address. case_match; [|done]. case_match. case_decide; [by intros [= <-]|].
  intros (o & _ & Hk)%exec_bind_done. destruct o; [|done].
  case_match; simplify_eq. by eapply access_vc_break.
Qed.

Lemma step_break fname bb idx i s s' :
  step fname bb idx i s = Done (Break s') -> is_fail (final_result s') = true.
Proof.
  destruct i; simpl; try done.
  - unfold do_add. cbv zeta. repeat case_match; done.
  - unfold do_load. case_match; [|done]. apply check_address_break.
  - unfold do_store. case_match; [|done]. apply check_address_break.
  - unfold do_gep. case_match; [|done]. repeat case_match; try done;
      by intros (? & _ & ?)%exec_bind_done.
  - unfold do_ptrtoint. by repeat case_match.
  - unfold do_inttoptr. by repeat case_match.
  - unfold do_bitcast. by repeat case_match.
  - intros [= Hc]. by eapply do_call_break.
Qed.

(** The instruction was visited in a state that had not failed, and the walk
    went on to a state that [s_end] extends. *)
Definition visited fname bb_idx idx i (s_end : AState) : Prop :=
  exists s s', is_fail (final_result s) = false /\
    step fname bb_idx idx i s = Done (Next s') /\ state_extends s' s_end.

Lemma not_fail_severity s s' :
  state_extends s s' -> is_fail (final_result s') = false -> is_fail (final_result s) = false.
Proof.
  intros [Hs _ _ _ _ _ _ _ _ _]. destruct (final_result s), (final_result s'); simpl in *; try done; lia.
Qed.

Lemma run_instrs_visits fname bb l s s' :
  run_instrs fname bb l s = Done s' -> is_fail (final_result s') = false ->
  Forall (fun p => visited fname bb p.1 p.2 s') l.
Proof.
  intros Hr Hf. revert s Hr. induction l as [|[idx i] l IH]; intros s; simpl; [constructor|].
  intros Hr. pose proof (run_instrs_micros fname bb ((idx, i) :: l) s s' Hr) as Hext%micros_extends.
  apply exec_bind_done in Hr as (f & Hstep & Hk). destruct f as [s1|s1].
  - constructor; [|by eapply IH]. exists s, s1. split_and!; [by eapply not_fail_severity|done|].
    by eapply micros_extends, run_instrs_micros.
  - apply step_break in Hstep. simplify_eq. congruence.
Qed.

Lemma visited_extends fname bb idx i s s' :
  state_extends s s' -> visited fname bb idx i s -> visited fname bb idx i s'.
Proof. intros He (s1 & s2 & ? & ? & ?). exists s1, s2. split_and!; [done..|by etrans]. Qed.

Lemma run_blocks_visits fname l s s' :
  run_blocks fname l s = Done s' -> is_fail (final_result s') = false ->
  Forall (fun b => Forall (fun p => visited fname b.1 p.1 p.2 s') (enumerate (bb_instrs b.2))) l.
Proof.
  intros Hr Hf. revert s Hr. induction l as [|[idx bb] l IH]; intros s; simpl; [constructor|].
  intros (s1 & Hi & Hk)%exec_bind_done.
  assert (state_extends s1 s') as He.
  { destruct (is_fail (final_result s1)); [by simplify_eq|].
    by eapply micros_extends, run_blocks_micros. }
  rewrite (not_fail_severity _ _ He Hf) in Hk. constructor; [|by eapply IH].
  eapply Forall_impl; [eapply run_instrs_visits; [done|by eapply not_fail_severity]|].
  intros [] ?. by eapply visited_extends.
Qed.

(** Every instruction of every function is visited by a run that does not fail. *)
Lemma run_functions_visits l s s' f bb_idx bb idx i :
  run_functions l s = Done s' -> is_fail (final_result s') = false ->
  f ∈ l -> func_basic_blocks f !! bb_idx = Some bb -> bb_instrs bb !! idx = Some i ->
  visited (func_name f) bb_idx idx i s'.
Proof.
  intros Hr Hf Hin Hbb Hi. revert s Hr.
  induction l as [|f' l IH]; intros s; simpl; [by apply elem_of_nil in Hin|].
  intros (s1 & Hb & Hk)%exec_bind_done.
  assert (state_extends s1 s') as He.
  { destruct (is_fail (final_result s1)); [by simplify_eq|].
    by eapply micros_extends, run_functions_micros. }
  rewrite (not_fail_severity _ _ He Hf) in Hk.
  apply elem_of_cons in Hin as [<-|Hin]; [|by eapply IH].
  eapply visited_extends; [done|].
  pose proof (run_blocks_visits _ _ _ _ Hb (not_fail_severity _ _ He Hf)) as Hv.
  rewrite Forall_forall in Hv. specialize (Hv (bb_idx, bb) (proj2 (elem_of_enumerate _ _ _) Hbb)).
  rewrite Forall_forall in Hv. exact (Hv (idx, i) (proj2 (elem_of_enumerate _ _ _) Hi)).
Qed.
End loops.

(** ** What the analysis refuses to pass *)

Definition is_const (o : option Operand) : bool :=
  match o ≫= operand_const_u64 with Some _ => true | None => false end.
Definition is_local (o : option Operand) : bool :=
  match o ≫= operand_local_name with Some _ => true | None => false end.
Definition is_there (o : option Operand) : bool :=
  match o with Some _ => true | None => false end.

(** [kcalloc]'s two constants and their product fit. *)
Definition kcalloc_fits (call : Call) : bool :=
  match arg call 0 ≫= operand_const_u64, arg call 1 ≫= operand_const_u64 with
  | Some n, Some sz => bool_decide (n * sz <= u64_max)%Z
  | _, _ => false
  end.

(** The forms of each instruction the analysis has a rule for. *)
Definition call_recognised (asm_policy : InlineAsmPolicy) (dma_policy : DmaPolicy) (call : Call) : bool :=
  match function_name_of_call call with
  | None =>
      match Call_function call with
      | inl asm => match asm_policy with
                   | Conservative => is_safe_inline_asm (InlineAssembly_assembly asm)
                   | Trap => false
                   end
      | inr _ => true
      end
  | Some f =>
      if decide (f = "kmalloc" \/ f = "kzalloc") then is_const (arg call 0)
      else if decide (f = "kcalloc") then kcalloc_fits call
      else if decide (f = "kfree") then is_local (arg call 0)
      else if decide (f = "memset") then
        negb (is_there (arg call 0))
        || is_there (arg call 2) && (negb (is_local (arg call 0)) || is_const (arg call 2))
      else if decide (f = "memcpy" \/ f = "__memcpy") then
        negb (is_there (arg call 0)) || is_there (arg call 1) && is_const (arg call 2)
      else if decide (f = "dma_alloc_coherent" /\ dma_policy <> Ignore) then is_const (arg call 1)
      else if decide (f = "dma_map_single" /\ dma_policy <> Ignore) then
        is_there (arg call 1) && is_const (arg call 2)
      else true
  end.

Definition recognised (asm_policy : InlineAsmPolicy) (dma_policy : DmaPolicy) (i : Instruction) : bool :=
  match i with
  | ICall call => call_recognised asm_policy dma_policy call
  | IGetElementPtr g => is_local (Some (GetElementPtr_address g))
  | IPtrToInt c => is_local (Some (PtrToInt_operand c))
  | IIntToPtr c => is_local (Some (IntToPtr_operand c))
  | IBitCast c => is_local (Some (BitCast_operand c))
  | _ => true
  end.

Lemma unknown_not_pass r s : final_result (unknown r s) <> APass.
Proof. apply mark_unknown_not_pass. Qed.
#[export] Hint Resolve unknown_not_pass : skv.

(** Close an arm that ended in [mark_unknown] under the hypothesis that the
    result is Pass. *)
Ltac refused :=
  intros [= <-]; intros;
  match goal with H : final_result (unknown _ _) = APass |- _ => by apply unknown_not_pass in H end.

Lemma call_step_recognised `{SmtSolver} asm dma fname bb idx call s s' :
  do_call asm dma fname bb idx call s = Next s' ->
  final_result s' = APass -> call_recognised asm dma call = true.
Proof.
  intros Hs Hp. revert Hs. unfold do_call, call_recognised. case_match; [done|].
  case_match.
  - repeat case_decide; try done.
    + unfold do_kmalloc, is_const. destruct (arg _ 0) as [op|]; simpl; [|refused].
      destruct (operand_const_u64 op); [done|refused].
    + unfold do_kcalloc, kcalloc_fits, u64_checked_mul.
      destruct (arg _ 0) as [op|], (arg _ 1) as [op'|]; simpl; try refused.
      destruct (operand_const_u64 op), (operand_const_u64 op'); try refused.
      case_decide; [|done]. intros _. by apply bool_decide_eq_true.
    + unfold do_kfree, is_local. destruct (arg _ 0) as [op|]; simpl; [|refused].
      destruct (operand_local_name op); [done|refused].
    + unfold do_memset, is_local, is_const, is_there.
      destruct (arg _ 0) as [op|]; simpl; [|done].
      destruct (arg _ 2) as [op'|]; simpl; [|refused].
      destruct (operand_local_name op); simpl; [|done].
      destruct (operand_const_u64 op'); [done|refused].
    + unfold do_memcpy, is_const, is_there. destruct (arg _ 0) as [op|]; simpl; [|done].
      destruct (arg _ 1) as [op'|], (arg _ 2) as [op''|]; simpl; try refused.
      destruct (operand_const_u64 op''); [done|refused].
    + unfold do_dma_alloc, is_const. destruct (arg _ 1) as [op|]; simpl; [|refused].
      destruct (operand_const_u64 op); [done|refused].
    + unfold do_dma_map, is_const, is_there.
      destruct (arg _ 1) as [op'|], (arg _ 2) as [op''|]; simpl; try refused.
      destruct (operand_const_u64 op''); [done|refused].
  - unfold do_inline_asm. destruct (Call_function _) as [a|]; [|done].
    destruct asm; [|done]. destruct (is_safe_inline_asm _); [done|].
    destruct (ask_gate _ _ _) as [[] ?]; refused.
Qed.

Lemma step_recognised `{SmtSolver} dbg fuel T asm dma risk fname bb idx i s s' :
  step dbg fuel T asm dma risk fname bb idx i s = Done (Next s') ->
  final_result s' = APass -> recognised asm dma i = true.
Proof.
  destruct i; simpl; try done.
  - unfold do_gep, is_local. simpl. case_match; [done|refused].
  - intros [= Hs]. revert Hs. unfold do_ptrtoint, is_local. simpl. case_match; [done|refused].
  - intros [= Hs]. revert Hs. unfold do_inttoptr, is_local. simpl. case_match; [done|refused].
  - intros [= Hs]. revert Hs. unfold do_bitcast, is_local. simpl. case_match; [done|refused].
  - intros [= Hs]. by apply call_step_recognised with (1 := Hs).
Qed.

(** ** The theorems about [analyze] *)

Lemma pass_extends s s' :
  state_extends s s' -> final_result s' = APass -> final_result s = APass.
Proof. intros [Hs _ _ _ _ _ _ _ _ _] Hp. rewrite Hp in Hs. destruct (final_result s); simpl in *; (done || lia). Qed.

Section analyze_theorems.
Context `{SmtSolver} (dbg : bool) (fuel : nat) (order : gset nat -> list nat).
Context (m : Module_) (asm_policy : InlineAsmPolicy) (dma_policy : DmaPolicy).

Lemma analyze_done g out g' :
  analyze dbg fuel order m asm_policy dma_policy g = Done (out, g') ->
  exists s, analyze_state dbg fuel order m asm_policy dma_policy g = Done s /\
            out = outcome s /\ g' = gate s.
Proof. unfold analyze. intros (s & Hs & [= <- <-])%exec_bind_done. eauto. Qed.

Lemma analyze_state_inv g s :
  gate_fresh g -> analyze_state dbg fuel order m asm_policy dma_policy g = Done s -> state_inv s.
Proof. intros Hg Ha%analyze_micros. eapply micros_inv; [done|]. by apply initial_state_inv. Qed.

(** The state before the require-iommu check. *)
Lemma analyze_pass g s :
  analyze_state dbg fuel order m asm_policy dma_policy g = Done s -> final_result s = APass ->
  run_functions dbg fuel m asm_policy dma_policy (mod_functions m) (initial_state g) = Done s /\
  (dma_policy = RequireIommu -> forall id, id ∈ order (dma_allocs s) -> id ∈ iommu_mapped s).
Proof.
  unfold analyze_state. destruct (run_functions _ _ _ _ _ _ _) as [s0| |] eqn:E; simpl; [|done..].
  intros [= <-]. unfold iommu_check. destruct dma_policy eqn:Hd; try done.
  destruct (find _ _) eqn:Hf; [done|]. intros _. split; [done|]. intros _ id Hin.
  apply list_elem_of_In in Hin. pose proof (find_none _ _ Hf _ Hin) as Hn.
  by apply negb_false_iff, bool_decide_eq_true in Hn.
Qed.
End analyze_theorems.



(** C12. A Pass means that no opaque assembly and no interrupt race was counted,
    and under the require-iommu policy that every DMA buffer was mapped. *)
Theorem pass_counters `{SmtSolver} dbg fuel order m asm dma g out g' :
  gate_fresh g ->
  (forall S id, id ∈ order S <-> id ∈ S) ->
  analyze dbg fuel order m asm dma g = Done (out, g') ->
  out_result out = APass ->
  out_inline_asm_vcs out = 0 /\ out_irq_race_vcs out = 0 /\
  exists s, analyze_state dbg fuel order m asm dma g = Done s /\
    (dma = RequireIommu -> dma_allocs s = iommu_mapped s).
Proof.
  intros Hg Ho (s & Hs & -> & ->)%analyze_done Hp. simpl in *.
  pose proof (analyze_state_inv _ _ _ _ _ _ _ _ Hg Hs) as Hinv.
  destruct (si_pass s Hinv Hp). split_and!; [done..|].
  exists s. split; [done|]. intros Hd.
  destruct (analyze_pass _ _ _ _ _ _ _ _ Hs Hp) as [_ Hall].
  apply set_eq. intros id. split; [|by apply (si_iommu s Hinv)].
  intros Hin. apply Hall; [done|]. by apply Ho.
Qed.

(** *** Witnesses *)

#[local] Notation analyzed m g :=
  (@analyze eval_solver true 8 elements m Conservative Verify g).
#[local] Notation analyzed_state m g :=
  (@analyze_state eval_solver true 8 elements m Conservative Verify g).

Lemma gate_fresh_open : gate_fresh open_gate.
Proof. by unfold gate_fresh. Qed.



Lemma pass_counters_witness :
  exists out g', analyzed good open_gate = Done (out, g') /\ out_inline_asm_vcs out = 0.
Proof.
  eexists _, _. split; [vm_compute; reflexivity|].
  refine (proj1 (@pass_counters eval_solver true 8 elements good Conservative Verify open_gate
    _ _ gate_fresh_open _ _ _)).
  - intros S id. apply elem_of_elements.
  - vm_compute. reflexivity.
  - vm_compute. reflexivity.
Defined.

(** ** Human in the loop *)

(** Every solver query is a logged condition that was not blocked. *)
Definition queries_logged (s : AState) : Prop :=
  solver_queries (solver s) + length (gate_blocked (gate s)) <= length (gate_seen (gate s)).

Lemma should_run_solver_log g vc cls :
  let '(b, g') := should_run_solver g vc cls in
  length (gate_seen g') = S (length (gate_seen g)) /\
  length (gate_blocked g') = (if b then 0 else 1) + length (gate_blocked g).
Proof.
  unfold should_run_solver. destruct (gate_mode g); simpl.
  - rewrite length_app. simpl. lia.
  - destruct (vc_approved _ _ _); simpl; rewrite !length_app; simpl; lia.
Qed.

Lemma micro_queries `{SmtSolver} s s' : micro s s' -> queries_logged s -> queries_logged s'.
Proof.
  unfold queries_logged. destruct 1; try done; simpl.
  - by destruct d.
  - by destruct d.
  - unfold ask_gate. pose proof (should_run_solver_log (gate s) vc cls) as Hl.
    destruct (should_run_solver _ _ _) as [[] ?]; simpl in *; lia.
  - unfold ask_solver. destruct (check_access _ _ _ _ _ _ _) as [[r sv] g] eqn:E.
    pose proof (check_access_queries _ _ _ _ _ _ _ _ _ _ E) as Hq.
    pose proof (should_run_solver_log (gate s) vc cls) as Hl.
    rewrite (check_access_gate _ _ _ _ _ _ _ _ _ _ E). simpl.
    destruct (should_run_solver _ _ _) as [[] ?]; simpl in *; destruct Hq as [? ?]; subst; lia.
Qed.

Lemma length_filter_split {A} (P : A -> Prop) `{!forall x, Decision (P x)} l :
  length (filter P l) + length (filter (fun x => ~ P x) l) = length l.
Proof.
  induction l as [|x l IH]; [done|]. destruct (decide (P x)).
  - rewrite filter_cons_True, filter_cons_False by (done || tauto). simpl. lia.
  - rewrite filter_cons_False, filter_cons_True by done. simpl. lia.
Qed.



Lemma require_mode_approved `{SmtSolver} dbg fuel order m asm dma g out g' :
  gate_fresh g -> gate_mode g = HitlRequire ->
  analyze dbg fuel order m asm dma g = Done (out, g') ->
  enforce_hitl_policy (out_result out) (gate_mode g) (out_hitl_blocked_vcs out) = APass ->
  out_result out = APass /\
  Forall (fun p => p.1 ∈ gate_approved g \/ p.2 ∈ gate_approved_classes g)
    (zip (gate_seen g') (gate_seen_classes g')).
Proof.
  intros Hg Hm (s & Hs & -> & ->)%analyze_done Hp. simpl in *.
  pose proof (analyze_state_inv _ _ _ _ _ _ _ _ Hg Hs) as Hinv.
  destruct (se_gate _ _ (micros_extends _ _ (analyze_micros _ _ _ _ _ _ _ _ Hs)))
    as [Hmode Hap Hcl _ _ _]. simpl in *. rewrite <- Hmode in Hp.
  destruct (enforce_pass _ _ (si_gate s Hinv) (eq_trans Hmode Hm) Hp) as [Hr Hall].
  split; [done|]. eapply Forall_impl; [exact Hall|].
  intros p. unfold vc_approved. rewrite Hap, Hcl, orb_true_iff, !bool_decide_eq_true. done.
Qed.

(** C5. End to end, the gate is fail closed: in require mode the decision taken
    from an analysis is Pass only if the analysis passed and every condition it
    logged, solved or merely announced, was approved by the reviewer's own sets
    as given at the start. *)
Theorem require_mode_end_to_end `{SmtSolver} dbg fuel order m asm dma g out g' :
  gate_fresh g -> gate_mode g = HitlRequire ->
  analyze dbg fuel order m asm dma g = Done (out, g') ->
  enforce_hitl_policy (out_result out) (gate_mode g) (out_hitl_blocked_vcs out) = APass ->
  out_result out = APass /\
  Forall (fun p => p.1 ∈ gate_approved g \/ p.2 ∈ gate_approved_classes g)
    (zip (gate_seen g') (gate_seen_classes g')).
Proof. apply require_mode_approved. Qed.

Lemma require_mode_end_to_end_witness :
  let g := strict_gate {["f::bb0::i2::store"; "f::bb0::i3::load"; "f::bb0::i4::memset"]} in
  exists out g', analyzed good g = Done (out, g') /\ out_result out = APass.
Proof.
  eexists _, _. split; [vm_compute; reflexivity|].
  refine (proj1 (@require_mode_end_to_end eval_solver true 8 elements good Conservative Verify
    (strict_gate {["f::bb0::i2::store"; "f::bb0::i3::load"; "f::bb0::i4::memset"]}) _ _ _ eq_refl _ _)).
  - by unfold gate_fresh.
  - vm_compute. reflexivity.
  - vm_compute. reflexivity.
Defined.
