(* ===== verification/Termination.v ===== *)
(** * Termination: [analyze] returns, and the fuel does not matter

    The only unbounded recursion of the analysis goes through named structs.
    When the module's structs do not contain themselves some depth is enough for
    the whole module, and any larger one gives the same outcome. *)

From S2P Require Import Prelude Text Types Constants Instr Smt Gate Analyzer Samples Sizes.
From stdpp Require Import base gmap list strings.
From Stdlib Require Import ZArith Lia.
#[local] Open Scope string_scope.

(** A computation that takes fuel and settles: from some fuel on it has one
    outcome and that is not divergence. *)
Definition settles {A} (f : nat -> exec A) : Prop :=
  exists n r, r <> Diverge /\ forall k, n <= k -> f k = r.

Lemma settles_const {A} (r : exec A) : r <> Diverge -> settles (fun _ => r).
Proof. intros. by exists 0, r. Qed.

Lemma settles_bind {A B} (f : nat -> exec A) (g : nat -> A -> exec B) :
  settles f -> (forall a, settles (fun k => g k a)) -> settles (fun k => f k ≫= g k).
Proof.
  intros (n & r & Hr & Hf) Hg. destruct r as [a| |]; [|exists n, Panic|done].
  - destruct (Hg a) as (n' & r' & Hr' & Hg'). exists (n `max` n'), r'. split; [done|].
    intros k Hk. rewrite Hf by lia. simpl. apply Hg'. lia.
  - split; [done|]. intros k Hk. by rewrite Hf.
Qed.

Lemma settles_ext {A} (f g : nat -> exec A) : (forall k, f k = g k) -> settles f -> settles g.
Proof. intros He (n & r & Hr & Hf). exists n, r. split; [done|]. intros. rewrite <- He. auto. Qed.

#[local] Hint Resolve settles_const : skv.

Section settle.
Context `{SmtSolver} (dbg : bool) (m : Module_) (rank : string -> nat).
Context (asm_policy : InlineAsmPolicy) (dma_policy : DmaPolicy).
Hypothesis Hwf : well_founded_defs (mod_types m) rank.

#[local] Notation T := (mod_types m).

Lemma type_size_settles ty : settles (fun k => type_size dbg T k ty).
Proof using Hwf.
  destruct (type_converges_always dbg T rank ty Hwf) as [n Hn].
  exists n, (type_size dbg T n ty). split; [auto|]. intros k Hk.
  destruct (type_size_mono dbg T n k ty Hk) as [E|E]; [|done]. destruct (Hn n); [lia|done].
Qed.

Lemma gep_offsets_settles idxs first base_ty computed :
  settles (fun k => gep_offsets dbg T k first base_ty computed idxs).
Proof using Hwf.
  revert first computed. induction idxs as [|idx idxs IH]; intros first computed; simpl.
  - by apply settles_const.
  - destruct idx as [|c|]; simpl; [by apply settles_const| |by apply settles_const].
    destruct c; try by apply settles_const.
    destruct first; [|apply IH].
    apply settles_bind.
    + destruct base_ty; try apply type_size_settles. by apply settles_const.
    + intros [sz|]; [apply IH|by apply settles_const].
Qed.

Lemma infer_gep_settles gep off : settles (fun k => infer_gep_offset dbg T k gep off).
Proof using Hwf.
  unfold infer_gep_offset. destruct (GetElementPtr_indices gep) as [|[|c|] idxs];
    try by apply settles_const.
  destruct c; try by apply settles_const.
  apply settles_bind; [apply settles_const, Operand_type_returns|].
  intros ty. apply gep_offsets_settles.
Qed.

Lemma check_address_settles risk fname bb idx addr (size : nat -> exec (option Z)) what no_size s :
  settles size ->
  settles (fun k => check_address risk fname bb idx addr (size k) what no_size s).
Proof using Type.
  intros Hsz. unfold check_address.
  destruct (ptr_env s !! addr ≫= ptrval_alloc_info) as [[id off]|]; [|by apply settles_const].
  case_decide; [by apply settles_const|]. apply settles_bind; [done|].
  intros [len|]; [|by apply settles_const].
  destruct (access_vc _ _ _ _ _ _ _ _ _ _ _); by apply settles_const.
Qed.

Lemma step_settles fname bb idx i s :
  settles (fun k => step dbg k T asm_policy dma_policy (has_irq_risk m) fname bb idx i s).
Proof using Hwf.
  destruct i; simpl; try by apply settles_const.
  - unfold do_load. case_match; [|by apply settles_const].
    apply check_address_settles, type_size_settles.
  - unfold do_store. case_match; [|by apply settles_const].
    apply (check_address_settles _ _ _ _ _ (fun k => Operand_type dbg T _ ≫= type_size dbg T k)).
    apply settles_bind; [apply settles_const, Operand_type_returns|].
    intros ty. apply type_size_settles.
  - unfold do_gep. case_match; [|by apply settles_const].
    match goal with |- settles (fun k => match ?x with _ => _ end) =>
      destruct x as [[]|] end; try by apply settles_const.
    all: apply settles_bind; [apply infer_gep_settles|intros; by apply settles_const].
Qed.

Lemma run_instrs_settles fname bb l s :
  settles (fun k => run_instrs dbg k m asm_policy dma_policy fname bb l s).
Proof using Hwf.
  revert s. induction l as [|[idx i] l IH]; intros s; simpl; [by apply settles_const|].
  apply settles_bind; [apply step_settles|]. intros [s'|s']; [apply IH|by apply settles_const].
Qed.

Lemma run_blocks_settles fname l s :
  settles (fun k => run_blocks dbg k m asm_policy dma_policy fname l s).
Proof using Hwf.
  revert s. induction l as [|[idx bb] l IH]; intros s; simpl; [by apply settles_const|].
  apply settles_bind; [apply run_instrs_settles|]. intros s'.
  destruct (is_fail _); [by apply settles_const|apply IH].
Qed.

Lemma run_functions_settles l s :
  settles (fun k => run_functions dbg k m asm_policy dma_policy l s).
Proof using Hwf.
  revert s. induction l as [|f l IH]; intros s; simpl; [by apply settles_const|].
  apply settles_bind; [apply run_blocks_settles|]. intros s'.
  destruct (is_fail _); [by apply settles_const|apply IH].
Qed.
End settle.

(** C15. The analysis terminates: for a module whose named structs do not
    contain themselves there is one outcome, a report or a panic, that the
    analysis reaches with every sufficiently large recursion depth, whatever
    the solver answers and whatever the policies. *)
Theorem analyze_terminates `{SmtSolver} dbg order m rank asm dma g :
  well_founded_defs (mod_types m) rank ->
  settles (fun fuel => analyze dbg fuel order m asm dma g).
Proof.
  intros Hwf. unfold analyze, analyze_state.
  apply (settles_bind (fun k => iommu_check order dma <$> run_functions dbg k m asm dma _ _)).
  - destruct (run_functions_settles dbg m rank asm dma Hwf (mod_functions m) (initial_state g))
      as (n & r & Hr & Hn).
    exists n, (iommu_check order dma <$> r). split; [by destruct r|]. intros k Hk. by rewrite Hn.
  - intros s. by apply settles_const.
Qed.

Lemma analyze_terminates_witness :
  well_founded_defs (mod_types good) (fun _ => 0) /\
  settles (fun fuel => @analyze eval_solver true fuel elements good Conservative Verify open_gate).
Proof.
  assert (well_founded_defs (mod_types good) (fun _ => 0)) as Hwf.
  { intros name inner. unfold types_named_struct_def. simpl. by rewrite lookup_empty. }
  split; [exact Hwf|]. exact (@analyze_terminates eval_solver true elements good _ Conservative
    Verify open_gate Hwf).
Defined.

(** A struct that contains itself, which well-formed IR rules out, would
    exhaust the stack. *)
Example self_containing_struct_diverges fuel dbg :
  type_size dbg (with_named_struct_defs TypesBuilder_new
    {["a" := Defined_ (StructType [NamedStructType "a"] false)]}) fuel (NamedStructType "a") = Diverge.
Proof.
  set (T := with_named_struct_defs _ _).
  assert (types_named_struct_def T "a" = Some (Defined_ (StructType [NamedStructType "a"] false))) as Hd
    by (vm_compute; reflexivity).
  induction fuel as [|[|fuel] IH]; [done| |].
  - rewrite type_size_unfold. simpl. by rewrite Hd.
  - rewrite type_size_unfold. simpl resolve_named_type. rewrite Hd.
    destruct fuel; simpl resolve_named_type; cbn [mbind exec_bind size_of_resolved sum_sizes]; by rewrite IH.
Qed.
