(* ===== verification/MemSafety.v ===== *)
(** * MemSafety: what a Pass proves about the program

    A concrete semantics of the IR the analyzer reads, in the style of a block
    memory: heap blocks with a size and a liveness bit, pointers as a block and a
    64-bit offset, stack slots, every other value a number.  It is independent
    of the analysis: it follows the terminators, chooses any successor, and any
    value for what it does not track (heap contents, arguments, results of other
    instructions).  Each step emits the memory events it performs.

    The theorem: on a module of the shape the analysis is designed for
    ([cov_module]: names assigned once and before their uses, loops that free only
    what they allocate, addresses derived from allocations, pointers spilled in the
    entry block only), a Pass means that no execution of any of its functions
    accesses memory out of bounds or after a free, or frees twice.  The simulation
    is in [MemSim], the theorem in [MemSound], with the programs that each part of
    the shape excludes. *)

From S2P Require Import Prelude Text Types Constants Instr Smt Gate Analyzer Samples Sizes AnalyzerInv.
From stdpp Require Import base gmap list strings.
From Stdlib Require Import ZArith Lia.
#[local] Open Scope string_scope.

(** ** Concrete states and events *)

Inductive Val :=
  | VPtr (b : nat) (off : Z)
  | VSlot (a : Name)
  | VNum (z : Z).

Record CBlock := mk_CBlock { cb_size : Z; cb_live : bool }.

Record CState := mk_CState {
  c_env : gmap Name Val;
  c_blocks : list CBlock;
  c_slots : gmap Name Val
}.

Inductive event :=
  | EvAccess (blk : CBlock) (off len : Z)   (* a read or a write *)
  | EvFree (blk : CBlock)
  | EvMap (blk : CBlock) (off len : Z)      (* a DMA mapping *)
  | EvWild                                  (* an access through no block *)
  | EvOpaque.                               (* code that may do anything *)

Definition safe_event (e : event) : Prop :=
  match e with
  | EvAccess k off len => cb_live k = true /\ in_bounds (cb_size k) off len
  | EvFree k => cb_live k = true
  | EvMap k off len => in_bounds (cb_size k) off len
  | EvWild | EvOpaque => False
  end.

(** ** Values and sizes *)

Definition wrap64 (z : Z) : Z := (z mod u64_modulus)%Z.

Inductive ceval (c : CState) : Operand -> Val -> Prop :=
  | ce_local n ty v : c_env c !! n = Some v -> ceval c (LocalOperand n ty) v
  | ce_int bits z : ceval c (ConstantOperand (CInt bits z)) (VNum z)
  | ce_const k z : operand_const_u64 (ConstantOperand k) = None -> ceval c (ConstantOperand k) (VNum z)
  | ce_metadata z : ceval c MetadataOperand (VNum z).

(** Bytes a load or store of a scalar moves. *)
Definition scalar_len (ty : Ty) : option Z :=
  match ty with
  | IntegerType bits => if decide (0 <= bits)%Z then Some (u64_div_ceil bits 8) else None
  | PointerType _ => Some 8%Z
  | _ => None
  end.

Definition value_ty (op : Operand) : option Ty :=
  match op with
  | LocalOperand _ ty => Some ty
  | ConstantOperand (CInt bits _) => Some (IntegerType bits)
  | ConstantOperand (CNull ty) => Some ty
  | _ => None
  end.

(** Distance of consecutive elements: integers of a machine width, pointers and
    arrays of them, which have no padding. *)
Fixpoint elem_bytes (ty : Ty) : option Z :=
  match ty with
  | IntegerType bits =>
      if decide (bits = 8 \/ bits = 16 \/ bits = 32 \/ bits = 64)%Z then Some (bits / 8)%Z else None
  | PointerType _ => Some 8%Z
  | ArrayType e n => (fun s => s * n)%Z <$> elem_bytes e
  | _ => None
  end.

Definition signed_index (bits v : Z) : Z :=
  (if decide (v < 2 ^ (bits - 1)) then v else v - 2 ^ bits)%Z.

(** What [getelementptr] adds to an address. *)
Fixpoint gep_walk (ty : Ty) (idxs : list Operand) : option Z :=
  match idxs with
  | [] => Some 0%Z
  | ConstantOperand (CInt bits v) :: rest =>
      match ty with
      | ArrayType e _ =>
          match elem_bytes e, gep_walk e rest with
          | Some s, Some d => Some (signed_index bits v * s + d)%Z
          | _, _ => None
          end
      | _ => None
      end
  | _ => None
  end.

Definition gep_delta (g : GetElementPtr) : option Z :=
  match GetElementPtr_indices g with
  | ConstantOperand (CInt bits v) :: rest =>
      match elem_bytes (GetElementPtr_source_element_type g),
            gep_walk (GetElementPtr_source_element_type g) rest with
      | Some s, Some d => Some (signed_index bits v * s + d)%Z
      | _, _ => None
      end
  | _ => None
  end.

(** ** Effects *)

Definition set_env (d : Name) (v : Val) (c : CState) : CState :=
  mk_CState (<[d := v]> (c_env c)) (c_blocks c) (c_slots c).
Definition set_env_opt (d : option Name) (v : Val) (c : CState) : CState :=
  match d with Some n => set_env n v c | None => c end.
Definition set_slot (a : Name) (v : Val) (c : CState) : CState :=
  mk_CState (c_env c) (c_blocks c) (<[a := v]> (c_slots c)).
Definition new_block (size : Z) (d : option Name) (c : CState) : CState :=
  set_env_opt d (VPtr (length (c_blocks c)) 0)
    (mk_CState (c_env c) (c_blocks c ++ [mk_CBlock size true]) (c_slots c)).
Definition kill_block (b : nat) (c : CState) : CState :=
  mk_CState (c_env c) (alter (fun k => mk_CBlock (cb_size k) false) b (c_blocks c)) (c_slots c).

(** The event of touching [len] bytes at [v]; the stack is not heap memory. *)
Definition touch (ev : CBlock -> Z -> event) (v : Val) (c : CState) : list event :=
  match v with
  | VPtr b off => match c_blocks c !! b with Some k => [ev k off] | None => [EvWild] end
  | VSlot _ => []
  | VNum _ => [EvWild]
  end.
Definition access_events (v : Val) (len : Z) : CState -> list event :=
  touch (fun k off => EvAccess k off len) v.

(** [v] moved by [z] bytes; arithmetic on anything but a heap pointer gives
    some number. *)
Inductive moved (v : Val) (z : Z) : Val -> Prop :=
  | mv_ptr b off : v = VPtr b off -> moved v z (VPtr b (wrap64 (off + z)))
  | mv_num z' : (forall b off, v <> VPtr b off) -> moved v z (VNum z').

(** Other instructions that reach memory. *)
Definition other_memory (i : Instruction) : bool :=
  match i with ICmpXchg _ | IAtomicRMW _ | IVAArg _ => true | _ => false end.

(** Instructions with a rule of their own below. *)
Definition has_rule (i : Instruction) : bool :=
  match i with
  | IAlloca _ | ICall _ | IGetElementPtr _ | IPtrToInt _ | IIntToPtr _ | IAdd _ | ISub _
  | IBitCast _ | IStore _ | ILoad _ => true
  | _ => false
  end.

(** ** Steps *)

Definition allocators : list string := ["kmalloc"; "kzalloc"].
Definition copiers : list string := ["memcpy"; "__memcpy"].
Definition modelled_calls : list string :=
  (allocators ++ copiers ++
   ["kcalloc"; "kfree"; "memset"; "dma_alloc_coherent"; "dma_map_single"; "iommu_map"])%list.

(** The kernel functions the analyzer knows, as the kernel documents them;
    allocations succeed.  Any other call is opaque. *)
Inductive call_step (call : Call) (c : CState) : list event -> CState -> Prop :=
  | cs_alloc f op size :
      function_name_of_call call = Some f -> f ∈ allocators ->
      arg call 0 = Some op -> ceval c op (VNum size) -> in_u64 size ->
      call_step call c [] (new_block size (Call_dest call) c)
  | cs_kcalloc op op' n size :
      function_name_of_call call = Some "kcalloc" ->
      arg call 0 = Some op -> ceval c op (VNum n) -> in_u64 n ->
      arg call 1 = Some op' -> ceval c op' (VNum size) -> in_u64 size ->
      (n * size <= u64_max)%Z ->
      call_step call c [] (new_block (n * size) (Call_dest call) c)
  | cs_kcalloc_null op op' n size :
      function_name_of_call call = Some "kcalloc" ->
      arg call 0 = Some op -> ceval c op (VNum n) ->
      arg call 1 = Some op' -> ceval c op' (VNum size) ->
      (u64_max < n * size)%Z ->
      call_step call c [] (set_env_opt (Call_dest call) (VNum 0) c)
  | cs_dma_alloc op size :
      function_name_of_call call = Some "dma_alloc_coherent" ->
      arg call 1 = Some op -> ceval c op (VNum size) -> in_u64 size ->
      call_step call c [] (new_block size (Call_dest call) c)
  | cs_kfree op b off k res :
      function_name_of_call call = Some "kfree" ->
      arg call 0 = Some op -> ceval c op (VPtr b off) -> c_blocks c !! b = Some k ->
      call_step call c [EvFree k] (set_env_opt (Call_dest call) res (kill_block b c))
  | cs_kfree_other op v res :
      function_name_of_call call = Some "kfree" ->
      arg call 0 = Some op -> ceval c op v -> (forall b off, v <> VPtr b off) ->
      call_step call c [EvWild] (set_env_opt (Call_dest call) res c)
  | cs_memset op op' v len res :
      function_name_of_call call = Some "memset" ->
      arg call 0 = Some op -> ceval c op v ->
      arg call 2 = Some op' -> ceval c op' (VNum len) -> in_u64 len ->
      call_step call c (access_events v len c) (set_env_opt (Call_dest call) res c)
  | cs_memcpy f op op' op'' v v' len res :
      function_name_of_call call = Some f -> f ∈ copiers ->
      arg call 0 = Some op -> ceval c op v ->
      arg call 1 = Some op' -> ceval c op' v' ->
      arg call 2 = Some op'' -> ceval c op'' (VNum len) -> in_u64 len ->
      call_step call c (access_events v len c ++ access_events v' len c)
        (set_env_opt (Call_dest call) res c)
  | cs_dma_map op op' v len res :
      function_name_of_call call = Some "dma_map_single" ->
      arg call 1 = Some op -> ceval c op v ->
      arg call 2 = Some op' -> ceval c op' (VNum len) -> in_u64 len ->
      call_step call c (touch (fun k off => EvMap k off len) v c)
        (set_env_opt (Call_dest call) res c)
  | cs_iommu_map res :
      function_name_of_call call = Some "iommu_map" ->
      call_step call c [] (set_env_opt (Call_dest call) res c)
  | cs_opaque c' :
      (forall f, function_name_of_call call = Some f -> f ∉ modelled_calls) ->
      call_step call c [EvOpaque] c'.

(** A slot holds what was stored when both accesses have its eight bytes. *)
Inductive slot_read (c : CState) (a : Name) (len : Z) : Val -> Prop :=
  | sr_exact v : len = 8%Z -> c_slots c !! a = Some v -> slot_read c a len v
  | sr_any v : len <> 8%Z \/ c_slots c !! a = None -> slot_read c a len v.

Inductive cstep : Instruction -> CState -> list event -> CState -> Prop :=
  | st_call call c evs c' : call_step call c evs c' -> cstep (ICall call) c evs c'
  | st_alloca a c :
      cstep (IAlloca a) c []
        (mk_CState (<[Alloca_dest a := VSlot (Alloca_dest a)]> (c_env c)) (c_blocks c)
           (delete (Alloca_dest a) (c_slots c)))
  | st_gep g c v z r :
      ceval c (GetElementPtr_address g) v -> gep_delta g = Some z -> moved v z r ->
      cstep (IGetElementPtr g) c [] (set_env (GetElementPtr_dest g) r c)
  | st_gep_any g c r :
      gep_delta g = None -> cstep (IGetElementPtr g) c [] (set_env (GetElementPtr_dest g) r c)
  | st_ptrtoint p c v :
      ceval c (PtrToInt_operand p) v -> PtrToInt_to_type p = IntegerType 64 ->
      cstep (IPtrToInt p) c [] (set_env (PtrToInt_dest p) v c)
  | st_ptrtoint_narrow p c z :
      PtrToInt_to_type p <> IntegerType 64 ->
      cstep (IPtrToInt p) c [] (set_env (PtrToInt_dest p) (VNum z) c)
  | st_inttoptr p c v :
      ceval c (IntToPtr_operand p) v -> cstep (IIntToPtr p) c [] (set_env (IntToPtr_dest p) v c)
  | st_bitcast p c v :
      ceval c (BitCast_operand p) v -> cstep (IBitCast p) c [] (set_env (BitCast_dest p) v c)
  | st_add_l a c v z r :
      ceval c (Add_operand0 a) v -> ceval c (Add_operand1 a) (VNum z) -> moved v z r ->
      cstep (IAdd a) c [] (set_env (Add_dest a) r c)
  | st_add_r a c v z r :
      ceval c (Add_operand0 a) (VNum z) -> ceval c (Add_operand1 a) v -> moved v z r ->
      cstep (IAdd a) c [] (set_env (Add_dest a) r c)
  | st_add_other a c v v' z :
      ceval c (Add_operand0 a) v -> ceval c (Add_operand1 a) v' ->
      (forall n, v <> VNum n) -> (forall n, v' <> VNum n) ->
      cstep (IAdd a) c [] (set_env (Add_dest a) (VNum z) c)
  | st_sub a c v z r :
      ceval c (Sub_operand0 a) v -> ceval c (Sub_operand1 a) (VNum z) -> moved v (- z) r ->
      cstep (ISub a) c [] (set_env (Sub_dest a) r c)
  | st_sub_ptr a c v v' z :
      ceval c (Sub_operand0 a) v -> ceval c (Sub_operand1 a) v' -> (forall n, v' <> VNum n) ->
      cstep (ISub a) c [] (set_env (Sub_dest a) (VNum z) c)
  | st_store st c v v' ty len :
      ceval c (Store_address st) v -> ceval c (Store_value st) v' ->
      value_ty (Store_value st) = Some ty -> scalar_len ty = Some len ->
      cstep (IStore st) c (access_events v len c)
        (match v with VSlot a => set_slot a v' c | _ => c end)
  | st_store_narrow st c a v' ty len :
      ceval c (Store_address st) (VSlot a) ->
      value_ty (Store_value st) = Some ty -> scalar_len ty = Some len -> len <> 8%Z ->
      cstep (IStore st) c [] (set_slot a v' c)
  | st_store_opaque st c c' :
      value_ty (Store_value st) ≫= scalar_len = None -> cstep (IStore st) c [EvOpaque] c'
  | st_load_slot ld c a v len :
      ceval c (Load_address ld) (VSlot a) -> scalar_len (Load_loaded_ty ld) = Some len ->
      slot_read c a len v ->
      cstep (ILoad ld) c [] (set_env (Load_dest ld) v c)
  | st_load ld c v r len :
      ceval c (Load_address ld) v -> (forall a, v <> VSlot a) ->
      scalar_len (Load_loaded_ty ld) = Some len ->
      cstep (ILoad ld) c (access_events v len c) (set_env (Load_dest ld) r c)
  | st_load_opaque ld c c' :
      scalar_len (Load_loaded_ty ld) = None -> cstep (ILoad ld) c [EvOpaque] c'
  | st_memory i c c' : other_memory i = true -> cstep i c [EvOpaque] c'
  | st_other i c r :
      other_memory i = false -> has_rule i = false ->
      cstep i c [] (set_env_opt (try_get_result i) r c).

(** ** Control *)

Definition successors (t : Terminator) : list Name :=
  match t with
  | TBr d _ => [d]
  | TCondBr _ t f _ => [t; f]
  | TSwitch _ ds d _ => (map snd ds ++ [d])%list
  | TIndirectBr _ ds _ => ds
  | TInvoke _ _ _ _ _ r e _ _ _ => [r; e]
  | TCleanupRet _ u _ | TCatchSwitch _ _ u _ _ =>
      (match t with TCatchSwitch _ hs _ _ _ => hs | _ => [] end ++ option_list u)%list
  | TCatchRet _ s _ => [s]
  | TCallBr _ _ _ _ r _ _ _ => [r]
  | TRet _ _ | TResume _ _ | TUnreachable _ => []
  end.

(** Terminators that transfer control and do nothing else. *)
Definition plain_term (t : Terminator) : bool :=
  match t with
  | TRet _ _ | TBr _ _ | TCondBr _ _ _ _ | TSwitch _ _ _ _ | TIndirectBr _ _ _ | TUnreachable _ => true
  | _ => false
  end.

Definition term_events (t : Terminator) : list event :=
  if plain_term t then [] else [EvOpaque].

(** What is left of the current block, its terminator, and the memory. *)
Definition Cfg : Type := list Instruction * Terminator * CState.

Inductive mstep (f : Function_) : Cfg -> list event -> Cfg -> Prop :=
  | ms_instr i is_ t c evs c' : cstep i c evs c' -> mstep f (i :: is_, t, c) evs (is_, t, c')
  | ms_jump t c n bb :
      n ∈ successors t -> get_bb_by_name f n = Some bb ->
      mstep f ([], t, c) (term_events t) (bb_instrs bb, bb_term bb, c).

Inductive execution (f : Function_) : Cfg -> list event -> Cfg -> Prop :=
  | ex_nil cfg : execution f cfg [] cfg
  | ex_step cfg evs cfg' evs' cfg'' :
      mstep f cfg evs cfg' -> execution f cfg' evs' cfg'' -> execution f cfg (evs ++ evs') cfg''.

Definition param_names (f : Function_) : gset Name :=
  list_to_set (map param_name (func_parameters f)).

(** The start of a call: the entry block, any arguments, any heap. *)
Definition starts (f : Function_) (cfg : Cfg) : Prop :=
  exists bb c, head (func_basic_blocks f) = Some bb /\ cfg = (bb_instrs bb, bb_term bb, c) /\
    dom (c_env c) ⊆ param_names f /\ c_slots c = ∅.

(** ** Names assigned *)

Definition dests (i : Instruction) : gset Name :=
  match try_get_result i with Some n => {[n]} | None => ∅ end.

Definition all_dests (l : list Instruction) : gset Name := ⋃ (map dests l).

(** ** Branches back

    A name is available in block [k] when every path there has assigned it, in
    blocks before [k]: [avail] iterates the equations of dominance over the
    blocks, and [structured] checks its solution, that each instruction reads
    available names, and that no branch goes back to the entry block. *)

Definition operand_names (op : Operand) : gset Name :=
  match operand_local_name op with Some n => {[n]} | None => ∅ end.

(** The names whose values the effect of an instruction depends on *)
Definition reads (i : Instruction) : gset Name :=
  match i with
  | ICall call => ⋃ (map (fun p => operand_names p.1) (Call_arguments call))
  | IGetElementPtr g => operand_names (GetElementPtr_address g)
  | IPtrToInt p => operand_names (PtrToInt_operand p)
  | IIntToPtr p => operand_names (IntToPtr_operand p)
  | IBitCast p => operand_names (BitCast_operand p)
  | IAdd a => operand_names (Add_operand0 a) ∪ operand_names (Add_operand1 a)
  | ISub a => operand_names (Sub_operand0 a) ∪ operand_names (Sub_operand1 a)
  | IStore st => operand_names (Store_address st) ∪ operand_names (Store_value st)
  | ILoad ld => operand_names (Load_address ld)
  | _ => ∅
  end.

Definition block_index (f : Function_) (n : Name) : option nat :=
  fst <$> list_find (fun bb => bb_name bb = n) (func_basic_blocks f).
Definition blocks_dests (l : list BasicBlock) : gset Name :=
  ⋃ (map (fun bb => all_dests (bb_instrs bb)) l).
Definition before (f : Function_) (k : nat) : gset Name :=
  blocks_dests (take k (func_basic_blocks f)) ∪ param_names f.

Definition avail_block (f : Function_) (A : list (gset Name)) (k : nat) : gset Name :=
  let into := omap (fun p =>
      if decide (Some k ∈ map (block_index f) (successors (bb_term (snd p))))
      then Some (default ∅ (A !! fst p) ∪ all_dests (bb_instrs (snd p))) else None)
    (enumerate (func_basic_blocks f)) in
  foldr (∩) (before f k) into.
Definition avail (f : Function_) : list (gset Name) :=
  let ks := seq 0 (length (func_basic_blocks f)) in
  Nat.iter (length ks) (fun A => map (avail_block f A) ks) (map (before f) ks).

Fixpoint reads_available (P : gset Name) (l : list Instruction) : bool :=
  match l with
  | [] => true
  | i :: l' => bool_decide (reads i ⊆ P) && reads_available (dests i ∪ P) l'
  end.

Definition edge_ok (f : Function_) (A : list (gset Name)) (k : nat) (bb : BasicBlock) (n : Name) : bool :=
  match block_index f n with
  | None => true
  | Some k' =>
      bool_decide (default ∅ (A !! k') ⊆ default ∅ (A !! k) ∪ all_dests (bb_instrs bb)) &&
      (bool_decide (k < k') || (bool_decide (1 <= k') && bool_decide (default ∅ (A !! k') ⊆ before f k')))
  end.
Definition assigned_before (f : Function_) (A : list (gset Name)) : bool :=
  forallb (fun '(k, bb) =>
      reads_available (default ∅ (A !! k)) (bb_instrs bb) &&
      forallb (edge_ok f A k bb) (successors (bb_term bb)))
    (enumerate (func_basic_blocks f)).
Definition structured (f : Function_) : bool := assigned_before f (avail f).

(** A branch back from the end of block [k] to block [k']: of the allocations the
    analysis knew when it entered [k'], the blocks from [k'] to [k] free none. *)
Section loops.
Context `{SmtSolver} (dbg : bool) (fuel : nat) (m : Module_).
Context (asm_policy : InlineAsmPolicy) (dma_policy : DmaPolicy).

Definition frees_own (s s' : AState) : bool :=
  bool_decide (set_Forall (fun id => alloc_sizes s !! id = None \/ id ∈ freed_allocs s) (freed_allocs s')).

Definition loop_ok (f : Function_) (s : AState) (k : nat) (n : Name) : bool :=
  let after k := run_blocks dbg fuel m asm_policy dma_policy (func_name f)
                   (take k (enumerate (func_basic_blocks f))) s in
  match block_index f n with
  | None => true
  | Some k' =>
      bool_decide (k < k') || match after k', after (S k) with
                   | Done s1, Done s2 => frees_own s1 s2
                   | _, _ => false
                   end
  end.
Definition loops_ok (f : Function_) (s : AState) : bool :=
  forallb (fun '(k, bb) => forallb (loop_ok f s k) (successors (bb_term bb)))
    (enumerate (func_basic_blocks f)).
End loops.

(** ** The programs the analysis is designed for *)

Definition kind_at (s : AState) (op : option Operand) : option PtrVal :=
  op ≫= fun o => operand_local_name o ≫= fun n => ptr_env s !! n.

(** The address is a tracked heap pointer; a tracked pointer of either kind; the
    name of a stack slot. *)
Definition heap_addr (s : AState) (op : option Operand) : bool :=
  match kind_at s op with Some (Kmalloc _ _) => true | _ => false end.
Definition tracked_addr (s : AState) (op : option Operand) : bool :=
  match kind_at s op with Some (Kmalloc _ _) | Some (DmaAlloc _ _) => true | _ => false end.
Definition slot_of (s : AState) (op : Operand) : option Name :=
  match operand_local_name op with
  | Some n => if decide (n ∈ alloca_names s) then Some n else None
  | None => None
  end.

Section cover.
Context `{SmtSolver} (dbg : bool) (fuel : nat) (m : Module_).
Context (asm_policy : InlineAsmPolicy) (dma_policy : DmaPolicy).
(** the slots that ever hold a tracked pointer *)
Context (spill : gset Name).

#[local] Notation T := (mod_types m).

Definition cov_call (call : Call) (s : AState) : bool :=
  match function_name_of_call call with
  | Some f =>
      if decide (f ∈ allocators \/ f = "kcalloc" \/ f = "iommu_map" \/ f = "dma_alloc_coherent") then true
      else if decide (f = "kfree" \/ f = "memset") then heap_addr s (arg call 0)
      else if decide (f ∈ copiers) then heap_addr s (arg call 0) && heap_addr s (arg call 1)
      else if decide (f = "dma_map_single") then
        bool_decide (dma_policy <> Ignore) && tracked_addr s (arg call 1)
      else false
  | None => false
  end.

(** The analyzer's scaling agrees with the type's layout, modulo 2^64. *)
Definition gep_agrees (g : GetElementPtr) : bool :=
  match infer_gep_offset dbg T fuel g (Int_from_u64 0), gep_delta g with
  | Done (Some e), Some d => bool_decide ((Int_eval e - d) mod u64_modulus = 0)%Z
  | _, _ => false
  end.

(** A tracked pointer is spilled in the entry block, which every execution
    runs in full; other slots never hold one. *)
Definition cov_store (entry : bool) (st : Store) (s : AState) : bool :=
  match value_ty (Store_value st) ≫= scalar_len with
  | None => false
  | Some len =>
      match slot_of s (Store_address st) with
      | None => tracked_addr s (Some (Store_address st))
      | Some a =>
          bool_decide (ptr_env s !! a = None) &&
          match kind_at s (Some (Store_value st)) with
          | Some _ => entry && bool_decide (a ∈ spill) && bool_decide (len = 8%Z)
          | None => bool_decide (a ∉ spill)
          end
      end
  end.

Definition cov_load (ld : Load) (s : AState) : bool :=
  match scalar_len (Load_loaded_ty ld) with
  | None => false
  | Some len =>
      match slot_of s (Load_address ld) with
      | None => tracked_addr s (Some (Load_address ld))
      | Some a => bool_decide (ptr_env s !! a = None)
                  && (bool_decide (a ∉ spill) || bool_decide (len = 8%Z))
      end
  end.

Definition cov_gep (g : GetElementPtr) (s : AState) : bool :=
  match operand_local_name (GetElementPtr_address g) with
  | Some n =>
      match ptr_env s !! n with
      | Some (Kmalloc _ _) | Some (DmaAlloc _ _) => gep_agrees g
      | Some PtrUnknown => true
      | None => bool_decide (alloca_store_map s !! n = None)
      end
  | None => true
  end.

(** [D]: the names assigned so far. *)
Definition cov_instr (entry : bool) (i : Instruction) (D : gset Name) (s : AState) : bool :=
  match try_get_result i with Some n => bool_decide (n ∉ D) | None => true end &&
  match i with
  | ICall call => cov_call call s
  | IStore st => cov_store entry st s
  | ILoad ld => cov_load ld s
  | IGetElementPtr g => cov_gep g s
  | IPtrToInt p => bool_decide (PtrToInt_to_type p = IntegerType 64)
  | i => negb (other_memory i)
  end.

Fixpoint cov_instrs (fname : string) (bb_idx : nat) (l : list (nat * Instruction))
    (D : gset Name) (s : AState) : bool :=
  match l with
  | [] => true
  | (idx, i) :: l' =>
      cov_instr (bool_decide (bb_idx = 0)) i D s &&
      match step dbg fuel T asm_policy dma_policy (has_irq_risk m) fname bb_idx idx i s with
      | Done (Next s') => cov_instrs fname bb_idx l' (dests i ∪ D) s'
      | _ => false
      end
  end.

Fixpoint cov_blocks (fname : string) (l : list (nat * BasicBlock)) (D : gset Name) (s : AState) : bool :=
  match l with
  | [] => true
  | (bb_idx, bb) :: l' =>
      cov_instrs fname bb_idx (enumerate (bb_instrs bb)) D s && plain_term (bb_term bb) &&
      match run_instrs dbg fuel m asm_policy dma_policy fname bb_idx (enumerate (bb_instrs bb)) s with
      | Done s' => cov_blocks fname l' (all_dests (bb_instrs bb) ∪ D) s'
      | _ => false
      end
  end.

Fixpoint cov_functions (l : list Function_) (D : gset Name) (s : AState) : bool :=
  match l with
  | [] => true
  | f :: l' =>
      bool_decide (param_names f ## D) && structured f &&
      loops_ok dbg fuel m asm_policy dma_policy f s &&
      cov_blocks (func_name f) (enumerate (func_basic_blocks f)) (param_names f ∪ D) s &&
      match run_blocks dbg fuel m asm_policy dma_policy (func_name f)
              (enumerate (func_basic_blocks f)) s with
      | Done s' => cov_functions l' (blocks_dests (func_basic_blocks f) ∪ (param_names f ∪ D)) s'
      | _ => false
      end
  end.
End cover.

Definition cov_module `{SmtSolver} (dbg : bool) (fuel : nat) (m : Module_)
    (asm_policy : InlineAsmPolicy) (dma_policy : DmaPolicy) (g : HitlGate) (s_end : AState) : bool :=
  cov_functions dbg fuel m asm_policy dma_policy (dom (alloca_store_map s_end))
    (mod_functions m) ∅ (initial_state g).
