(* ===== verification/MemSim.v ===== *)
(** * MemSim: the analysis simulates the program

    The relation between the analyzer's state and a concrete state, and its
    preservation by every covered instruction, executed or skipped because the
    execution took another branch.  What the analysis does at an instruction is
    stated once ([move]) for the lemmas that only need to know that. *)

From S2P Require Import Prelude Text Types Constants Instr Smt Gate Analyzer Samples Sizes AnalyzerInv MemSafety.
From stdpp Require Import base gmap list strings.
From Stdlib Require Import ZArith Lia.
#[local] Open Scope string_scope.

(** Subset goals, without the quantified hypotheses that slow the solver down. *)
Ltac sub_solver :=
  match goal with
  | |- _ ⊆ _ => repeat match goal with H : forall _, _ |- _ => clear H end;
                rewrite ?dom_insert; set_solver
  end.

(** ** Simulation *)

(** [v] is a pointer into the block that stands for allocation [id], at the
    tracked offset modulo 2^64. *)
Definition points (β : gmap nat nat) (id : nat) (off : Int) (v : Val) : Prop :=
  exists b o, v = VPtr b o /\ β !! b = Some id /\ (0 <= o < u64_modulus)%Z /\
    ((Int_eval off - o) mod u64_modulus = 0)%Z.

Definition ptr_match (β : gmap nat nat) (pv : PtrVal) (v : Val) : Prop :=
  match ptrval_alloc_info pv with Some (id, off) => points β id off v | None => True end.
Definition int_match (β : gmap nat nat) (iv : IntVal) (v : Val) : Prop :=
  match iv with PtrOffset id off => points β id off v | IntUnknown => True end.

(** [β] maps blocks to allocations, [D] holds the names assigned so far. *)
Record sim (spill : gset Name) (β : gmap nat nat) (D : gset Name) (s : AState) (c : CState) : Prop := {
  sim_env_D : dom (c_env c) ⊆ D;
  sim_ptr_D : dom (ptr_env s) ⊆ D;
  sim_int_D : dom (int_env s) ⊆ D;
  sim_alloca_D : alloca_names s ⊆ D;
  sim_map_D : dom (alloca_store_map s) ⊆ alloca_names s;
  sim_map_spill : dom (alloca_store_map s) ⊆ spill;
  sim_ptr n v pv : c_env c !! n = Some v -> ptr_env s !! n = Some pv -> ptr_match β pv v;
  sim_int n v iv : c_env c !! n = Some v -> int_env s !! n = Some iv -> int_match β iv v;
  sim_slot n v : n ∈ alloca_names s -> c_env c !! n = Some v -> v = VSlot n;
  sim_spilled a pv : alloca_store_map s !! a = Some pv -> is_Some (c_env c !! a) ->
    exists v, c_slots c !! a = Some v /\ ptr_match β pv v;
  sim_block b id : β !! b = Some id ->
    exists k e, c_blocks c !! b = Some k /\ alloc_sizes s !! id = Some e /\
      Int_eval e = cb_size k /\ (cb_size k <= u64_max)%Z /\
      (id ∉ freed_allocs s -> cb_live k = true)
}.

(** The part of the analyzer's state the simulation reads. *)
Definition core (s : AState) :=
  (ptr_env s, int_env s, alloca_names s, alloca_store_map s, alloc_sizes s, freed_allocs s).

Section sim_facts.
Context (spill : gset Name).
#[local] Notation sim := (sim spill).

Lemma sim_core β D s s' c : core s = core s' -> sim β D s c -> sim β D s' c.
Proof.
  destruct s, s'; unfold core; simpl. intros [= -> -> -> -> -> ->] []. by split.
Qed.

Lemma sim_more β D D' s c : D ⊆ D' -> sim β D s c -> sim β D' s c.
Proof. intros HD []. split; try done; sub_solver. Qed.

(** *** The analysis moves, the program does not (a skipped instruction) *)

Lemma fresh_not_defined β D s c n : sim β D s c -> n ∉ D -> c_env c !! n = None.
Proof. intros [] Hn. apply not_elem_of_dom. intros Hd. apply Hn. by apply sim_env_D0. Qed.

Lemma sim_bind_ptr β D s c n pv :
  n ∉ D -> sim β D s c -> sim β ({[n]} ∪ D) (bind_ptr n pv s) c.
Proof.
  intros Hn Hs. pose proof (fresh_not_defined _ _ _ _ _ Hs Hn) as Hc. destruct Hs.
  split; simpl; try done; try sub_solver.
  intros n' v pv' Hv. destruct (decide (n = n')) as [->|]; [congruence|].
  rewrite lookup_insert_ne by done. eauto.
Qed.

Lemma sim_bind_int β D s c n iv :
  n ∉ D -> sim β D s c -> sim β ({[n]} ∪ D) (bind_int n iv s) c.
Proof.
  intros Hn Hs. pose proof (fresh_not_defined _ _ _ _ _ Hs Hn) as Hc. destruct Hs.
  split; simpl; try done; try sub_solver.
  intros n' v iv' Hv. destruct (decide (n = n')) as [->|]; [congruence|].
  rewrite lookup_insert_ne by done. eauto.
Qed.

Lemma sim_alloca_name β D s c n :
  n ∉ D -> sim β D s c ->
  sim β ({[n]} ∪ D) (set_alloca_names ({[n]} ∪ alloca_names s) s) c.
Proof.
  intros Hn Hs. pose proof (fresh_not_defined _ _ _ _ _ Hs Hn) as Hc. destruct Hs.
  split; simpl; try done; try sub_solver.
  intros n' v [->%elem_of_singleton|?]%elem_of_union ?; [congruence|eauto].
Qed.

Lemma sim_fresh_alloc β D s c size :
  state_inv s -> sim β D s c -> sim β D (fresh_alloc size s).2 c.
Proof.
  intros Hi []. split; simpl; try done.
  intros b id Hb. destruct (sim_block0 b id Hb) as (k & e & ? & He & ?).
  exists k, e. split; [done|]. split; [|done].
  rewrite lookup_insert_ne; [done|]. intros <-.
  pose proof (proj1 (si_sizes s Hi (alloc_counter s)) (ex_intro _ _ He)). lia.
Qed.

Lemma sim_bind_ptr_opt β D s c d pv :
  match d with Some n => n ∉ D | None => True end -> sim β D s c ->
  sim β (match d with Some n => {[n]} | None => ∅ end ∪ D) (bind_ptr_opt d pv s) c.
Proof. destruct d; simpl; [apply sim_bind_ptr|]. intros _. apply sim_more. set_solver. Qed.

Lemma sim_freed β D s c ids :
  freed_allocs s ⊆ ids -> sim β D s c -> sim β D (set_freed_allocs ids s) c.
Proof.
  intros Hsub []. split; simpl; try done.
  intros b id Hb. destruct (sim_block0 b id Hb) as (k & e & ? & ? & ? & ? & Hl).
  exists k, e. split_and!; try done. intros Hid. apply Hl. intros Hin. by apply Hid, Hsub.
Qed.

Lemma sim_unknown β D s c r : sim β D s c -> sim β D (unknown r s) c.
Proof. by apply sim_core. Qed.

Lemma sim_spill_skipped β D s c a pv :
  a ∈ alloca_names s -> a ∈ spill -> c_env c !! a = None -> sim β D s c ->
  sim β D (set_alloca_store_map (<[a := pv]> (alloca_store_map s)) s) c.
Proof.
  intros Ha Hsp Hc []. split; simpl; try done; try sub_solver.
  intros a' pv'. destruct (decide (a = a')) as [->|].
  - rewrite Hc. by intros _ [].
  - rewrite !lookup_insert_ne by done. eauto.
Qed.

(** *** The program moves too *)

(** A name gets a value that what the analysis says of it allows. *)
Definition value_ok (β : gmap nat nat) (s : AState) (n : Name) (v : Val) : Prop :=
  (forall pv, ptr_env s !! n = Some pv -> ptr_match β pv v) /\
  (forall iv, int_env s !! n = Some iv -> int_match β iv v) /\
  n ∉ alloca_names s.

Lemma sim_set_env β D s c n v :
  n ∈ D -> value_ok β s n v -> sim β D s c -> sim β D s (set_env n v c).
Proof.
  intros Hn (Hp & Hi & Ha) []. split; simpl; try done.
  - sub_solver.
  - intros n' v' pv. destruct (decide (n = n')) as [->|].
    + rewrite lookup_insert_eq. intros [= <-]. auto.
    + rewrite lookup_insert_ne by done. eauto.
  - intros n' v' iv. destruct (decide (n = n')) as [->|].
    + rewrite lookup_insert_eq. intros [= <-]. auto.
    + rewrite lookup_insert_ne by done. eauto.
  - intros n' v' Hn'. destruct (decide (n = n')) as [->|]; [done|].
    rewrite lookup_insert_ne by done. eauto.
  - intros a pv Hm. destruct (decide (n = a)) as [->|].
    + destruct Ha. apply sim_map_D0. by eapply elem_of_dom_2.
    + rewrite lookup_insert_ne by done. eauto.
Qed.

(** The analysis knows nothing of a name it has not bound. *)
Lemma value_ok_unbound β D s n v :
  dom (ptr_env s) ⊆ D -> dom (int_env s) ⊆ D -> alloca_names s ⊆ D -> n ∉ D -> value_ok β s n v.
Proof.
  intros H1 H2 H3 Hn. split_and!; [| |set_solver].
  - intros pv Hp%elem_of_dom_2. set_solver.
  - intros iv Hp%elem_of_dom_2. set_solver.
Qed.

Lemma points_mono β β' id off v : β ⊆ β' -> points β id off v -> points β' id off v.
Proof. intros Hb (b & o & -> & Hβ & ?). exists b, o. split; [done|]. split; [by eapply lookup_weaken|done]. Qed.
Lemma ptr_match_mono β β' pv v : β ⊆ β' -> ptr_match β pv v -> ptr_match β' pv v.
Proof. unfold ptr_match. intros ?. case_match; [|done]. case_match. by apply points_mono. Qed.
Lemma int_match_mono β β' iv v : β ⊆ β' -> int_match β iv v -> int_match β' iv v.
Proof. unfold int_match. intros ?. case_match; [|done]. by apply points_mono. Qed.

Lemma block_fresh β D s c : sim β D s c -> β !! length (c_blocks c) = None.
Proof.
  intros []. destruct (β !! _) as [id|] eqn:E; [|done].
  destruct (sim_block0 _ _ E) as (k & e & Hk & _). apply lookup_lt_Some in Hk. lia.
Qed.

(** A new block, standing for allocation [id] of the same size. *)
Lemma sim_new_block β D s c id size :
  alloc_sizes s !! id = Some (Int_from_u64 size) -> (size <= u64_max)%Z -> sim β D s c ->
  sim (<[length (c_blocks c) := id]> β) D s
    (mk_CState (c_env c) (c_blocks c ++ [mk_CBlock size true]) (c_slots c)).
Proof.
  intros He Hsz Hs. pose proof (block_fresh _ _ _ _ Hs) as Hf.
  assert (β ⊆ <[length (c_blocks c) := id]> β) as Hsub by by apply insert_subseteq.
  destruct Hs. split; simpl; try done.
  - intros. eapply ptr_match_mono; eauto.
  - intros. eapply int_match_mono; eauto.
  - intros a pv Ha Hd. destruct (sim_spilled0 a pv Ha Hd) as (v & ? & ?).
    exists v. split; [done|]. by eapply ptr_match_mono.
  - intros b id' [[<- <-]|[? Hb]]%lookup_insert_Some.
    + exists (mk_CBlock size true), (Int_from_u64 size). split_and!; try done.
      by rewrite lookup_app_r, Nat.sub_diag by lia.
    + destruct (sim_block0 b id' Hb) as (k & e & ? & ?). exists k, e. split; [|done].
      by apply lookup_app_l_Some.
Qed.

(** A block the analysis does not follow. *)
Lemma sim_untracked_block β D s c size :
  sim β D s c ->
  sim β D s (mk_CState (c_env c) (c_blocks c ++ [mk_CBlock size true]) (c_slots c)).
Proof.
  intros []. split; simpl; try done.
  intros b id Hb. destruct (sim_block0 b id Hb) as (k & e & ? & ?). exists k, e. split; [|done].
  by apply lookup_app_l_Some.
Qed.

Lemma sim_kill β D s c b id :
  β !! b = Some id -> id ∈ freed_allocs s -> sim β D s c -> sim β D s (kill_block b c).
Proof.
  intros Hb Hid []. split; simpl; try done.
  intros b' id' Hb'. destruct (sim_block0 b' id' Hb') as (k & e & Hk & ? & ? & ? & ?).
  destruct (decide (b = b')) as [->|].
  - exists (mk_CBlock (cb_size k) false), e.
    split; [by rewrite list_lookup_alter_eq, Hk|]. split_and!; try done.
    intros Hn. simplify_eq. by destruct Hn.
  - exists k, e. split; [by rewrite list_lookup_alter_ne|]. done.
Qed.

Lemma sim_store_other β D s c a v :
  alloca_store_map s !! a = None -> sim β D s c -> sim β D s (set_slot a v c).
Proof.
  intros Ha []. split; simpl; try done.
  intros a' pv Hm Hd. destruct (decide (a = a')) as [->|]; [congruence|].
  rewrite lookup_insert_ne by done. eauto.
Qed.

Lemma sim_store_spill β D s c a pv v :
  a ∈ alloca_names s -> a ∈ spill -> ptr_match β pv v -> sim β D s c ->
  sim β D (set_alloca_store_map (<[a := pv]> (alloca_store_map s)) s) (set_slot a v c).
Proof.
  intros Ha Hsp Hm []. split; simpl; try done; try sub_solver.
  intros a' pv'. destruct (decide (a = a')) as [->|].
  - rewrite !lookup_insert_eq. intros [= <-] _. eauto.
  - rewrite !lookup_insert_ne by done. eauto.
Qed.
End sim_facts.

(** ** The arms of the analysis, as the simulation sees them *)

Section arms.
Context `{SmtSolver} (fname : string) (bb idx : nat).

Lemma ask_gate_core vc cls s : core (ask_gate vc cls s).2 = core s.
Proof. unfold ask_gate. by destruct (should_run_solver _ _ _). Qed.

Lemma ask_solver_core sz off len vc cls s : core (ask_solver sz off len vc cls s).2 = core s.
Proof. unfold ask_solver. by destruct (check_access _ _ _ _ _ _ _) as [[??]?]. Qed.

Lemma access_vc_core id off len kind cls oob unk s :
  core (access_state (access_vc fname bb idx id off len kind cls oob unk s)) = core s.
Proof.
  unfold access_vc. case_match; [|done].
  match goal with |- context [ask_solver ?a ?b ?c ?d ?e ?s] =>
    pose proof (ask_solver_core a b c d e s); destruct (ask_solver a b c d e s) as [[] ?] end; done.
Qed.

Lemma mem_access_core id off len what kind s :
  core (access_state (mem_access fname bb idx id off len what kind s)) = core s.
Proof. unfold mem_access. case_decide; [done|apply access_vc_core]. Qed.

Lemma irq_check_core risk id what s : core (irq_check risk fname bb idx id what s) = core s.
Proof.
  unfold irq_check. destruct risk; [|done].
  match goal with |- context [ask_gate ?v ?c ?s] =>
    pose proof (ask_gate_core v c s); destruct (ask_gate v c s) as [[] ?] end; done.
Qed.

Lemma check_address_core risk addr size what no_size s f :
  check_address risk fname bb idx addr size what no_size s = Done f -> core (flow_state f) = core s.
Proof.
  unfold check_address. case_match; [|by intros [= <-]]. case_match.
  case_decide; [by intros [= <-]|]. intros (o & _ & Hk)%exec_bind_done.
  destruct o as [len|]; [|by simplify_eq].
  match type of Hk with context [access_vc ?a ?b ?c ?d ?e ?g ?h ?i ?j ?k ?l] =>
    pose proof (access_vc_core d e g h i j k l) as Hc; destruct (access_vc a b c d e g h i j k l) end;
    injection Hk as <-; simpl in *; rewrite ?irq_check_core; exact Hc.
Qed.

Lemma memcpy_side_core op kind len s : core (flow_state (memcpy_side fname bb idx op kind len s)) = core s.
Proof.
  unfold memcpy_side. repeat (case_match; try done).
  all: match goal with H : mem_access ?a ?b ?c ?d ?e ?f ?g ?h ?i = _ |- _ =>
    pose proof (mem_access_core d e f g h i) as Hc; rewrite H in Hc; exact Hc end.
Qed.

Lemma do_memset_core call s : core (flow_state (do_memset fname bb idx call s)) = core s.
Proof.
  unfold do_memset. repeat (case_match; try done).
  all: match goal with H : mem_access ?a ?b ?c ?d ?e ?f ?g ?h ?i = _ |- _ =>
    pose proof (mem_access_core d e f g h i) as Hc; rewrite H in Hc; exact Hc end.
Qed.

Lemma do_memcpy_core call s : core (flow_state (do_memcpy fname bb idx call s)) = core s.
Proof.
  unfold do_memcpy. do 4 (case_match; try done). cbv zeta.
  match goal with |- core (flow_state (if _ then Break ?x else Next ?x)) = _ =>
    assert (core x = core s) as Hx; [|by destruct (is_fail (final_result x))] end.
  match goal with |- core (match memcpy_side ?a ?b ?c ?d ?e ?f ?s with _ => _ end) = _ =>
    pose proof (memcpy_side_core d e f s) as Hc; destruct (memcpy_side a b c d e f s) end; simpl in *.
  - by rewrite memcpy_side_core.
  - done.
Qed.

Lemma do_dma_map_core call s : core (flow_state (do_dma_map fname bb idx call s)) = core s.
Proof.
  unfold do_dma_map. repeat (case_match; try done).
  all: match goal with H : ask_solver ?a ?b ?c ?d ?e ?s = (_, ?s') |- _ =>
    pose proof (ask_solver_core a b c d e s) as Hc; rewrite H in Hc; exact Hc end.
Qed.
End arms.

(** ** What an instruction changes *)

Definition is_store (i : Instruction) : bool := match i with IStore _ => true | _ => false end.
Definition fresh_opt (d : option Name) (D : gset Name) : Prop :=
  match d with Some n => n ∉ D | None => True end.

(** [core s'] is [core s] changed at the result of the instruction [i], at the
    freed allocations, or, in the entry block, at a spilled slot. *)
Inductive move (spill : gset Name) (entry : bool) (i : Instruction) (s s' : AState) : Prop :=
  | mv_none : core s' = core s -> move spill entry i s s'
  | mv_bind_ptr n pv :
      try_get_result i = Some n -> core s' = core (bind_ptr n pv s) -> move spill entry i s s'
  | mv_bind_int n iv :
      try_get_result i = Some n -> core s' = core (bind_int n iv s) -> move spill entry i s s'
  | mv_slot n :
      try_get_result i = Some n -> core s' = core (set_alloca_names ({[n]} ∪ alloca_names s) s) ->
      move spill entry i s s'
  | mv_alloc pv size :
      core s' = core (bind_ptr_opt (try_get_result i) pv (fresh_alloc size s).2) ->
      move spill entry i s s'
  | mv_free ids :
      freed_allocs s ⊆ ids -> core s' = core (set_freed_allocs ids s) -> move spill entry i s s'
  | mv_spill a pv :
      is_store i = true -> entry = true -> a ∈ alloca_names s -> a ∈ spill ->
      core s' = core (set_alloca_store_map (<[a := pv]> (alloca_store_map s)) s) ->
      move spill entry i s s'.

Section moves.
Context `{SmtSolver} (dbg : bool) (fuel : nat) (m : Module_).
Context (asm_policy : InlineAsmPolicy) (dma_policy : DmaPolicy) (spill : gset Name).
Context (fname : string) (bb idx : nat) (entry : bool).

#[local] Notation step := (step dbg fuel (mod_types m) asm_policy dma_policy (has_irq_risk m) fname bb idx).
#[local] Notation move := (move spill entry).

Lemma call_moves s s' call :
  do_call asm_policy dma_policy fname bb idx call s = Next s' ->
  cov_call dma_policy call s = true -> move (ICall call) s s'.
Proof.
  unfold do_call, cov_call. destruct (is_fail (final_result s)); [done|].
  destruct (function_name_of_call call) as [f|]; [|done].
  destruct (decide (f = "kmalloc" \/ f = "kzalloc")).
  { unfold do_kmalloc. destruct (arg call 0) as [op|]; [|intros [= <-] _; by apply mv_none].
    destruct (operand_const_u64 op); intros [= <-] _; [by eapply mv_alloc|by apply mv_none]. }
  destruct (decide (f = "kcalloc")).
  { unfold do_kcalloc. destruct (arg call 0) as [op|], (arg call 1) as [op'|];
      try (intros [= <-] _; by apply mv_none).
    destruct (operand_const_u64 op), (operand_const_u64 op'); try (intros [= <-] _; by apply mv_none).
    destruct (u64_checked_mul _ _); [|done]. intros [= <-] _. by eapply mv_alloc. }
  destruct (decide (f = "kfree")).
  { unfold do_kfree. destruct (arg call 0) as [op|]; [|intros [= <-] _; by apply mv_none].
    destruct (operand_local_name op); [|intros [= <-] _; by apply mv_none].
    destruct (ptr_env s !! _) as [[id off|id off|]|]; try (intros [= <-] _; by apply mv_none).
    case_decide; [done|]. intros [= <-] _. eapply mv_free; [|done]. apply union_subseteq_r. }
  destruct (decide (f = "memset")).
  { intros E _. pose proof (do_memset_core fname bb idx call s) as Hc. rewrite E in Hc. by apply mv_none. }
  destruct (decide (f = "memcpy" \/ f = "__memcpy")).
  { intros E _. pose proof (do_memcpy_core fname bb idx call s) as Hc. rewrite E in Hc. by apply mv_none. }
  destruct (decide (f = "dma_alloc_coherent" /\ dma_policy <> Ignore)).
  { unfold do_dma_alloc. destruct (arg call 1) as [op|]; [|intros [= <-] _; by apply mv_none].
    destruct (operand_const_u64 op); intros [= <-] _; [|by apply mv_none].
    eapply (mv_alloc _ _ _ _ _ (DmaAlloc (alloc_counter s) (Int_from_u64 0))).
    simpl. rewrite ask_gate_core. by destruct (Call_dest call). }
  destruct (decide (f = "dma_map_single" /\ dma_policy <> Ignore)).
  { intros E _. pose proof (do_dma_map_core fname bb idx call s) as Hc. rewrite E in Hc. by apply mv_none. }
  destruct (decide (f = "iommu_map")); intros [= <-] _; by apply mv_none.
Qed.

Lemma slot_of_spec s op a :
  slot_of s op = Some a <-> operand_local_name op = Some a /\ a ∈ alloca_names s.
Proof. unfold slot_of. destruct (operand_local_name op); [case_decide|]; naive_solver. Qed.

Lemma load_moves s s' ld :
  do_load dbg fuel (mod_types m) (has_irq_risk m) fname bb idx ld s = Done (Next s') ->
  move (ILoad ld) s s'.
Proof.
  unfold do_load. case_match; [|intros [= <-]; by apply mv_none].
  intros Hc%check_address_core. simpl in Hc.
  case_decide; [|by apply mv_none]. case_match; [by eapply mv_bind_ptr|by apply mv_none].
Qed.

Lemma store_moves s s' st :
  cov_store spill entry st s = true ->
  do_store dbg fuel (mod_types m) (has_irq_risk m) fname bb idx st s = Done (Next s') ->
  move (IStore st) s s'.
Proof.
  intros Hcov. unfold do_store. case_match eqn:Hn; [|intros [= <-]; by apply mv_none].
  intros Hc%check_address_core. simpl in Hc.
  case_decide as Hin; [|by apply mv_none]. case_match eqn:Hv; [|by apply mv_none].
  unfold cov_store in Hcov. destruct (_ ≫= scalar_len); [|done].
  rewrite (proj2 (slot_of_spec s _ n) (conj Hn Hin)) in Hcov.
  unfold kind_at in Hcov. simpl in Hcov. rewrite Hv in Hcov. simpl in Hcov.
  rewrite !andb_true_iff, !bool_decide_eq_true in Hcov. destruct Hcov as (_ & (-> & Hsp) & _).
  by eapply mv_spill.
Qed.

Lemma step_moves i D s s' :
  cov_instr dbg fuel m dma_policy spill entry i D s = true -> step i s = Done (Next s') -> move i s s'.
Proof.
  intros Hcov Hstep. unfold cov_instr in Hcov. apply andb_true_iff in Hcov as [_ Hcov].
  destruct i; simpl in *; try (injection Hstep as <-; by apply mv_none).
  - (* add *) apply Done_inj in Hstep. revert Hstep. unfold do_add. cbv zeta.
    repeat case_match; intros [= <-]; first [by apply mv_none|by eapply mv_bind_int].
  - (* sub *) apply Done_inj in Hstep. revert Hstep. unfold do_sub. cbv zeta.
    repeat case_match; intros [= <-]; first [by apply mv_none|by eapply mv_bind_int].
  - (* alloca *) injection Hstep as <-. by eapply mv_slot.
  - by apply load_moves.
  - by apply store_moves.
  - (* getelementptr *) revert Hstep. unfold do_gep. cbv zeta.
    case_match; [|intros [= <-]; first [by apply mv_none|by eapply mv_bind_ptr]].
    match goal with |- match ?x with _ => _ end = _ -> _ => destruct x as [[]|] end.
    1,2: intros (o & _ & [= <-])%exec_bind_done; destruct o; first [by apply mv_none|by eapply mv_bind_ptr].
    all: intros [= <-]; first [by apply mv_none|by eapply mv_bind_ptr].
  - (* ptrtoint *) apply Done_inj in Hstep. revert Hstep. unfold do_ptrtoint. cbv zeta.
    case_match; intros [= <-]; first [by apply mv_none|by eapply mv_bind_int].
  - (* inttoptr *) apply Done_inj in Hstep. revert Hstep. unfold do_inttoptr. cbv zeta.
    case_match; intros [= <-]; first [by apply mv_none|by eapply mv_bind_ptr].
  - (* bitcast *) apply Done_inj in Hstep. revert Hstep. unfold do_bitcast. cbv zeta.
    case_match; intros [= <-]; first [by apply mv_none|by eapply mv_bind_ptr].
  - (* call *) apply Done_inj in Hstep. by eapply call_moves.
Qed.

(** ** Skipped instructions *)

Lemma skip_instr i β D s s' c :
  entry = false \/ is_store i = false \/ c_env c = ∅ ->
  cov_instr dbg fuel m dma_policy spill entry i D s = true ->
  state_inv s -> sim spill β D s c -> step i s = Done (Next s') ->
  sim spill β (dests i ∪ D) s' c.
Proof.
  intros Hentry Hcov Hi Hs Hstep. pose proof (step_moves _ _ _ _ Hcov Hstep) as Hm.
  apply andb_true_iff in Hcov as [Hd _].
  assert (fresh_opt (try_get_result i) D) as Hfresh
    by (unfold fresh_opt; destruct (try_get_result i); [by apply bool_decide_eq_true in Hd|done]).
  assert (forall s1, sim spill β D s1 c -> sim spill β (dests i ∪ D) s1 c) as Hmore
    by (intros s1; apply sim_more; set_solver).
  unfold dests in *.
  destruct Hm as [Hc|n pv Hn Hc|n iv Hn Hc|n Hn Hc|pv size Hc|ids Hids Hc|a pv Hst He Ha Hsp Hc];
    (eapply sim_core; [symmetry; exact Hc|]); try rewrite Hn in *; simpl in Hfresh.
  - by apply Hmore.
  - by apply sim_bind_ptr.
  - by apply sim_bind_int.
  - by apply sim_alloca_name.
  - apply sim_bind_ptr_opt; [done|]. by apply sim_fresh_alloc.
  - apply sim_freed; [done|]. by apply Hmore.
  - destruct Hentry as [?|[?|Hemp]]; [congruence..|].
    apply sim_spill_skipped; [done..| |by apply Hmore]. by rewrite Hemp.
Qed.
End moves.

Lemma skip_call `{SmtSolver} asm_policy dma_policy spill fname bb idx β D s s' c call :
  fresh_opt (Call_dest call) D ->
  cov_call dma_policy call s = true -> state_inv s -> sim spill β D s c ->
  do_call asm_policy dma_policy fname bb idx call s = Next s' ->
  sim spill β (dests (ICall call) ∪ D) s' c.
Proof.
  intros Hd Hcov Hi Hs Hstep.
  eapply (skip_instr true 0 (modl []) asm_policy dma_policy spill fname bb idx false (ICall call) β D s s' c);
    [by left| |done|done|].
  - unfold cov_instr. simpl. rewrite Hcov, andb_true_r.
    destruct (Call_dest call); [by apply bool_decide_eq_true|done].
  - simpl. by rewrite Hstep.
Qed.

(** ** Offsets *)

Lemma mod0_divide z : (z mod u64_modulus = 0 <-> exists k, z = k * u64_modulus)%Z.
Proof. rewrite Z.mod_divide by done. unfold Z.divide. done. Qed.

(** Moving both the tracked and the concrete pointer by the same distance,
    modulo 2^64, keeps them together. *)
Lemma points_move β id off off' b o d z :
  points β id off (VPtr b o) -> Int_eval off' = (Int_eval off + d)%Z ->
  ((d - z) mod u64_modulus = 0)%Z -> points β id off' (VPtr b (wrap64 (o + z))).
Proof.
  intros (? & ? & [= <- <-] & Hb & Hr & Hm) He Hd. exists b, (wrap64 (o + z)).
  split; [done|]. split; [done|]. split; [by apply Z.mod_pos_bound|].
  apply mod0_divide in Hm as [k1 Hk1], Hd as [k2 Hk2]. apply mod0_divide.
  exists (k1 + k2 + (o + z) / u64_modulus)%Z. rewrite He. unfold wrap64.
  pose proof (Z.div_mod (o + z) u64_modulus ltac:(done)). lia.
Qed.

(** In bounds for the analysis is in bounds for the block. *)
Lemma points_block spill β D s c id off v e len :
  sim spill β D s c -> points β id off v ->
  alloc_sizes s !! id = Some e -> in_bounds (Int_eval e) (Int_eval off) len -> (0 <= len)%Z ->
  exists b o k, v = VPtr b o /\ c_blocks c !! b = Some k /\
    (id ∉ freed_allocs s -> cb_live k = true) /\ in_bounds (cb_size k) o len.
Proof.
  intros Hs (b & o & -> & Hb & Ho & Hm) He [Hlo Hhi] Hlen.
  destruct (sim_block _ _ _ _ _ Hs b id Hb) as (k & e' & Hk & He' & Heq & Hmax & Hl).
  simplify_eq. exists b, o, k. split; [done|]. split; [done|]. split; [done|].
  apply mod0_divide in Hm as [q Hq]. unfold in_bounds, u64_max in *. rewrite Heq in *.
  assert (q = 0)%Z as -> by nia. lia.
Qed.

Lemma access_safe spill β D s c id off v e len :
  sim spill β D s c -> points β id off v -> id ∉ freed_allocs s ->
  alloc_sizes s !! id = Some e -> in_bounds (Int_eval e) (Int_eval off) len -> (0 <= len)%Z ->
  Forall safe_event (access_events v len c).
Proof.
  intros Hs Hp Hid He Hb Hl.
  destruct (points_block _ _ _ _ _ _ _ _ _ _ Hs Hp He Hb Hl) as (b & o & k & -> & Hk & Hlive & Hin).
  unfold access_events, touch. rewrite Hk. constructor; [|constructor]. split; auto.
Qed.

Lemma mapping_safe spill β D s c id off v e len :
  sim spill β D s c -> points β id off v ->
  alloc_sizes s !! id = Some e -> in_bounds (Int_eval e) (Int_eval off) len -> (0 <= len)%Z ->
  Forall safe_event (touch (fun k off => EvMap k off len) v c).
Proof.
  intros Hs Hp He Hb Hl.
  destruct (points_block _ _ _ _ _ _ _ _ _ _ Hs Hp He Hb Hl) as (b & o & k & -> & Hk & _ & Hin).
  unfold touch. rewrite Hk. by constructor.
Qed.

(** [gep_offsets] adds a distance that does not depend on the start. *)
Lemma gep_offsets_shift dbg T fuel idxs first ty off off0 r r0 :
  gep_offsets dbg T fuel first ty off idxs = Done (Some r) ->
  gep_offsets dbg T fuel first ty off0 idxs = Done (Some r0) ->
  (Int_eval r - Int_eval off = Int_eval r0 - Int_eval off0)%Z.
Proof.
  revert first off off0. induction idxs as [|idx idxs IH]; intros first off off0; simpl.
  - intros [= <-] [= <-]. lia.
  - destruct idx as [|k|]; try done. destruct k; try done. destruct first.
    + intros (o & Ho & Hr)%exec_bind_done (o' & Ho' & Hr')%exec_bind_done.
      rewrite Ho in Ho'. injection Ho' as <-. destruct o as [sz|]; [|done]. pose proof (IH _ _ _ Hr Hr') as E. simpl in E. lia.
    + intros Hr Hr'. pose proof (IH _ _ _ Hr Hr') as E. simpl in E. lia.
Qed.

Lemma infer_gep_shift dbg T fuel g off r r0 :
  infer_gep_offset dbg T fuel g off = Done (Some r) ->
  infer_gep_offset dbg T fuel g (Int_from_u64 0) = Done (Some r0) ->
  (Int_eval r = Int_eval off + Int_eval r0)%Z.
Proof.
  unfold infer_gep_offset. destruct (GetElementPtr_indices g) as [|[|k|] idxs]; try done.
  - intros [= <-] [= <-]. simpl. lia.
  - destruct k; try done.
    intros (ty & Hty & Hr)%exec_bind_done (ty' & Hty' & Hr')%exec_bind_done.
    rewrite Hty in Hty'. injection Hty' as <-. pose proof (gep_offsets_shift _ _ _ _ _ _ _ _ _ _ Hr Hr') as E. simpl in E. lia.
Qed.

(** ** What a check that passed established *)

Section passed.
Context `{SoundSolver} (fname : string) (bb idx : nat).
#[local] Set Default Proof Using "Type*".

Lemma access_vc_pass id off len kind cls oob unk s a :
  access_vc fname bb idx id off len kind cls oob unk s = a ->
  solver_idle (solver s) -> final_result (access_state a) = APass ->
  a = AccOn (access_state a) /\
  exists e, alloc_sizes s !! id = Some e /\ in_bounds (Int_eval e) (Int_eval off) len.
Proof.
  unfold access_vc. intros <- Hidle. case_match eqn:He; [|intros Hp; by apply unknown_not_pass in Hp].
  unfold ask_solver. destruct (check_access _ _ _ _ _ _ _) as [[r sv] g] eqn:E.
  destruct r; simpl; intros Hp; try done; try (by apply unknown_not_pass in Hp).
  split; [done|]. eexists. split; [done|]. by eapply check_access_safe.
Qed.

Lemma mem_access_pass id off len what kind s a :
  mem_access fname bb idx id off len what kind s = a ->
  solver_idle (solver s) -> final_result (access_state a) = APass ->
  id ∉ freed_allocs s /\
  exists e, alloc_sizes s !! id = Some e /\ in_bounds (Int_eval e) (Int_eval off) len.
Proof.
  unfold mem_access. case_decide; [by intros <-|]. intros Ha Hi Hp. split; [done|].
  by apply (access_vc_pass _ _ _ _ _ _ _ _ _ Ha).
Qed.

Lemma check_address_pass risk addr size what no_size s s' id off :
  check_address risk fname bb idx addr size what no_size s = Done (Next s') ->
  solver_idle (solver s) -> final_result s' = APass ->
  ptr_env s !! addr ≫= ptrval_alloc_info = Some (id, off) ->
  id ∉ freed_allocs s /\ exists len e, size = Done (Some len) /\ alloc_sizes s !! id = Some e /\
    in_bounds (Int_eval e) (Int_eval off) len.
Proof.
  unfold check_address. intros Hc Hidle Hp Ha. rewrite Ha in Hc.
  case_decide; [done|]. split; [done|].
  apply exec_bind_done in Hc as (o & Ho & Hc). destruct o as [len|];
    [|injection Hc as <-; by apply unknown_not_pass in Hp].
  match type of Hc with context [access_vc ?a ?b ?c ?d ?e ?g ?h ?i ?j ?k ?l] =>
    destruct (access_vc a b c d e g h i j k l) eqn:Hv end; simplify_eq.
  - apply access_vc_pass in Hv as (_ & e & ? & ?); [eauto 10|done|].
    eapply pass_extends; [|exact Hp]. eapply micros_extends, irq_check_micros.
  - by apply access_vc_pass in Hv as (? & _).
Qed.
End passed.

(** ** Executed instructions *)

Definition names_opt (d : option Name) : gset Name := match d with Some n => {[n]} | None => ∅ end.

Section exec_facts.
Context (spill : gset Name).
#[local] Notation sim := (sim spill).

Lemma value_ok_core β s s' n v : core s = core s' -> value_ok β s n v -> value_ok β s' n v.
Proof. destruct s, s'; unfold core, value_ok; simpl. by intros [= -> -> -> -> -> ->]. Qed.

Lemma value_ok_bind_ptr β β' D s c n pv v :
  n ∉ D -> sim β' D s c -> ptr_match β pv v -> value_ok β (bind_ptr n pv s) n v.
Proof.
  intros Hn [] Hm. split_and!; simpl.
  - intros pv'. rewrite lookup_insert_eq. by intros [= <-].
  - intros iv Hi%elem_of_dom_2. destruct Hn. by apply sim_int_D0.
  - intros Ha. destruct Hn. by apply sim_alloca_D0.
Qed.

Lemma value_ok_bind_int β β' D s c n iv v :
  n ∉ D -> sim β' D s c -> int_match β iv v -> value_ok β (bind_int n iv s) n v.
Proof.
  intros Hn [] Hm. split_and!; simpl.
  - intros pv Hp%elem_of_dom_2. destruct Hn. by apply sim_ptr_D0.
  - intros iv'. rewrite lookup_insert_eq. by intros [= <-].
  - intros Ha. destruct Hn. by apply sim_alloca_D0.
Qed.

Lemma value_ok_free β β' D s c n v : n ∉ D -> sim β' D s c -> value_ok β s n v.
Proof. intros Hn []. by eapply value_ok_unbound. Qed.

(** The result of an instruction the analysis binds, and of one it ignores. *)
Lemma exec_bound β D s s1 s' c n v :
  n ∉ D -> sim β D s c -> core s' = core s1 -> value_ok β s1 n v ->
  sim β ({[n]} ∪ D) s' c -> sim β ({[n]} ∪ D) s' (set_env n v c).
Proof. intros. apply sim_set_env; [set_solver|by eapply value_ok_core|done]. Qed.

Lemma exec_ignored β D s s' c d v :
  fresh_opt d D -> sim β D s c -> core s' = core s ->
  sim β (names_opt d ∪ D) s' c -> sim β (names_opt d ∪ D) s' (set_env_opt d v c).
Proof.
  intros Hd Hs Hc Hs'. destruct d as [n|]; simpl in *; [|done].
  eapply exec_bound; try done. by eapply value_ok_free.
Qed.

Lemma exec_alloc β D s s' c d pv size :
  fresh_opt d D -> state_inv s -> in_u64 size -> sim β D s c ->
  ptrval_alloc_info pv = Some (alloc_counter s, Int_from_u64 0) ->
  core s' = core (bind_ptr_opt d pv (fresh_alloc size s).2) ->
  exists β', sim β' (names_opt d ∪ D) s' (new_block size d c).
Proof.
  intros Hd Hi Hsz Hs Hpv Hc.
  pose proof (sim_fresh_alloc _ _ _ _ _ size Hi Hs) as Hs1.
  pose proof (sim_bind_ptr_opt _ _ _ _ _ d pv Hd Hs1) as Hs2. fold (names_opt d) in Hs2.
  apply (sim_core _ _ _ _ s') in Hs2; [|by symmetry].
  assert (alloc_sizes s' !! alloc_counter s = Some (Int_from_u64 size)) as Hal.
  { assert (alloc_sizes s' = alloc_sizes (fresh_alloc size s).2) as ->.
    { destruct d; unfold core in Hc; simpl in Hc; by injection Hc. }
    simpl. by rewrite lookup_insert_eq. }
  destruct Hsz as [_ Hsz].
  pose proof (sim_new_block _ _ _ _ _ _ _ Hal Hsz Hs2) as Hs3. eexists.
  destruct d as [n|]; simpl; [|exact Hs3].
  apply sim_set_env; [set_solver| |exact Hs3].
  eapply value_ok_core; [symmetry; exact Hc|]. eapply value_ok_bind_ptr; [done|done|].
  unfold ptr_match. rewrite Hpv. exists (length (c_blocks c)), 0%Z.
  split; [done|]. split; [by rewrite lookup_insert_eq|done].
Qed.

(** A block nobody tracks. *)
Lemma exec_untracked_alloc β D s s' c d size :
  fresh_opt d D -> sim β D s c -> core s' = core s ->
  sim β (names_opt d ∪ D) s' c -> sim β (names_opt d ∪ D) s' (new_block size d c).
Proof.
  intros Hd Hs Hc Hs'. unfold new_block.
  apply (exec_ignored _ _ s); [done| |done|by apply sim_untracked_block].
  by apply sim_untracked_block.
Qed.

Lemma exec_bind_ptr β D s s' c n pv v :
  n ∉ D -> sim β D s c -> core s' = core (bind_ptr n pv s) -> ptr_match β pv v ->
  sim β ({[n]} ∪ D) s' (set_env n v c).
Proof.
  intros Hn Hs Hc Hm. eapply exec_bound; [done|exact Hs|exact Hc|by eapply value_ok_bind_ptr|].
  eapply sim_core; [symmetry; exact Hc|]. by apply sim_bind_ptr.
Qed.

Lemma exec_bind_int β D s s' c n iv v :
  n ∉ D -> sim β D s c -> core s' = core (bind_int n iv s) -> int_match β iv v ->
  sim β ({[n]} ∪ D) s' (set_env n v c).
Proof.
  intros Hn Hs Hc Hm. eapply exec_bound; [done|exact Hs|exact Hc|by eapply value_ok_bind_int|].
  eapply sim_core; [symmetry; exact Hc|]. by apply sim_bind_int.
Qed.

Lemma exec_unbound β D s s' c d v :
  fresh_opt d D -> sim β D s c -> core s' = core s ->
  sim β (names_opt d ∪ D) s' (set_env_opt d v c).
Proof.
  intros Hd Hs Hc. apply (exec_ignored _ _ s); [done..|].
  eapply sim_core; [symmetry; exact Hc|]. eapply sim_more; [|exact Hs]. set_solver.
Qed.

Lemma exec_alloca β D s c n :
  n ∉ D -> sim β D s c ->
  sim β ({[n]} ∪ D) (set_alloca_names ({[n]} ∪ alloca_names s) s)
    (mk_CState (<[n := VSlot n]> (c_env c)) (c_blocks c) (delete n (c_slots c))).
Proof.
  intros Hn Hs. destruct Hs.
  assert (forall A (env : gmap Name A), dom env ⊆ D -> env !! n = None) as Hnone.
  { intros A env He. apply not_elem_of_dom. intros Hin. apply Hn. by apply He. }
  split; simpl; try done; try sub_solver.
  - intros n' v pv. destruct (decide (n = n')) as [<-|]; [by rewrite (Hnone _ _ sim_ptr_D0)|].
    rewrite lookup_insert_ne by done. eauto.
  - intros n' v iv. destruct (decide (n = n')) as [<-|]; [by rewrite (Hnone _ _ sim_int_D0)|].
    rewrite lookup_insert_ne by done. eauto.
  - intros n' v Hin. destruct (decide (n = n')) as [<-|].
    + rewrite lookup_insert_eq. by intros [= <-].
    + rewrite lookup_insert_ne by done. apply sim_slot0. set_solver.
  - intros a pv Ha. destruct (decide (n = a)) as [<-|].
    + exfalso. apply Hn, sim_alloca_D0, sim_map_D0. by eapply elem_of_dom_2.
    + rewrite lookup_insert_ne, lookup_delete_ne by done. eauto.
Qed.

Lemma kind_at_local s op pv :
  kind_at s (Some op) = Some pv -> exists n ty, op = LocalOperand n ty /\ ptr_env s !! n = Some pv.
Proof.
  unfold kind_at. simpl. intros (n & Hn & Hp)%bind_Some. destruct op; naive_solver.
Qed.

Lemma eval_tracked β D s c op v pv id off :
  sim β D s c -> ceval c op v -> kind_at s (Some op) = Some pv ->
  ptrval_alloc_info pv = Some (id, off) -> points β id off v.
Proof.
  intros Hs He (n & ty & -> & Hp)%kind_at_local Hi. inversion He; subst.
  pose proof (sim_ptr _ _ _ _ _ Hs n v pv ltac:(done) Hp) as Hm. unfold ptr_match in Hm.
  by rewrite Hi in Hm.
Qed.

Lemma eval_const c op v z : ceval c op v -> operand_const_u64 op = Some z -> v = VNum z.
Proof. intros He Hc. inversion He; subst; simpl in *; congruence. Qed.
End exec_facts.

Lemma two_names (f a b : string) : f ∈ [a; b] <-> f = a \/ f = b.
Proof. rewrite !elem_of_cons, elem_of_nil. naive_solver. Qed.

Lemma cov_call_args dma_policy f call s :
  function_name_of_call call = Some f -> cov_call dma_policy call s = true ->
  (f = "kfree" -> heap_addr s (arg call 0) = true) /\
  (f = "memset" -> heap_addr s (arg call 0) = true) /\
  (f ∈ copiers -> heap_addr s (arg call 0) = true /\ heap_addr s (arg call 1) = true) /\
  (f = "dma_map_single" -> dma_policy <> Ignore /\ tracked_addr s (arg call 1) = true) /\
  f ∈ modelled_calls.
Proof.
  intros Hf. unfold cov_call. rewrite Hf.
  case_decide as H1; [intros _|].
  { unfold allocators, copiers, modelled_calls in *. rewrite !two_names in *.
    split_and!; try (intros ->; naive_solver).
    - intros [->| ->]; naive_solver.
    - destruct H1 as [[->| ->]|[->|[->| ->]]]; set_solver. }
  case_decide as H2; [intros Hh|].
  { split_and!; [done|done| | |destruct H2; subst; set_solver];
      destruct H2; subst; unfold copiers; set_solver. }
  case_decide as H3; [intros [??]%andb_true_iff|].
  { split_and!; [tauto|tauto|done| |].
    - intros ->. set_solver.
    - unfold modelled_calls. set_solver. }
  case_decide as H4; [intros [?%bool_decide_eq_true ?]%andb_true_iff|done].
  split_and!; [tauto|tauto|done|done|]. subst. unfold modelled_calls. set_solver.
Qed.

Lemma scalar_len_pos ty len : scalar_len ty = Some len -> (0 <= len)%Z.
Proof.
  destruct ty; simpl; try done; [case_decide; [|done]|]; intros [= <-]; [|done].
  destruct (u64_div_ceil_spec bits 8); lia.
Qed.

Lemma type_size_scalar dbg T fuel ty len len' :
  scalar_len ty = Some len -> type_size dbg T fuel ty = Done (Some len') -> len' = len.
Proof.
  destruct fuel as [|fuel]; [done|]. intros Hl.
  destruct ty; simpl in Hl; try done; rewrite type_size_plain by done; simpl;
    [case_decide|]; naive_solver.
Qed.

Lemma store_size dbg fuel T op len len' :
  types_ok T -> value_ty op ≫= scalar_len = Some len ->
  (let! ty := Operand_type dbg T op in type_size dbg T fuel ty) = Done (Some len') -> len' = len.
Proof.
  intros HT (ty & Hty & Hl)%bind_Some Hs. apply exec_bind_done in Hs as (ty' & Ht & Hs).
  eapply type_size_scalar; [exact Hl|]. rewrite <- Hs. f_equal.
  destruct op as [n t|k|]; simpl in *; [congruence| |done].
  destruct k; simplify_eq/=; [|done]. symmetry. exact (get_for_type_ok T (IntegerType bits) HT).
Qed.

Lemma tracked_info s op :
  tracked_addr s (Some op) = true ->
  exists pv id off, kind_at s (Some op) = Some pv /\ ptrval_alloc_info pv = Some (id, off).
Proof. unfold tracked_addr. destruct (kind_at s (Some op)) as [[]|]; naive_solver. Qed.

Section exec.
Context `{SoundSolver} (dbg : bool) (fuel : nat) (m : Module_).
Context (asm_policy : InlineAsmPolicy) (dma_policy : DmaPolicy) (spill : gset Name).
Context (fname : string) (bb idx : nat).
#[local] Set Default Proof Using "Type*".

#[local] Notation step := (step dbg fuel (mod_types m) asm_policy dma_policy (has_irq_risk m) fname bb idx).
#[local] Notation sim := (sim spill).

Lemma memset_pass call s s' op v :
  do_memset fname bb idx call s = Next s' -> final_result s' = APass -> solver_idle (solver s) ->
  arg call 0 = Some op -> heap_addr s (Some op) = true -> arg call 2 = Some v ->
  exists len id off e, operand_const_u64 v = Some len /\ kind_at s (Some op) = Some (Kmalloc id off) /\ id ∉ freed_allocs s /\
    alloc_sizes s !! id = Some e /\ in_bounds (Int_eval e) (Int_eval off) len.
Proof.
  unfold do_memset, heap_addr. intros Hm Hp Hidle Ha Hh Hv. rewrite Ha, Hv in Hm.
  destruct (kind_at s (Some op)) as [[id off| |]|] eqn:Hk; try done.
  destruct (kind_at_local _ _ _ Hk) as (n & ty & -> & Hn). simpl in Hm.
  destruct (operand_const_u64 v) as [len|] eqn:Hc; [|by revert Hm; refused].
  rewrite Hn in Hm. exists len.
  destruct (mem_access _ _ _ _ _ _ _ _ _) eqn:E; simplify_eq;
    apply mem_access_pass in E as (? & e & ? & ?); try done; by exists id, off, e.
Qed.

Lemma memcpy_side_pass op kind len s s' :
  memcpy_side fname bb idx op kind len s = Next s' -> final_result s' = APass ->
  solver_idle (solver s) -> heap_addr s (Some op) = true ->
  exists id off e, kind_at s (Some op) = Some (Kmalloc id off) /\ id ∉ freed_allocs s /\
    alloc_sizes s !! id = Some e /\ in_bounds (Int_eval e) (Int_eval off) len.
Proof.
  unfold memcpy_side, heap_addr. intros Hm Hp Hidle Hh.
  destruct (kind_at s (Some op)) as [[id off| |]|] eqn:Hk; try done.
  destruct (kind_at_local _ _ _ Hk) as (n & ty & -> & Hn). simpl in Hm. rewrite Hn in Hm.
  destruct (mem_access _ _ _ _ _ _ _ _ _) eqn:E; simplify_eq;
    apply mem_access_pass in E as (? & e & ? & ?); try done; by exists id, off, e.
Qed.

(** A side that breaks has failed. *)
Lemma memcpy_side_break op kind len s s' :
  memcpy_side fname bb idx op kind len s = Break s' -> is_fail (final_result s') = true.
Proof.
  unfold memcpy_side. repeat (case_match; try done). intros [= <-]. by eapply mem_access_break.
Qed.

Lemma memcpy_pass call s s' op op' v :
  do_memcpy fname bb idx call s = Next s' -> final_result s' = APass -> state_inv s ->
  arg call 0 = Some op -> heap_addr s (Some op) = true ->
  arg call 1 = Some op' -> heap_addr s (Some op') = true ->
  arg call 2 = Some v ->
  exists len, operand_const_u64 v = Some len /\ forall o, o = op \/ o = op' ->
  exists id off e, kind_at s (Some o) = Some (Kmalloc id off) /\ id ∉ freed_allocs s /\
    alloc_sizes s !! id = Some e /\ in_bounds (Int_eval e) (Int_eval off) len.
Proof.
  unfold do_memcpy. intros Hm Hp Hi Ha Hh Ha' Hh' Hv. rewrite Ha, Ha', Hv in Hm.
  destruct (operand_const_u64 v) as [len|] eqn:Hc; [|by revert Hm; refused].
  exists len. split; [done|]. intros o Ho. cbv zeta in Hm.
  destruct (memcpy_side fname bb idx op "destination" len s) as [s1|s1] eqn:E1;
    [|apply memcpy_side_break in E1; by rewrite E1 in Hm].
  destruct (memcpy_side fname bb idx op' "source" len s1) as [s2|s2] eqn:E2;
    [|apply memcpy_side_break in E2; simpl in Hm; by rewrite E2 in Hm].
  simpl in Hm. destruct (is_fail (final_result s2)); [done|]. injection Hm as <-.
  pose proof (memcpy_side_micros fname bb idx op "destination" len s) as Hm1. rewrite E1 in Hm1.
  pose proof (memcpy_side_micros fname bb idx op' "source" len s1) as Hm2. rewrite E2 in Hm2.
  pose proof (memcpy_side_core fname bb idx op "destination" len s) as Hco. rewrite E1 in Hco.
  simpl in *.
  assert (ptr_env s1 = ptr_env s /\ alloc_sizes s1 = alloc_sizes s /\ freed_allocs s1 = freed_allocs s)
    as (Hpe & Has & Hfr) by (unfold core in Hco; by injection Hco).
  destruct Ho as [->| ->].
  - eapply memcpy_side_pass; [exact E1| |apply Hi|done].
    eapply pass_extends; [by eapply micros_extends|done].
  - destruct (memcpy_side_pass _ _ _ _ _ E2 Hp) as (id & off & e & Hk & Hf & He & Hb).
    + by eapply si_idle, micros_inv.
    + unfold heap_addr, kind_at in *. by rewrite Hpe.
    + exists id, off, e. unfold kind_at in *. by rewrite Hpe in Hk; rewrite Hfr in Hf; rewrite Has in He.
Qed.

Lemma dma_map_pass call s s' op v :
  do_dma_map fname bb idx call s = Next s' -> final_result s' = APass -> state_inv s ->
  arg call 1 = Some op -> tracked_addr s (Some op) = true -> arg call 2 = Some v ->
  exists len pv id off e, operand_const_u64 v = Some len /\ kind_at s (Some op) = Some pv /\ ptrval_alloc_info pv = Some (id, off) /\
    alloc_sizes s !! id = Some e /\ in_bounds (Int_eval e) (Int_eval off) len.
Proof.
  unfold do_dma_map, tracked_addr. intros Hm Hp Hi Ha Hh Hv. rewrite Ha, Hv in Hm.
  destruct (operand_const_u64 v) as [len|] eqn:Hc; [|by revert Hm; refused].
  destruct (kind_at s (Some op)) as [pv|] eqn:Hk; [|done].
  destruct (kind_at_local _ _ _ Hk) as (n & ty & -> & Hn). simpl in Hm. rewrite Hn in Hm. simpl in Hm.
  assert (exists id off, ptrval_alloc_info pv = Some (id, off)) as (id & off & Hinfo).
  { destruct pv; simpl; naive_solver. }
  rewrite Hinfo in Hm.
  assert (id < alloc_counter s) as Hid.
  { pose proof (map_Forall_lookup_1 _ _ _ _ (si_ptr s Hi) Hn) as Hok.
    destruct pv; simplify_eq/=; [apply Hok|by apply (si_dma s Hi)]. }
  apply (si_sizes s Hi) in Hid as [e He]. rewrite He in Hm.
  unfold ask_solver in Hm. destruct (check_access _ _ _ _ _ _ _) as [[r sv] g] eqn:E.
  exists len, pv, id, off, e. do 4 (split; [done|]).
  destruct r; simplify_eq; try (by apply unknown_not_pass in Hp).
  eapply check_access_safe; [exact E|apply Hi].
Qed.

(** The arm of [do_call] for a callee's name. *)
Definition arm (f : string) (call : Call) (s : AState) : flow :=
  if decide (f ∈ allocators) then do_kmalloc call s
  else if decide (f = "kcalloc") then do_kcalloc call s
  else if decide (f = "kfree") then do_kfree fname call s
  else if decide (f = "memset") then do_memset fname bb idx call s
  else if decide (f ∈ copiers) then do_memcpy fname bb idx call s
  else if decide (f = "dma_alloc_coherent" /\ dma_policy <> Ignore) then do_dma_alloc fname bb idx call s
  else if decide (f = "dma_map_single" /\ dma_policy <> Ignore) then do_dma_map fname bb idx call s
  else if decide (f = "iommu_map") then do_iommu_map s
  else Next s.

Lemma do_call_arm call s s' f :
  do_call asm_policy dma_policy fname bb idx call s = Next s' ->
  function_name_of_call call = Some f -> arm f call s = Next s'.
Proof.
  unfold do_call, arm. destruct (is_fail _); [done|]. intros Hs Hf. rewrite Hf in Hs.
  rewrite <- Hs. unfold allocators, copiers.
  rewrite !(decide_ext _ _ _ _ (two_names f _ _)). done.
Qed.

(** With the const operands the semantics read. *)
Lemma kmalloc_pass call s s' :
  do_kmalloc call s = Next s' -> final_result s' = APass ->
  exists op size, arg call 0 = Some op /\ operand_const_u64 op = Some size /\
    s' = bind_ptr_opt (Call_dest call) (Kmalloc (alloc_counter s) (Int_from_u64 0)) (fresh_alloc size s).2.
Proof.
  unfold do_kmalloc. destruct (arg call 0) as [op|]; [|refused].
  destruct (operand_const_u64 op) as [size|] eqn:E; [|refused]. intros [= <-] _. eauto.
Qed.

Lemma kcalloc_pass call s s' :
  do_kcalloc call s = Next s' -> final_result s' = APass ->
  exists op op' n size, arg call 0 = Some op /\ operand_const_u64 op = Some n /\
    arg call 1 = Some op' /\ operand_const_u64 op' = Some size /\ (n * size <= u64_max)%Z /\
    s' = bind_ptr_opt (Call_dest call) (Kmalloc (alloc_counter s) (Int_from_u64 0))
           (fresh_alloc (n * size) s).2.
Proof.
  unfold do_kcalloc. destruct (arg call 0) as [op|], (arg call 1) as [op'|]; try refused.
  destruct (operand_const_u64 op) as [n|] eqn:E, (operand_const_u64 op') as [size|] eqn:E'; try refused.
  unfold u64_checked_mul. case_decide; [|done]. intros [= <-] _. eauto 10.
Qed.

Lemma dma_alloc_pass call s s' :
  do_dma_alloc fname bb idx call s = Next s' -> final_result s' = APass ->
  exists op size, arg call 1 = Some op /\ operand_const_u64 op = Some size /\
    core s' = core (bind_ptr_opt (Call_dest call) (DmaAlloc (alloc_counter s) (Int_from_u64 0))
                      (fresh_alloc size s).2).
Proof.
  unfold do_dma_alloc. destruct (arg call 1) as [op|]; [|refused].
  destruct (operand_const_u64 op) as [size|] eqn:E; [|refused]. intros [= <-] _.
  exists op, size. split; [done|]. split; [done|]. simpl. rewrite ask_gate_core.
  by destruct (Call_dest call).
Qed.

Lemma kfree_pass call s s' op :
  do_kfree fname call s = Next s' -> arg call 0 = Some op -> heap_addr s (Some op) = true ->
  exists id off, kind_at s (Some op) = Some (Kmalloc id off) /\ id ∉ freed_allocs s /\
    s' = set_freed_allocs ({[id]} ∪ freed_allocs s) s.
Proof.
  unfold do_kfree, heap_addr. intros Hm Ha Hh. rewrite Ha in Hm.
  destruct (kind_at s (Some op)) as [[id off| |]|] eqn:Hk; try done.
  destruct (kind_at_local _ _ _ Hk) as (n & ty & -> & Hn). simpl in Hm. rewrite Hn in Hm.
  case_decide; simplify_eq. eauto.
Qed.

Lemma exec_free β D s c op v id off k b o :
  sim β D s c -> ceval c op v -> kind_at s (Some op) = Some (Kmalloc id off) -> id ∉ freed_allocs s ->
  v = VPtr b o -> c_blocks c !! b = Some k ->
  cb_live k = true /\ β !! b = Some id.
Proof.
  intros Hs He Hk Hid -> Hb.
  destruct (eval_tracked _ _ _ _ _ _ _ _ id off Hs He Hk eq_refl) as (b' & o' & [= <- <-] & Hβ & _).
  destruct (sim_block _ _ _ _ _ Hs b id Hβ) as (k' & e & Hk' & _ & _ & _ & Hl).
  simplify_eq. auto.
Qed.

(** The state after an arm that leaves the simulated part alone. *)
Lemma arm_core_names call s s' f :
  arm f call s = Next s' -> f ∈ ["memset"; "memcpy"; "__memcpy"; "dma_map_single"; "iommu_map"] ->
  core s' = core s.
Proof.
  intros Ha Hf. rewrite !elem_of_cons, elem_of_nil in Hf. unfold arm in Ha.
  destruct Hf as [->|[->|[->|[->|[->|[]]]]]]; simpl in Ha.
  - pose proof (do_memset_core fname bb idx call s) as Hc. by rewrite Ha in Hc.
  - pose proof (do_memcpy_core fname bb idx call s) as Hc. by rewrite Ha in Hc.
  - pose proof (do_memcpy_core fname bb idx call s) as Hc. by rewrite Ha in Hc.
  - case_decide; [|by simplify_eq].
    pose proof (do_dma_map_core fname bb idx call s) as Hc. by rewrite Ha in Hc.
  - by injection Ha as <-.
Qed.

(** The operands a copy or a set touches. *)
Lemma exec_touch β D s c op v id off e len :
  sim β D s c -> ceval c op v -> kind_at s (Some op) = Some (Kmalloc id off) ->
  id ∉ freed_allocs s -> alloc_sizes s !! id = Some e ->
  in_bounds (Int_eval e) (Int_eval off) len -> in_u64 len ->
  Forall safe_event (access_events v len c).
Proof.
  intros Hs He Hk Hid Hal Hb [Hlen _]. eapply access_safe; [done| |done..].
  by eapply eval_tracked.
Qed.


(** One lemma per allocating, freeing and copying arm. *)

Lemma exec_kmalloc β D s s' c call op size :
  fresh_opt (Call_dest call) D -> state_inv s -> sim β D s c ->
  do_kmalloc call s = Next s' -> final_result s' = APass ->
  arg call 0 = Some op -> ceval c op (VNum size) -> in_u64 size ->
  exists β', sim β' (names_opt (Call_dest call) ∪ D) s' (new_block size (Call_dest call) c).
Proof.
  intros Hd Hi Hs Hm Hp Ha He Hsz.
  destruct (kmalloc_pass _ _ _ Hm Hp) as (op1 & z & E1 & E2 & ->). simplify_eq.
  pose proof (eval_const _ _ _ _ He E2) as [= <-].
  by eapply (exec_alloc _ _ _ _ _ _ _ (Kmalloc _ _)).
Qed.

(** The two sizes of a [kcalloc] that passed, as the execution sees them *)
Lemma kcalloc_sizes s s' c call op op' n size :
  do_kcalloc call s = Next s' -> final_result s' = APass ->
  arg call 0 = Some op -> ceval c op (VNum n) -> arg call 1 = Some op' -> ceval c op' (VNum size) ->
  (n * size <= u64_max)%Z /\
  s' = bind_ptr_opt (Call_dest call) (Kmalloc (alloc_counter s) (Int_from_u64 0))
         (fresh_alloc (n * size) s).2.
Proof.
  intros Hm Hp Ha He Ha' He'.
  destruct (kcalloc_pass _ _ _ Hm Hp) as (o1 & o2 & z & z' & E1 & E2 & E3 & E4 & Hmul & ->). simplify_eq.
  pose proof (eval_const _ _ _ _ He E2) as [= <-]. by pose proof (eval_const _ _ _ _ He' E4) as [= <-].
Qed.

Lemma exec_dma_alloc β D s s' c call op size :
  fresh_opt (Call_dest call) D -> state_inv s -> sim β D s c ->
  do_dma_alloc fname bb idx call s = Next s' -> final_result s' = APass ->
  arg call 1 = Some op -> ceval c op (VNum size) -> in_u64 size ->
  exists β', sim β' (names_opt (Call_dest call) ∪ D) s' (new_block size (Call_dest call) c).
Proof.
  intros Hd Hi Hs Hm Hp Ha He Hsz.
  destruct (dma_alloc_pass _ _ _ Hm Hp) as (o1 & z & E1 & E2 & Hco).
  rewrite Ha in E1. injection E1 as <-. pose proof (eval_const _ _ _ _ He E2) as [= <-].
  by eapply (exec_alloc _ _ _ _ _ _ _ (DmaAlloc (alloc_counter s) (Int_from_u64 0))).
Qed.

Lemma exec_kfree β D s s' c call op b o k res :
  fresh_opt (Call_dest call) D -> sim β D s c -> sim β (names_opt (Call_dest call) ∪ D) s' c ->
  do_kfree fname call s = Next s' ->
  arg call 0 = Some op -> heap_addr s (Some op) = true -> ceval c op (VPtr b o) ->
  c_blocks c !! b = Some k ->
  Forall safe_event [EvFree k] /\
  sim β (names_opt (Call_dest call) ∪ D) s' (set_env_opt (Call_dest call) res (kill_block b c)).
Proof using H H0 fname spill.
  intros Hd Hs Hs' Hm Ha Hh He Hk.
  destruct (kfree_pass _ _ _ _ Hm Ha Hh) as (id & off & Hka & Hid & ->).
  destruct (exec_free _ _ _ _ _ _ _ _ _ _ _ Hs He Hka Hid eq_refl Hk) as [Hlive Hβ].
  split; [by repeat constructor|].
  assert (sim β (names_opt (Call_dest call) ∪ D) (set_freed_allocs ({[id]} ∪ freed_allocs s) s)
    (kill_block b c)) as Hkill by (eapply sim_kill; [exact Hβ| |done]; simpl; set_solver).
  destruct (Call_dest call) as [n|]; simpl in *; [|done].
  apply sim_set_env; [set_solver| |done]. exact (value_ok_free _ _ _ _ _ _ _ _ Hd Hs).
Qed.

Lemma exec_memcpy β D s s' c call op op' op'' v v' len :
  sim β D s c -> state_inv s -> do_memcpy fname bb idx call s = Next s' -> final_result s' = APass ->
  arg call 0 = Some op -> heap_addr s (Some op) = true -> ceval c op v ->
  arg call 1 = Some op' -> heap_addr s (Some op') = true -> ceval c op' v' ->
  arg call 2 = Some op'' -> ceval c op'' (VNum len) -> in_u64 len ->
  Forall safe_event (access_events v len c ++ access_events v' len c).
Proof.
  intros Hs Hi Hm Hp Ha C0 He Ha' C1 He' Ha'' He'' Hlen.
  destruct (memcpy_pass _ _ _ _ _ _ Hm Hp Hi Ha C0 Ha' C1 Ha'') as (z & Hz & Hsides).
  pose proof (eval_const _ _ _ _ He'' Hz) as [= <-].
  destruct (Hsides op) as (id & off & e & K1 & K2 & K3 & K4); [by left|].
  destruct (Hsides op') as (id' & off' & e' & K1' & K2' & K3' & K4'); [by right|].
  apply Forall_app; split.
  - exact (exec_touch _ _ _ _ _ _ _ _ _ _ Hs He K1 K2 K3 K4 Hlen).
  - exact (exec_touch _ _ _ _ _ _ _ _ _ _ Hs He' K1' K2' K3' K4' Hlen).
Qed.

Lemma exec_call β D s s' c call evs c' :
  fresh_opt (Call_dest call) D -> cov_call dma_policy call s = true -> state_inv s -> sim β D s c ->
  do_call asm_policy dma_policy fname bb idx call s = Next s' -> final_result s' = APass ->
  call_step call c evs c' ->
  Forall safe_event evs /\ exists β', sim β' (names_opt (Call_dest call) ∪ D) s' c'.
Proof.
  intros Hd Hcov Hi Hs Hstep Hp Hc.
  assert (sim β (names_opt (Call_dest call) ∪ D) s' c) as Hskip by by eapply skip_call.
  assert (forall f res, function_name_of_call call = Some f ->
    f ∈ ["memset"; "memcpy"; "__memcpy"; "dma_map_single"; "iommu_map"] ->
    exists β', sim β' (names_opt (Call_dest call) ∪ D) s' (set_env_opt (Call_dest call) res c)) as Hres.
  { intros f res Hf Hin. exists β. eapply exec_ignored; try done.
    eapply (arm_core_names call s s' f); [|done]. eapply do_call_arm; eassumption. }
  destruct Hc as [f op size Hf Hin Ha He Hsz|op op' n size Hf Ha He Hn Ha' He' Hsz Hmul
    |op op' n size Hf Ha He Ha' He' Hmul|op size Hf Ha He Hsz|op b o k res Hf Ha He Hk|op v res Hf Ha He Hv
    |op op' v len res Hf Ha He Ha' He' Hlen|f op op' op'' v v' len res Hf Hin Ha He Ha' He' Ha'' He'' Hlen
    |op op' v len res Hf Ha He Ha' He' Hlen|res Hf|c' Hop].
  all: try (pose proof (do_call_arm _ _ _ _ Hstep Hf) as Harm; unfold arm in Harm;
            destruct (cov_call_args _ _ _ _ Hf Hcov) as (Cfree & Cset & Ccpy & Cmap & _)).
  - split; [done|]. rewrite decide_True in Harm by done. by eapply exec_kmalloc.
  - split; [done|]. destruct (kcalloc_sizes _ _ _ _ _ _ _ _ Harm Hp Ha He Ha' He') as [_ ->].
    eapply (exec_alloc _ _ _ _ _ _ _ (Kmalloc _ _)); try done. unfold in_u64 in *. nia.
  - destruct (kcalloc_sizes _ _ _ _ _ _ _ _ Harm Hp Ha He Ha' He') as [Hle _]. lia.
  - split; [done|]. simpl in Harm. case_decide as Hig; [by eapply exec_dma_alloc|].
    injection Harm as <-. exists β. by eapply exec_untracked_alloc.
  - specialize (Cfree eq_refl). rewrite Ha in Cfree.
    destruct (exec_kfree _ _ _ _ _ _ _ _ _ _ res Hd Hs Hskip Harm Ha Cfree He Hk). eauto.
  - specialize (Cfree eq_refl). rewrite Ha in Cfree. unfold heap_addr in Cfree.
    destruct (kind_at s (Some op)) as [[id off| |]|] eqn:Hka; try done.
    destruct (eval_tracked _ _ _ _ _ _ _ _ id off Hs He Hka eq_refl) as (? & ? & -> & _). naive_solver.
  - simpl in Harm. split; [|by eapply (Hres "memset"); set_solver].
    specialize (Cset eq_refl). rewrite Ha in Cset.
    destruct (memset_pass _ _ _ _ _ Harm Hp (si_idle s Hi) Ha Cset Ha')
      as (z & id & off & e & Hz & ? & ? & ? & ?).
    pose proof (eval_const _ _ _ _ He' Hz) as [= <-]. eapply exec_touch; [exact Hs|eassumption..].
  - rewrite decide_False, !decide_False, decide_True in Harm
      by (unfold allocators, copiers in *; rewrite two_names in *; naive_solver).
    split; [|by eapply (Hres f); [done|]; unfold copiers in Hin; set_solver].
    destruct (Ccpy Hin) as [C0 C1]. rewrite Ha in C0. rewrite Ha' in C1. exact (exec_memcpy _ _ _ _ _ _ _ _ _ _ _ _ Hs Hi Harm Hp Ha C0 He Ha' C1 He' Ha'' He'' Hlen).
  - simpl in Harm. destruct (Cmap eq_refl) as [Hig C1]. rewrite Ha in C1.
    rewrite decide_True in Harm by done. split; [|by eapply (Hres "dma_map_single"); set_solver].
    destruct (dma_map_pass _ _ _ _ _ Harm Hp Hi Ha C1 Ha') as (z & pv & id & off & e & Hz & ? & ? & ? & ?).
    pose proof (eval_const _ _ _ _ He' Hz) as [= <-].
    eapply mapping_safe; [exact Hs| |eassumption|eassumption|apply Hlen].
    eapply eval_tracked; [exact Hs|eassumption..].
  - split; [done|]. by eapply (Hres "iommu_map"); set_solver.
  - unfold cov_call in Hcov. destruct (function_name_of_call call) as [f|] eqn:Hf; [|done].
    destruct (cov_call_args dma_policy f call s Hf) as (_ & _ & _ & _ & Hm); [by unfold cov_call; rewrite Hf|].
    by destruct (Hop f eq_refl).
Qed.

(** *** Pointer arithmetic *)

Lemma exec_gep_tracked β D s c g v z r id off new :
  sim β D s c -> ceval c (GetElementPtr_address g) v -> gep_delta g = Some z -> moved v z r ->
  (exists pv, kind_at s (Some (GetElementPtr_address g)) = Some pv /\
              ptrval_alloc_info pv = Some (id, off)) ->
  gep_agrees dbg fuel m g = true ->
  infer_gep_offset dbg (mod_types m) fuel g off = Done (Some new) ->
  points β id new r.
Proof.
  intros Hs He Hz Hmv (pv & Hk & Hi) Hag Hin.
  pose proof (eval_tracked _ _ _ _ _ _ _ _ _ _ Hs He Hk Hi) as Hpt.
  unfold gep_agrees in Hag. rewrite Hz in Hag.
  destruct (infer_gep_offset _ _ _ _ (Int_from_u64 0)) as [[e|]| |] eqn:E0; try done.
  apply bool_decide_eq_true in Hag.
  destruct Hpt as (b & o & -> & Hrest). destruct Hmv as [b' o' [= <- <-]|]; [|naive_solver].
  eapply points_move; [by exists b, o| |exact Hag]. by eapply infer_gep_shift.
Qed.

Lemma exec_gep β D s s' c g r :
  GetElementPtr_dest g ∉ D -> cov_gep dbg fuel m g s = true -> sim β D s c ->
  do_gep dbg fuel (mod_types m) g s = Done (Next s') -> final_result s' = APass ->
  (gep_delta g = None \/
   exists v z, ceval c (GetElementPtr_address g) v /\ gep_delta g = Some z /\ moved v z r) ->
  sim β ({[GetElementPtr_dest g]} ∪ D) s' (set_env (GetElementPtr_dest g) r c).
Proof.
  intros Hn Hcov Hs Hstep Hp Hsem. unfold do_gep, cov_gep in *. cbv zeta in Hstep.
  destruct (operand_local_name (GetElementPtr_address g)) as [base|] eqn:Hb;
    [|revert Hstep; refused].
  assert (forall pv, ptr_env s !! base = Some pv -> kind_at s (Some (GetElementPtr_address g)) = Some pv)
    as Hkind by (intros pv Hpv; unfold kind_at; simpl; by rewrite Hb; simpl).
  destruct (ptr_env s !! base) as [[id off|id off|]|] eqn:Hpe.
  3, 4: try (apply bool_decide_eq_true in Hcov; rewrite Hcov in Hstep); injection Hstep as <-;
    by eapply exec_bind_ptr.
  all: apply exec_bind_done in Hstep as (o & Ho & Hstep); destruct o as [new|];
    [injection Hstep as <-|revert Hstep; refused].
  all: eapply exec_bind_ptr; [done|exact Hs|done|]; unfold ptr_match; simpl.
  all: destruct Hsem as [Hnone|(v & z & He & Hz & Hmv)];
    [unfold gep_agrees in Hcov; rewrite Hnone in Hcov; by repeat case_match|].
  all: eapply exec_gep_tracked; [exact Hs|exact He|exact Hz|exact Hmv| |exact Hcov|exact Ho];
    eexists; split; [by apply Hkind|done].
Qed.

Lemma eval_tracked_int β D s c op v id off :
  sim β D s c -> ceval c op v -> tracked_int op s = Some (PtrOffset id off) -> points β id off v.
Proof.
  intros Hs He (n & Hn & Hi)%bind_Some. inversion He; subst; simplify_eq/=.
  by pose proof (sim_int _ _ _ _ _ Hs n v _ ltac:(done) Hi) as Hm.
Qed.

(** A tracked integer plus or minus a constant. *)
Lemma exec_offset β D s c op op' v r id off off' k d :
  sim β D s c -> tracked_int op s = Some (PtrOffset id off) -> operand_const_u64 op' = Some k ->
  ceval c op v -> moved v d r -> Int_eval off' = (Int_eval off + d)%Z -> points β id off' r.
Proof.
  intros Hs Ht Hk He Hm Heq. pose proof (eval_tracked_int _ _ _ _ _ _ _ _ Hs He Ht) as Hpt.
  destruct Hpt as (b & o & -> & Hrest). destruct Hm as [b' o' [= <- <-]|]; [|naive_solver].
  eapply points_move; [by exists b, o|exact Heq|]. by rewrite Z.sub_diag.
Qed.

(** No value is both tracked and a number. *)
Lemma tracked_not_num β D s c op id off n :
  sim β D s c -> tracked_int op s = Some (PtrOffset id off) -> ~ ceval c op (VNum n).
Proof.
  intros Hs Ht He. by destruct (eval_tracked_int _ _ _ _ _ _ _ _ Hs He Ht) as (? & ? & ? & _).
Qed.

Lemma exec_add β D s s' c a evs c' :
  Add_dest a ∉ D -> sim β D s c -> do_add a s = Next s' -> final_result s' = APass ->
  cstep (IAdd a) c evs c' -> evs = [] /\ sim β ({[Add_dest a]} ∪ D) s' c'.
Proof.
  intros Hn Hs Hstep Hp Hc.
  assert (evs = [] /\ exists r, c' = set_env (Add_dest a) r c /\
    ((exists v z, ceval c (Add_operand0 a) v /\ ceval c (Add_operand1 a) (VNum z) /\ moved v z r) \/
     (exists v z, ceval c (Add_operand0 a) (VNum z) /\ ceval c (Add_operand1 a) v /\ moved v z r) \/
     (exists v v', ceval c (Add_operand0 a) v /\ ceval c (Add_operand1 a) v' /\
        (forall n, v <> VNum n) /\ (forall n, v' <> VNum n)))) as (-> & r & -> & Hsem)
    by (inversion Hc; subst; try done; split; try done; eexists; split; eauto 10).
  split; [done|]. clear Hc. revert Hstep. unfold do_add. cbv zeta.
  destruct (tracked_int (Add_operand0 a) s) as [[id off|]|] eqn:E0.
  - unfold int_const_ast. destruct (operand_const_u64 (Add_operand1 a)) as [k|] eqn:Ek; simpl; [|refused].
    intros [= <-]. eapply exec_bind_int; [done|exact Hs|done|]. simpl.
    destruct Hsem as [(v & z & He & He' & Hm)|[(v & z & He & _)|(v & v' & _ & He' & _ & Hv')]].
    + pose proof (eval_const _ _ _ _ He' Ek) as [= ->]. by eapply exec_offset.
    + by destruct (tracked_not_num _ _ _ _ _ _ _ _ Hs E0 He).
    + pose proof (eval_const _ _ _ _ He' Ek). naive_solver.
  - apply bind_Some in E0 as (n & Hl & _).
    assert (operand_const_u64 (Add_operand0 a) = None) as Ek by by destruct (Add_operand0 a).
    unfold int_const_ast. rewrite Ek. by destruct (tracked_int (Add_operand1 a) s) as [[]|]; simpl; refused.
  - destruct (tracked_int (Add_operand1 a) s) as [[id off|]|] eqn:E1; simpl; [|refused|].
    + unfold int_const_ast. destruct (operand_const_u64 (Add_operand0 a)) as [k|] eqn:Ek; simpl; [|refused].
      intros [= <-]. eapply exec_bind_int; [done|exact Hs|done|]. simpl.
      destruct Hsem as [(v & z & _ & He & _)|[(v & z & He' & He & Hm)|(v & v' & He' & _ & Hv' & _)]].
      * by destruct (tracked_not_num _ _ _ _ _ _ _ _ Hs E1 He).
      * pose proof (eval_const _ _ _ _ He' Ek) as [= ->]. by eapply exec_offset.
      * pose proof (eval_const _ _ _ _ He' Ek). naive_solver.
    + intros [= <-]. by apply (exec_unbound _ _ _ s _ _ (Some (Add_dest a))).
Qed.

Lemma exec_sub β D s s' c a evs c' :
  Sub_dest a ∉ D -> sim β D s c -> do_sub a s = Next s' -> final_result s' = APass ->
  cstep (ISub a) c evs c' -> evs = [] /\ sim β ({[Sub_dest a]} ∪ D) s' c'.
Proof.
  intros Hn Hs Hstep Hp Hc.
  assert (evs = [] /\ exists r, c' = set_env (Sub_dest a) r c /\
    ((exists v z, ceval c (Sub_operand0 a) v /\ ceval c (Sub_operand1 a) (VNum z) /\ moved v (- z) r) \/
     (exists v v', ceval c (Sub_operand0 a) v /\ ceval c (Sub_operand1 a) v' /\
        (forall n, v' <> VNum n)))) as (-> & r & -> & Hsem)
    by (inversion Hc; subst; try done; split; try done; eexists; split; eauto 10).
  split; [done|]. clear Hc. revert Hstep. unfold do_sub. cbv zeta.
  destruct (tracked_int (Sub_operand1 a) s) as [iv|] eqn:E1; simpl; [refused|].
  destruct (tracked_int (Sub_operand0 a) s) as [[id off|]|] eqn:E0; simpl; [|refused|].
  - unfold int_const_ast. destruct (operand_const_u64 (Sub_operand1 a)) as [k|] eqn:Ek; simpl; [|refused].
    intros [= <-]. eapply exec_bind_int; [done|exact Hs|done|]. simpl.
    destruct Hsem as [(v & z & He & He' & Hm)|(v & v' & _ & He' & Hv')].
    + pose proof (eval_const _ _ _ _ He' Ek) as [= ->]. by eapply exec_offset.
    + pose proof (eval_const _ _ _ _ He' Ek). naive_solver.
  - intros [= <-]. by apply (exec_unbound _ _ _ s _ _ (Some (Sub_dest a))).
Qed.

(** *** Loads and stores *)

Lemma exec_store_heap β D s s' c st evs c' len :
  types_ok (mod_types m) -> value_ty (Store_value st) ≫= scalar_len = Some len ->
  slot_of s (Store_address st) = None -> tracked_addr s (Some (Store_address st)) = true ->
  state_inv s -> sim β D s c ->
  do_store dbg fuel (mod_types m) (has_irq_risk m) fname bb idx st s = Done (Next s') ->
  final_result s' = APass -> cstep (IStore st) c evs c' ->
  Forall safe_event evs /\ sim β D s' c'.
Proof.
  intros HT Hlen Hslot Htr Hi Hs Hstep Hp Hc.
  destruct (tracked_info _ _ Htr) as (pv & id & off & Hk & Hinfo).
  destruct (kind_at_local _ _ _ Hk) as (n & ty & Hop & Hn).
  unfold do_store in Hstep. rewrite Hop in Hstep. simpl in Hstep.
  unfold slot_of in Hslot. rewrite Hop in Hslot. simpl in Hslot.
  case_decide as Hal; [done|]. cbv zeta in Hstep.
  pose proof (check_address_core _ _ _ _ _ _ _ _ _ _ Hstep) as Hco.
  destruct (check_address_pass _ _ _ _ _ _ _ _ _ _ id off Hstep (si_idle s Hi) Hp)
    as (Hid & len' & e & Hsz & He & Hb); [by rewrite Hn|].
  pose proof (store_size dbg fuel _ _ _ _ HT Hlen Hsz) as ->.
  assert (sim β D s' c) as Hs' by (eapply sim_core; [symmetry; exact Hco|done]).
  assert (forall v, ceval c (Store_address st) v -> points β id off v) as Hpt
    by (intros v Hv; exact (eval_tracked _ _ _ _ _ _ _ _ _ _ Hs Hv Hk Hinfo)).
  inversion Hc as [| | | | | | | | | | | | |? ? v v' ty' len0 Hv Hv' Hty Hl|? ? a v' ty' len0 Hv
    |? ? ? Hop'| | | | |]; subst; try done.
  - rewrite Hty in Hlen. simpl in Hlen. rewrite Hl in Hlen. injection Hlen as ->.
    split; [|by destruct (Hpt v Hv) as (? & ? & -> & _)].
    eapply access_safe; [exact Hs|by apply Hpt|done|done|done|by eapply scalar_len_pos].
  - by destruct (Hpt _ Hv) as (? & ? & ? & _).
  - congruence.
Qed.

Lemma exec_store_slot entry β D s s' c st evs c' a len :
  value_ty (Store_value st) ≫= scalar_len = Some len ->
  slot_of s (Store_address st) = Some a -> ptr_env s !! a = None ->
  match kind_at s (Some (Store_value st)) with
  | Some _ => entry && bool_decide (a ∈ spill) && bool_decide (len = 8%Z)
  | None => bool_decide (a ∉ spill)
  end = true ->
  sim β D s c ->
  do_store dbg fuel (mod_types m) (has_irq_risk m) fname bb idx st s = Done (Next s') ->
  cstep (IStore st) c evs c' ->
  Forall safe_event evs /\ sim β D s' c'.
Proof.
  intros Hlen [Hop Hal]%slot_of_spec Hpe Hcov Hs Hstep Hc.
  unfold do_store in Hstep. rewrite Hop in Hstep. rewrite decide_True in Hstep by done.
  cbv zeta in Hstep. apply check_address_core in Hstep as Hco. simpl in Hco.
  assert (forall v, ceval c (Store_address st) v -> v = VSlot a) as Haddr.
  { intros v Hv. destruct (Store_address st) as [n ty| |]; try done. injection Hop as ->.
    inversion Hv; subst. by eapply (sim_slot _ _ _ _ _ Hs). }
  assert (evs = [] /\ exists v', c' = set_slot a v' c /\
    (len = 8%Z -> ceval c (Store_value st) v')) as (-> & v' & -> & Hv8).
  { inversion Hc as [| | | | | | | | | | | | |? ? v v' ty' len0 Hv Hv' Hty Hl|? ? a' v' ty' len0 Hv Hty Hl Hne
      |? ? ? Hop'| | | | |]; subst; try done.
    - pose proof (Haddr v Hv) as ->. split; [done|]. eauto.
    - pose proof (Haddr _ Hv) as [= ->]. split; [done|]. exists v'. split; [done|].
      rewrite Hty in Hlen. simpl in Hlen. intros. simplify_eq.
    - congruence. }
  split; [done|]. eapply sim_core; [symmetry; exact Hco|].
  unfold kind_at in Hcov. simpl in Hcov.
  destruct (operand_local_name (Store_value st) ≫= (fun n => ptr_env s !! n)) as [pv|] eqn:Hk.
  - apply andb_true_iff in Hcov as [[_ Hsp%bool_decide_eq_true]%andb_true_iff H8%bool_decide_eq_true].
    apply sim_store_spill; try done. specialize (Hv8 H8).
    destruct (kind_at_local s (Store_value st) pv Hk) as (n & ty & Hval & Hn).
    rewrite Hval in Hv8. inversion Hv8; subst. by eapply (sim_ptr _ _ _ _ _ Hs).
  - apply bool_decide_eq_true in Hcov. apply sim_store_other; [|done].
    apply not_elem_of_dom. intros Hin. apply Hcov. by apply (sim_map_spill _ _ _ _ _ Hs).
Qed.

Lemma exec_store entry β D s s' c st evs c' :
  types_ok (mod_types m) -> cov_store spill entry st s = true -> state_inv s -> sim β D s c ->
  do_store dbg fuel (mod_types m) (has_irq_risk m) fname bb idx st s = Done (Next s') ->
  final_result s' = APass -> cstep (IStore st) c evs c' ->
  Forall safe_event evs /\ sim β D s' c'.
Proof.
  intros HT Hcov Hi Hs Hstep Hp Hc. unfold cov_store in Hcov.
  destruct (value_ty (Store_value st) ≫= scalar_len) as [len|] eqn:Hlen; [|done].
  destruct (slot_of s (Store_address st)) as [a|] eqn:Hslot.
  - apply andb_true_iff in Hcov as [Hpe%bool_decide_eq_true Hcov].
    by eapply exec_store_slot.
  - by eapply exec_store_heap.
Qed.

Lemma exec_load_heap β D s s' c ld evs c' len :
  Load_dest ld ∉ D -> scalar_len (Load_loaded_ty ld) = Some len ->
  slot_of s (Load_address ld) = None -> tracked_addr s (Some (Load_address ld)) = true ->
  state_inv s -> sim β D s c ->
  do_load dbg fuel (mod_types m) (has_irq_risk m) fname bb idx ld s = Done (Next s') ->
  final_result s' = APass -> cstep (ILoad ld) c evs c' ->
  Forall safe_event evs /\ sim β ({[Load_dest ld]} ∪ D) s' c'.
Proof.
  intros Hd Hlen Hslot Htr Hi Hs Hstep Hp Hc.
  destruct (tracked_info _ _ Htr) as (pv & id & off & Hk & Hinfo).
  destruct (kind_at_local _ _ _ Hk) as (n & ty & Hop & Hn).
  unfold do_load in Hstep. rewrite Hop in Hstep. simpl in Hstep.
  unfold slot_of in Hslot. rewrite Hop in Hslot. simpl in Hslot.
  case_decide as Hal; [done|]. cbv zeta in Hstep.
  pose proof (check_address_core _ _ _ _ _ _ _ _ _ _ Hstep) as Hco.
  destruct (check_address_pass _ _ _ _ _ _ _ _ _ _ id off Hstep (si_idle s Hi) Hp)
    as (Hid & len' & e & Hsz & He & Hb); [by rewrite Hn|].
  pose proof (type_size_scalar _ _ _ _ _ _ Hlen Hsz) as ->.
  assert (forall v, ceval c (Load_address ld) v -> points β id off v) as Hpt
    by (intros v Hv; exact (eval_tracked _ _ _ _ _ _ _ _ _ _ Hs Hv Hk Hinfo)).
  assert (forall r, sim β ({[Load_dest ld]} ∪ D) s' (set_env (Load_dest ld) r c)) as Hres
    by (intros r; by apply (exec_unbound _ _ _ s _ _ (Some (Load_dest ld)))).
  inversion Hc as [| | | | | | | | | | | | | | | |? ? a v len0 Hv|? ? v r len0 Hv _ Hl|? ? ? Hl| |];
    subst; try done.
  - rewrite Hl in Hlen. injection Hlen as ->. split; [|done].
    eapply access_safe; [exact Hs|by apply Hpt|done|done|done|by eapply scalar_len_pos].
  - congruence.
Qed.

Lemma exec_load_slot β D s s' c ld evs c' a len :
  Load_dest ld ∉ D -> scalar_len (Load_loaded_ty ld) = Some len ->
  slot_of s (Load_address ld) = Some a -> ptr_env s !! a = None ->
  bool_decide (a ∉ spill) || bool_decide (len = 8%Z) = true -> sim β D s c ->
  do_load dbg fuel (mod_types m) (has_irq_risk m) fname bb idx ld s = Done (Next s') ->
  cstep (ILoad ld) c evs c' ->
  Forall safe_event evs /\ sim β ({[Load_dest ld]} ∪ D) s' c'.
Proof.
  intros Hd Hlen [Hop Hal]%slot_of_spec Hpe Hcov Hs Hstep Hc.
  unfold do_load in Hstep. rewrite Hop in Hstep. rewrite decide_True in Hstep by done.
  cbv zeta in Hstep. apply check_address_core in Hstep as Hco. simpl in Hco.
  assert (forall v, ceval c (Load_address ld) v -> v = VSlot a /\ is_Some (c_env c !! a)) as Haddr.
  { intros v Hv. destruct (Load_address ld) as [n ty| |]; try done. injection Hop as ->.
    inversion Hv; subst. split; [by eapply (sim_slot _ _ _ _ _ Hs)|eauto]. }
  assert (evs = [] /\ exists v, c' = set_env (Load_dest ld) v c /\ slot_read c a len v /\
    is_Some (c_env c !! a)) as (-> & v & -> & Hread & Hsome).
  { inversion Hc as [| | | | | | | | | | | | | | | |? ? a' v len0 Hv Hl Hr|? ? v r len0 Hv Hns Hl|? ? ? Hl| |];
      subst; try done; [| |congruence].
    - destruct (Haddr _ Hv) as [[= ->] ?]. split; [done|]. exists v. split; [done|].
      rewrite Hl in Hlen. by injection Hlen as ->.
    - destruct (Haddr _ Hv) as [-> _]. by destruct (Hns a). }
  split; [done|]. destruct (alloca_store_map s !! a) as [pv|] eqn:Hmap.
  - eapply exec_bind_ptr; [done|exact Hs|exact Hco|].
    destruct (sim_spilled _ _ _ _ _ Hs a pv Hmap Hsome) as (v0 & Hv0 & Hm).
    assert (a ∈ spill) as Hsp by (apply (sim_map_spill _ _ _ _ _ Hs); by eapply elem_of_dom_2).
    apply orb_true_iff in Hcov as [?%bool_decide_eq_true|H8%bool_decide_eq_true]; [done|].
    destruct Hread as [v Hl Hv|v [?|?]]; [by simplify_eq|congruence..].
  - by apply (exec_unbound _ _ _ s _ _ (Some (Load_dest ld))).
Qed.

Lemma exec_load β D s s' c ld evs c' :
  Load_dest ld ∉ D -> cov_load spill ld s = true -> state_inv s -> sim β D s c ->
  do_load dbg fuel (mod_types m) (has_irq_risk m) fname bb idx ld s = Done (Next s') ->
  final_result s' = APass -> cstep (ILoad ld) c evs c' ->
  Forall safe_event evs /\ sim β ({[Load_dest ld]} ∪ D) s' c'.
Proof.
  intros Hd Hcov Hi Hs Hstep Hp Hc. unfold cov_load in Hcov.
  destruct (scalar_len (Load_loaded_ty ld)) as [len|] eqn:Hlen; [|done].
  destruct (slot_of s (Load_address ld)) as [a|] eqn:Hslot.
  - apply andb_true_iff in Hcov as [Hpe%bool_decide_eq_true Hcov]. by eapply exec_load_slot.
  - by eapply exec_load_heap.
Qed.

(** *** Casts *)

Lemma exec_ptrtoint β D s s' c p evs c' :
  PtrToInt_dest p ∉ D -> bool_decide (PtrToInt_to_type p = IntegerType 64) = true -> sim β D s c ->
  do_ptrtoint p s = Next s' -> final_result s' = APass -> cstep (IPtrToInt p) c evs c' ->
  Forall safe_event evs /\ exists β', sim β' ({[PtrToInt_dest p]} ∪ D) s' c'.
Proof.
  intros Hd Hty%bool_decide_eq_true Hs Hstep Hp Hc.
  inversion Hc as [| | | |? ? v Hv| | | | | | | | | | | | | | | |]; subst; try done.
  split; [done|]. exists β. revert Hstep. unfold do_ptrtoint. cbv zeta.
  destruct (PtrToInt_operand p) as [n ty| |]; simpl; [|refused..]. intros [= <-].
  eapply exec_bind_int; [done|exact Hs|done|].
  destruct (ptr_env s !! n) as [[id off|id off|]|] eqn:Hn; try done.
  inversion Hv; subst. by apply (sim_ptr _ _ _ _ _ Hs n v (Kmalloc id off)).
Qed.

Lemma exec_inttoptr β D s s' c p evs c' :
  IntToPtr_dest p ∉ D -> sim β D s c ->
  do_inttoptr p s = Next s' -> final_result s' = APass -> cstep (IIntToPtr p) c evs c' ->
  Forall safe_event evs /\ exists β', sim β' ({[IntToPtr_dest p]} ∪ D) s' c'.
Proof.
  intros Hd Hs Hstep Hp Hc.
  inversion Hc as [| | | | | |? ? v Hv| | | | | | | | | | | | | |]; subst; try done.
  split; [done|]. exists β. revert Hstep. unfold do_inttoptr. cbv zeta.
  destruct (IntToPtr_operand p) as [n ty| |]; simpl; [|refused..]. intros [= <-].
  eapply exec_bind_ptr; [done|exact Hs|done|].
  destruct (int_env s !! n) as [[id off|]|] eqn:Hn; try done.
  inversion Hv; subst. by apply (sim_int _ _ _ _ _ Hs n v (PtrOffset id off)).
Qed.

Lemma exec_bitcast β D s s' c p evs c' :
  BitCast_dest p ∉ D -> sim β D s c ->
  do_bitcast p s = Next s' -> final_result s' = APass -> cstep (IBitCast p) c evs c' ->
  Forall safe_event evs /\ exists β', sim β' ({[BitCast_dest p]} ∪ D) s' c'.
Proof.
  intros Hd Hs Hstep Hp Hc.
  inversion Hc as [| | | | | | |? ? v Hv| | | | | | | | | | | | |]; subst; try done.
  split; [done|]. exists β. revert Hstep. unfold do_bitcast. cbv zeta.
  destruct (BitCast_operand p) as [n ty| |]; simpl; [|refused..]. intros [= <-].
  eapply exec_bind_ptr; [done|exact Hs|done|].
  destruct (ptr_env s !! n) as [pv|] eqn:Hn; simpl; [|done].
  inversion Hv; subst. by apply (sim_ptr _ _ _ _ _ Hs n v pv).
Qed.

(** *** All instructions *)

Lemma exec_instr entry i β D s s' c evs c' :
  types_ok (mod_types m) -> cov_instr dbg fuel m dma_policy spill entry i D s = true ->
  state_inv s -> sim β D s c -> step i s = Done (Next s') -> final_result s' = APass ->
  cstep i c evs c' ->
  Forall safe_event evs /\ exists β', sim β' (dests i ∪ D) s' c'.
Proof.
  intros HT Hcov Hi Hs Hstep Hp Hc. unfold cov_instr in Hcov. apply andb_true_iff in Hcov as [Hd Hcov].
  assert (fresh_opt (try_get_result i) D) as Hfresh.
  { unfold fresh_opt. destruct (try_get_result i); [by apply bool_decide_eq_true in Hd|done]. }
  clear Hd. change (dests i) with (names_opt (try_get_result i)).
  destruct (has_rule i) eqn:Hrule.
  - destruct i; try done; simpl in *.
    + apply Done_inj in Hstep. destruct (exec_add _ _ _ _ _ _ _ _ Hfresh Hs Hstep Hp Hc) as [-> ?]. eauto.
    + apply Done_inj in Hstep. destruct (exec_sub _ _ _ _ _ _ _ _ Hfresh Hs Hstep Hp Hc) as [-> ?]. eauto.
    + injection Hstep as <-. inversion Hc; subst; try done. split; [done|]. exists β. by apply exec_alloca.
    + destruct (exec_load _ _ _ _ _ _ _ _ Hfresh Hcov Hi Hs Hstep Hp Hc). eauto.
    + destruct (exec_store entry _ _ _ _ _ _ _ _ HT Hcov Hi Hs Hstep Hp Hc) as [? Hsim].
      split; [done|]. exists β. eapply sim_more; [|exact Hsim]. set_solver.
    + assert (evs = [] /\ exists r, c' = set_env (GetElementPtr_dest i) r c /\
        (gep_delta i = None \/ exists v z, ceval c (GetElementPtr_address i) v /\
           gep_delta i = Some z /\ moved v z r)) as (-> & r & -> & Hsem)
        by (inversion Hc; subst; try done; split; try done; eexists; split; eauto 10).
      split; [done|]. exists β. by eapply exec_gep.
    + apply Done_inj in Hstep. by eapply exec_ptrtoint.
    + apply Done_inj in Hstep. by eapply exec_inttoptr.
    + apply Done_inj in Hstep. by eapply exec_bitcast.
    + apply Done_inj in Hstep. inversion Hc; subst; try done. by eapply exec_call.
  - assert (other_memory i = false) as Hmem by (destruct i; simpl in *; by rewrite ?negb_true_iff in Hcov).
    assert (core s' = core s) as Hco by (destruct i; simpl in *; try done; by injection Hstep as <-).
    assert (exists r, c' = set_env_opt (try_get_result i) r c /\ evs = []) as (r & -> & ->)
      by (inversion Hc; subst; simplify_eq/=; eauto; congruence).
    split; [done|]. exists β. by apply (exec_unbound _ _ _ s).
Qed.
End exec.
