(* ===== verification/MemLoops.v ===== *)
(** * MemLoops: repeated execution of a block

    The analysis visits a block once, an execution may visit it many times.  Two
    facts bridge the gap.  [agree]: an instruction behaves the same in two states
    that agree on the names it reads, so the values an earlier round left behind can
    be dropped from the simulated state.  [stable]: what the analysis knows when it
    enters a block other than the first is still what it knows later on, so an
    execution that branches back is simulated by the analysis's state of that time
    ([rewind]), when the loop freed nothing allocated before it. *)

From S2P Require Import Prelude Text Types Constants Instr Smt Gate Analyzer Samples Sizes AnalyzerInv MemSafety MemSim.
From stdpp Require Import base gmap list strings.
From Stdlib Require Import ZArith Lia.
#[local] Open Scope string_scope.

(** ** Agreement *)

(** The same memory, and the same values of the names of [P]. *)
Inductive agree (P : gset Name) : CState -> CState -> Prop :=
  | agree_env e e' bl sl :
      (forall n, n ∈ P -> e !! n = e' !! n) -> agree P (mk_CState e bl sl) (mk_CState e' bl sl).

Lemma agree_refl P c : agree P c c.
Proof. by destruct c. Qed.
Lemma agree_mono P P' g c : P' ⊆ P -> agree P g c -> agree P' g c.
Proof. intros HP []. constructor. auto. Qed.
Lemma agree_blocks P g c : agree P g c -> c_blocks c = c_blocks g.
Proof. by intros []. Qed.

Lemma agree_set P g c n v : agree P g c -> agree ({[n]} ∪ P) (set_env n v g) (set_env n v c).
Proof.
  intros [e e' bl sl He]. constructor. intros x [->%elem_of_singleton|Hx]%elem_of_union.
  - by rewrite !lookup_insert_eq.
  - destruct (decide (n = x)) as [->|]; [by rewrite !lookup_insert_eq|].
    rewrite !lookup_insert_ne by done. auto.
Qed.
Lemma agree_set_opt P g c d v :
  agree P g c -> agree (names_opt d ∪ P) (set_env_opt d v g) (set_env_opt d v c).
Proof. destruct d; simpl; [apply agree_set|]. apply agree_mono. set_solver. Qed.
Lemma agree_slot P g c a v : agree P g c -> agree P (set_slot a v g) (set_slot a v c).
Proof. intros []. by constructor. Qed.
Lemma agree_store P g c v v' :
  agree P g c ->
  agree (∅ ∪ P) (match v with VSlot a => set_slot a v' g | _ => g end)
    (match v with VSlot a => set_slot a v' c | _ => c end).
Proof. rewrite union_empty_l_L. destruct v; auto using agree_slot. Qed.
Lemma agree_kill P g c b : agree P g c -> agree P (kill_block b g) (kill_block b c).
Proof. intros []. by constructor. Qed.
Lemma agree_new P g c size d :
  agree P g c -> agree (names_opt d ∪ P) (new_block size d g) (new_block size d c).
Proof.
  intros Ha. unfold new_block. rewrite (agree_blocks _ _ _ Ha). apply agree_set_opt.
  destruct Ha. by constructor.
Qed.
Lemma agree_touch P g c ev v : agree P g c -> touch ev v c = touch ev v g.
Proof. by intros []. Qed.

Lemma agree_slot_read P g c a len v : agree P g c -> slot_read c a len v -> slot_read g a len v.
Proof. intros [] []; [by apply sr_exact|by apply sr_any]. Qed.

Lemma agree_eval P g c op v : agree P g c -> operand_names op ⊆ P -> ceval c op v -> ceval g op v.
Proof.
  intros [e e' bl sl He] Hop Hc. inversion Hc; subst; simpl in *; constructor; simpl; [|done].
  rewrite He; [done|]. apply Hop. unfold operand_names. simpl. set_solver.
Qed.

Lemma arg_reads call k op : arg call k = Some op -> operand_names op ⊆ reads (ICall call).
Proof.
  unfold arg. intros ([o attrs] & Hk & ->)%fmap_Some. simpl.
  intros n Hn. apply elem_of_union_list. exists (operand_names o). split; [|done].
  apply list_elem_of_fmap. exists (o, attrs). split; [done|]. by eapply list_elem_of_lookup_2.
Qed.

(** A step from one of two agreeing states is a step from the other, with the same
    events, and they agree on the result too. *)

Lemma agree_call P g c call evs c' :
  agree P g c -> reads (ICall call) ⊆ P -> call_step call c evs c' ->
  exists g', call_step call g evs g' /\ agree (names_opt (Call_dest call) ∪ P) g' c'.
Proof.
  intros Hagree HP Hc.
  assert (forall k op v, arg call k = Some op -> ceval c op v -> ceval g op v) as Hev.
  { intros k op v Hk. apply (agree_eval _ _ _ _ _ Hagree).
    intros n Hn. by apply HP, (arg_reads call k op). }
  pose proof (agree_blocks _ _ _ Hagree) as Hbl.
  destruct Hc; unfold access_events; rewrite ?(agree_touch _ _ _ _ _ Hagree).
  all: eexists; split; [|first [by apply agree_new | by apply agree_set_opt, agree_kill
                               | by apply agree_set_opt | by apply agree_refl]].
  all: first
    [ solve [eapply cs_alloc; eauto] | solve [eapply cs_kcalloc; eauto] | solve [eapply cs_kcalloc_null; eauto]
    | solve [eapply cs_dma_alloc; eauto] | solve [eapply cs_kfree; rewrite <- ?Hbl; eauto]
    | solve [eapply cs_kfree_other; eauto] | solve [eapply cs_memset; eauto] | solve [eapply cs_memcpy; eauto]
    | solve [eapply cs_dma_map; eauto] | solve [eapply cs_iommu_map; eauto] | by apply cs_opaque ].
Qed.

Lemma agree_step P g c i evs c' :
  agree P g c -> reads i ⊆ P -> cstep i c evs c' ->
  exists g', cstep i g evs g' /\ agree (dests i ∪ P) g' c'.
Proof.
  intros Ha HP Hc. change (dests i) with (names_opt (try_get_result i)).
  assert (forall op v, operand_names op ⊆ reads i -> ceval c op v -> ceval g op v) as Hev.
  { intros op v Hop. apply (agree_eval _ _ _ _ _ Ha). set_solver. }
  destruct Hc; simpl in HP, Hev |- *; unfold access_events;
    rewrite ?(agree_touch _ _ _ _ _ Ha).
  { destruct (agree_call _ _ _ _ _ _ Ha HP H) as (g' & Hg & Hag). exists g'. split; [by constructor|done]. }
  { exists (mk_CState (<[Alloca_dest a := VSlot (Alloca_dest a)]> (c_env g)) (c_blocks g)
              (delete (Alloca_dest a) (c_slots g))). split; [constructor|].
    pose proof (agree_set _ _ _ (Alloca_dest a) (VSlot (Alloca_dest a)) Ha) as Hset.
    destruct Ha. inversion Hset; subst. by constructor. }
  all: eexists; split; [|first
    [ by apply agree_set | by apply agree_set_opt | by rewrite union_empty_l_L; apply agree_slot
    | by apply agree_store | by apply agree_refl ]].
  all: first
    [ solve [eapply st_gep; eauto] | solve [eapply st_gep_any; eauto] | solve [eapply st_ptrtoint; eauto]
    | solve [eapply st_ptrtoint_narrow; eauto] | solve [eapply st_inttoptr; eauto]
    | solve [eapply st_bitcast; eauto] | solve [eapply st_store_opaque; eauto]
    | solve [eapply st_load_slot; eauto using agree_slot_read] | solve [eapply st_load; eauto]
    | solve [eapply st_load_opaque; eauto] | solve [eapply st_memory; eauto] | solve [eapply st_other; eauto]
    | idtac ].
  all: [> eapply st_add_l | eapply st_add_r | apply (st_add_other a g v v') | eapply st_sub | eapply st_sub_ptr
        | eapply st_store | eapply st_store_narrow ]; eauto.
  all: eapply Hev; [|eassumption]; first [apply union_subseteq_l|apply union_subseteq_r].
Qed.

(** ** What the analysis does not change *)

(** From [s] to [s'] the analysis keeps what it knows of the names of [D], of the
    spilled slots and of the sizes. *)
Record stable (D : gset Name) (s s' : AState) : Prop := {
  sb_ptr n : n ∈ D -> ptr_env s' !! n = ptr_env s !! n;
  sb_int n : n ∈ D -> int_env s' !! n = int_env s !! n;
  sb_alloca n : n ∈ D -> n ∈ alloca_names s -> n ∈ alloca_names s';
  sb_map : alloca_store_map s' = alloca_store_map s;
  sb_sizes id e : alloc_sizes s !! id = Some e -> alloc_sizes s' !! id = Some e
}.

Lemma stable_refl D s : stable D s s.
Proof. by split. Qed.
Lemma stable_trans D D' s1 s2 s3 : D ⊆ D' -> stable D s1 s2 -> stable D' s2 s3 -> stable D s1 s3.
Proof.
  intros HD [] []. split; intros; eauto.
  - rewrite sb_ptr1 by auto. auto.
  - rewrite sb_int1 by auto. auto.
  - congruence.
Qed.
Lemma stable_core D s s' : core s' = core s -> stable D s s'.
Proof. destruct s, s'; unfold core; simpl. intros [= -> -> -> -> -> ->]. by split. Qed.

Lemma stable_fresh D s size : state_inv s -> stable D s (fresh_alloc size s).2.
Proof.
  intros Hi. split; try done. intros id e He. simpl. rewrite lookup_insert_ne; [done|]. intros <-.
  pose proof (proj1 (si_sizes s Hi (alloc_counter s)) (ex_intro _ _ He)). lia.
Qed.

Lemma stable_bind_ptr D s s' n pv : n ∉ D -> stable D s s' -> stable D s (bind_ptr n pv s').
Proof.
  intros Hn []. split; simpl; try done. intros x Hx. rewrite lookup_insert_ne by set_solver. auto.
Qed.

Lemma stable_move spill D i s s' :
  fresh_opt (try_get_result i) D -> state_inv s -> move spill false i s s' -> stable D s s'.
Proof.
  intros Hd Hi Hm.
  assert (forall s1, stable D s s1 -> core s' = core s1 -> stable D s s') as Hcore
    by (intros s1 H1 Hc; eapply stable_trans; [done|exact H1|by apply stable_core]).
  destruct Hm as [Hc|n pv Hn Hc|n iv Hn Hc|n Hn Hc|pv size Hc|ids Hids Hc|a pv Hst He Ha Hsp Hc];
    try (rewrite Hn in Hd; simpl in Hd); (eapply Hcore; [|exact Hc]).
  - apply stable_refl.
  - by apply stable_bind_ptr.
  - split; simpl; try done. intros x Hx. by rewrite lookup_insert_ne by set_solver.
  - split; simpl; try done. intros x Hx. set_solver.
  - pose proof (stable_fresh D s size Hi) as Hf.
    destruct (try_get_result i); simpl in *; [by apply stable_bind_ptr|done].
  - by split.
  - done.
Qed.

(** ** Going back *)

(** Before a function starts. *)
Definition no_state : CState := mk_CState ∅ [] ∅.

(** The values of the names of [D], without those of an earlier round. *)
Definition restrict (D : gset Name) (c : CState) : CState :=
  mk_CState (filter (fun p => p.1 ∈ D) (c_env c)) (c_blocks c) (c_slots c).
(** The blocks of the allocations [s] knows. *)
Definition known_blocks (s : AState) (β : gmap nat nat) : gmap nat nat :=
  filter (fun p => is_Some (alloc_sizes s !! p.2)) β.

Lemma restrict_lookup D c n v : c_env (restrict D c) !! n = Some v <-> c_env c !! n = Some v /\ n ∈ D.
Proof. simpl. by rewrite map_lookup_filter_Some. Qed.

Lemma agree_restrict P P' D g c :
  agree P g c -> P' ⊆ P -> P' ⊆ D -> agree P' (restrict D g) c.
Proof.
  intros [e e' bl sl He] HP HD. constructor. intros n Hn. simpl. rewrite <- He by auto.
  destruct (e !! n) as [v|] eqn:E.
  - apply map_lookup_filter_Some. auto.
  - apply map_lookup_filter_None. by left.
Qed.

Lemma ptr_known s pv id off :
  state_inv s -> ptr_ok s pv -> ptrval_alloc_info pv = Some (id, off) -> is_Some (alloc_sizes s !! id).
Proof.
  intros Hi Hok Hinfo. apply (si_sizes s Hi). destruct pv; simplify_eq/=; [apply Hok|by apply (si_dma s Hi)].
Qed.

Lemma points_known s β id off v :
  is_Some (alloc_sizes s !! id) -> points β id off v -> points (known_blocks s β) id off v.
Proof.
  intros Hid (b & o & -> & Hb & ?). exists b, o. split; [done|]. split; [|done].
  by apply map_lookup_filter_Some.
Qed.

Lemma ptr_match_known s β pv v :
  state_inv s -> ptr_ok s pv -> ptr_match β pv v -> ptr_match (known_blocks s β) pv v.
Proof.
  intros Hi Hok. unfold ptr_match. destruct (ptrval_alloc_info pv) as [[id off]|] eqn:E; [|done].
  apply points_known. by eapply ptr_known.
Qed.

(** The state of the analysis at the entry of a block simulates an execution that
    comes back to it from a state later in the analysis. *)
Lemma rewind spill β D s D' s' g :
  stable D' s' s -> state_inv s' -> sim spill ∅ D' s' no_state -> frees_own s' s = true ->
  sim spill β D s g -> sim spill (known_blocks s' β) D' s' (restrict D' g).
Proof.
  intros Hst Hi [] Hown Hs. destruct Hs as [? ? ? ? ? ? Hptr Hint Hslot Hspilled Hblock].
  split; try done.
  - intros n [v Hv]%elem_of_dom. by apply restrict_lookup in Hv as [_ ?].
  - intros n v pv [Hv Hn]%restrict_lookup Hp. apply ptr_match_known; [done| |].
    + by apply (map_Forall_lookup_1 _ _ _ _ (si_ptr s' Hi) Hp).
    + eapply Hptr; [done|]. by rewrite (sb_ptr _ _ _ Hst).
  - intros n v iv [Hv Hn]%restrict_lookup Hv'.
    pose proof (map_Forall_lookup_1 _ _ _ _ (si_int s' Hi) Hv') as Hok.
    assert (int_match β iv v) as Hm by (eapply Hint; [done|]; by rewrite (sb_int _ _ _ Hst)).
    destruct iv as [id off|]; [|done]. simpl in *. apply points_known; [|done].
    by apply (si_sizes s' Hi), Hok.
  - intros n v Hn [Hv Hd]%restrict_lookup. eapply Hslot; [|done]. by apply (sb_alloca _ _ _ Hst).
  - intros a pv Hm [v [Hv Hd]%restrict_lookup].
    destruct (Hspilled a pv) as (v' & ? & ?); [by rewrite (sb_map _ _ _ Hst)|by exists v|].
    exists v'. split; [done|]. apply ptr_match_known; [done| |done].
    by apply (map_Forall_lookup_1 _ _ _ _ (si_spill s' Hi) Hm).
  - intros b id [Hb [e He]]%map_lookup_filter_Some. simpl in He.
    destruct (Hblock b id Hb) as (k & e' & ? & He' & ? & ? & Hl).
    pose proof (sb_sizes _ _ _ Hst _ _ He). exists k, e. simplify_eq. split_and!; try done.
    intros Hid. apply Hl. intros Hfr. apply bool_decide_eq_true in Hown.
    destruct (Hown id Hfr) as [?|?]; [congruence|done].
Qed.
