(* ===== verification/MemSound.v ===== *)
(** * MemSound: a Pass is sound

    An execution of a covered function stays simulated by the states of the
    analysis: through the instructions of a block, over branches to later blocks,
    which skip the blocks between, and over branches back, which return to what the
    analysis knew then.  Hence the soundness theorem, and after it the programs
    that pass although they misbehave, one for each condition of the shape. *)

From S2P Require Import Prelude Text Types Constants Instr Smt Gate Analyzer Samples Sizes AnalyzerInv MemSafety MemSim MemLoops.
From stdpp Require Import base gmap list strings.
From Stdlib Require Import ZArith Lia.
#[local] Open Scope string_scope.

(** ** Blocks and branches *)

Lemma map_snd_enumerate {A} (l : list A) : map snd (enumerate l) = l.
Proof. unfold enumerate. apply snd_zip. by rewrite length_seq. Qed.

Lemma all_dests_cons i l : all_dests (i :: l) = dests i ∪ all_dests l.
Proof. done. Qed.
Lemma all_dests_snoc l i : all_dests (l ++ [i]) = dests i ∪ all_dests l.
Proof. unfold all_dests. rewrite map_app, union_list_app_L. simpl. set_solver. Qed.
Lemma union_shift (A B D : gset Name) : B ∪ (A ∪ D) = A ∪ B ∪ D.
Proof. set_solver. Qed.
Lemma blocks_dests_nil D : blocks_dests [] ∪ D = D.
Proof. apply union_empty_l_L. Qed.
Lemma blocks_dests_cons bb l : blocks_dests (bb :: l) = all_dests (bb_instrs bb) ∪ blocks_dests l.
Proof. done. Qed.
Lemma blocks_dests_app l l' : blocks_dests (l ++ l') = blocks_dests l ∪ blocks_dests l'.
Proof. unfold blocks_dests. by rewrite map_app, union_list_app_L. Qed.

(** The block a name resolves to is the one at its index. *)
Lemma block_index_spec f n bb :
  get_bb_by_name f n = Some bb ->
  exists k, block_index f n = Some k /\ func_basic_blocks f !! k = Some bb.
Proof.
  unfold get_bb_by_name, block_index. intros Hf.
  assert (exists k, list_find (fun bb => bb_name bb = n) (func_basic_blocks f) = Some (k, bb)) as [k Hk].
  { induction (func_basic_blocks f) as [|b l IH]; [done|]. simpl in *.
    case_bool_decide; [rewrite decide_True by done; simplify_eq; eauto|].
    rewrite decide_False by done. destruct (IH Hf) as [k ->]. by exists (S k). }
  exists k. rewrite Hk. split; [done|]. by apply list_find_Some in Hk as [? _].
Qed.

Lemma reads_available_cons P i l :
  reads_available P (i :: l) = true -> reads i ⊆ P /\ reads_available (dests i ∪ P) l = true.
Proof. simpl. by intros [?%bool_decide_eq_true ?]%andb_true_iff. Qed.

(** The names available at the start of a block of a structured function *)
Definition available (f : Function_) (k : nat) : gset Name := default ∅ (avail f !! k).

Lemma structured_block f k bb :
  structured f = true -> func_basic_blocks f !! k = Some bb ->
  reads_available (available f k) (bb_instrs bb) = true /\
  forall n k', n ∈ successors (bb_term bb) -> block_index f n = Some k' ->
    available f k' ⊆ available f k ∪ all_dests (bb_instrs bb) /\
    (k < k' \/ 1 <= k' /\ available f k' ⊆ before f k').
Proof.
  unfold structured, assigned_before. intros Hs Hbb. rewrite forallb_forall in Hs.
  assert ((k, bb) ∈ enumerate (func_basic_blocks f)) as Hin
    by (apply list_elem_of_lookup; exists k; apply enumerate_lookup; eauto).
  specialize (Hs _ (proj1 (list_elem_of_In _ _) Hin)). simpl in Hs.
  apply andb_true_iff in Hs as [Hr He]. split; [done|]. intros n k' Hn Hk.
  rewrite forallb_forall in He. specialize (He n (proj1 (list_elem_of_In _ _) Hn)).
  unfold edge_ok in He. rewrite Hk in He.
  apply andb_true_iff in He as [Ha%bool_decide_eq_true He]. split; [done|].
  apply orb_true_iff in He as [?%bool_decide_eq_true|[?%bool_decide_eq_true ?%bool_decide_eq_true]%andb_true_iff];
    auto.
Qed.

(** ** The start of a function *)

Lemma sim_start spill f D s c :
  param_names f ## D -> dom (c_env c) ⊆ param_names f -> c_slots c = ∅ -> sim spill ∅ D s no_state ->
  sim spill ∅ (param_names f ∪ D) s c.
Proof.
  intros Hdisj Hdom Hsl [? Hp Hi Ha Hm ? ? ? ? ? ?].
  assert (forall n v, c_env c !! n = Some v -> n ∉ D) as Hnot.
  { intros n v Hn%elem_of_dom_2 HD. apply (Hdisj n); [by apply Hdom|done]. }
  split; try done; try sub_solver.
  - intros n v pv Hn Hv%elem_of_dom_2. by destruct (Hnot n v Hn (Hp _ Hv)).
  - intros n v iv Hn Hv%elem_of_dom_2. by destruct (Hnot n v Hn (Hi _ Hv)).
  - intros n v Hv Hn. by destruct (Hnot n v Hn (Ha _ Hv)).
  - intros a pv Hv%elem_of_dom_2 [v Hn]. by destruct (Hnot a v Hn (Ha _ (Hm _ Hv))).
Qed.

Section walk.
Context `{SoundSolver} (dbg : bool) (fuel : nat) (m : Module_).
Context (asm_policy : InlineAsmPolicy) (dma_policy : DmaPolicy) (spill : gset Name).
#[local] Set Default Proof Using "Type*".

#[local] Notation sim := (sim spill).
#[local] Notation cov_instrs := (cov_instrs dbg fuel m asm_policy dma_policy spill).
#[local] Notation cov_blocks := (cov_blocks dbg fuel m asm_policy dma_policy spill).
#[local] Notation cov_functions := (cov_functions dbg fuel m asm_policy dma_policy spill).
#[local] Notation run_instrs := (run_instrs dbg fuel m asm_policy dma_policy).
#[local] Notation run_blocks := (run_blocks dbg fuel m asm_policy dma_policy).
#[local] Notation run_functions := (run_functions dbg fuel m asm_policy dma_policy).

(** *** The analysis over the instructions of a block *)

(** One covered instruction of a list, and the rest of the run. *)
Lemma cov_instrs_cons fname bb idx i l D s s1 :
  cov_instrs fname bb ((idx, i) :: l) D s = true -> run_instrs fname bb ((idx, i) :: l) s = Done s1 ->
  exists s', cov_instr dbg fuel m dma_policy spill (bool_decide (bb = 0)) i D s = true /\
    step dbg fuel (mod_types m) asm_policy dma_policy (has_irq_risk m) fname bb idx i s = Done (Next s') /\
    cov_instrs fname bb l (dests i ∪ D) s' = true /\ run_instrs fname bb l s' = Done s1.
Proof.
  simpl. intros [Hc Hrest]%andb_true_iff Hr. apply exec_bind_done in Hr as (f & Hf & Hr).
  rewrite Hf in Hrest. destruct f as [s'|]; [|done]. eauto.
Qed.

Lemma step_state_inv fname bb idx i s s' :
  step dbg fuel (mod_types m) asm_policy dma_policy (has_irq_risk m) fname bb idx i s = Done (Next s') ->
  state_inv s -> state_inv s'.
Proof. intros Hm%step_micro. by apply micros_inv. Qed.

Lemma skip_instrs fname bb l D s s1 β c :
  bb <> 0 \/ c_env c = ∅ ->
  cov_instrs fname bb l D s = true -> run_instrs fname bb l s = Done s1 ->
  state_inv s -> sim β D s c -> sim β (all_dests (map snd l) ∪ D) s1 c.
Proof.
  intros Hbb. revert D s. induction l as [|[idx i] l IH]; intros D s Hcov Hrun Hi Hs.
  - injection Hrun as <-. eapply sim_more; [|exact Hs]. set_solver.
  - destruct (cov_instrs_cons _ _ _ _ _ _ _ _ Hcov Hrun) as (s' & Hc & Hstep & Hcov' & Hrun').
    assert (sim β (dests i ∪ D) s' c) as Hs'.
    { eapply skip_instr; [|exact Hc|done|done|exact Hstep].
      destruct Hbb; [left; by apply bool_decide_eq_false|by right; right]. }
    eapply sim_more; [|eapply IH; [exact Hcov'|exact Hrun'|by eapply step_state_inv|exact Hs']].
    simpl. rewrite all_dests_cons. set_solver.
Qed.

Lemma stable_instrs fname bb l D s s1 :
  bb <> 0 -> cov_instrs fname bb l D s = true -> run_instrs fname bb l s = Done s1 ->
  state_inv s -> stable D s s1.
Proof.
  intros Hbb. revert D s. induction l as [|[idx i] l IH]; intros D s Hcov Hrun Hi.
  - injection Hrun as <-. apply stable_refl.
  - destruct (cov_instrs_cons _ _ _ _ _ _ _ _ Hcov Hrun) as (s' & Hc & Hstep & Hcov' & Hrun').
    rewrite bool_decide_eq_false_2 in Hc by done.
    pose proof (step_moves _ _ _ _ _ _ _ _ _ _ _ _ _ _ Hc Hstep) as Hm.
    apply andb_true_iff in Hc as [Hd _].
    eapply stable_trans; [|eapply stable_move; [|exact Hi|exact Hm]|].
    + apply (union_subseteq_r (dests i)).
    + unfold fresh_opt. destruct (try_get_result i); [by apply bool_decide_eq_true in Hd|done].
    + eapply IH; [exact Hcov'|exact Hrun'|by eapply step_state_inv].
Qed.

(** *** Over the blocks of a function *)

(** One covered block of a list, and the rest of a run that passes. *)
Lemma cov_blocks_cons fname k bb l D s s2 :
  cov_blocks fname ((k, bb) :: l) D s = true -> run_blocks fname ((k, bb) :: l) s = Done s2 ->
  final_result s2 = APass ->
  exists s1, cov_instrs fname k (enumerate (bb_instrs bb)) D s = true /\ plain_term (bb_term bb) = true /\
    run_instrs fname k (enumerate (bb_instrs bb)) s = Done s1 /\ final_result s1 = APass /\
    cov_blocks fname l (all_dests (bb_instrs bb) ∪ D) s1 = true /\ run_blocks fname l s1 = Done s2.
Proof.
  simpl. intros [[Hc Ht]%andb_true_iff Hrest]%andb_true_iff Hr Hp.
  apply exec_bind_done in Hr as (s1 & Hs1 & Hr). rewrite Hs1 in Hrest. exists s1.
  destruct (is_fail (final_result s1)) eqn:Hf; [injection Hr as <-; by rewrite Hp in Hf|].
  split_and!; try done. eapply pass_extends; [|exact Hp]. by eapply micros_extends, run_blocks_micros.
Qed.

(** A run over a list of blocks, cut in two. *)
Lemma blocks_split fname l1 l2 D s s2 :
  cov_blocks fname (l1 ++ l2) D s = true -> run_blocks fname (l1 ++ l2) s = Done s2 ->
  final_result s2 = APass ->
  exists s1, cov_blocks fname l1 D s = true /\ run_blocks fname l1 s = Done s1 /\
    final_result s1 = APass /\
    cov_blocks fname l2 (blocks_dests (map snd l1) ∪ D) s1 = true /\ run_blocks fname l2 s1 = Done s2.
Proof.
  intros Hcov Hrun Hp. revert D s Hcov Hrun. induction l1 as [|[k bb] l1 IH]; intros D s Hcov Hrun.
  - exists s. simpl map. rewrite blocks_dests_nil.
    split_and!; try done. eapply pass_extends; [|exact Hp]. by eapply micros_extends, run_blocks_micros.
  - destruct (cov_blocks_cons _ _ _ _ _ _ _ Hcov Hrun Hp) as (s1 & Hc & Ht & Hr & Hp1 & Hcov' & Hrun').
    destruct (IH _ _ Hcov' Hrun') as (s' & Hc1 & Hr1 & Hp' & Hc2 & Hr2).
    exists s'. split_and!; try done.
    + simpl. by rewrite Hc, Ht, Hr.
    + simpl. rewrite Hr. simpl. by rewrite Hp1.
    + simpl map. by rewrite blocks_dests_cons, <- union_shift.
Qed.

(** The analysis visits blocks that an execution does not. *)
Lemma skip_blocks fname l D s s1 β c :
  Forall (fun p => p.1 <> 0) l \/ c_env c = ∅ ->
  cov_blocks fname l D s = true -> run_blocks fname l s = Done s1 ->
  final_result s1 = APass -> state_inv s -> sim β D s c ->
  sim β (blocks_dests (map snd l) ∪ D) s1 c.
Proof.
  intros Hk. revert D s. induction l as [|[k bb] l IH]; intros D s Hcov Hrun Hp Hi Hs.
  - injection Hrun as <-. eapply sim_more; [|exact Hs]. apply union_subseteq_r.
  - destruct (cov_blocks_cons _ _ _ _ _ _ _ Hcov Hrun Hp) as (s' & Hc & _ & Hr & _ & Hcov' & Hrun').
    assert (sim β (all_dests (bb_instrs bb) ∪ D) s' c) as Hs'.
    { rewrite <- (map_snd_enumerate (bb_instrs bb)). eapply skip_instrs; [|exact Hc|exact Hr|done|done].
      destruct Hk as [Hk|]; [left; by inversion Hk|by right]. }
    eapply sim_more; [|eapply IH; [|exact Hcov'|exact Hrun'|done| |exact Hs']].
    + simpl map. rewrite blocks_dests_cons. set_solver.
    + destruct Hk as [Hk|]; [left; by inversion Hk|by right].
    + eapply micros_inv; [by eapply run_instrs_micros|done].
Qed.

Lemma stable_blocks fname l D s s1 :
  Forall (fun p => p.1 <> 0) l -> cov_blocks fname l D s = true -> run_blocks fname l s = Done s1 ->
  final_result s1 = APass -> state_inv s -> stable D s s1.
Proof.
  intros Hk. revert D s. induction Hk as [|[k bb] l Hk _ IH]; intros D s Hcov Hrun Hp Hi.
  - injection Hrun as <-. apply stable_refl.
  - destruct (cov_blocks_cons _ _ _ _ _ _ _ Hcov Hrun Hp) as (s' & Hc & _ & Hr & _ & Hcov' & Hrun').
    eapply stable_trans; [|by eapply stable_instrs|eapply IH; [exact Hcov'|done|done|]].
    + apply union_subseteq_r.
    + eapply micros_inv; [by eapply run_instrs_micros|done].
Qed.

(** *** The invariant of an execution of a function *)

Section one_function.
Context (f : Function_) (D0 : gset Name) (s0 s2 : AState).
#[local] Notation E := (enumerate (func_basic_blocks f)).
#[local] Notation fname := (func_name f).
Context (Hcov : cov_blocks fname E D0 s0 = true) (Hrun : run_blocks fname E s0 = Done s2)
  (Hpass : final_result s2 = APass) (Hinv : state_inv s0) (Hsim : sim ∅ D0 s0 no_state)
  (Hstruct : structured f = true) (Hloops : loops_ok dbg fuel m asm_policy dma_policy f s0 = true)
  (Hparams : param_names f ⊆ D0) (Htypes : types_ok (mod_types m)).

(** The names assigned before block [k] *)
Definition upto (k : nat) : gset Name := blocks_dests (take k (func_basic_blocks f)) ∪ D0.

Lemma upto_S k bb :
  func_basic_blocks f !! k = Some bb -> upto (S k) = all_dests (bb_instrs bb) ∪ upto k.
Proof using.
  intros Hbb. unfold upto. rewrite (take_S_r _ _ _ Hbb), blocks_dests_app.
  unfold blocks_dests at 2. simpl. by rewrite union_empty_r_L, union_shift.
Qed.

Lemma map_snd_take k : map snd (take k E) = take k (func_basic_blocks f).
Proof using. by rewrite <- firstn_map, map_snd_enumerate. Qed.

(** The analysis when it enters block [k] *)
Lemma entry_state k :
  exists s, run_blocks fname (take k E) s0 = Done s /\ cov_blocks fname (take k E) D0 s0 = true /\
    final_result s = APass /\ state_inv s /\ sim ∅ (upto k) s no_state /\
    cov_blocks fname (drop k E) (upto k) s = true /\ run_blocks fname (drop k E) s = Done s2.
Proof.
  pose proof Hcov as Hc. pose proof Hrun as Hr. rewrite <- (take_drop k E) in Hc, Hr.
  destruct (blocks_split _ _ _ _ _ _ Hc Hr Hpass) as (s & Hc1 & Hr1 & Hp & Hc2 & Hr2).
  rewrite map_snd_take in Hc2. exists s. split_and!; try done.
  - eapply micros_inv; [by eapply run_blocks_micros|exact Hinv].
  - unfold upto. rewrite <- map_snd_take. eapply skip_blocks; [by right|done..].
Qed.

(** From the entry of one block to the entry of a later one *)
Lemma blocks_between k k' s s' :
  k <= k' -> run_blocks fname (take k E) s0 = Done s -> run_blocks fname (take k' E) s0 = Done s' ->
  cov_blocks fname (drop k (take k' E)) (upto k) s = true /\
  run_blocks fname (drop k (take k' E)) s = Done s' /\ final_result s' = APass.
Proof.
  intros Hle Hs Hs'. destruct (entry_state k') as (s1 & Hr & Hc & Hp & _).
  rewrite Hs' in Hr. injection Hr as <-.
  assert (take k' E = take k E ++ drop k (take k' E))%list as HE.
  { rewrite <- (take_drop k (take k' E)) at 1. f_equal. rewrite take_take. f_equal. lia. }
  rewrite HE in Hc, Hs'.
  destruct (blocks_split _ _ _ _ _ _ Hc Hs' Hp) as (s1 & _ & Hr1 & _ & Hc2 & Hr2).
  rewrite Hs in Hr1. injection Hr1 as <-. by rewrite map_snd_take in Hc2.
Qed.

Lemma later_blocks k l : 1 <= k -> Forall (fun p => p.1 <> 0) (drop k (take l E)).
Proof using.
  intros Hk. apply Forall_forall. intros p Hin. apply list_elem_of_lookup in Hin as [j Hj].
  rewrite lookup_drop in Hj. apply lookup_take_Some in Hj as [Hj _].
  apply enumerate_lookup in Hj as (x & _ & ->). simpl. lia.
Qed.

(** The configuration is inside block [k].  The state the analysis has there, after
    the instructions [l1], simulates a state [g] that agrees with the memory on the
    available names; the rest of the block is covered and passes. *)
Definition located (cfg : Cfg) : Prop :=
  exists k bb l1 L s s1 g β c,
    func_basic_blocks f !! k = Some bb /\ bb_instrs bb = (l1 ++ map snd L)%list /\
    cfg = (map snd L, bb_term bb, c) /\ plain_term (bb_term bb) = true /\
    run_blocks fname (take (S k) E) s0 = Done s1 /\ run_instrs fname k L s = Done s1 /\
    cov_instrs fname k L (all_dests l1 ∪ upto k) s = true /\
    reads_available (all_dests l1 ∪ available f k) (map snd L) = true /\
    state_inv s /\ sim β (all_dests l1 ∪ upto k) s g /\ agree (all_dests l1 ∪ available f k) g c.

Lemma located_enter k bb s β g c :
  func_basic_blocks f !! k = Some bb -> run_blocks fname (take k E) s0 = Done s ->
  sim β (upto k) s g -> agree (available f k) g c -> located (bb_instrs bb, bb_term bb, c).
Proof.
  intros Hbb Hs Hg Ha.
  destruct (entry_state (S k)) as (s1 & Hs1 & _).
  destruct (entry_state k) as (s' & Hs' & _ & _ & Hi & _). rewrite Hs in Hs'. injection Hs' as <-.
  destruct (blocks_between k (S k) s s1) as (Hc & Hr & Hp); [lia|done..|].
  assert (E !! k = Some (k, bb)) as Hk by (apply enumerate_lookup; eauto).
  rewrite (take_S_r _ _ _ Hk), drop_app_length' in Hc, Hr
    by (rewrite length_take; apply lookup_lt_Some in Hk; lia).
  destruct (cov_blocks_cons _ _ _ _ _ _ _ Hc Hr Hp) as (s1' & Hc' & Ht & Hr' & _ & _ & [= ->]).
  exists k, bb, [], (enumerate (bb_instrs bb)), s, s1, g, β, c. rewrite map_snd_enumerate.
  unfold all_dests at 1 2 3 4. simpl. rewrite !union_empty_l_L. split_and!; try done.
  by apply structured_block.
Qed.

Lemma located_instr i is_ t c evs c' :
  located (i :: is_, t, c) -> cstep i c evs c' -> Forall safe_event evs /\ located (is_, t, c').
Proof.
  intros (k & bb & l1 & L & s & s1 & g & β & c0 & Hbb & Hl & Heq & Ht & Hs1 & Hr & Hc & Hrd & Hi & Hg & Ha) Hstep.
  destruct L as [|[idx i'] L]; [done|]. simpl in *. injection Heq as -> -> -> ->.
  destruct (cov_instrs_cons _ _ _ _ _ _ _ _ Hc Hr) as (s' & Hci & Hst & Hcl & Hrl).
  apply andb_true_iff in Hrd as [Hrd%bool_decide_eq_true Hrl'].
  destruct (agree_step _ _ _ _ _ _ Ha Hrd Hstep) as (g' & Hg' & Ha').
  destruct (entry_state (S k)) as (s1' & Hs1' & _ & Hp & _). rewrite Hs1 in Hs1'. injection Hs1' as <-.
  assert (final_result s' = APass) as Hp'
    by (eapply pass_extends; [|exact Hp]; by eapply micros_extends, run_instrs_micros).
  destruct (exec_instr dbg fuel m asm_policy dma_policy spill fname k idx (bool_decide (k = 0)) i'
    β _ s s' g evs g' Htypes Hci Hi Hg Hst Hp' Hg') as [Hsafe [β' Hs']].
  split; [done|]. exists k, bb, (l1 ++ [i'])%list, L, s', s1, g', β', c'.
  rewrite all_dests_snoc, <- !(assoc_L (∪)). split_and!; try done.
  - by rewrite <- (assoc_L (++)).
  - by eapply step_state_inv.
Qed.

Lemma loop_frees_own k bb n k' s s' :
  func_basic_blocks f !! k = Some bb -> n ∈ successors (bb_term bb) -> block_index f n = Some k' ->
  k' <= k -> run_blocks fname (take k' E) s0 = Done s -> run_blocks fname (take (S k) E) s0 = Done s' ->
  frees_own s s' = true.
Proof using Hloops.
  intros Hbb Hn Hk Hle Hs Hs'. pose proof Hloops as Hl. unfold loops_ok in Hl.
  rewrite forallb_forall in Hl.
  assert ((k, bb) ∈ E) as Hin by (apply list_elem_of_lookup; exists k; apply enumerate_lookup; eauto).
  specialize (Hl _ (proj1 (list_elem_of_In _ _) Hin)). simpl in Hl. rewrite forallb_forall in Hl.
  specialize (Hl n (proj1 (list_elem_of_In _ _) Hn)). unfold loop_ok in Hl.
  rewrite Hk, Hs, Hs', bool_decide_eq_false_2 in Hl by lia. done.
Qed.

Lemma located_jump t c n bb' :
  located ([], t, c) -> n ∈ successors t -> get_bb_by_name f n = Some bb' ->
  term_events t = [] /\ located (bb_instrs bb', bb_term bb', c).
Proof.
  intros (k & bb & l1 & L & s & s1 & g & β & c0 & Hbb & Hl & Heq & Ht & Hs1 & Hr & Hc & Hrd & Hi & Hg & Ha) Hn Hget.
  destruct L as [|[idx i'] L]; [|done]. simpl in *. injection Heq as -> ->. injection Hr as ->.
  rewrite app_nil_r in Hl. subst l1. rewrite <- (upto_S _ _ Hbb) in Hg.
  split; [unfold term_events; by rewrite Ht|].
  destruct (block_index_spec _ _ _ Hget) as (k' & Hk' & Hbb').
  destruct (structured_block _ _ _ Hstruct Hbb) as [_ Hedge].
  destruct (Hedge n k' Hn Hk') as [Hav Hdir].
  destruct (entry_state k') as (s' & Hs' & _ & _ & Hi' & Hsim' & _).
  assert (agree (available f k') g c0) as Hag by (eapply agree_mono; [|exact Ha]; set_solver).
  destruct (decide (k < k')) as [Hlt|Hge].
  - destruct (blocks_between (S k) k' s1 s') as (Hcb & Hrb & Hp'); [lia|done..|].
    eapply located_enter; [done|exact Hs'| |exact Hag].
    eapply sim_more; [|eapply skip_blocks; [|exact Hcb|exact Hrb|exact Hp'|exact Hi|exact Hg];
                       left; apply later_blocks; lia].
    rewrite <- skipn_map, map_snd_take. unfold upto.
    rewrite (union_shift (blocks_dests (take (S k) _))), <- blocks_dests_app.
    replace (take (S k) (func_basic_blocks f)) with (take (S k) (take k' (func_basic_blocks f)))
      by (rewrite take_take; f_equal; lia).
    by rewrite take_drop.
  - destruct Hdir as [?|[H1 Hbefore]]; [lia|].
    destruct (blocks_between k' (S k) s' s1) as (Hcb & Hrb & Hp'); [lia|done..|].
    assert (available f k' ⊆ upto k') as Hup by (unfold upto, before in *; set_solver).
    eapply located_enter; [done|exact Hs'| |].
    + eapply rewind; [|exact Hi'|exact Hsim'| |exact Hg].
      * eapply stable_blocks; [|exact Hcb|exact Hrb|done..]. by apply later_blocks.
      * eapply (loop_frees_own k bb n k'); try done. lia.
    + by eapply agree_restrict.
Qed.

Lemma located_execution cfg evs cfg' :
  located cfg -> execution f cfg evs cfg' -> Forall safe_event evs.
Proof.
  intros Hl He. induction He as [|cfg evs cfg1 evs' cfg2 Hstep _ IH]; [done|].
  apply Forall_app. destruct Hstep as [i is_ t c evs c' Hc|t c n bb Hn Hget].
  - destruct (located_instr _ _ _ _ _ _ Hl Hc). auto.
  - destruct (located_jump _ _ _ _ Hl Hn Hget) as [-> ?]. auto.
Qed.
End one_function.

(** *** From the start of a function *)

Lemma function_safe f l D s s2 cfg evs cfg' :
  types_ok (mod_types m) ->
  cov_functions l D s = true -> run_functions l s = Done s2 -> final_result s2 = APass ->
  state_inv s -> sim ∅ D s no_state -> f ∈ l -> starts f cfg -> execution f cfg evs cfg' ->
  Forall safe_event evs.
Proof.
  intros HT Hcov Hrun Hp Hi Hs Hf Hst Hex. revert D s Hcov Hrun Hi Hs.
  induction l as [|f0 l IH]; intros D s Hcov Hrun Hi Hs; [by apply elem_of_nil in Hf|].
  simpl in Hcov, Hrun. apply exec_bind_done in Hrun as (s1 & Hr1 & Hrun).
  rewrite Hr1 in Hcov. rewrite !andb_true_iff, bool_decide_eq_true in Hcov.
  destruct Hcov as [[[[Hdisj Hstr] Hloops] Hcb] Hcf].
  assert (final_result s1 = APass) as Hp1.
  { destruct (is_fail (final_result s1)) eqn:Hfail; [injection Hrun as <-; by rewrite Hp in Hfail|].
    eapply pass_extends; [|exact Hp]. by eapply micros_extends, run_functions_micros. }
  rewrite Hp1 in Hrun. simpl in Hrun.
  assert (sim ∅ (param_names f0 ∪ D) s no_state) as Hs0
    by (eapply sim_more; [|exact Hs]; apply union_subseteq_r).
  apply elem_of_cons in Hf as [->|Hf].
  - destruct Hst as (bb & c & Hhd & -> & Hdom & Hsl).
    assert (func_basic_blocks f0 !! 0 = Some bb) as Hbb by by destruct (func_basic_blocks f0).
    assert (param_names f0 ⊆ param_names f0 ∪ D) as Hpar by apply union_subseteq_l.
    eapply (located_execution f0 _ s s1 Hcb Hr1 Hp1 Hi Hs0 Hstr Hloops Hpar HT); [|exact Hex].
    eapply (located_enter f0 _ s s1 Hcb Hr1 Hp1 Hi Hs0 Hstr Hloops Hpar HT); [exact Hbb|done| |apply agree_refl].
    unfold upto. simpl. rewrite blocks_dests_nil. by apply sim_start.
  - eapply IH; [done|exact Hcf|exact Hrun| |].
    + eapply micros_inv; [by eapply run_blocks_micros|done].
    + rewrite <- (map_snd_enumerate (func_basic_blocks f0)).
      eapply skip_blocks; [by right|exact Hcb|done..].
Qed.
End walk.

(** ** The theorem *)

Lemma pass_executions_safe `{SoundSolver} dbg fuel order m asm dma g s f cfg evs cfg' :
  gate_fresh g -> types_ok (mod_types m) ->
  analyze_state dbg fuel order m asm dma g = Done s -> final_result s = APass ->
  cov_module dbg fuel m asm dma g s = true ->
  f ∈ mod_functions m -> starts f cfg -> execution f cfg evs cfg' ->
  Forall safe_event evs.
Proof.
  intros Hg HT Ha Hp Hcov Hf Hst He. unfold cov_module in Hcov.
  destruct (analyze_pass _ _ _ _ _ _ _ _ Ha Hp) as [Hrun _].
  eapply (function_safe dbg fuel m asm dma (dom (alloca_store_map s)));
    [done|exact Hcov|exact Hrun|done|by apply initial_state_inv| |done..].
  split; simpl; try done; set_solver.
Qed.

(** C1. A Pass is a proof of memory safety, through loops: let the solver answer
    soundly and the analysis of a module, with its gate in any mode, end in Pass, and
    let the module have the shape [cov_module] checks.  Then every execution of every
    function [f], from any arguments and any heap, through any branches and any
    number of rounds of its loops, performs only safe memory events: each read and
    write is inside a live heap block, each DMA mapping inside its block, nothing is
    freed twice, and no wild or opaque access happens. *)
Theorem pass_is_memory_safe `{SoundSolver} dbg fuel order m asm dma g s f cfg evs cfg' :
  gate_fresh g -> types_ok (mod_types m) ->
  analyze_state dbg fuel order m asm dma g = Done s -> final_result s = APass ->
  cov_module dbg fuel m asm dma g s = true ->
  f ∈ mod_functions m -> starts f cfg -> execution f cfg evs cfg' ->
  Forall safe_event evs.
Proof. apply pass_executions_safe. Qed.

(** *** A program it applies to: a loop that allocates, reads a spilled pointer and
    frees its own allocation, a branch out of it, and a free at the end *)

Definition looping : Function_ :=
  func "f"
    [bblock "entry" [alloca "s"; call "kmalloc" [num 32] (Some "p"); store_op (loc "p") "s"] (br "head");
     bblock "head" [gep "q" "p" 3; store "q"] (cond_br "c" "body" "done");
     bblock "body" [call "kmalloc" [num 8] (Some "t"); store "t"; load "r" "s";
                    call "memset" [loc "r"; num 0; num 32] None; call "kfree" [loc "t"] None] (br "head");
     bblock "done" [call "kfree" [loc "p"] None] ret].

(** One step of an execution under construction. *)
Ltac run_instr r := eapply ex_step; [apply ms_instr; eapply r|].
Ltac run_jump t n := eapply ex_step; [apply (ms_jump _ t _ (nm n)); [repeat constructor|reflexivity]|].
Ltac run_kmalloc n :=
  eapply ex_step;
  [apply ms_instr, st_call; by apply (cs_alloc _ _ "kmalloc" (num n) n); [|left|..|constructor|]|].
Ltac run_kfree x b n :=
  eapply ex_step;
  [apply ms_instr, st_call; by apply (cs_kfree _ _ (loc x) b 0 (mk_CBlock n true) (VNum 0)); [| |apply ce_local|]|].
Ltac run_head :=
  eapply ex_step; [apply ms_instr; by apply (st_gep _ _ (VPtr 0 0) 24 (VPtr 0 (wrap64 (0 + 24))));
                   [apply ce_local| |apply mv_ptr]|];
  eapply ex_step; [apply ms_instr; by apply (st_store _ _ (VPtr 0 24) (VNum 0) i64 8); [apply ce_local|constructor|..]|].

(** The loop entered, its body run once, and left at the second visit of its head. *)
Lemma looping_execution :
  exists cfg evs cfg', starts looping cfg /\ execution looping cfg evs cfg' /\
    evs = [EvAccess (mk_CBlock 32 true) 24 8; EvAccess (mk_CBlock 8 true) 0 8;
           EvAccess (mk_CBlock 32 true) 0 32; EvFree (mk_CBlock 8 true);
           EvAccess (mk_CBlock 32 true) 24 8; EvFree (mk_CBlock 32 true)].
Proof.
  eexists (_, _, mk_CState ∅ [] ∅), _, _. split; [|split].
  - eexists _, _. split; [reflexivity|]. split; [reflexivity|]. split; [set_solver|reflexivity].
  - run_instr st_alloca. run_kmalloc 32%Z.
    eapply ex_step; [apply ms_instr; by apply (st_store _ _ (VSlot (nm "s")) (VPtr 0 0) ptr_ty 8); [apply ce_local..| |]|].
    run_jump (br "head") "head". run_head. run_jump (cond_br "c" "body" "done") "body".
    run_kmalloc 8%Z.
    eapply ex_step; [apply ms_instr; by apply (st_store _ _ (VPtr 1 0) (VNum 0) i64 8); [apply ce_local|constructor|..]|].
    eapply ex_step; [apply ms_instr; by apply (st_load_slot _ _ (nm "s") (VPtr 0 0) 8); [apply ce_local| |apply sr_exact]|].
    eapply ex_step; [apply ms_instr, st_call;
      by apply (cs_memset _ _ (loc "r") (num 32) (VPtr 0 0) 32 (VNum 0)); [| |apply ce_local| |constructor|]|].
    run_kfree "t" 1 8%Z. run_jump (br "head") "head". run_head.
    run_jump (cond_br "c" "body" "done") "done". run_kfree "p" 0 32%Z. apply ex_nil.
  - vm_compute. reflexivity.
Qed.

Lemma pass_is_memory_safe_witness :
  run_sample (modl [looping]) = Done APass /\
  exists cfg evs cfg', starts looping cfg /\ execution looping cfg evs cfg' /\
    length evs = 6 /\ Forall safe_event evs.
Proof.
  split; [vm_compute; reflexivity|].
  destruct looping_execution as (cfg & evs & cfg' & Hst & He & Hevs).
  exists cfg, evs, cfg'. split; [exact Hst|]. split; [exact He|]. split; [by rewrite Hevs|].
  eapply (@pass_is_memory_safe eval_solver eval_solver_sound true 8 elements (modl [looping])
    Conservative Verify open_gate _ looping);
    [exact gate_fresh_open|exact types_ok_new| | | |left|exact Hst|exact He].
  - vm_compute. reflexivity.
  - vm_compute. reflexivity.
  - vm_compute. reflexivity.
Defined.

(** ** What the shape excludes *)

(** The analysis passes the module although an execution of [f] misbehaves. *)
Definition missed (f : Function_) : Prop :=
  run_sample (modl [f]) = Done APass /\
  exists cfg evs cfg', starts f cfg /\ execution f cfg evs cfg' /\ ~ Forall safe_event evs.

(** Begin in the entry block, with the arguments in the given environment. *)
Ltac begin env :=
  split; [vm_compute; reflexivity|]; eexists (_, _, mk_CState env [] ∅), _, _; split; [|split];
  [eexists _, _; split; [reflexivity|]; split; [reflexivity|];
   split; [simpl; set_solver|reflexivity]| |].

(** Some event of the trace is unsafe. *)
Ltac unsafe :=
  vm_compute; intros HF;
  repeat match goal with
  | H : Forall _ (_ :: _) |- _ => apply Forall_cons_1 in H as [? ?]
  | H : _ /\ _ |- _ => destruct H
  end; solve [done | discriminate | by repeat match goal with H : _ -> False |- _ => apply H end].

(** Indices of a [getelementptr] are scaled by eight and four, not by the element
    type: the second element of an array of 16-byte pairs lies outside 16 bytes. *)
Example stride_ignored :
  missed (func "f" [bblock "entry" [call "kmalloc" [num 16] (Some "p");
                                    gep_ty (ArrayType i64 2) "q" "p" [1%Z]; load "x" "q"] ret]).
Proof.
  begin (∅ : gmap Name Val).
  - run_kmalloc 16%Z.
    eapply ex_step; [apply ms_instr; by apply (st_gep _ _ (VPtr 0 0) 16 (VPtr 0 (wrap64 (0 + 16))));
                     [apply ce_local| |apply mv_ptr]|].
    eapply ex_step; [apply ms_instr; by apply (st_load _ _ (VPtr 0 16) (VNum 0) 8); [apply ce_local|..]|].
    apply ex_nil.
  - unsafe.
Qed.

(** Blocks are visited once: the free, inside a loop, of what was allocated before
    the loop is not seen to repeat. *)
Example loop_double_free :
  missed (func "f" [bblock "entry" [call "kmalloc" [num 16] (Some "p")] (br "loop");
                    bblock "loop" [call "kfree" [loc "p"] None] (br "loop")]).
Proof.
  begin (∅ : gmap Name Val).
  - run_kmalloc 16%Z. run_jump (br "loop") "loop".
    eapply ex_step; [apply ms_instr, st_call; by apply (cs_kfree _ _ (loc "p") 0 0 (mk_CBlock 16 true) (VNum 0)); [| |apply ce_local|]|].
    run_jump (br "loop") "loop".
    eapply ex_step; [apply ms_instr, st_call; by apply (cs_kfree _ _ (loc "p") 0 0 (mk_CBlock 16 false) (VNum 0)); [| |apply ce_local|]|].
    apply ex_nil.
  - unsafe.
Qed.

(** [memset] and [memcpy] check heap pointers only, not DMA buffers. *)
Example dma_memset_unchecked :
  missed (func "f" [bblock "entry" [call "dma_alloc_coherent" [num 0; num 16] (Some "p");
                                    call "memset" [loc "p"; num 0; num 64] None] ret]).
Proof.
  begin (∅ : gmap Name Val).
  - eapply ex_step; [apply ms_instr, st_call; by apply (cs_dma_alloc _ _ (num 16) 16); [| |constructor|]|].
    eapply ex_step; [apply ms_instr, st_call;
      by apply (cs_memset _ _ (loc "p") (num 64) (VPtr 0 0) 64 (VNum 0)); [| |apply ce_local| |constructor|]|].
    apply ex_nil.
  - unsafe.
Qed.

(** An access through a pointer of unknown origin passes in silence. *)
Example unknown_origin_passes :
  missed (func "f" [bblock "entry" [call "kmalloc" [num 16] (Some "p"); load "q" "p"; store "q"] ret]).
Proof.
  begin (∅ : gmap Name Val).
  - run_kmalloc 16%Z.
    eapply ex_step; [apply ms_instr; by apply (st_load _ _ (VPtr 0 0) (VNum 7) 8); [apply ce_local|..]|].
    eapply ex_step; [apply ms_instr; by apply (st_store _ _ (VNum 7) (VNum 0) i64 8); [apply ce_local|constructor|..]|].
    apply ex_nil.
  - unsafe.
Qed.

(** The record of a stack slot survives a store of an untracked value. *)
Example slot_overwritten :
  missed (func "f" [bblock "entry" [alloca "s"; call "kmalloc" [num 16] (Some "p"); store_op (loc "p") "s";
                                    store_op (num 0) "s"; load "r" "s"; load "x" "r"] ret]).
Proof.
  begin (∅ : gmap Name Val).
  - run_instr st_alloca. run_kmalloc 16%Z.
    eapply ex_step; [apply ms_instr; by apply (st_store _ _ (VSlot (nm "s")) (VPtr 0 0) ptr_ty 8); [apply ce_local..| |]|].
    eapply ex_step; [apply ms_instr; by apply (st_store _ _ (VSlot (nm "s")) (VNum 0) i64 8); [apply ce_local|constructor|..]|].
    eapply ex_step; [apply ms_instr; by apply (st_load_slot _ _ (nm "s") (VNum 0) 8); [apply ce_local| |apply sr_exact]|].
    eapply ex_step; [apply ms_instr; by apply (st_load _ _ (VNum 0) (VNum 0) 8); [apply ce_local|..]|].
    apply ex_nil.
  - unsafe.
Qed.
