(* ===== verification/Fs.v ===== *)
(** * Fs: files, their checks and the output writer of [main.rs]

    The part of the operating system the program touches is a [World]: a tree of
    named nodes, the effective user, the clock, which operations fail (any of
    them may, at any path), and what the compiled C code computes for a signed
    64-bit result that does not fit, which the language leaves undefined.  [ensure_secure_owned_file], [nix_like_euid] and
    [write_output_file] are translated over it, and [load_hitl_approvals] and
    [emit_hitl_vcs], which use them. *)

From S2P Require Import Prelude Text Smt Gate.
From stdpp Require Import base gmap list strings pretty.
From Stdlib Require Import Ascii ZArith Lia.
#[local] Open Scope string_scope.

(** ** The world *)

Inductive Node :=
  | NFile (content : string) (uid mode : Z)
  | NLink (target : string) (uid mode : Z)
  | NOther (uid mode : Z).

Record World := mk_World {
  w_nodes : gmap string Node;
  w_euid : Z;
  w_umask : Z;
  w_now : option Z;
  w_fails : string -> string -> bool;
  w_overflow : Z -> Z
}.

Definition set_nodes (n : gmap string Node) (w : World) : World :=
  mk_World n (w_euid w) (w_umask w) (w_now w) (w_fails w) (w_overflow w).
Definition put (path : string) (n : Node) (w : World) : World :=
  set_nodes (<[path := n]> (w_nodes w)) w.

(** Computations over the world that may fail. *)
Definition io (A : Type) : Type := World -> result A * World.
Definition io_ret {A} (a : A) : io A := fun w => (Ok a, w).
Definition io_fail {A} (e : string) : io A := fun w => (Err e, w).
Definition io_bind {A B} (m : io A) (k : A -> io B) : io B := fun w =>
  match m w with (Ok a, w') => k a w' | (Err e, w') => (Err e, w') end.
Definition io_context {A} (ctx : string) (m : io A) : io A := fun w =>
  let '(r, w') := m w in (with_context ctx r, w').
Definition io_get : io World := fun w => (Ok w, w).
Definition io_lift {A} (r : result A) : io A := fun w => (r, w).
Notation "'let*' x ':=' m 'in' k" := (io_bind m (fun x => k))
  (at level 10, x pattern, m at level 100, k at level 200) : skv_scope.

(** Links are followed to the kernel's limit of forty. *)
Fixpoint follow (fuel : nat) (w : World) (path : string) : option string :=
  match w_nodes w !! path with
  | Some (NLink target _ _) => match fuel with O => None | S f => follow f w target end
  | _ => Some path
  end.
Definition MAX_LINKS : nat := 40.

Record Meta := mk_Meta { meta_is_file : bool; meta_uid : Z; meta_mode : Z }.

(** [fs::symlink_metadata] *)
Definition symlink_metadata (path : string) (w : World) : result Meta :=
  if w_fails w "lstat" path then Err "lstat" else
  match w_nodes w !! path with
  | Some (NFile _ uid mode) => Ok (mk_Meta true uid mode)
  | Some (NLink _ uid mode) | Some (NOther uid mode) => Ok (mk_Meta false uid mode)
  | None => Err "No such file or directory"
  end.

(** [fs::read] *)
Definition fs_read (path : string) (w : World) : result string :=
  if w_fails w "read" path then Err "read" else
  match follow MAX_LINKS w path with
  | Some p => match w_nodes w !! p with Some (NFile c _ _) => Ok c | _ => Err "read" end
  | None => Err "Too many levels of symbolic links"
  end.

(** [fs::read_to_string] *)
Definition fs_read_to_string (path : string) (w : World) : result string :=
  c ← fs_read path w; if utf8_valid c then Ok c else Err "stream did not contain valid UTF-8".

(** ** The effective user and secure files *)

Definition uid_of_line (line : string) : option Z :=
  match Text.strip_prefix "Uid:" line with
  | Some rest => match split_whitespace rest with
                 | _ :: euid :: _ => parse_u32 euid
                 | _ => None
                 end
  | None => None
  end.

(** The first line that has one; 0 when none has. *)
Definition nix_like_euid (w : World) : Z :=
  let status := match fs_read_to_string "/proc/self/status" w with Ok s => s | Err _ => "" end in
  match omap uid_of_line (str_lines status) with v :: _ => v | [] => 0%Z end.

(** [mode & 0o022 != 0] *)
Definition group_world_writable (mode : Z) : bool := negb (Z.land mode 18 =? 0)%Z.

Definition ensure_secure_owned_file (path label : string) (w : World) : result unit :=
  meta ← with_context ("Failed to stat " +:+ label +:+ ": " +:+ path) (symlink_metadata path w);
  if negb (meta_is_file meta) then Err (label +:+ " must be a regular file")
  else if negb (meta_uid meta =? nix_like_euid w)%Z then
    Err (label +:+ " must be owned by current effective user")
  else if group_world_writable (meta_mode meta) then
    Err (label +:+ " must not be group/world writable")
  else Ok tt.

(** ** Writing an output file *)

(** [OpenOptions::new().create(true).truncate(true).write(true).open(path)]:
    the path the handle is on. *)
Definition open_truncate (path : string) : io string := fun w =>
  if w_fails w "open" path then (Err "open", w) else
  match follow MAX_LINKS w path with
  | None => (Err "Too many levels of symbolic links", w)
  | Some p =>
      match w_nodes w !! p with
      | Some (NFile _ uid mode) => (Ok p, put p (NFile "" uid mode) w)
      | None => (Ok p, put p (NFile "" (w_euid w) (Z.land 438 (Z.lnot (w_umask w)))) w)
      | Some _ => (Err "Is a directory", w)
      end
  end.

(** [fs::set_permissions] *)
Definition set_permissions (path : string) (mode : Z) : io unit := fun w =>
  if w_fails w "chmod" path then (Err "chmod", w) else
  match follow MAX_LINKS w path with
  | None => (Err "Too many levels of symbolic links", w)
  | Some p =>
      match w_nodes w !! p with
      | Some (NFile c uid _) => (Ok tt, put p (NFile c uid mode) w)
      | Some (NOther uid _) => (Ok tt, put p (NOther uid mode) w)
      | _ => (Err "No such file or directory", w)
      end
  end.

(** [write_all] on a handle at offset 0 of a truncated file; a write that fails
    leaves the file empty. *)
Definition write_all (p content : string) : io unit := fun w =>
  if w_fails w "write" p then (Err "write", w) else
  match w_nodes w !! p with
  | Some (NFile _ uid mode) => (Ok tt, put p (NFile content uid mode) w)
  | _ => (Err "write", w)
  end.

Definition sync_all (p : string) : io unit := fun w =>
  if w_fails w "fsync" p then (Err "fsync", w) else (Ok tt, w).

(** 0o600 *)
Definition mode_600 : Z := 384.

(** The checks on a path that already exists *)
Definition output_path_ok (path : string) (w : World) : result unit :=
  match symlink_metadata path w with
  | Err _ => Ok tt
  | Ok meta =>
      if negb (meta_is_file meta) then Err "output path must be a regular file"
      else if negb (meta_uid meta =? nix_like_euid w)%Z then
        Err "output file must be owned by current effective user"
      else if group_world_writable (meta_mode meta) then
        Err "output file must not be group/world writable"
      else Ok tt
  end.

Definition write_output_file (path content : string) : io unit :=
  let* w := io_get in
  let* _ := io_lift (output_path_ok path w) in
  let* f := io_context ("Failed to open output file: " +:+ path) (open_truncate path) in
  let* _ := io_context ("Failed to set secure permissions on " +:+ path) (set_permissions path mode_600) in
  let* _ := io_context ("Failed writing output file: " +:+ path) (write_all f content) in
  let* _ := io_context ("Failed syncing output file: " +:+ path) (sync_all f) in
  io_ret tt.

(** ** Approvals and emission *)

Definition load_hitl_approvals (path : string) (w : World) : result (gset string) :=
  _ ← ensure_secure_owned_file path "HITL approvals file" w;
  raw ← with_context ("Failed to read HITL approvals file: " +:+ path) (fs_read_to_string path w);
  Ok (parse_approvals raw).

Definition emit_hitl_vcs (path : string) (g : HitlGate) : io unit :=
  io_context ("Failed to write VC emission file: " +:+ path)
    (write_output_file path (hitl_vcs_json g)).

(** ** What the checks and the writer guarantee *)

(** A regular file of the effective user that nobody else may write. *)
Definition secure_file (w : World) (path : string) : Prop :=
  exists c mode, w_nodes w !! path = Some (NFile c (nix_like_euid w) mode) /\
    group_world_writable mode = false.

Lemma symlink_metadata_file path w uid mode :
  symlink_metadata path w = Ok (mk_Meta true uid mode) ->
  exists c, w_nodes w !! path = Some (NFile c uid mode).
Proof. unfold symlink_metadata. repeat case_match; naive_solver. Qed.

Lemma ensure_secure_ok path label w :
  ensure_secure_owned_file path label w = Ok tt
  <-> w_fails w "lstat" path = false /\ secure_file w path.
Proof.
  unfold ensure_secure_owned_file, secure_file, symlink_metadata.
  destruct (w_fails w "lstat" path); [naive_solver|].
  destruct (w_nodes w !! path) as [[c uid mode|t uid mode|uid mode]|]; simpl; [|naive_solver..].
  split.
  - destruct (Z.eqb_spec uid (nix_like_euid w)) as [->|]; [|done]. simpl.
    destruct (group_world_writable mode) eqn:E; [done|]. eauto.
  - intros (_ & c' & mode' & [= <- -> <-] & E). by rewrite Z.eqb_refl, E.
Qed.

(** The secure-file check accepts exactly the regular files (not links) that
    the effective user owns and that are neither group nor world writable, as
    long as the file can be examined; the approvals, keys and signatures the
    program trusts are read only after it succeeded. *)
Theorem secure_file_check path label w :
  w_fails w "lstat" path = false ->
  ensure_secure_owned_file path label w = Ok tt <-> secure_file w path.
Proof. rewrite ensure_secure_ok. naive_solver. Qed.

Lemma follow_file fuel w path c uid mode :
  w_nodes w !! path = Some (NFile c uid mode) -> follow fuel w path = Some path.
Proof. intros H. destruct fuel; simpl; by rewrite H. Qed.

Lemma follow_absent fuel w path : w_nodes w !! path = None -> follow fuel w path = Some path.
Proof. intros H. destruct fuel; simpl; by rewrite H. Qed.

(** What is at the path a write may go to. *)
Definition output_target (w : World) (path : string) : Prop :=
  secure_file w path \/ w_nodes w !! path = None.

Lemma output_path_ok_spec path w :
  w_fails w "lstat" path = false -> output_path_ok path w = Ok tt <-> output_target w path.
Proof.
  intros Hf. unfold output_path_ok, output_target, secure_file, symlink_metadata. rewrite Hf.
  destruct (w_nodes w !! path) as [[c uid mode|t uid mode|uid mode]|]; simpl;
    [|by split; [|intros [(? & ? & ? & _)|?]]..|by split; [right|]].
  destruct (Z.eqb_spec uid (nix_like_euid w)) as [->|Hu]; simpl;
    [|by split; [|intros [(? & ? & [= ?] & _)|?]]].
  destruct (group_world_writable mode) eqn:E.
  - split; [done|]. intros [(? & ? & [= <- <-] & ?)|?]; congruence.
  - split; [|done]. intros _. left. eauto.
Qed.

(** The owner a written file ends up with *)
Definition output_owner (w : World) (path : string) : Z :=
  match w_nodes w !! path with Some (NFile _ u _) => u | _ => w_euid w end.

(** Each step of the writer, on a path the checks let through. *)
Lemma open_truncate_target path w :
  output_target w path ->
  exists md, open_truncate path w
    = if w_fails w "open" path then (Err "open", w)
      else (Ok path, put path (NFile "" (output_owner w path) md) w).
Proof.
  unfold open_truncate, output_owner. intros [(c & md & Hc & _)|Hn].
  - exists md. rewrite (follow_file _ _ _ _ _ _ Hc), Hc. done.
  - eexists. rewrite (follow_absent _ _ _ Hn), Hn. done.
Qed.

Lemma set_permissions_file path w c u md mode :
  w_nodes w !! path = Some (NFile c u md) ->
  set_permissions path mode w
  = if w_fails w "chmod" path then (Err "chmod", w) else (Ok tt, put path (NFile c u mode) w).
Proof. intros Hc. unfold set_permissions. by rewrite (follow_file _ _ _ _ _ _ Hc), Hc. Qed.

Lemma write_all_file path w c u md content :
  w_nodes w !! path = Some (NFile c u md) ->
  write_all path content w
  = if w_fails w "write" path then (Err "write", w) else (Ok tt, put path (NFile content u md) w).
Proof. intros Hc. unfold write_all. by rewrite Hc. Qed.

Lemma put_put path n n' w : put path n' (put path n w) = put path n' w.
Proof. unfold put, set_nodes. simpl. by rewrite insert_insert_eq. Qed.

Lemma put_lookup path n w : w_nodes (put path n w) !! path = Some n.
Proof. apply lookup_insert_eq. Qed.

Lemma put_other path n w p : p <> path -> w_nodes (put path n w) !! p = w_nodes w !! p.
Proof. intros. by apply lookup_insert_ne. Qed.

Lemma write_output_file_spec path content w :
  w_fails w "lstat" path = false ->
  match write_output_file path content w with
  | (Ok _, w') =>
      output_target w path /\
      w' = put path (NFile content (output_owner w path) mode_600) w
  | (Err _, w') =>
      (~ output_target w path -> w' = w) /\
      (forall p, p <> path -> w_nodes w' !! p = w_nodes w !! p)
  end.
Proof.
  intros Hf. unfold write_output_file, io_bind, io_get, io_lift, io_context.
  destruct (output_path_ok path w) as [[]|e] eqn:Hok; [|done].
  apply (output_path_ok_spec path w Hf) in Hok as Ht.
  destruct (open_truncate_target path w Ht) as [md ->].
  destruct (w_fails w "open" path); [done|]. simpl with_context. cbv beta iota.
  rewrite (set_permissions_file _ _ _ _ _ _ (put_lookup _ _ _)), put_put.
  destruct (w_fails _ "chmod" path); [split; [tauto|intros; by apply put_other]|]. simpl with_context. cbv beta iota.
  rewrite (write_all_file _ _ _ _ _ _ (put_lookup _ _ _)), put_put.
  destruct (w_fails _ "write" path); [split; [tauto|intros; by apply put_other]|]. simpl with_context. cbv beta iota.
  unfold sync_all.
  destruct (w_fails _ "fsync" path); [split; [tauto|intros; by apply put_other]|done].
Qed.


(** ** A small file system *)

Definition status_text (uid : string) : string :=
  "Name: skv" +:+ chr nl +:+ "Uid: " +:+ uid +:+ " " +:+ uid +:+ " " +:+ uid +:+ chr nl.

(** User 1000 with the given files, all private; nothing fails, overflow wraps. *)
Definition world_of (files : list (string * string)) (now : Z) : World :=
  mk_World (list_to_map (("/proc/self/status", NFile (status_text "1000") 0 292)
              :: map (fun p => (p.1, NFile p.2 1000 mode_600)) files))
    1000 18 (Some now) (fun _ _ => false) (fun z => (z + 2 ^ 63) mod 2 ^ 64 - 2 ^ 63)%Z.

Lemma secure_file_check_witness :
  let w := world_of [("key.pub", "AAAA")] 0 in
  w_fails w "lstat" "key.pub" = false /\ secure_file w "key.pub".
Proof.
  split; [reflexivity|].
  apply (proj1 (secure_file_check "key.pub" "key" (world_of [("key.pub", "AAAA")] 0) eq_refl)).
  vm_compute. reflexivity.
Defined.

