(* ===== verification/Bridge.v ===== *)
(** * Bridge: the token validator [src/c/attestation_bridge.c]

    The C function behind the FFI call of [apply_ring_policy], over the [World]
    of [Fs]: the line reader ([fgets] with its 256-byte buffer), the field
    parsers with the C library's number parsing, the freshness and nonce checks,
    and the replay counter kept in a locked state file. *)

From S2P Require Import Prelude Text Smt Gate Fs.
From stdpp Require Import base gmap list strings pretty sorting.
From Stdlib Require Import Ascii ZArith Lia.
#[local] Open Scope string_scope.
#[local] Arguments String.append : simpl nomatch.

(** ** C numbers and strings *)

Definition i64_min : Z := - 2 ^ 63.
Definition i64_max : Z := 2 ^ 63 - 1.
Definition in_i64 (z : Z) : Prop := (i64_min <= z <= i64_max)%Z.
#[export] Instance in_i64_dec z : Decision (in_i64 z).
Proof. unfold in_i64. apply _. Defined.

(** [(int)val] for a [long] *)
Definition to_int (z : Z) : Z := ((z + 2 ^ 31) mod 2 ^ 32 - 2 ^ 31)%Z.

(** What C sees of a buffer: the bytes before the first NUL. *)
Fixpoint c_str (s : string) : string :=
  match s with "" => "" | String a s' => if Ascii.eqb a nul then "" else String a (c_str s') end.

(** The bytes before the first newline: [*strchr(buf, '\n') = '\0'] *)
Fixpoint cut_nl (s : string) : string :=
  match s with "" => "" | String a s' => if Ascii.eqb a nl then "" else String a (cut_nl s') end.

Fixpoint skip_space (s : string) : string :=
  match s with String a s' => if ws1 a then skip_space s' else s | "" => "" end.

(** The value of the leading digits, if there is one. *)
Fixpoint leading_digits (acc : option Z) (s : string) : option Z :=
  match s with
  | String a s' =>
      if is_digit a
      then leading_digits (Some (10 * default 0%Z acc + (Z.of_N (byte_of a) - 48))%Z) s'
      else acc
  | "" => acc
  end.

(** [strtol]/[strtoll] in base ten, both 64-bit here: [None] when no digit is
    consumed ([end == line]), clamped to the range otherwise. *)
Definition strtoll (s : string) : option Z :=
  let s := skip_space s in
  let '(neg, body) := match s with
                      | String a s' => if Ascii.eqb a "-" then (true, s')
                                       else if Ascii.eqb a "+" then (false, s') else (false, s)
                      | "" => (false, "")
                      end in
  match leading_digits None body with
  | Some v => Some (Z.max i64_min (Z.min i64_max (if neg : bool then - v else v)))%Z
  | None => None
  end.

(** ** The lines of the token *)

(** [fgets(buf, 256, f)] until it returns NULL: a line with its newline, or the
    next 255 bytes of a longer one. *)
Fixpoint fgets_all (room : nat) (cur s : string) : list string :=
  match s with
  | "" => if decide (cur = "") then [] else [String.rev cur]
  | String a s' =>
      if Ascii.eqb a nl then String.rev (String a cur) :: fgets_all 255 "" s'
      else match room with
           | S (S r) => fgets_all (S r) (String a cur) s'
           | _ => String.rev (String a cur) :: fgets_all 255 "" s'
           end
  end.
Definition token_lines (text : string) : list string :=
  map (fun buf => cut_nl (c_str buf)) (fgets_all 255 "" text).

(** ** Fields *)

Definition parse_i64_field (line prefix : string) : option Z :=
  Text.strip_prefix prefix line ≫= strtoll.

Definition parse_ring (line : string) : option Z := to_int <$> parse_i64_field line "ring:".

Definition parse_bool (v : string) : option bool :=
  if starts_with "true" v || starts_with "1" v then Some true
  else if starts_with "false" v || starts_with "0" v then Some false
  else None.
Definition parse_attested (line : string) : option bool :=
  Text.strip_prefix "attested:" line ≫= parse_bool.
Definition parse_root_attested (line : string) : option bool :=
  Text.strip_prefix "root_attested:" line ≫= parse_bool.

Definition parse_string_field (line prefix : string) (out_len : nat) : option string :=
  match Text.strip_prefix prefix line with
  | Some v => if decide (v = "") then None
              else if decide (out_len < String.length v + 1) then None else Some v
  | None => None
  end.

Record Token := mk_Token {
  tk_ring : option Z;
  tk_attested : option bool;
  tk_timestamp : option Z;
  tk_nonce : option string;
  tk_counter : option Z;
  tk_root_attested : option bool
}.
Definition empty_token : Token := mk_Token None None None None None None.

(** [!found && parse(..)] *)
Definition take_field {A} (found : option A) (parsed : option A) : option A :=
  match found with Some _ => None | None => parsed end.

(** A field is taken once: the first parser that is still open and accepts the
    line gets it. *)
Definition scan_line (t : Token) (line : string) : Token :=
  let '(mk_Token r a ts n c ra) := t in
  match take_field r (parse_ring line) with
  | Some v => mk_Token (Some v) a ts n c ra
  | None =>
  match take_field a (parse_attested line) with
  | Some v => mk_Token r (Some v) ts n c ra
  | None =>
  match take_field ts (parse_i64_field line "timestamp:") with
  | Some v => mk_Token r a (Some v) n c ra
  | None =>
  match take_field n (parse_string_field line "nonce:" 256) with
  | Some v => mk_Token r a ts (Some v) c ra
  | None =>
  match take_field c (parse_i64_field line "counter:") with
  | Some v => mk_Token r a ts n (Some v) ra
  | None =>
  match take_field ra (parse_root_attested line) with
  | Some v => mk_Token r a ts n c (Some v)
  | None => t
  end end end end end end.

Definition scan_token (text : string) : Token := foldl scan_line empty_token (token_lines text).

(** ** The checks that only read *)

Definition token_readable (path : string) (w : World) : option string :=
  if w_fails w "lstat" path then None else
  match w_nodes w !! path with
  | Some (NFile text uid mode) =>
      if (uid =? w_euid w)%Z && negb (group_world_writable mode)
      then if w_fails w "fopen" path then None else Some text
      else None
  | _ => None
  end.

(** [a - b] at [long long] *)
Definition sub_i64 (w : World) (a b : Z) : Z :=
  if decide (in_i64 (a - b)) then (a - b)%Z else w_overflow w (a - b).

(** From the fields to the counter that is to be recorded. *)
Definition check_token (t : Token) (required_ring max_age_sec : Z) (expected_nonce : option string)
    (w : World) : option Z :=
  match tk_ring t, tk_attested t, tk_timestamp t, tk_counter t with
  | Some ring, Some attested, Some ts, Some counter =>
      if negb attested then None
      else if negb (ring =? required_ring)%Z then None
      else if (required_ring =? -2)%Z && negb (default false (tk_root_attested t)) then None
      else if (max_age_sec <=? 0)%Z then None
      else match w_now w with
           | None => None
           | Some now =>
               if (now <? ts)%Z then None
               else if (max_age_sec <? sub_i64 w now ts)%Z then None
               else match expected_nonce with
                    | Some nonce => if decide (tk_nonce t = Some nonce) then Some counter else None
                    | None => Some counter
                    end
           end
  | _, _, _, _ => None
  end.

(** ** The replay state *)

(** [open(path, O_RDWR | O_CREAT | O_CLOEXEC, 0600)] *)
Definition open_state (path : string) (w : World) : option string * World :=
  if w_fails w "open" path then (None, w) else
  match follow MAX_LINKS w path with
  | None => (None, w)
  | Some p =>
      match w_nodes w !! p with
      | Some (NFile _ _ _) => (Some p, w)
      | None => (Some p, put p (NFile "" (w_euid w) (Z.land mode_600 (Z.lnot (w_umask w)))) w)
      | Some _ => (None, w)
      end
  end.

(** [-1] when the file is empty, does not begin with a number, or the read fails *)
Definition last_counter (p : string) (w : World) : Z :=
  if w_fails w "pread" p then (-1)%Z else
  match w_nodes w !! p with
  | Some (NFile text _ _) => default (-1)%Z (strtoll (c_str (String.substring 0 127 text)))
  | _ => (-1)%Z
  end.

Definition state_secure (p : string) (w : World) : bool :=
  match w_nodes w !! p with
  | Some (NFile _ uid mode) => (uid =? w_euid w)%Z && negb (group_world_writable mode)
  | _ => false
  end.

Definition write_text (p text : string) (w : World) : World :=
  match w_nodes w !! p with
  | Some (NFile _ uid mode) => put p (NFile text uid mode) w
  | _ => w
  end.

Definition counter_text (c : Z) : string := pretty c +:+ chr nl.

(** Everything after [open]: lock, check, compare, rewrite. *)
Definition advance_counter (path p : string) (counter : Z) (w : World) : Z * World :=
  if w_fails w "lock" p then (0%Z, w)
  else if w_fails w "fstat" p then (0%Z, w)
  else if negb (state_secure p w) then (0%Z, w)
  else if (counter <=? last_counter p w)%Z then (0%Z, w)
  else if w_fails w "ftruncate" p then (0%Z, w)
  else
    let w := write_text p "" w in
    if w_fails w "lseek" p then (0%Z, w)
    else if decide (128 <= String.length (counter_text counter)) then (0%Z, w)
    else if w_fails w "write" p then (0%Z, w)
    else
      let w := write_text p (counter_text counter) w in
      if w_fails w "fsync" p then (0%Z, w)
      else match set_permissions path mode_600 w with
           | (Ok _, w) => (1%Z, w)
           | (Err _, w) => (0%Z, w)
           end.

Definition skv_validate_attestation_token (token_path : string) (required_ring max_age_sec : Z)
    (expected_nonce : option string) (replay_state_path : string) (w : World) : Z * World :=
  if decide (token_path = "") then (0%Z, w) else
  match token_readable token_path w with
  | None => (0%Z, w)
  | Some text =>
      match check_token (scan_token text) required_ring max_age_sec expected_nonce w with
      | None => (0%Z, w)
      | Some counter =>
          if decide (replay_state_path = "") then (0%Z, w) else
          match open_state replay_state_path w with
          | (None, w) => (0%Z, w)
          | (Some p, w) => advance_counter replay_state_path p counter w
          end
      end
  end.

(** ** Acceptance implies every check *)

(** What a token must say, on a world, to be accepted. *)
Record token_ok (text : string) (required_ring max_age_sec : Z) (expected_nonce : option string)
    (counter : Z) (w : World) : Prop := {
  ok_ring : tk_ring (scan_token text) = Some required_ring;
  ok_attested : tk_attested (scan_token text) = Some true;
  ok_root : required_ring = (-2)%Z -> tk_root_attested (scan_token text) = Some true;
  ok_counter : tk_counter (scan_token text) = Some counter;
  ok_nonce : forall n, expected_nonce = Some n -> tk_nonce (scan_token text) = Some n;
  ok_age : (0 < max_age_sec)%Z;
  ok_fresh : exists ts now, tk_timestamp (scan_token text) = Some ts /\ w_now w = Some now /\
    (ts <= now)%Z /\ (in_i64 (now - ts) -> (now - ts <= max_age_sec)%Z)
}.

Lemma check_token_spec text ring age nonce w counter :
  check_token (scan_token text) ring age nonce w = Some counter -> token_ok text ring age nonce counter w.
Proof.
  unfold check_token. intros H.
  destruct (tk_ring (scan_token text)) as [r|] eqn:Er; [|done].
  destruct (tk_attested (scan_token text)) as [a|] eqn:Ea; [|done].
  destruct (tk_timestamp (scan_token text)) as [ts|] eqn:Et; [|done].
  destruct (tk_counter (scan_token text)) as [c|] eqn:Ec; [|done].
  destruct a; simpl in H; [|done].
  destruct (Z.eqb_spec r ring) as [->|]; simpl in H; [|done].
  destruct ((ring =? -2)%Z && negb (default false (tk_root_attested (scan_token text)))) eqn:Er2; [done|].
  destruct (Z.leb_spec age 0); [done|].
  destruct (w_now w) as [now|] eqn:En; [|done].
  destruct (Z.ltb_spec now ts); [done|].
  destruct (Z.ltb_spec age (sub_i64 w now ts)) as [|Hle]; [done|].
  assert (c = counter /\ forall n, nonce = Some n -> tk_nonce (scan_token text) = Some n) as [-> Hn].
  { destruct nonce as [n|]; [case_decide; [|done]|]; injection H as ->; split; naive_solver. }
  split; try done.
  - intros ->. simpl in Er2. by destruct (tk_root_attested _) as [[]|].
  - exists ts, now. split_and!; try done. intros Hi. unfold sub_i64 in Hle.
    rewrite decide_True in Hle by done. lia.
Qed.

Lemma write_text_lookup p text c u md w :
  w_nodes w !! p = Some (NFile c u md) -> write_text p text w = put p (NFile text u md) w.
Proof. intros H. unfold write_text. by rewrite H. Qed.

(** Rewriting a file does not change where a link leads. *)
Lemma follow_put fuel w path p n c u md p' :
  w_nodes w !! p = Some (NFile c u md) -> (forall t u' m', n <> NLink t u' m') ->
  follow fuel w path = Some p -> follow fuel (put p n w) path = Some p' -> p' = p.
Proof.
  intros Hp Hn. revert path. induction fuel as [|fuel IH]; intros path; simpl.
  - destruct (decide (p = path)) as [<-|Hne].
    + rewrite Hp, lookup_insert_eq. destruct n; naive_solver.
    + rewrite lookup_insert_ne by done. destruct (w_nodes w !! path) as [[]|]; naive_solver.
  - destruct (decide (p = path)) as [<-|Hne].
    + rewrite Hp, lookup_insert_eq. destruct n; naive_solver.
    + rewrite lookup_insert_ne by done. destruct (w_nodes w !! path) as [[]|]; naive_solver.
Qed.

Lemma follow_create fuel w path p c u md :
  w_nodes w !! p = None -> follow fuel w path = Some p ->
  follow fuel (put p (NFile c u md) w) path = Some p.
Proof.
  intros Hp. revert path. induction fuel as [|fuel IH]; intros path; simpl;
    (destruct (decide (p = path)) as [<-|Hne];
     [by rewrite lookup_insert_eq|rewrite lookup_insert_ne by done]);
    destruct (w_nodes w !! path) as [[]|]; naive_solver.
Qed.

(** A counter that was accepted is what the state file now holds. *)
Lemma advance_accepts path p counter w w' :
  advance_counter path p counter w = (1%Z, w') -> follow MAX_LINKS w path = Some p ->
  (last_counter p w < counter)%Z /\ state_secure p w = true /\
  String.length (counter_text counter) < 128 /\
  exists u, w' = put p (NFile (counter_text counter) u mode_600) w.
Proof.
  unfold advance_counter. intros H Hfol.
  destruct (w_fails w "lock" p); [done|]. destruct (w_fails w "fstat" p); [done|].
  destruct (state_secure p w) eqn:Hsec; [|done]. simpl in H.
  destruct (Z.leb_spec counter (last_counter p w)); [done|].
  split; [done|]. split; [done|]. destruct (w_fails w "ftruncate" p); [done|].
  unfold state_secure in Hsec. destruct (w_nodes w !! p) as [[c u md| |]|] eqn:Hp; try done.
  rewrite (write_text_lookup _ _ _ _ _ _ Hp) in H.
  destruct (w_fails _ "lseek" p); [done|]. case_decide; [done|]. split; [lia|].
  destruct (w_fails _ "write" p); [done|].
  rewrite (write_text_lookup _ _ _ _ _ _ (put_lookup _ _ _)), put_put in H.
  destruct (w_fails _ "fsync" p); [done|].
  exists u. unfold set_permissions in H. destruct (w_fails _ "chmod" path); [done|].
  destruct (follow MAX_LINKS (put p _ w) path) as [p'|] eqn:Hf'; [|done].
  assert (p' = p) as -> by (eapply (follow_put _ w path p); [exact Hp| |exact Hfol|exact Hf']; done).
  rewrite put_lookup in H. injection H as <-. by rewrite put_put.
Qed.

(** ** Numbers *)

Lemma clamp_i64 z : in_i64 (Z.max i64_min (Z.min i64_max z)).
Proof. unfold in_i64, i64_min, i64_max. lia. Qed.

Lemma strtoll_range s v : strtoll s = Some v -> in_i64 v.
Proof.
  unfold strtoll. destruct (match skip_space s with "" => _ | _ => _ end) as [neg body].
  destruct (leading_digits None body); [|done]. intros [= <-]. apply clamp_i64.
Qed.

Lemma parse_i64_range line prefix v : parse_i64_field line prefix = Some v -> in_i64 v.
Proof. unfold parse_i64_field. intros (? & _ & H)%bind_Some. by eapply strtoll_range. Qed.

Lemma scan_line_counter t line :
  (forall c, tk_counter t = Some c -> in_i64 c) ->
  forall c, tk_counter (scan_line t line) = Some c -> in_i64 c.
Proof.
  destruct t as [r a ts n k ra]. intros Ht c. unfold scan_line.
  do 4 (destruct (take_field _ _); [apply Ht|]).
  destruct (take_field k _) as [v|] eqn:Hk; [|by destruct (take_field ra _); apply Ht].
  intros [= <-]. destruct k; [done|]. exact (parse_i64_range _ _ _ Hk).
Qed.

Lemma scan_token_counter text c : tk_counter (scan_token text) = Some c -> in_i64 c.
Proof.
  unfold scan_token.
  assert (forall l t, (forall c, tk_counter t = Some c -> in_i64 c) ->
    forall c, tk_counter (foldl scan_line t l) = Some c -> in_i64 c) as H.
  { induction l as [|x l IH]; intros t Ht; [done|]. simpl. apply IH. by apply scan_line_counter. }
  by apply H.
Qed.

Lemma last_counter_range p w : in_i64 (last_counter p w).
Proof.
  unfold last_counter. assert (in_i64 (-1)) by (unfold in_i64, i64_min, i64_max; lia).
  case_match; [done|]. destruct (w_nodes w !! p) as [[]|]; try done.
  destruct (strtoll _) eqn:Hs; [|done]. by eapply strtoll_range.
Qed.

(** The decimal text of a number reads back as the number. *)
Lemma leading_digits_value d acc v rest :
  str_all is_digit d = true -> digits_value acc d = Some v ->
  leading_digits (Some acc) (d +:+ rest) = leading_digits (Some v) rest.
Proof.
  revert acc. induction d as [|a d IH]; intros acc; simpl; [by intros _ [= ->]|].
  intros [Ha Hd]%andb_true_iff. rewrite Ha. by apply IH.
Qed.

Lemma leading_digits_pretty (n : N) rest :
  leading_digits None (pretty n +:+ rest) = leading_digits (Some (Z.of_N n)) rest.
Proof.
  pose proof (digits_value_pretty n) as Hv. pose proof (pretty_N_digits n) as Hd.
  pose proof (pretty_N_nonempty n) as Hne.
  destruct (pretty n) as [|a d]; [done|]. simpl in *. apply andb_true_iff in Hd as [Ha Hd].
  rewrite Ha in *. by apply leading_digits_value.
Qed.

Lemma digit_not_space a : is_digit a = true -> ws1 a = false /\ Ascii.eqb a "-" = false /\ Ascii.eqb a "+" = false.
Proof. by destruct a as [[] [] [] [] [] [] [] []]; vm_compute. Qed.

Lemma strtoll_pretty_N (n : N) rest :
  strtoll (pretty n +:+ rest)
  = (fun v => Z.max i64_min (Z.min i64_max v)) <$> leading_digits (Some (Z.of_N n)) rest.
Proof.
  pose proof (leading_digits_pretty n rest) as Hl. pose proof (pretty_N_digits n) as Hd.
  pose proof (pretty_N_nonempty n) as Hne.
  destruct (pretty n) as [|a d]; [done|]. simpl in Hd. apply andb_true_iff in Hd as [Ha _].
  destruct (digit_not_space a Ha) as (Hs & Hm & Hp).
  unfold strtoll. simpl skip_space. rewrite Hs, Hm, Hp. simpl in Hl |- *. rewrite Hl.
  by destruct (leading_digits _ rest).
Qed.

(** Whatever follows, as long as it does not begin with a digit *)
Lemma strtoll_pretty (z : Z) rest :
  in_i64 z -> (forall v, leading_digits (Some v) rest = Some v) -> strtoll (pretty z +:+ rest) = Some z.
Proof.
  intros Hc Hr. unfold in_i64, i64_min, i64_max in Hc. destruct z as [|p|p].
  - change (pretty 0%Z) with (pretty 0%N). by rewrite strtoll_pretty_N, Hr.
  - change (pretty (Z.pos p)) with (pretty (N.pos p)). rewrite strtoll_pretty_N, Hr.
    unfold i64_min, i64_max. simpl. f_equal. lia.
  - change (pretty (Z.neg p) +:+ rest) with (String "-" (pretty (N.pos p) +:+ rest)).
    unfold strtoll. simpl skip_space. simpl. rewrite leading_digits_pretty, Hr.
    unfold i64_min, i64_max. simpl. f_equal. lia.
Qed.

Lemma strtoll_counter_text c : in_i64 c -> strtoll (counter_text c) = Some c.
Proof. intros Hc. by apply strtoll_pretty. Qed.

(** ** The state file reads back *)

Lemma substring_all s n : String.length s <= n -> String.substring 0 n s = s.
Proof.
  revert n. induction s as [|a s IH]; intros [|n] Hn; simpl in *; try done; [lia|].
  f_equal. apply IH. lia.
Qed.

Lemma c_str_no_nul s : str_mem nul s = false -> c_str s = s.
Proof.
  induction s as [|a s IH]; simpl; [done|]. intros [Ha Hs]%orb_false_iff. rewrite Ha. by rewrite IH.
Qed.

Lemma digits_no_nul s : str_all is_digit s = true -> str_mem nul s = false.
Proof.
  induction s as [|a s IH]; simpl; [done|]. intros [Ha Hs]%andb_true_iff.
  apply orb_false_iff. split; [|by apply IH]. by destruct a as [[] [] [] [] [] [] [] []].
Qed.

Lemma counter_text_no_nul c : str_mem nul (counter_text c) = false.
Proof.
  unfold counter_text. rewrite str_mem_app, orb_false_iff. split; [|done].
  destruct c as [|p|p]; [done| |].
  - apply digits_no_nul. exact (pretty_N_digits (N.pos p)).
  - change (pretty (Z.neg p)) with (String "-" (pretty (N.pos p))). simpl.
    apply digits_no_nul, pretty_N_digits.
Qed.

Lemma last_counter_recorded p w c u md :
  w_nodes w !! p = Some (NFile (counter_text c) u md) -> w_fails w "pread" p = false ->
  String.length (counter_text c) < 128 -> in_i64 c -> last_counter p w = c.
Proof.
  intros Hp Hr Hl Hc. unfold last_counter. rewrite Hr, Hp, substring_all by lia.
  by rewrite c_str_no_nul, strtoll_counter_text by (done || apply counter_text_no_nul).
Qed.

(** ** Acceptance *)

Lemma open_state_spec path w p w1 :
  open_state path w = (Some p, w1) ->
  follow MAX_LINKS w path = Some p /\ follow MAX_LINKS w1 path = Some p /\
  last_counter p w1 = last_counter p w /\
  (w1 = w \/ w_nodes w !! p = None /\ exists n, w1 = put p n w) /\
  w_fails w1 = w_fails w.
Proof.
  unfold open_state. destruct (w_fails w "open" path); [done|].
  destruct (follow MAX_LINKS w path) as [q|] eqn:Hf; [|done].
  destruct (w_nodes w !! q) as [[c u md| |]|] eqn:Hq; intros [= <- <-]; [split_and!; auto|].
  split; [done|]. split.
  - by apply follow_create.
  - split; [|eauto]. unfold last_counter. simpl. rewrite lookup_insert_eq, Hq. by case_match.
Qed.

Lemma validate_accepts token ring age nonce path w w' :
  skv_validate_attestation_token token ring age nonce path w = (1%Z, w') ->
  exists text mode counter p u,
    w_nodes w !! token = Some (NFile text (w_euid w) mode) /\ group_world_writable mode = false /\
    token_ok text ring age nonce counter w /\
    follow MAX_LINKS w path = Some p /\ (last_counter p w < counter)%Z /\
    w' = put p (NFile (counter_text counter) u mode_600) w.
Proof.
  unfold skv_validate_attestation_token. case_decide; [done|].
  destruct (token_readable token w) as [text|] eqn:Ht; [|done].
  destruct (check_token _ _ _ _ _) as [counter|] eqn:Hc; [|done].
  case_decide; [done|]. destruct (open_state path w) as [[p|] w1] eqn:Ho; [|done].
  intros Ha. destruct (open_state_spec _ _ _ _ Ho) as (Hf & Hf1 & Hl & Hw1 & _).
  destruct (advance_accepts _ _ _ _ _ Ha Hf1) as (Hlt & _ & _ & u & ->).
  unfold token_readable in Ht. destruct (w_fails w "lstat" token); [done|].
  destruct (w_nodes w !! token) as [[text' uid mode| |]|] eqn:Hn; try done.
  destruct (Z.eqb_spec uid (w_euid w)) as [->|]; [|done]. simpl in Ht.
  destruct (group_world_writable mode) eqn:Hm; [done|]. simpl in Ht.
  destruct (w_fails w "fopen" token); [done|]. injection Ht as ->.
  exists text, mode, counter, p, u. split_and!; try done.
  - by apply check_token_spec.
  - by rewrite <- Hl.
  - destruct Hw1 as [->|(_ & n & ->)]; [done|]. by rewrite put_put.
Qed.

(** C9. The validator accepts only a token that passes every check: the token is
    a private regular file of the caller, its first ring, attested, timestamp and
    counter fields are present and say the required ring and true (for ring -2
    the root flag too), it carries the expected nonce, it is not from the future
    and, unless the age overflows 64 bits, not older than the limit, and its
    counter is larger than the recorded one.  Accepting records that counter in
    the state file, with mode 0600, and changes nothing else. *)
Theorem validator_accepts token ring age nonce path w w' :
  skv_validate_attestation_token token ring age nonce path w = (1%Z, w') ->
  exists text mode counter p u,
    w_nodes w !! token = Some (NFile text (w_euid w) mode) /\ group_world_writable mode = false /\
    token_ok text ring age nonce counter w /\
    follow MAX_LINKS w path = Some p /\ (last_counter p w < counter)%Z /\
    w' = put p (NFile (counter_text counter) u mode_600) w.
Proof. apply validate_accepts. Qed.

(** ** Anti-replay *)

Lemma pretty_N_go_length k n s :
  (n < 10 ^ N.of_nat k)%N -> String.length (pretty_N_go n s) <= k + String.length s.
Proof.
  revert n s. induction k as [|k IH]; intros n s Hn.
  - assert (n = 0%N) as -> by (simpl in Hn; lia). rewrite pretty_N_go_0. lia.
  - destruct (decide (n = 0%N)) as [->|Hn0]; [rewrite pretty_N_go_0; lia|].
    rewrite pretty_N_go_step by lia.
    assert (n `div` 10 < 10 ^ N.of_nat k)%N as Hdiv.
    { apply N.Div0.div_lt_upper_bound. rewrite Nat2N.inj_succ, N.pow_succ_r' in Hn. lia. }
    pose proof (IH _ (String (pretty_N_char (n `mod` 10)) s) Hdiv) as Hlen. simpl in Hlen. lia.
Qed.

Lemma pretty_N_length n : (n < 10 ^ 20)%N -> String.length (pretty n) <= 20.
Proof.
  intros Hn. unfold pretty, pretty_N. case_decide; [simpl; lia|].
  pose proof (pretty_N_go_length 20 n "" Hn) as Hlen. simpl in *. lia.
Qed.

(** The buffer of 128 bytes is always large enough. *)
Lemma counter_text_length c : in_i64 c -> String.length (counter_text c) < 128.
Proof.
  unfold in_i64, i64_min, i64_max. intros Hc. unfold counter_text. rewrite str_length_app. simpl.
  destruct c as [|p|p]; [simpl; lia| |].
  - change (pretty (Z.pos p)) with (pretty (N.pos p)).
    pose proof (pretty_N_length (N.pos p) ltac:(lia)). lia.
  - change (pretty (Z.neg p)) with (String "-" (pretty (N.pos p))). simpl.
    pose proof (pretty_N_length (N.pos p) ltac:(lia)). lia.
Qed.

(** No read, seek or write of the state file fails. *)
Definition faultless (p : string) (w : World) : Prop :=
  w_fails w "pread" p = false /\ w_fails w "lseek" p = false /\ w_fails w "write" p = false.

(** The path leads to [p], and its state can be read and written. *)
Definition tracks (path p : string) (w : World) : Prop :=
  follow MAX_LINKS w path = Some p /\ faultless p w.

Lemma follow_put_file w path p c u md c' u' md' :
  w_nodes w !! p = Some (NFile c u md) -> follow MAX_LINKS w path = Some p ->
  follow MAX_LINKS (put p (NFile c' u' md') w) path = Some p.
Proof.
  intros Hp. generalize MAX_LINKS. intros fuel. revert path.
  induction fuel as [|fuel IH]; intros path; simpl;
    (destruct (decide (p = path)) as [<-|Hne];
     [by rewrite lookup_insert_eq|rewrite lookup_insert_ne by done]);
    destruct (w_nodes w !! path) as [[]|]; naive_solver.
Qed.

(** The recorded counter never decreases, accepted or not. *)
Lemma advance_monotone path p counter w r w' :
  advance_counter path p counter w = (r, w') -> tracks path p w -> in_i64 counter ->
  (last_counter p w <= last_counter p w')%Z /\ tracks path p w' /\
  (r = 1%Z -> (last_counter p w < counter)%Z /\ last_counter p w' = counter).
Proof.
  intros Ha (Hfol & Hpr & Hls & Hwr) Hc. revert Ha. unfold advance_counter.
  assert ((0%Z, w) = (r, w') -> (last_counter p w <= last_counter p w')%Z /\ tracks path p w' /\
    (r = 1%Z -> (last_counter p w < counter)%Z /\ last_counter p w' = counter)) as Hsame.
  { intros [= <- <-]. split; [lia|]. split; [by split|done]. }
  destruct (w_fails w "lock" p); [exact Hsame|].
  destruct (w_fails w "fstat" p); [exact Hsame|].
  destruct (state_secure p w) eqn:Hsec; [|exact Hsame]. simpl.
  destruct (Z.leb_spec counter (last_counter p w)); [exact Hsame|].
  destruct (w_fails w "ftruncate" p); [exact Hsame|].
  unfold state_secure in Hsec. destruct (w_nodes w !! p) as [[c u md| |]|] eqn:Hp; try done.
  rewrite (write_text_lookup _ _ _ _ _ _ Hp). change (w_fails (put _ _ _)) with (w_fails w). rewrite Hls.
  rewrite decide_False by (pose proof (counter_text_length counter Hc); lia). rewrite Hwr.
  rewrite (write_text_lookup _ _ _ _ _ _ (put_lookup _ _ _)), put_put.
  assert (forall md', (last_counter p w <= last_counter p (put p (NFile (counter_text counter) u md') w))%Z /\
    tracks path p (put p (NFile (counter_text counter) u md') w) /\
    ((last_counter p w < counter)%Z /\ last_counter p (put p (NFile (counter_text counter) u md') w) = counter)) as Hnew.
  { intros md'. assert (last_counter p (put p (NFile (counter_text counter) u md') w) = counter) as E.
    { eapply last_counter_recorded; [apply put_lookup|done|by apply counter_text_length|done]. }
    rewrite E. split; [lia|]. split; [|done]. split; [by eapply follow_put_file|done]. }
  destruct (w_fails _ "fsync" p); [intros [= <- <-]; destruct (Hnew md) as (? & ? & ?); by split_and!|].
  unfold set_permissions. change (w_fails (put _ _ _)) with (w_fails w).
  destruct (w_fails w "chmod" path); [intros [= <- <-]; destruct (Hnew md) as (? & ? & ?); by split_and!|].
  rewrite (follow_put_file _ _ _ _ _ _ _ _ _ Hp Hfol), put_lookup, put_put. intros [= <- <-].
  destruct (Hnew mode_600) as (? & ? & ?). by split_and!.
Qed.

(** Accepted or not, only the file the state path leads to may change. *)
Lemma advance_frame path p counter w r w' q :
  advance_counter path p counter w = (r, w') -> follow MAX_LINKS w path = Some p -> q <> p ->
  w_nodes w' !! q = w_nodes w !! q.
Proof.
  unfold advance_counter. intros H Hfol Hq. revert H.
  assert (forall t, w_nodes (write_text p t w) !! q = w_nodes w !! q) as Hwt.
  { intros t. unfold write_text. repeat case_match; try done. by apply put_other. }
  destruct (w_fails w "lock" p); [congruence|]. destruct (w_fails w "fstat" p); [congruence|].
  destruct (state_secure p w) eqn:Hsec; [|simpl; congruence]. simpl.
  destruct (counter <=? last_counter p w)%Z; [congruence|].
  destruct (w_fails w "ftruncate" p); [congruence|].
  unfold state_secure in Hsec. destruct (w_nodes w !! p) as [[c u md| |]|] eqn:Hp; try done.
  rewrite (write_text_lookup _ _ _ _ _ _ Hp).
  rewrite (write_text_lookup _ _ _ _ _ _ (put_lookup _ _ _)), put_put.
  destruct (w_fails _ "lseek" p); [intros [= <- <-]; by apply put_other|].
  case_decide; [intros [= <- <-]; by apply put_other|].
  destruct (w_fails _ "write" p); [intros [= <- <-]; by apply put_other|].
  destruct (w_fails _ "fsync" p); [intros [= <- <-]; by apply put_other|].
  unfold set_permissions. destruct (w_fails _ "chmod" path); [intros [= <- <-]; by apply put_other|].
  rewrite (follow_put_file _ _ _ _ _ _ _ _ _ Hp Hfol), put_lookup, put_put.
  intros [= <- <-]. by apply put_other.
Qed.

Lemma validate_frame token ring age nonce path w r w' q :
  skv_validate_attestation_token token ring age nonce path w = (r, w') ->
  follow MAX_LINKS w path <> Some q -> w_nodes w' !! q = w_nodes w !! q.
Proof.
  unfold skv_validate_attestation_token. intros H Hq. revert H. case_decide; [congruence|].
  destruct (token_readable token w) as [text|]; [|congruence].
  destruct (check_token _ _ _ _ _) as [counter|]; [|congruence]. case_decide; [congruence|].
  destruct (open_state path w) as [[p|] w1] eqn:Ho.
  - destruct (open_state_spec _ _ _ _ Ho) as (Hf & Hf1 & _ & Hw1 & _). intros Ha.
    rewrite (advance_frame _ _ _ _ _ _ q Ha Hf1) by congruence.
    destruct Hw1 as [->|(_ & n & ->)]; [done|]. apply put_other. congruence.
  - unfold open_state in Ho. repeat case_match; simplify_eq; congruence.
Qed.

(** What fails does not depend on the files. *)
Lemma write_text_fails p t w : w_fails (write_text p t w) = w_fails w.
Proof. unfold write_text. by repeat case_match. Qed.

Lemma validate_fails token ring age nonce path w r w' :
  skv_validate_attestation_token token ring age nonce path w = (r, w') -> w_fails w' = w_fails w.
Proof.
  unfold skv_validate_attestation_token. case_decide; [congruence|].
  destruct (token_readable token w); [|congruence]. destruct (check_token _ _ _ _ _); [|congruence].
  case_decide; [congruence|]. destruct (open_state path w) as [[p|] w1] eqn:Ho.
  - destruct (open_state_spec _ _ _ _ Ho) as (_ & _ & _ & _ & Hf). rewrite <- Hf. clear.
    unfold advance_counter, set_permissions.
    repeat case_match; intros; simplify_eq; simpl; by rewrite ?write_text_fails.
  - unfold open_state in Ho. repeat case_match; simplify_eq; congruence.
Qed.

(** The counter a token would record. *)
Definition token_counter (token : string) (w : World) : option Z :=
  token_readable token w ≫= fun text => tk_counter (scan_token text).

(** Validations that share a state file, in order, with the counters accepted.
    Between them anything may change but what the state file says. *)
Inductive session (path p : string) : World -> list Z -> Prop :=
  | sn_done w : session path p w []
  | sn_elsewhere w w' cs :
      last_counter p w' = last_counter p w -> tracks path p w' -> session path p w' cs ->
      session path p w cs
  | sn_accept w token ring age nonce c w' cs :
      skv_validate_attestation_token token ring age nonce path w = (1%Z, w') ->
      token_counter token w = Some c -> session path p w' cs -> session path p w (c :: cs)
  | sn_reject w token ring age nonce w' cs :
      skv_validate_attestation_token token ring age nonce path w = (0%Z, w') ->
      session path p w' cs -> session path p w cs.

Lemma validate_monotone token ring age nonce path p w r w' :
  skv_validate_attestation_token token ring age nonce path w = (r, w') -> tracks path p w ->
  (last_counter p w <= last_counter p w')%Z /\ tracks path p w' /\
  (r = 1%Z -> exists c, token_counter token w = Some c /\
     (last_counter p w < c)%Z /\ last_counter p w' = c).
Proof.
  intros Hv Ht. revert Hv. unfold skv_validate_attestation_token, token_counter.
  assert ((0%Z, w) = (r, w') -> (last_counter p w <= last_counter p w')%Z /\ tracks path p w' /\
    (r = 1%Z -> exists c, (token_readable token w ≫= fun text => tk_counter (scan_token text)) = Some c /\
       (last_counter p w < c)%Z /\ last_counter p w' = c)) as Hsame.
  { intros [= <- <-]. by split_and!. }
  case_decide; [exact Hsame|]. destruct (token_readable token w) as [text|]; [|exact Hsame].
  destruct (check_token _ _ _ _ _) as [counter|] eqn:Hc; [|exact Hsame].
  case_decide; [exact Hsame|]. destruct (open_state path w) as [[q|] w1] eqn:Ho.
  - destruct (open_state_spec _ _ _ _ Ho) as (Hf & Hf1 & Hl & Hw1 & Hfl).
    destruct Ht as [Hfol Hfault]. rewrite Hfol in Hf. injection Hf as <-.
    intros Ha. apply check_token_spec in Hc as Hok. pose proof (ok_counter _ _ _ _ _ _ Hok) as Hk.
    destruct (advance_monotone _ _ _ _ _ _ Ha) as (Hle & Ht' & Hr).
    { split; [done|]. unfold faultless. by rewrite Hfl. }
    { by eapply scan_token_counter. }
    rewrite <- Hl. split; [done|]. split; [done|]. intros Hr1. exists counter. by split; [|apply Hr].
  - unfold open_state in Ho. repeat case_match; simplify_eq; exact Hsame.
Qed.

Lemma session_increasing path p w cs :
  session path p w cs -> tracks path p w ->
  StronglySorted Z.lt cs /\ Forall (Z.lt (last_counter p w)) cs.
Proof.
  induction 1 as [w|w w' cs Hl Ht' _ IH|w token ring age nonce c w' cs Hv Hc _ IH
    |w token ring age nonce w' cs Hv _ IH]; intros Ht.
  - split; constructor.
  - rewrite <- Hl. by apply IH.
  - destruct (validate_monotone _ _ _ _ _ _ _ _ _ Hv Ht) as (Hle & Ht' & Hr).
    destruct (Hr eq_refl) as (c' & Hc' & Hlt & Hlast). rewrite Hc in Hc'. injection Hc' as <-.
    destruct (IH Ht') as [Hs Hf]. rewrite Hlast in Hf. split; [by constructor|].
    constructor; [done|]. eapply Forall_impl; [exact Hf|]. intros x Hx. lia.
  - destruct (validate_monotone _ _ _ _ _ _ _ _ _ Hv Ht) as (Hle & Ht' & _).
    destruct (IH Ht') as [Hs Hf]. split; [done|]. eapply Forall_impl; [exact Hf|]. intros x Hx. lia.
Qed.

(** C7. Replay protection: over any sequence of validations that share a state
    file whose reads and writes do not fail, whatever the tokens, rings, nonces
    and limits and whatever else happens in between, the counters of the accepted
    tokens strictly increase from the recorded one.  In particular no token is
    accepted twice. *)
Theorem anti_replay path p w cs :
  session path p w cs -> tracks path p w ->
  StronglySorted Z.lt cs /\ Forall (Z.lt (last_counter p w)) cs /\ NoDup cs.
Proof.
  intros Hs Ht. destruct (session_increasing _ _ _ _ Hs Ht) as [Hsort Hall]. split_and!; [done..|].
  clear -Hsort. induction Hsort as [|c cs _ IH Hc]; [constructor|]. constructor; [|done].
  intros Hin. rewrite Forall_forall in Hc. specialize (Hc c Hin). lia.
Qed.

(** ** Examples *)

(** [print_token_template]'s token for ring -1, at time 1700000000. *)
Definition lines_text (l : list string) : string := str_concat (map (fun s => s +:+ chr nl) l).
Definition sample_token (counter : string) : string :=
  lines_text ["ring:-1"; "attested:true"; "timestamp:1700000000"; "nonce:n1"; "counter:" +:+ counter].
Definition token_world (text : string) : World := world_of [("token", text)] 1700000100.
Definition validated (text : string) : Z * World :=
  skv_validate_attestation_token "token" (-1) 300 (Some "n1") "state" (token_world text).

Lemma split_pair {A B} (x : A * B) a : x.1 = a -> x = (a, x.2).
Proof. by destruct x; intros <-. Qed.

Lemma validator_accepts_witness :
  exists text mode counter p u,
    w_nodes (token_world (sample_token "7")) !! "token"
      = Some (NFile text (w_euid (token_world (sample_token "7"))) mode) /\
    (validated (sample_token "7")).2
      = put p (NFile (counter_text counter) u mode_600) (token_world (sample_token "7")).
Proof.
  assert ((validated (sample_token "7")).1 = 1%Z) as H1 by (vm_compute; reflexivity).
  destruct (validator_accepts "token" (-1) 300 (Some "n1") "state" (token_world (sample_token "7"))
    (validated (sample_token "7")).2 (split_pair _ _ H1))
    as (text & mode & counter & p & u & Ht & _ & _ & _ & _ & Hw).
  exists text, mode, counter, p, u. split; [exact Ht|exact Hw].
Defined.

(** Accepted once, refused the second time. *)
Lemma accepted_once : session "state" "state" (token_world (sample_token "7")) [7%Z].
Proof.
  eapply (sn_accept _ _ _ "token" (-1) 300 (Some "n1")).
  - apply split_pair. vm_compute. reflexivity.
  - vm_compute. reflexivity.
  - eapply (sn_reject _ _ _ "token" (-1) 300 (Some "n1")); [|constructor].
    apply split_pair. vm_compute. reflexivity.
Qed.

Lemma anti_replay_witness :
  session "state" "state" (token_world (sample_token "7")) [7%Z] /\ NoDup [7%Z].
Proof.
  split; [exact accepted_once|].
  refine (proj2 (proj2 (anti_replay "state" "state" _ _ accepted_once _))).
  split; [vm_compute; reflexivity|]. by split_and!.
Defined.

(** The ring is truncated to an [int]: 2^32 - 1 reads as ring -1. *)
Example ring_truncated :
  (validated (lines_text ["ring:4294967295"; "attested:true"; "timestamp:1700000000"; "nonce:n1";
                          "counter:1"])).1 = 1%Z.
Proof. by vm_compute. Qed.

(** Flags are compared by prefix. *)
Example attested_prefix :
  (validated (lines_text ["ring:-1"; "attested:1_but_not_really"; "timestamp:1700000000"; "nonce:n1";
                          "counter:1"])).1 = 1%Z.
Proof. by vm_compute. Qed.

(** The age of the smallest timestamp overflows; where it wraps, the token counts
    as fresh. *)
Example age_overflow_accepted :
  (validated (lines_text ["ring:-1"; "attested:true"; "timestamp:-9223372036854775808"; "nonce:n1";
                          "counter:1"])).1 = 1%Z.
Proof. by vm_compute. Qed.

(** A write that fails after the truncation loses the counter: the next
    validation of an older token succeeds. *)
Definition failing_write (w : World) : World :=
  mk_World (w_nodes w) (w_euid w) (w_umask w) (w_now w)
    (fun op p => String.eqb op "write" && String.eqb p "state") (w_overflow w).
Definition working_again (w : World) : World :=
  mk_World (w_nodes w) (w_euid w) (w_umask w) (w_now w) (fun _ _ => false) (w_overflow w).

Example failed_write_forgets :
  let w := world_of [("token", sample_token "9"); ("old", sample_token "3"); ("state", counter_text 8)] 1700000100 in
  let validate t w := skv_validate_attestation_token t (-1) 300 (Some "n1") "state" w in
  (validate "old" w).1 = 0%Z /\
  (validate "token" (failing_write w)).1 = 0%Z /\
  (validate "old" (working_again (validate "token" (failing_write w)).2)).1 = 1%Z.
Proof. by vm_compute. Qed.
