(* ===== verification/Zig.v ===== *)
(** * Zig: the other token validator, [src/zig/attestation_bridge.zig]

    The implementation of [skv_validate_attestation_token] that [build.rs] compiles
    when [SKV_ATTESTATION_IMPL] is [zig], over the [World] of [Fs] like the C one of
    [Bridge].  It is built with [ReleaseSafe]: a failed [assert] of the standard
    library and an overflowing subtraction stop the process, here [Panic].  At the
    end the two validators are compared: both implement one meaning of tokens. *)

From S2P Require Import Prelude Text Smt Gate Fs Bridge.
From stdpp Require Import base gmap list strings pretty sorting.
From Stdlib Require Import Ascii ZArith Lia.
#[local] Open Scope string_scope.
#[local] Arguments String.append : simpl nomatch.

(** ** The standard library *)

(** [readUntilDelimiterOrEof(&buf, '\n')]: an error when the buffer is full, [null]
    at the end, or the bytes before the delimiter *)
Inductive Chunk := TooLong | Eof | Line (line rest : string).
Fixpoint read_until (room : nat) (cur s : string) : Chunk :=
  match room with
  | O => TooLong
  | S r =>
      match s with
      | "" => if decide (cur = "") then Eof else Line (String.rev cur) ""
      | String a s' => if Ascii.eqb a nl then Line (String.rev cur) s' else read_until r (String a cur) s'
      end
  end.

(** [std.fmt.parseInt(i64, s, 10)]: underscores between digits are allowed, and every
    step is checked for overflow. *)
Definition underscore : ascii := "_".
Fixpoint accumulate (sign acc : Z) (s : string) : option Z :=
  match s with
  | "" => Some acc
  | String a s' =>
      if Ascii.eqb a underscore then accumulate sign acc s'
      else if is_digit a then
        let scaled := (10 * acc)%Z in
        let v := (scaled + sign * (Z.of_N (byte_of a) - 48))%Z in
        if decide (in_i64 scaled /\ in_i64 v) then accumulate sign v s' else None
      else None
  end.
Fixpoint ends_with (a : ascii) (s : string) : bool :=
  match s with "" => false | String b "" => Ascii.eqb a b | String _ s' => ends_with a s' end.
Definition parse_with_sign (sign : Z) (s : string) : option Z :=
  match s with
  | "" => None
  | String a _ => if Ascii.eqb a underscore || ends_with underscore s then None else accumulate sign 0 s
  end.
Definition parse_int (s : string) : option Z :=
  match s with
  | "" => None
  | String a s' =>
      if Ascii.eqb a "+" then parse_with_sign 1 s'
      else if Ascii.eqb a "-" then parse_with_sign (-1) s'
      else parse_with_sign 1 s
  end.

(** [std.fs.path.isAbsolute], which the [...Absolute] functions assert *)
Definition is_absolute (path : string) : bool := starts_with "/" path.

(** ** The parsers of lines *)

Definition parseBool (line prefix : string) : option bool :=
  match Text.strip_prefix prefix line with
  | None => None
  | Some v =>
      if decide (v = "true") then Some true
      else if decide (v = "1") then Some true
      else if decide (v = "false") then Some false
      else if decide (v = "0") then Some false
      else None
  end.
Definition parseI64 (line prefix : string) : option Z := Text.strip_prefix prefix line ≫= parse_int.
Definition parseText (line prefix : string) : option string :=
  match Text.strip_prefix prefix line with
  | None => None
  | Some v => if decide (v = "") then None else Some v
  end.

(** [std.mem.trimRight(u8, line, "\r\n")] *)
Definition is_crlf (a : ascii) : bool := Ascii.eqb a cr || Ascii.eqb a nl.
Fixpoint trimLine (line : string) : string :=
  match line with
  | "" => ""
  | String a s => match trimLine s with "" => if is_crlf a then "" else String a "" | t => String a t end
  end.

Definition isSecureRegularFile (path : string) (w : World) : bool :=
  if w_fails w "lstat" path then false else
  match w_nodes w !! path with
  | Some (NFile _ _ mode) => negb (group_world_writable mode)
  | _ => false
  end.

(** ** [parseToken] *)

(** One round of the loop, on a trimmed line; [None] is [return false]. *)
Definition zig_scan_line (t : Token) (line : string) : option Token :=
  let '(mk_Token r a ts n c ra) := t in
  match take_field r (parseI64 line "ring:") with
  | Some v => Some (mk_Token (Some v) a ts n c ra)
  | None =>
  match take_field a (parseBool line "attested:") with
  | Some v => Some (mk_Token r (Some v) ts n c ra)
  | None =>
  match take_field ts (parseI64 line "timestamp:") with
  | Some v => Some (mk_Token r a (Some v) n c ra)
  | None =>
  match take_field n (parseText line "nonce:") with
  | Some v => if decide (256 < String.length v) then None else Some (mk_Token r a ts (Some v) c ra)
  | None =>
  match take_field c (parseI64 line "counter:") with
  | Some v => Some (mk_Token r a ts n (Some v) ra)
  | None =>
  match take_field ra (parseBool line "root_attested:") with
  | Some v => Some (mk_Token r a ts n c (Some v))
  | None => Some t
  end end end end end end.

(** The loop over the lines: [read_until 512] from where the last call stopped *)
Fixpoint zig_scan (t : Token) (room : nat) (cur s : string) : option Token :=
  match room with
  | O => None
  | S r =>
      match s with
      | "" => if decide (cur = "") then Some t else zig_scan_line t (trimLine (String.rev cur))
      | String a s' =>
          if Ascii.eqb a nl
          then zig_scan_line t (trimLine (String.rev cur)) ≫= fun t => zig_scan t 512 "" s'
          else zig_scan t r (String a cur) s'
      end
  end.
Definition zig_scan_token (text : string) : option Token := zig_scan empty_token 512 "" text.

(** [openFileAbsolute] of a file that is about to be read to its end or to its first
    line; a read that fails makes the caller return [false] just as well. *)
Definition open_read (path : string) (w : World) : exec (option string) :=
  if negb (is_absolute path) then Panic
  else if w_fails w "fopen" path then Done None
  else if w_fails w "pread" path then Done None
  else match w_nodes w !! path with
       | Some (NFile text _ _) => Done (Some text)
       | _ => Done None
       end.

(** [std.time.timestamp()] is 0 when the clock cannot be read. *)
Definition timestamp (w : World) : Z := default 0%Z (w_now w).

(** The checks after the loop, in order: the counter to record, or [false].  The age
    is a checked subtraction. *)
Definition zig_check (t : Token) (required_ring max_age_sec : Z) (expected_nonce : option string)
    (w : World) : exec (option Z) :=
  match tk_ring t, tk_attested t, tk_timestamp t, tk_counter t with
  | Some ring, Some attested, Some ts, Some counter =>
      if negb attested then Done None
      else if negb (ring =? required_ring)%Z then Done None
      else if (required_ring =? -2)%Z && negb (default false (tk_root_attested t)) then Done None
      else if (max_age_sec <=? 0)%Z then Done None
      else let now := timestamp w in
           if (now <? ts)%Z then Done None
           else if decide (in_i64 (now - ts)) then
             if (max_age_sec <? now - ts)%Z then Done None
             else match expected_nonce with
                  | Some nonce => Done (if decide (tk_nonce t = Some nonce) then Some counter else None)
                  | None => Done (Some counter)
                  end
           else Panic
  | _, _, _, _ => Done None
  end.

(** The counter recorded in the state, [-1] where there is none; [None] is
    [return false]. *)
Definition zig_last_counter (path : string) (w : World) : exec (option Z) :=
  if isSecureRegularFile path w then
    let! text := open_read path w in
    match text with
    | None => Done None
    | Some text =>
        match read_until 128 "" text with
        | TooLong => Done None
        | Eof => Done (Some (-1)%Z)
        | Line sl _ => Done (Some (default (-1)%Z (parse_int (trimLine sl))))
        end
    end
  else Done (Some (-1)%Z).

(** [createFileAbsolute] with [truncate] and mode 0600 *)
Definition create_state (path : string) (w : World) : exec (option string * World) :=
  if negb (is_absolute path) then Panic
  else if w_fails w "open" path then Done (None, w)
  else match follow MAX_LINKS w path with
       | None => Done (None, w)
       | Some p =>
           match w_nodes w !! p with
           | Some (NFile _ uid mode) => Done (Some p, put p (NFile "" uid mode) w)
           | None => Done (Some p, put p (NFile "" (w_euid w) (Z.land mode_600 (Z.lnot (w_umask w)))) w)
           | Some _ => Done (None, w)
           end
       end.

Definition parseToken (token_path : string) (required_ring max_age_sec : Z) (expected_nonce : option string)
    (replay_state_path : string) (w : World) : exec (bool * World) :=
  if negb (isSecureRegularFile token_path w) then Done (false, w) else
  let! text := open_read token_path w in
  match text ≫= zig_scan_token with
  | None => Done (false, w)
  | Some t =>
      let! checked := zig_check t required_ring max_age_sec expected_nonce w in
      match checked with
      | None => Done (false, w)
      | Some counter =>
          if decide (replay_state_path = "") then Done (false, w) else
          let! last := zig_last_counter replay_state_path w in
          match last with
          | None => Done (false, w)
          | Some last =>
              if (counter <=? last)%Z then Done (false, w) else
              let! (file, w) := create_state replay_state_path w in
              match file with
              | None => Done (false, w)
              | Some p => if w_fails w "write" p then Done (false, w)
                          else Done (true, write_text p (counter_text counter) w)
              end
          end
      end
  end.

Definition zig_validate_attestation_token (token_path : string) (required_ring max_age_sec : Z)
    (expected_nonce : option string) (replay_state_path : string) (w : World) : exec (Z * World) :=
  if decide (token_path = "" \/ replay_state_path = "") then Done (0%Z, w) else
  let! (ok, w) := parseToken token_path required_ring max_age_sec expected_nonce replay_state_path w in
  Done (if ok : bool then 1%Z else 0%Z, w).

(** ** The loop reads lines one call at a time *)

Lemma zig_scan_calls t room cur s :
  zig_scan t room cur s =
  match read_until room cur s with
  | TooLong => None
  | Eof => Some t
  | Line line rest =>
      match zig_scan_line t (trimLine line) with
      | None => None
      | Some t => zig_scan t 512 "" rest
      end
  end.
Proof.
  revert room cur. induction s as [|a s IH]; intros [|r] cur; simpl; try done.
  - case_decide; [done|]. by destruct (zig_scan_line t _).
  - destruct (Ascii.eqb a nl); [|apply IH]. by destruct (zig_scan_line t _).
Qed.

(** ** What a token means *)

(** The fields of a token as [print_token_template] and the documentation show them,
    and lines that are none of them *)
Inductive Field :=
  | FRing (ring : Z)
  | FAttested (b : bool)
  | FTimestamp (ts : Z)
  | FNonce (nonce : string)
  | FCounter (counter : Z)
  | FRootAttested (b : bool)
  | FOther (line : string).

Definition bool_text (b : bool) : string := if b then "true" else "false".
Definition field_text (f : Field) : string :=
  match f with
  | FRing ring => "ring:" +:+ pretty ring
  | FAttested b => "attested:" +:+ bool_text b
  | FTimestamp ts => "timestamp:" +:+ pretty ts
  | FNonce nonce => "nonce:" +:+ nonce
  | FCounter counter => "counter:" +:+ pretty counter
  | FRootAttested b => "root_attested:" +:+ bool_text b
  | FOther line => line
  end.

(** The first field of each kind counts. *)
Definition add_field (t : Token) (f : Field) : Token :=
  let '(mk_Token r a ts n c ra) := t in
  match f with
  | FRing v => mk_Token (Some (default v r)) a ts n c ra
  | FAttested v => mk_Token r (Some (default v a)) ts n c ra
  | FTimestamp v => mk_Token r a (Some (default v ts)) n c ra
  | FNonce v => mk_Token r a ts (Some (default v n)) c ra
  | FCounter v => mk_Token r a ts n (Some (default v c)) ra
  | FRootAttested v => mk_Token r a ts n c (Some (default v ra))
  | FOther _ => t
  end.
Definition token_of (fs : list Field) : Token := foldl add_field empty_token fs.

(** Text without the bytes that end lines or strings *)
Definition plain (s : string) : bool := negb (str_mem nul s || str_mem nl s || str_mem cr s).
Definition prefixes : list string := ["ring:"; "attested:"; "timestamp:"; "nonce:"; "counter:"; "root_attested:"].

(** Fields that fit the integers and buffers of both implementations *)
Definition field_ok (f : Field) : Prop :=
  match f with
  | FRing ring => (- 2 ^ 31 <= ring < 2 ^ 31)%Z
  | FTimestamp z | FCounter z => in_i64 z
  | FNonce nonce => nonce <> "" /\ plain nonce = true /\ String.length nonce <= 248
  | FAttested _ | FRootAttested _ => True
  | FOther line => Forall (fun p => Text.strip_prefix p line = None) prefixes /\ plain line = true /\
                   String.length line <= 254
  end.

(** ** The C validator reads this meaning *)

Definition clear (a : ascii) (s : string) : Prop := str_mem a s = false.
Lemma plain_clear s : plain s = true <-> clear nul s /\ clear nl s /\ clear cr s.
Proof. unfold plain, clear. destruct (str_mem nul s), (str_mem nl s), (str_mem cr s); naive_solver. Qed.

Lemma plain_app s t : plain (s +:+ t) = plain s && plain t.
Proof. unfold plain. rewrite !str_mem_app. by destruct (str_mem nul s), (str_mem nl s), (str_mem cr s), (str_mem nul t), (str_mem nl t), (str_mem cr t). Qed.

Lemma digits_plain s : str_all is_digit s = true -> plain s = true.
Proof.
  intros H. apply plain_clear. unfold clear. induction s as [|a s IH]; [done|].
  simpl in *. apply andb_true_iff in H as [Ha Hs]. destruct (IH Hs) as (-> & -> & ->).
  by destruct a as [[] [] [] [] [] [] [] []]; vm_compute in Ha |- *.
Qed.

Lemma pretty_plain (z : Z) : plain (pretty z) = true.
Proof.
  destruct z as [|p|p]; [done|exact (digits_plain _ (pretty_N_digits (N.pos p)))|].
  change (pretty (Z.neg p)) with ("-" +:+ pretty (N.pos p)). rewrite plain_app.
  apply andb_true_iff. split; [done|apply digits_plain, pretty_N_digits].
Qed.

Lemma pretty_short z : in_i64 z -> String.length (pretty z) <= 126.
Proof.
  intros Hz. pose proof (counter_text_length z Hz) as H. unfold counter_text in H.
  rewrite str_length_app in H. simpl in H. lia.
Qed.

Lemma ring_in_i64 z : (- 2 ^ 31 <= z < 2 ^ 31)%Z -> in_i64 z.
Proof. unfold in_i64, i64_min, i64_max. lia. Qed.

(** A line of a token is free of control bytes and fits the buffers. *)
Lemma field_line f : field_ok f -> plain (field_text f) = true /\ String.length (field_text f) <= 254.
Proof.
  destruct f as [z|b|z|s|z|b|s]; simpl field_ok; unfold field_text; rewrite ?plain_app, ?str_length_app, ?pretty_plain.
  - intros Hz%ring_in_i64%pretty_short. split; [done|simpl; lia].
  - intros _. by destruct b; split; [|simpl; lia| |simpl; lia].
  - intros Hz%pretty_short. split; [done|simpl; lia].
  - intros (_ & -> & Hl). split; [done|simpl; lia].
  - intros Hz%pretty_short. split; [done|simpl; lia].
  - intros _. by destruct b; split; [|simpl; lia| |simpl; lia].
  - tauto.
Qed.

Lemma rev_line s : String.rev (String.rev_app s "") = s.
Proof. exact (str_rev_involutive s). Qed.

Lemma fgets_line s cur rest room :
  clear nl s -> String.length s < room ->
  fgets_all room cur (s +:+ String nl rest)
  = String.rev (String nl (String.rev_app s cur)) :: fgets_all 255 "" rest.
Proof.
  unfold clear. revert cur room. induction s as [|a s IH]; intros cur room; [done|].
  change (String a s +:+ String nl rest) with (String a (s +:+ String nl rest)).
  simpl. rewrite orb_false_iff. intros [-> Hs] Hl. destruct room as [|[|r]]; simpl in Hl; [lia|lia|].
  apply IH; [done|]. lia.
Qed.

(** The buffer as C sees it, without its newline *)
Lemma line_cut s : plain s = true -> cut_nl (c_str (String.rev (String nl (String.rev_app s "")))) = s.
Proof.
  intros (Hn & Hl & _)%plain_clear.
  assert (String.rev (String nl (String.rev_app s "")) = s +:+ chr nl) as ->.
  { change (String nl (String.rev_app s "")) with (String.rev_app (chr nl) (String.rev_app s "")).
    unfold String.rev. rewrite str_rev_app_rev_app. simpl. rewrite str_rev_app_rev_app. simpl. done. }
  rewrite c_str_no_nul by (rewrite str_mem_app; by rewrite Hn).
  unfold clear in Hl. clear Hn. induction s as [|a s IH]; [done|]. simpl in *.
  apply orb_false_iff in Hl as [-> Hs]. by rewrite IH.
Qed.

Lemma token_lines_text ls :
  Forall (fun l => plain l = true /\ String.length l <= 254) ls -> token_lines (lines_text ls) = ls.
Proof.
  unfold token_lines, lines_text. intros H. induction H as [|l ls [Hp Hl] _ IH]; [done|].
  simpl. rewrite str_app_assoc. change (chr nl +:+ ?x) with (String nl x).
  rewrite fgets_line; [|by apply plain_clear in Hp as (_ & ? & _)|lia]. simpl map.
  rewrite line_cut by done. by rewrite IH.
Qed.

(** *** Single lines *)

(** Two readings of the fields of a line agree with the field it shows. *)
Lemma strip_own p v : Text.strip_prefix p (p +:+ v) = Some v.
Proof. induction p as [|a p IH]; [done|]. simpl. by rewrite Ascii.eqb_refl. Qed.

Lemma to_int_small z : (- 2 ^ 31 <= z < 2 ^ 31)%Z -> to_int z = z.
Proof. intros Hz. unfold to_int. rewrite Z.mod_small by lia. lia. Qed.

Lemma strtoll_whole z : in_i64 z -> strtoll (pretty z) = Some z.
Proof. intros Hz. rewrite <- (str_app_nil_r (pretty z)). by apply strtoll_pretty. Qed.

Lemma other_prefixes line :
  Forall (fun p => Text.strip_prefix p line = None) prefixes ->
  Text.strip_prefix "ring:" line = None /\ Text.strip_prefix "attested:" line = None /\
  Text.strip_prefix "timestamp:" line = None /\ Text.strip_prefix "nonce:" line = None /\
  Text.strip_prefix "counter:" line = None /\ Text.strip_prefix "root_attested:" line = None.
Proof. unfold prefixes. rewrite !Forall_cons. tauto. Qed.

Lemma c_line t f : field_ok f -> scan_line t (field_text f) = add_field t f.
Proof.
  destruct t as [r a ts n c ra]. unfold scan_line, parse_ring, parse_attested, parse_root_attested.
  destruct f as [z|b|z|s|z|b|s]; simpl field_ok; unfold field_text.
  - intros Hz. unfold parse_i64_field at 1. rewrite strip_own. simpl.
    rewrite strtoll_whole by (by apply ring_in_i64). simpl. rewrite to_int_small by done.
    by destruct r, a, ts, n, c, ra.
  - intros _. by destruct r, a, ts, n, c, ra, b.
  - intros Hz. unfold parse_i64_field. simpl. rewrite strtoll_whole by done. by destruct r, a, ts, n, c, ra.
  - intros (Hs & _ & Hl). unfold parse_string_field. simpl.
    rewrite decide_False by done. rewrite decide_False by lia. by destruct r, a, ts, n, c, ra.
  - intros Hz. unfold parse_i64_field. simpl. rewrite strtoll_whole by done. by destruct r, a, ts, n, c, ra.
  - intros _. by destruct r, a, ts, n, c, ra, b.
  - intros (Hp & _). apply other_prefixes in Hp as (H1 & H2 & H3 & H4 & H5 & H6).
    unfold parse_i64_field, parse_string_field. rewrite H1, H2, H3, H4, H5, H6. by destruct r, a, ts, n, c, ra.
Qed.

Definition token_text (fs : list Field) : string := lines_text (map field_text fs).

Lemma fields_lines fs :
  Forall field_ok fs -> Forall (fun l => plain l = true /\ String.length l <= 254) (map field_text fs).
Proof. rewrite Forall_map. intros H. eapply Forall_impl; [exact H|]. intros f. apply field_line. Qed.

Lemma c_reads fs : Forall field_ok fs -> scan_token (token_text fs) = token_of fs.
Proof.
  intros H. unfold scan_token, token_text. rewrite token_lines_text by (by apply fields_lines).
  unfold token_of. generalize empty_token. induction H as [|f fs Hf _ IH]; intros t; [done|].
  simpl. by rewrite c_line.
Qed.

(** ** The Zig validator reads it too *)

Lemma digits_value_above d acc v : (0 <= acc)%Z -> digits_value acc d = Some v -> (acc <= v)%Z.
Proof.
  revert acc. induction d as [|a d IH]; intros acc Hacc; simpl; [intros [= ->]; lia|].
  destruct (is_digit a) eqn:Ha; [|done]. intros H.
  assert (48 <= byte_of a)%N as Hb.
  { unfold is_digit in Ha. apply andb_true_iff in Ha as [Ha _]. by apply N.leb_le. }
  apply IH in H; lia.
Qed.

Lemma digit_no_underscore a : is_digit a = true -> Ascii.eqb a underscore = false.
Proof. by destruct a as [[] [] [] [] [] [] [] []]. Qed.

(** As long as the number fits, no step overflows. *)
Lemma accumulate_digits sign d acc v :
  sign = 1%Z \/ sign = (-1)%Z -> (0 <= acc)%Z -> digits_value acc d = Some v -> in_i64 (sign * v) ->
  accumulate sign (sign * acc) d = Some (sign * v)%Z.
Proof.
  intros Hsign. revert acc. induction d as [|a d IH]; intros acc Hacc; simpl; [by intros [= ->]|].
  destruct (is_digit a) eqn:Ha; [|done]. intros Hv Hfit. rewrite digit_no_underscore by done.
  assert (48 <= byte_of a)%N as Hb.
  { unfold is_digit in Ha. apply andb_true_iff in Ha as [Ha' _]. by apply N.leb_le. }
  assert (10 * acc + (Z.of_N (byte_of a) - 48) <= v)%Z as Hle by (eapply digits_value_above; [|exact Hv]; lia).
  rewrite decide_True by (unfold in_i64, i64_min, i64_max in *; destruct Hsign; subst; lia).
  replace (10 * (sign * acc) + sign * (Z.of_N (byte_of a) - 48))%Z
    with (sign * (10 * acc + (Z.of_N (byte_of a) - 48)))%Z by ring.
  apply IH; [lia|done..].
Qed.

Lemma ends_with_digits d : str_all is_digit d = true -> ends_with underscore d = false.
Proof.
  induction d as [|a d IH]; [done|]. simpl. intros [Ha Hd]%andb_true_iff.
  destruct d as [|b d]; [|by apply IH]. by destruct a as [[] [] [] [] [] [] [] []].
Qed.

Lemma parse_pretty_N sign (n : N) :
  sign = 1%Z \/ sign = (-1)%Z -> in_i64 (sign * Z.of_N n) ->
  parse_with_sign sign (pretty n) = Some (sign * Z.of_N n)%Z.
Proof.
  intros Hsign Hfit. pose proof (pretty_N_digits n) as Hd. pose proof (digits_value_pretty n) as Hv.
  pose proof (ends_with_digits _ Hd) as He. pose proof (pretty_N_nonempty n) as Hne.
  unfold parse_with_sign. destruct (pretty n) as [|a d] eqn:E; [done|]. rewrite He, orb_false_r.
  rewrite digit_no_underscore by (simpl in Hd; by apply andb_true_iff in Hd as [-> _]).
  replace 0%Z with (sign * 0)%Z by ring. by apply accumulate_digits.
Qed.

Lemma parse_int_pretty z : in_i64 z -> parse_int (pretty z) = Some z.
Proof.
  intros Hz. destruct z as [|p|p]; [done| |].
  - change (pretty (Z.pos p)) with (pretty (N.pos p)).
    pose proof (parse_pretty_N 1 (N.pos p) (or_introl eq_refl)) as H. rewrite Z.mul_1_l in H. specialize (H Hz).
    pose proof (pretty_N_digits (N.pos p)) as Hd. destruct (pretty (N.pos p)) as [|a d]; [done|].
    simpl in Hd. apply andb_true_iff in Hd as [Ha _]. destruct (digit_not_space a Ha) as (_ & Hm & Hp).
    unfold parse_int. by rewrite Hp, Hm.
  - change (pretty (Z.neg p)) with (String "-" (pretty (N.pos p))). simpl.
    rewrite parse_pretty_N; [done|by right|]. exact Hz.
Qed.

Lemma trim_plain s : plain s = true -> trimLine s = s.
Proof.
  intros (_ & Hn & Hc)%plain_clear. unfold clear in *. induction s as [|a s IH]; [done|]. simpl in *.
  apply orb_false_iff in Hn as [Hn Hn']. apply orb_false_iff in Hc as [Hc Hc']. rewrite IH by done.
  destruct s; [|done]. unfold is_crlf. by rewrite Hn, Hc.
Qed.

Lemma zig_line t f : field_ok f -> zig_scan_line t (field_text f) = Some (add_field t f).
Proof.
  destruct t as [r a ts n c ra]. unfold zig_scan_line.
  destruct f as [z|b|z|s|z|b|s]; simpl field_ok; unfold field_text.
  - intros Hz%ring_in_i64. unfold parseI64. simpl. rewrite parse_int_pretty by done. by destruct r, a, ts, n, c, ra.
  - intros _. by destruct r, a, ts, n, c, ra, b.
  - intros Hz. unfold parseI64. simpl. rewrite parse_int_pretty by done. by destruct r, a, ts, n, c, ra.
  - intros (Hs & _ & Hl). unfold parseText. simpl. rewrite decide_False by done.
    destruct r, a, ts, n, c, ra; simpl; try done; by rewrite decide_False by lia.
  - intros Hz. unfold parseI64. simpl. rewrite parse_int_pretty by done. by destruct r, a, ts, n, c, ra.
  - intros _. by destruct r, a, ts, n, c, ra, b.
  - intros (Hp & _). apply other_prefixes in Hp as (H1 & H2 & H3 & H4 & H5 & H6).
    unfold parseI64, parseBool, parseText. rewrite H1, H2, H3, H4, H5, H6. by destruct r, a, ts, n, c, ra.
Qed.

Lemma zig_scan_one t s cur rest room :
  clear nl s -> String.length s < room ->
  zig_scan t room cur (s +:+ String nl rest)
  = zig_scan_line t (trimLine (String.rev (String.rev_app s cur))) ≫= fun t => zig_scan t 512 "" rest.
Proof.
  unfold clear. revert cur room. induction s as [|a s IH]; intros cur [|room] Hs Hl; simpl in Hl; try lia; [done|].
  change (String a s +:+ String nl rest) with (String a (s +:+ String nl rest)).
  simpl in Hs |- *. apply orb_false_iff in Hs as [-> Hs]. apply IH; [done|lia].
Qed.

Lemma zig_reads fs : Forall field_ok fs -> zig_scan_token (token_text fs) = Some (token_of fs).
Proof.
  intros H. unfold zig_scan_token, token_text, lines_text, token_of. generalize empty_token.
  induction H as [|f fs Hf _ IH]; intros t; [done|].
  destruct (field_line f Hf) as [Hp Hl]. simpl. rewrite str_app_assoc. change (chr nl +:+ ?x) with (String nl x).
  rewrite zig_scan_one; [|by apply plain_clear in Hp as (_ & ? & _)|lia].
  rewrite rev_line, trim_plain, zig_line by done. apply IH.
Qed.

(** ** One specification for both *)

(** What a token must say to be accepted at the time [now], and the counter it has *)
Record acceptable (t : Token) (ring age : Z) (nonce : option string) (now counter : Z) : Prop := {
  ac_ring : tk_ring t = Some ring;
  ac_attested : tk_attested t = Some true;
  ac_root : ring = (-2)%Z -> tk_root_attested t = Some true;
  ac_counter : tk_counter t = Some counter;
  ac_nonce : forall n, nonce = Some n -> tk_nonce t = Some n;
  ac_fresh : exists ts, tk_timestamp t = Some ts /\ (ts <= now <= ts + age)%Z;
  ac_age : (0 < age)%Z
}.

(** One validation: accepted if the token is acceptable and its counter is new, which
    is then recorded; refused otherwise, which records nothing; no other file changes. *)
Record outcome (t : Token) (ring age : Z) (nonce : option string) (now : Z) (path : string) (w : World)
    (r : Z) (w' : World) : Prop := {
  oc_accepted : r = 1%Z ->
    exists c, acceptable t ring age nonce now c /\ (last_counter path w < c)%Z /\ last_counter path w' = c;
  oc_refused : r <> 1%Z ->
    r = 0%Z /\ last_counter path w' = last_counter path w /\
    forall c, acceptable t ring age nonce now c -> (c <= last_counter path w)%Z;
  oc_frame : forall q, q <> path -> w_nodes w' !! q = w_nodes w !! q
}.

(** An acceptable token with a new counter cannot be refused. *)
Lemma outcome_progress t ring age nonce now path w r w' c :
  outcome t ring age nonce now path w r w' -> acceptable t ring age nonce now c ->
  (last_counter path w < c)%Z -> r = 1%Z /\ last_counter path w' = c.
Proof.
  intros [H1 H0 _] Ha Hlt. destruct (decide (r = 1%Z)) as [->|Hr].
  - destruct (H1 eq_refl) as (c' & Ha' & _ & ->). split; [done|].
    pose proof (ac_counter _ _ _ _ _ _ Ha). pose proof (ac_counter _ _ _ _ _ _ Ha'). congruence.
  - destruct (H0 Hr) as (_ & _ & Hle). specialize (Hle c Ha). lia.
Qed.

Section check.
Context (t : Token) (ring age now : Z) (nonce : option string) (w : World).
Context (Hnow : w_now w = Some now).
Context (Hfits : forall ts, tk_timestamp t = Some ts -> in_i64 (now - ts)).

Lemma check_acceptable counter :
  check_token t ring age nonce w = Some counter <-> acceptable t ring age nonce now counter.
Proof using Hnow Hfits.
  unfold check_token. rewrite Hnow. split.
  - destruct (tk_ring t) as [r|] eqn:Er; [|done]. destruct (tk_attested t) as [[]|] eqn:Ea; [|by destruct (tk_timestamp t), (tk_counter t)|done].
    destruct (tk_timestamp t) as [ts|] eqn:Et; [|done]. destruct (tk_counter t) as [c|] eqn:Ec; [|done]. simpl.
    destruct (Z.eqb_spec r ring) as [->|]; [|done]. simpl.
    destruct ((ring =? -2)%Z && _) eqn:Eroot; [done|]. destruct (Z.leb_spec age 0); [done|].
    destruct (Z.ltb_spec now ts); [done|]. unfold sub_i64. rewrite decide_True by auto.
    destruct (Z.ltb_spec age (now - ts)); [done|]. intros Hn.
    assert (c = counter /\ forall n, nonce = Some n -> tk_nonce t = Some n) as [-> Hn'].
    { destruct nonce as [n|]; [case_decide; [|done]|]; injection Hn as ->; split; naive_solver. }
    split; try done.
    + intros ->. simpl in Eroot. by destruct (tk_root_attested t) as [[]|].
    + exists ts. split; [done|lia].
  - intros [-> -> Hroot -> Hn (ts & Hts & Hle) Hage]. rewrite Hts. simpl. rewrite Z.eqb_refl. simpl.
    assert ((ring =? -2)%Z && negb (default false (tk_root_attested t)) = false) as ->.
    { destruct (Z.eqb_spec ring (-2)) as [->|]; [|done]. by rewrite Hroot. }
    destruct (Z.leb_spec age 0); [lia|]. destruct (Z.ltb_spec now ts); [lia|].
    unfold sub_i64. rewrite decide_True by auto. destruct (Z.ltb_spec age (now - ts)); [lia|].
    destruct nonce as [n|]; [|done]. by rewrite decide_True by auto.
Qed.

Lemma zig_check_agrees : zig_check t ring age nonce w = Done (check_token t ring age nonce w).
Proof using Hnow Hfits.
  unfold zig_check, check_token, timestamp. rewrite Hnow. simpl.
  destruct (tk_ring t); [|done]. destruct (tk_attested t); [|done].
  destruct (tk_timestamp t) as [ts|] eqn:Et; [|done]. destruct (tk_counter t); [|done].
  repeat (case_match; [done|]). unfold sub_i64. rewrite !decide_True by auto.
  case_match; [done|]. by destruct nonce.
Qed.
End check.

(** *** The replay state *)

Definition no_failures (w : World) : Prop := forall op p, w_fails w op p = false.

(** No state yet, or a private regular file with a counter in it, or with nothing:
    the C validator creates the file before it compares the counters. *)
Definition state_text (text : string) : Prop := text = "" \/ exists c, text = counter_text c /\ in_i64 c.
Definition state_ready (path : string) (w : World) : Prop :=
  w_nodes w !! path = None \/
  exists text md, w_nodes w !! path = Some (NFile text (w_euid w) md) /\
    group_world_writable md = false /\ state_text text.

Lemma created_private x : group_world_writable (Z.land mode_600 x) = false.
Proof.
  unfold group_world_writable, mode_600. rewrite <- Z.land_assoc, (Z.land_comm x), Z.land_assoc. done.
Qed.

(** Reading the first line of a state that was written *)
Lemma read_line s cur rest room :
  clear nl s -> String.length s < room ->
  read_until room cur (s +:+ String nl rest) = Line (String.rev (String.rev_app s cur)) rest.
Proof.
  unfold clear. revert cur room. induction s as [|a s IH]; intros cur [|room] Hs Hl; simpl in Hl; try lia; [done|].
  change (String a s +:+ String nl rest) with (String a (s +:+ String nl rest)).
  simpl in Hs |- *. apply orb_false_iff in Hs as [-> Hs]. apply IH; [done|lia].
Qed.

Lemma zig_last_agrees path w :
  no_failures w -> is_absolute path = true -> state_ready path w ->
  zig_last_counter path w = Done (Some (last_counter path w)).
Proof.
  intros Hw Ha. unfold zig_last_counter, isSecureRegularFile. rewrite Hw.
  intros [Hn|(text & md & Hp & Hm & [->|(c & -> & Hc)])].
  - unfold last_counter. by rewrite Hw, Hn.
  - unfold last_counter. rewrite !Hw, Hp, Hm. unfold open_read. by rewrite Ha, !Hw, Hp.
  - rewrite (last_counter_recorded _ _ _ _ _ Hp) by auto using counter_text_length.
    rewrite Hp, Hm. unfold open_read. rewrite Ha, !Hw, Hp. cbv beta iota delta [negb mbind exec_bind].
    unfold counter_text.
    assert (plain (pretty c) = true) as Hpl by apply pretty_plain.
    change (chr nl) with (String nl ""). rewrite read_line.
    + by rewrite rev_line, trim_plain, parse_int_pretty.
    + by apply plain_clear in Hpl as (_ & ? & _).
    + pose proof (pretty_short c Hc). lia.
Qed.

(** Without failures both rewrite the state exactly when the counter is new. *)
Lemma c_advance path counter w c u md :
  no_failures w -> w_nodes w !! path = Some (NFile c u md) -> state_secure path w = true -> in_i64 counter ->
  advance_counter path path counter w
  = if (counter <=? last_counter path w)%Z then (0%Z, w)
    else (1%Z, put path (NFile (counter_text counter) u mode_600) w).
Proof.
  intros Hw Hp Hs Hc. unfold advance_counter. rewrite !Hw, Hs. simpl. case_match; [done|].
  rewrite (write_text_lookup _ _ _ _ _ _ Hp). change (w_fails (put _ _ _)) with (w_fails w). rewrite !Hw.
  rewrite decide_False by (pose proof (counter_text_length counter Hc); lia).
  rewrite (write_text_lookup _ _ _ _ _ _ (put_lookup _ _ _)), put_put.
  unfold set_permissions. change (w_fails (put _ _ _)) with (w_fails w). rewrite !Hw.
  rewrite (follow_file _ _ _ _ _ _ (put_lookup _ _ _)), put_lookup. by rewrite put_put.
Qed.

(** Opening the state leaves a private file with the counter it had. *)
Lemma c_open path w :
  no_failures w -> state_ready path w ->
  exists c u md w1, open_state path w = (Some path, w1) /\ no_failures w1 /\
    w_nodes w1 !! path = Some (NFile c u md) /\ state_secure path w1 = true /\
    last_counter path w1 = last_counter path w /\ (forall q, q <> path -> w_nodes w1 !! q = w_nodes w !! q) /\
    state_ready path w1.
Proof.
  intros Hw Hst. destruct (open_state path w) as [o w1] eqn:Ho. unfold open_state in Ho. rewrite Hw in Ho.
  pose proof Hst as Hready. destruct Hst as [Hn|(c & md & Hp & Hm & _)].
  - rewrite (follow_absent _ _ _ Hn), Hn in Ho. injection Ho as <- <-.
    eexists _, _, _, _. split; [done|]. split; [done|]. split; [apply put_lookup|]. split_and!.
    + unfold state_secure. rewrite put_lookup. simpl. by rewrite Z.eqb_refl, created_private.
    + unfold last_counter. rewrite put_lookup, Hn. change (w_fails (put _ _ _)) with (w_fails w). by rewrite Hw.
    + intros q Hq. by apply put_other.
    + right. eexists _, _. split; [apply put_lookup|]. split; [apply created_private|by left].
  - rewrite (follow_file _ _ _ _ _ _ Hp), Hp in Ho. injection Ho as <- <-. eexists _, _, _, _. split_and!; try done.
    unfold state_secure. by rewrite Hp, Z.eqb_refl, Hm.
Qed.

Lemma recorded path c u md w :
  no_failures w -> in_i64 c -> last_counter path (put path (NFile (counter_text c) u md) w) = c.
Proof. intros Hw Hc. eapply last_counter_recorded; [apply put_lookup|apply Hw|by apply counter_text_length|done]. Qed.

Section both.
Context (token path : string) (fs : list Field) (ring age now mode : Z) (nonce : option string) (w : World).
Context (Hw : no_failures w) (Htoken : is_absolute token = true) (Hpath : is_absolute path = true).
Context (Hfile : w_nodes w !! token = Some (NFile (token_text fs) (w_euid w) mode)).
Context (Hmode : group_world_writable mode = false) (Hfs : Forall field_ok fs) (Hst : state_ready path w).
Context (Hnow : w_now w = Some now).
Context (Hfits : forall ts, tk_timestamp (token_of fs) = Some ts -> in_i64 (now - ts)).
#[local] Notation checked := (check_token (token_of fs) ring age nonce w).

Lemma absolute_nonempty p : is_absolute p = true -> p <> "".
Proof using. by intros H ->. Qed.

Lemma counter_in_i64 counter : checked = Some counter -> in_i64 counter.
Proof using Hnow Hfits Hfs.
  rewrite (check_acceptable _ _ _ now) by done. intros [_ _ _ Hc _ _ _]. rewrite <- (c_reads fs Hfs) in Hc.
  by eapply scan_token_counter.
Qed.

Lemma refused_outcome w' :
  last_counter path w' = last_counter path w -> (forall q, q <> path -> w_nodes w' !! q = w_nodes w !! q) ->
  (forall c, checked = Some c -> (c <= last_counter path w)%Z) ->
  outcome (token_of fs) ring age nonce now path w 0 w'.
Proof using Hnow Hfits.
  intros Hl Hq Hc. split; [done| |done]. intros _. split_and!; [done..|].
  intros c Ha. apply Hc. by rewrite (check_acceptable _ _ _ now).
Qed.

Lemma accepted_outcome c u md w' :
  checked = Some c -> (last_counter path w < c)%Z -> no_failures w' ->
  (forall q, q <> path -> w_nodes w' !! q = w_nodes w !! q) ->
  outcome (token_of fs) ring age nonce now path w 1 (put path (NFile (counter_text c) u md) w').
Proof using Hnow Hfits Hfs.
  intros Hc Hlt Hw' Hq. split; [|done|].
  - intros _. exists c. split; [by rewrite (check_acceptable _ _ _ now) in Hc|]. split; [done|].
    apply recorded; [done|by apply counter_in_i64].
  - intros q Hne. rewrite put_other by done. by apply Hq.
Qed.

Lemma c_outcome :
  let '(r, w') := skv_validate_attestation_token token ring age nonce path w in
  outcome (token_of fs) ring age nonce now path w r w'.
Proof using All.
  unfold skv_validate_attestation_token, token_readable. rewrite decide_False by (by apply absolute_nonempty).
  rewrite !Hw, Hfile, Z.eqb_refl, Hmode. simpl. rewrite c_reads by done.
  destruct checked as [c|] eqn:Hc; [|by apply refused_outcome; [..|congruence]].
  rewrite decide_False by (by apply absolute_nonempty).
  destruct (c_open path w Hw Hst) as (t0 & u & md & w1 & -> & Hw1 & Hp & Hs & Hl & Hq & _).
  rewrite (c_advance _ _ _ _ _ _ Hw1 Hp Hs (counter_in_i64 _ Hc)), Hl.
  destruct (Z.leb_spec c (last_counter path w)) as [Hle|Hlt].
  - apply refused_outcome; [done..|]. congruence.
  - by apply accepted_outcome.
Qed.

Lemma zig_create :
  exists u md, create_state path w = Done (Some path, put path (NFile "" u md) w).
Proof using Hw Hpath Hst.
  unfold create_state. rewrite Hpath, Hw. cbn [negb]. destruct Hst as [Hn|(text & md & Hp & _)].
  - rewrite (follow_absent _ _ _ Hn), Hn. eauto.
  - rewrite (follow_file _ _ _ _ _ _ Hp), Hp. eauto.
Qed.

Lemma zig_outcome :
  exists r w', zig_validate_attestation_token token ring age nonce path w = Done (r, w') /\
    outcome (token_of fs) ring age nonce now path w r w'.
Proof using All.
  unfold zig_validate_attestation_token, parseToken, isSecureRegularFile, open_read.
  rewrite decide_False by (intros [H|H]; revert H; by apply absolute_nonempty).
  rewrite !Hw, Hfile, Hmode, Htoken. cbn [negb mbind exec_bind option_bind]. rewrite zig_reads by done.
  rewrite (zig_check_agrees _ _ _ now) by done. cbn [mbind exec_bind].
  destruct checked as [c|] eqn:Hc; [|eexists _, _; split; [done|by apply refused_outcome; [..|congruence]]].
  rewrite decide_False by (by apply absolute_nonempty).
  rewrite zig_last_agrees by done. cbn [mbind exec_bind].
  destruct (Z.leb_spec c (last_counter path w)) as [Hle|Hlt].
  - eexists _, _. split; [done|]. apply refused_outcome; [done..|]. congruence.
  - destruct zig_create as (u & md & ->). cbn [mbind exec_bind].
    change (w_fails (put _ _ _)) with (w_fails w). rewrite Hw.
    rewrite (write_text_lookup _ _ _ _ _ _ (put_lookup _ _ _)), put_put.
    eexists _, _. split; [done|]. by apply accepted_outcome.
Qed.

Lemma outcome_unique r1 w1 r2 w2 :
  outcome (token_of fs) ring age nonce now path w r1 w1 -> outcome (token_of fs) ring age nonce now path w r2 w2 ->
  r1 = r2 /\ last_counter path w1 = last_counter path w2.
Proof using.
  intros [H1 H1' _] [H2 H2' _].
  destruct (decide (r1 = 1%Z)) as [->|N1], (decide (r2 = 1%Z)) as [->|N2].
  - destruct (H1 eq_refl) as (c & [_ _ _ Hc _ _ _] & _ & ->), (H2 eq_refl) as (c' & [_ _ _ Hc' _ _ _] & _ & ->).
    split; congruence.
  - destruct (H1 eq_refl) as (c & Ha & Hlt & _). destruct (H2' N2) as (_ & _ & Hle). specialize (Hle c Ha). lia.
  - destruct (H2 eq_refl) as (c & Ha & Hlt & _). destruct (H1' N1) as (_ & _ & Hle). specialize (Hle c Ha). lia.
  - destruct (H1' N1) as (-> & -> & _), (H2' N2) as (-> & -> & _). done.
Qed.
End both.

(** C21. The two validators are interchangeable on well-formed tokens: given
    absolute paths, a private token file made of fields that fit, a replay state that
    is absent or private, a system that does not fail and an age that does not
    overflow, both return the same answer, and both meet one specification: 1 exactly
    when the token is acceptable and its counter exceeds the recorded one, which then
    is recorded; else 0, recording nothing.  No other file changes. *)
Theorem validators_agree token path fs ring age nonce mode now w :
  no_failures w -> is_absolute token = true -> is_absolute path = true ->
  w_nodes w !! token = Some (NFile (token_text fs) (w_euid w) mode) -> group_world_writable mode = false ->
  Forall field_ok fs -> state_ready path w -> w_now w = Some now ->
  (forall ts, tk_timestamp (token_of fs) = Some ts -> in_i64 (now - ts)) ->
  exists r w1 w2,
    skv_validate_attestation_token token ring age nonce path w = (r, w1) /\
    zig_validate_attestation_token token ring age nonce path w = Done (r, w2) /\
    outcome (token_of fs) ring age nonce now path w r w1 /\
    outcome (token_of fs) ring age nonce now path w r w2 /\
    last_counter path w1 = last_counter path w2.
Proof.
  intros Hw Ht Hp Hfile Hm Hfs Hst Hnow Hfits.
  pose proof (c_outcome token path fs ring age now mode nonce w Hw Ht Hp Hfile Hm Hfs Hst Hnow Hfits) as Hc.
  destruct (zig_outcome token path fs ring age now mode nonce w Hw Ht Hp Hfile Hm Hfs Hst Hnow Hfits)
    as (r & w2 & Hz & Hout).
  destruct (skv_validate_attestation_token token ring age nonce path w) as [r1 w1] eqn:E.
  destruct (outcome_unique _ _ _ _ _ _ _ _ _ _ _ Hc Hout) as [-> Hl].
  exists r, w1, w2. by split_and!.
Qed.

(** ** What the Zig validator accepts *)

Lemma zig_check_spec t ring age nonce w counter :
  zig_check t ring age nonce w = Done (Some counter) -> acceptable t ring age nonce (timestamp w) counter.
Proof.
  unfold zig_check. destruct (tk_ring t) as [r|] eqn:Er; [|done].
  destruct (tk_attested t) as [[]|] eqn:Ea; [|by destruct (tk_timestamp t), (tk_counter t)|done].
  destruct (tk_timestamp t) as [ts|] eqn:Et; [|done]. destruct (tk_counter t) as [c|] eqn:Ec; [|done]. simpl.
  destruct (Z.eqb_spec r ring) as [->|]; [|done]. simpl.
  destruct ((ring =? -2)%Z && _) eqn:Eroot; [done|]. destruct (Z.leb_spec age 0); [done|].
  destruct (Z.ltb_spec (timestamp w) ts); [done|]. case_decide; [|done].
  destruct (Z.ltb_spec age (timestamp w - ts)); [done|]. intros Hn.
  assert (c = counter /\ forall n, nonce = Some n -> tk_nonce t = Some n) as [-> Hn'].
  { destruct nonce as [n|]; [case_decide; [|done]|]; injection Hn as ->; split; naive_solver. }
  split; try done.
  - intros ->. simpl in Eroot. by destruct (tk_root_attested t) as [[]|].
  - exists ts. split; [done|lia].
Qed.

Lemma secure_regular path w :
  isSecureRegularFile path w = true ->
  exists text uid mode, w_nodes w !! path = Some (NFile text uid mode) /\ group_world_writable mode = false.
Proof.
  unfold isSecureRegularFile. case_match; [done|]. destruct (w_nodes w !! path) as [[]|]; try done.
  rewrite negb_true_iff. eauto.
Qed.

Lemma open_read_spec path w text :
  open_read path w = Done (Some text) -> exists uid mode, w_nodes w !! path = Some (NFile text uid mode).
Proof. unfold open_read. repeat (case_match; try done). naive_solver. Qed.

Lemma create_state_spec path w p w1 :
  create_state path w = Done (Some p, w1) ->
  follow MAX_LINKS w path = Some p /\ exists u md, w1 = put p (NFile "" u md) w.
Proof.
  unfold create_state. destruct (is_absolute path); [|done]. simpl negb. cbv iota. case_match; [done|].
  destruct (follow MAX_LINKS w path) as [q|]; [|done].
  destruct (w_nodes w !! q) as [[]|]; intros [= <- <-]; eauto.
Qed.

(** No call of the validator runs forever. *)
Lemma open_read_returns path w : open_read path w <> Diverge.
Proof. unfold open_read. by repeat case_match. Qed.
Lemma zig_check_returns t ring age nonce w : zig_check t ring age nonce w <> Diverge.
Proof. unfold zig_check. by repeat case_match. Qed.
Lemma zig_last_returns path w : zig_last_counter path w <> Diverge.
Proof.
  unfold zig_last_counter. case_match; [|done]. pose proof (open_read_returns path w) as Hr.
  destruct (open_read path w) as [[text|]| |]; cbn [mbind exec_bind]; try done. by case_match.
Qed.
Lemma create_state_returns path w : create_state path w <> Diverge.
Proof. unfold create_state. by repeat case_match. Qed.
Lemma create_state_refused path w w1 : create_state path w = Done (None, w1) -> w1 = w.
Proof. unfold create_state. repeat case_match; naive_solver. Qed.

(** A state that is ready stays private when it is created anew. *)
Lemma create_state_ready path w p w1 :
  state_ready path w -> create_state path w = Done (Some p, w1) ->
  p = path /\ exists md, w1 = put path (NFile "" (w_euid w) md) w /\ group_world_writable md = false.
Proof.
  unfold create_state. intros Hst. case_match; [done|]. case_match; [done|].
  destruct Hst as [Hn|(text & md & Hp & Hm & _)].
  - rewrite (follow_absent _ _ _ Hn), Hn. intros [= <- <-]. split; [done|]. eexists. split; [done|].
    apply created_private.
  - rewrite (follow_file _ _ _ _ _ _ Hp), Hp. intros [= <- <-]. eauto.
Qed.

(** The counter of a token is an [i64]. *)
Lemma accumulate_range sign s acc v : in_i64 acc -> accumulate sign acc s = Some v -> in_i64 v.
Proof.
  revert acc. induction s as [|a s IH]; intros acc Ha; simpl; [by intros [= <-]|].
  case_match; [by apply IH|]. case_match; [|done]. case_decide as Hd; [|done]. apply IH, Hd.
Qed.
Lemma parse_int_range s v : parse_int s = Some v -> in_i64 v.
Proof.
  assert (forall sign s, parse_with_sign sign s = Some v -> in_i64 v) as H.
  { intros sign [|a s']; [done|]. unfold parse_with_sign. case_match; [done|]. by apply accumulate_range. }
  unfold parse_int. destruct s; [done|]. repeat case_match; apply H.
Qed.
Lemma parseI64_range line prefix v : parseI64 line prefix = Some v -> in_i64 v.
Proof. unfold parseI64. intros (? & _ & H)%bind_Some. by eapply parse_int_range. Qed.

Definition counter_range (t : Token) : Prop := forall c, tk_counter t = Some c -> in_i64 c.
Lemma zig_scan_line_range t line t' : counter_range t -> zig_scan_line t line = Some t' -> counter_range t'.
Proof.
  unfold counter_range. destruct t as [r a ts n k ra]. intros Ht. unfold zig_scan_line.
  do 3 (destruct (take_field _ _); [intros [= <-]; exact Ht|]).
  destruct (take_field n _); [case_decide; [done|]; intros [= <-]; exact Ht|].
  destruct (take_field k _) as [v|] eqn:Hk; [|destruct (take_field ra _); intros [= <-]; exact Ht].
  intros [= <-] c [= <-]. destruct k; [done|]. by eapply parseI64_range.
Qed.
Lemma zig_scan_range s t room cur t' : counter_range t -> zig_scan t room cur s = Some t' -> counter_range t'.
Proof.
  revert t room cur. induction s as [|a s IH]; intros t [|room] cur Ht; simpl; try done.
  - case_decide; [by intros [= <-]|]. by apply zig_scan_line_range.
  - case_match; [|by apply IH]. intros (t1 & H1 & H2)%bind_Some. eapply IH; [|done]. by eapply zig_scan_line_range.
Qed.
Lemma zig_scan_token_range text t : zig_scan_token text = Some t -> counter_range t.
Proof. by apply zig_scan_range. Qed.

Lemma zig_validate_accepts token ring age nonce path w w' :
  zig_validate_attestation_token token ring age nonce path w = Done (1%Z, w') ->
  exists text uid mode t counter p u md,
    w_nodes w !! token = Some (NFile text uid mode) /\ group_world_writable mode = false /\
    zig_scan_token text = Some t /\ acceptable t ring age nonce (timestamp w) counter /\
    (-1 < counter \/ isSecureRegularFile path w = true)%Z /\
    (isSecureRegularFile path w = true ->
       exists last, zig_last_counter path w = Done (Some last) /\ (last < counter)%Z) /\
    follow MAX_LINKS w path = Some p /\ w' = put p (NFile (counter_text counter) u md) w.
Proof.
  unfold zig_validate_attestation_token, parseToken. case_decide; [done|].
  destruct (isSecureRegularFile token w) eqn:Hsec; [|done]. simpl negb. cbv iota.
  destruct (secure_regular _ _ Hsec) as (text & uid & mode & Hn & Hm).
  destruct (open_read token w) as [[text'|]| |] eqn:Hr; try done.
  destruct (open_read_spec _ _ _ Hr) as (uid' & mode' & Hn'). rewrite Hn in Hn'. injection Hn' as <- <- <-.
  cbn [mbind exec_bind option_bind]. destruct (zig_scan_token text) as [t|] eqn:Hs; [|done].
  destruct (zig_check t ring age nonce w) as [[counter|]| |] eqn:Hc; try done. cbn [mbind exec_bind].
  case_decide; [done|]. destruct (zig_last_counter path w) as [[last|]| |] eqn:Hl; try done.
  cbn [mbind exec_bind]. destruct (Z.leb_spec counter last) as [|Hlt]; [done|].
  destruct (create_state path w) as [[[p|] w1]| |] eqn:Ho; try done. cbn [mbind exec_bind].
  destruct (create_state_spec _ _ _ _ Ho) as (Hf & u & md & ->).
  destruct (w_fails _ "write" p); [done|]. cbn [mbind exec_bind].
  rewrite (write_text_lookup _ _ _ _ _ _ (put_lookup _ _ _)), put_put. intros [= <-].
  exists text, uid, mode, t, counter, p, u, md. split_and!; try done.
  - by apply zig_check_spec.
  - destruct (isSecureRegularFile path w) eqn:Hp; [by right|left].
    unfold zig_last_counter in Hl. rewrite Hp in Hl. injection Hl as <-. lia.
  - intros _. eauto.
Qed.


(** ** Examples *)

Definition sample_fields (counter : Z) : list Field :=
  [FOther "# reviewed"; FRing (-1); FAttested true; FTimestamp 1700000000; FNonce "n1"; FCounter counter;
   FCounter 99].
Definition zig_world (nodes : list (string * Node)) : World :=
  mk_World (list_to_map nodes) 1000 18 (Some 1700000100%Z) (fun _ _ => false)
    (fun z => (z + 2 ^ 63) mod 2 ^ 64 - 2 ^ 63)%Z.
Definition private (text : string) : Node := NFile text 1000 mode_600.
Definition sample_world (counter : Z) (state : string) : World :=
  zig_world [("/token", private (token_text (sample_fields counter))); ("/state", private state)].
Definition zig_validated (w : World) : exec (Z * World) :=
  zig_validate_attestation_token "/token" (-1) 300 (Some "n1") "/state" w.
Definition c_validated (w : World) : Z :=
  (skv_validate_attestation_token "/token" (-1) 300 (Some "n1") "/state" w).1.
Definition answer (x : exec (Z * World)) : exec Z := let! (r, _) := x in Done r.

Lemma answer_done x r : answer x = Done r -> exists w, x = Done (r, w).
Proof. destruct x as [[r' w]| |]; simpl; intros [= <-]. eauto. Qed.

Lemma sample_fields_ok c : in_i64 c -> Forall field_ok (sample_fields c).
Proof.
  intros Hc. assert (forall z, (0 <= z <= 1700000000)%Z -> in_i64 z) as Hsmall
    by (unfold in_i64, i64_min, i64_max; lia).
  unfold sample_fields. repeat (apply Forall_cons; split); simpl; try done; try (apply Hsmall; lia).
  - split; [by repeat constructor|]. split; [done|lia].
  - split_and!; [done..|lia].
Qed.

Lemma validators_agree_witness :
  exists w1 w2,
    skv_validate_attestation_token "/token" (-1) 300 (Some "n1") "/state" (sample_world 9 (counter_text 8)) = (1%Z, w1) /\
    zig_validated (sample_world 9 (counter_text 8)) = Done (1%Z, w2) /\
    last_counter "/state" w1 = last_counter "/state" w2.
Proof.
  destruct (validators_agree "/token" "/state" (sample_fields 9) (-1) 300 (Some "n1") mode_600 1700000100
    (sample_world 9 (counter_text 8))) as (r & w1 & w2 & H1 & H2 & _ & _ & Hl).
  - intros op p. reflexivity.
  - reflexivity.
  - reflexivity.
  - reflexivity.
  - reflexivity.
  - apply sample_fields_ok. unfold in_i64, i64_min, i64_max. lia.
  - right. exists (counter_text 8), mode_600. split; [reflexivity|]. split; [reflexivity|right].
    exists 8%Z. split; [reflexivity|unfold in_i64, i64_min, i64_max; lia].
  - reflexivity.
  - intros ts [= <-]. unfold in_i64, i64_min, i64_max. lia.
  - assert (c_validated (sample_world 9 (counter_text 8)) = 1%Z) as Hr by (vm_compute; reflexivity).
    unfold c_validated in Hr. rewrite H1 in Hr. simpl in Hr. subst r. exists w1, w2. split_and!; assumption.
Defined.


(** The second use of a counter is refused. *)
Example zig_replay_refused : answer (zig_validated (sample_world 8 (counter_text 8))) = Done 0%Z.
Proof. by vm_compute. Qed.

(** A replay state that others may write, or a link to it, counts as no state: an old
    token is accepted again, which the C validator refuses. *)
Definition stale (state : list (string * Node)) : World :=
  zig_world (("/token", private (token_text (sample_fields 3))) :: state).
Example zig_forgets_writable_state :
  let w := stale [("/state", NFile (counter_text 8) 1000 438)] in
  answer (zig_validated w) = Done 1%Z /\ c_validated w = 0%Z.
Proof. by vm_compute. Qed.
Example zig_forgets_linked_state :
  let w := stale [("/state", NLink "/real" 1000 511); ("/real", private (counter_text 8))] in
  answer (zig_validated w) = Done 1%Z /\ c_validated w = 0%Z.
Proof. by vm_compute. Qed.

(** The owner of the token is not checked. *)
Example zig_foreign_token :
  let w := zig_world [("/token", NFile (token_text (sample_fields 3)) 0 mode_600)] in
  answer (zig_validated w) = Done 1%Z /\ c_validated w = 0%Z.
Proof. by vm_compute. Qed.

(** Relative paths and an overflowing age stop the process. *)
Example zig_relative_path :
  zig_validate_attestation_token "token" (-1) 300 None "/state"
    (zig_world [("token", private (token_text (sample_fields 3)))]) = Panic.
Proof. by vm_compute. Qed.
Example zig_age_overflow :
  zig_validated (zig_world [("/token", private (token_text
    [FRing (-1); FAttested true; FTimestamp i64_min; FNonce "n1"; FCounter 1]))]) = Panic.
Proof. by vm_compute. Qed.

(** Numbers may have underscores, which end a number in C. *)
Example zig_underscores : parse_int "1_000" = Some 1000%Z /\ strtoll "1_000" = Some 1%Z.
Proof. by vm_compute. Qed.

(** The ring is not truncated. *)
Example zig_ring_not_truncated :
  answer (zig_validated (zig_world [("/token", private (lines_text ["ring:4294967295"; "attested:true";
    "timestamp:1700000000"; "nonce:n1"; "counter:1"]))])) = Done 0%Z.
Proof. by vm_compute. Qed.
