(* ===== verification/Validator.v ===== *)
(** * Validator: what the ring policy is promised of a token validator

    [main.rs] declares one foreign function, [skv_validate_attestation_token], and
    [build.rs] links one of two implementations of it.  The class [Validator] is
    that declaration, [ValidatorLaws] the contract the callers rely on; the C
    implementation of [Bridge] and the Zig one of [Zig] both meet it.  What follows
    for a host on which validations share a replay state, by whichever
    implementation, is proved from the contract alone. *)

From S2P Require Import Prelude Text Smt Gate Fs Bridge Zig.
From stdpp Require Import base gmap list strings pretty sorting.
From Stdlib Require Import Ascii ZArith Lia.
#[local] Open Scope string_scope.
#[local] Arguments String.append : simpl nomatch.

(** ** The declaration *)

(** [validate] is the function; [scan] is how the implementation reads a token. *)
Class Validator := {
  validate : string -> Z -> Z -> option string -> string -> World -> exec (Z * World);
  scan : string -> option Token
}.

(** ** The contract *)

(** What an accepted token says, at the time of the check *)
Record says (t : Token) (ring age : Z) (nonce : option string) (w : World) (c : Z) : Prop := {
  sy_ring : tk_ring t = Some ring;
  sy_attested : tk_attested t = Some true;
  sy_root : ring = (-2)%Z -> tk_root_attested t = Some true;
  sy_counter : tk_counter t = Some c;
  sy_nonce : forall n, nonce = Some n -> tk_nonce t = Some n;
  sy_age : (0 < age)%Z;
  sy_fresh : exists ts, tk_timestamp t = Some ts /\
    forall now, w_now w = Some now -> (ts <= now)%Z /\ (in_i64 (now - ts) -> (now - ts <= age)%Z)
}.

(** An acceptance: a regular token file others may not write, that says what is
    asked, and its counter, written to where the state path leads. *)
Definition accepted `{Validator} (token : string) (ring age : Z) (nonce : option string) (path : string)
    (w w' : World) : Prop :=
  exists text uid mode t c p u md,
    w_nodes w !! token = Some (NFile text uid mode) /\ group_world_writable mode = false /\
    scan text = Some t /\ says t ring age nonce w c /\
    follow MAX_LINKS w path = Some p /\ w' = put p (NFile (counter_text c) u md) w.

(** A replay state both implementations understand, on a system that does not fail *)
Record quiet (path : string) (w : World) : Prop := {
  qt_works : no_failures w;
  qt_absolute : is_absolute path = true;
  qt_state : state_ready path w
}.

(** A token that ought to be accepted, with its counter *)
Record presentable (token : string) (ring age : Z) (nonce : option string) (w : World) (c : Z) : Prop := {
  pr_absolute : is_absolute token = true;
  pr_fields : exists fs mode now,
    w_nodes w !! token = Some (NFile (token_text fs) (w_euid w) mode) /\ group_world_writable mode = false /\
    Forall field_ok fs /\ w_now w = Some now /\
    (forall ts, tk_timestamp (token_of fs) = Some ts -> in_i64 (now - ts)) /\
    acceptable (token_of fs) ring age nonce now c
}.

Class ValidatorLaws (V : Validator) : Prop := {
  (** it returns, or stops the process *)
  law_returns token ring age nonce path w : validate token ring age nonce path w <> Diverge;
  (** what acceptance means *)
  law_accepts token ring age nonce path w w' :
    validate token ring age nonce path w = Done (1%Z, w') -> accepted token ring age nonce path w w';
  (** only the file the state path leads to may change *)
  law_frame token ring age nonce path w r w' q :
    validate token ring age nonce path w = Done (r, w') -> follow MAX_LINKS w path <> Some q ->
    w_nodes w' !! q = w_nodes w !! q;
  law_fails token ring age nonce path w r w' :
    validate token ring age nonce path w = Done (r, w') -> w_fails w' = w_fails w;
  (** on a quiet state: 1 and a larger counter, or 0 and the same *)
  law_step token ring age nonce path w r w' :
    quiet path w -> validate token ring age nonce path w = Done (r, w') ->
    quiet path w' /\
    (r = 1%Z /\ (last_counter path w < last_counter path w')%Z \/
     r = 0%Z /\ last_counter path w' = last_counter path w);
  (** on a quiet state a presentable token with a new counter is accepted *)
  law_progress token ring age nonce path w c :
    quiet path w -> presentable token ring age nonce w c -> (last_counter path w < c)%Z ->
    exists w', validate token ring age nonce path w = Done (1%Z, w') /\ last_counter path w' = c
}.

(** ** The C implementation *)

#[local] Hint Resolve counter_text_length : core.

Definition c_validator : Validator := {|
  validate token ring age nonce path w := Done (skv_validate_attestation_token token ring age nonce path w);
  scan text := Some (scan_token text)
|}.

Lemma accepted_c token ring age nonce path w w' :
  skv_validate_attestation_token token ring age nonce path w = (1%Z, w') ->
  accepted (H := c_validator) token ring age nonce path w w'.
Proof.
  intros H. destruct (validate_accepts _ _ _ _ _ _ _ H)
    as (text & mode & c & p & u & Hn & Hm & [? ? ? ? ? ? (ts & now & Hts & Hnow & Hle & Hage)] & Hf & _ & ->).
  do 8 eexists. split_and!; try done. split; try done. exists ts. split; [done|].
  intros now' Hnow'. rewrite Hnow in Hnow'. injection Hnow' as <-. by split.
Qed.

(** The state after a counter was recorded *)
Lemma quiet_recorded path c md w :
  no_failures w -> is_absolute path = true -> in_i64 c -> group_world_writable md = false ->
  quiet path (put path (NFile (counter_text c) (w_euid w) md) w) /\
  last_counter path (put path (NFile (counter_text c) (w_euid w) md) w) = c.
Proof.
  intros Hw Ha Hc Hm. split; [|by apply recorded]. split; [done..|]. right.
  do 2 eexists. split; [apply put_lookup|]. split; [done|]. right. eauto.
Qed.

Lemma c_step token ring age nonce path w r w' :
  quiet path w -> skv_validate_attestation_token token ring age nonce path w = (r, w') ->
  quiet path w' /\
  (r = 1%Z /\ (last_counter path w < last_counter path w')%Z \/
   r = 0%Z /\ last_counter path w' = last_counter path w).
Proof.
  intros Hq. destruct Hq as [Hw Ha Hst] eqn:E. clear E. unfold skv_validate_attestation_token.
  case_decide; [intros [= <- <-]; auto|]. destruct (token_readable token w) as [text|]; [|intros [= <- <-]; auto].
  destruct (check_token _ _ _ _ _) as [counter|] eqn:Hc; [|intros [= <- <-]; auto].
  case_decide; [intros [= <- <-]; auto|].
  destruct (c_open path w Hw Hst) as (t0 & u & md & w1 & -> & Hw1 & Hp & Hs & Hl & _ & Hst1).
  apply check_token_spec, ok_counter, scan_token_counter in Hc.
  rewrite (c_advance _ _ _ _ _ _ Hw1 Hp Hs Hc), Hl.
  destruct (Z.leb_spec counter (last_counter path w)); intros [= <- <-]; [by split; [|right]|].
  unfold state_secure in Hs. rewrite Hp in Hs. apply andb_true_iff in Hs as [->%Z.eqb_eq _].
  destruct (quiet_recorded path counter mode_600 w1) as [? Hlast]; try done. rewrite Hlast. auto.
Qed.

#[export] Instance c_validator_laws : ValidatorLaws c_validator.
Proof.
  split; simpl.
  - done.
  - intros * [= Hv]. by apply accepted_c.
  - intros * [= Hv]. by eapply validate_frame.
  - intros * [= Hv]. by eapply validate_fails.
  - intros * Hq [= Hv]. by eapply c_step.
  - intros * [Hw Hp Hst] [Ht (fs & mode & now & Hf & Hm & Hfs & Hnow & Hfits & Hacc)] Hlt.
    pose proof (c_outcome token path fs ring age now mode nonce w Hw Ht Hp Hf Hm Hfs Hst Hnow Hfits) as Ho.
    destruct (skv_validate_attestation_token _ _ _ _ _ _) as [r w'].
    destruct (outcome_progress _ _ _ _ _ _ _ _ _ _ Ho Hacc Hlt) as [-> ?]. eauto.
Qed.

(** ** The Zig implementation *)

Definition zig_validator : Validator := {|
  validate := zig_validate_attestation_token;
  scan := zig_scan_token
|}.

Lemma accepted_zig token ring age nonce path w w' :
  zig_validate_attestation_token token ring age nonce path w = Done (1%Z, w') ->
  accepted (H := zig_validator) token ring age nonce path w w'.
Proof.
  intros H. destruct (zig_validate_accepts _ _ _ _ _ _ _ H)
    as (text & uid & mode & t & c & p & u & md & Hn & Hm & Hs & [? ? ? ? ? (ts & Hts & Hle) ?] & _ & _ & Hf & ->).
  do 8 eexists. split_and!; try done. split; try done. exists ts. split; [done|].
  unfold timestamp in Hle. intros now Hnow. rewrite Hnow in Hle. simpl in Hle. lia.
Qed.

(** What [parseToken] did, refused before the state was touched, or after. *)
Lemma zig_runs token ring age nonce path w :
  match zig_validate_attestation_token token ring age nonce path w with
  | Diverge => False
  | Panic => True
  | Done (r, w') =>
      r = 0%Z /\ w' = w \/
      exists text t c last p u md,
        zig_scan_token text = Some t /\ zig_check t ring age nonce w = Done (Some c) /\
        zig_last_counter path w = Done (Some last) /\ (last < c)%Z /\
        create_state path w = Done (Some p, put p (NFile "" u md) w) /\ follow MAX_LINKS w path = Some p /\
        (r = 1%Z /\ w' = put p (NFile (counter_text c) u md) w \/
         r = 0%Z /\ w_fails w "write" p = true /\ w' = put p (NFile "" u md) w)
  end.
Proof.
  unfold zig_validate_attestation_token, parseToken. case_decide; [by left|].
  destruct (isSecureRegularFile token w); [|by left]. cbn [negb].
  destruct (open_read token w) as [[text|]| |] eqn:Hr; cbn [mbind exec_bind option_bind]; [|by left|done|by apply open_read_returns in Hr].
  destruct (zig_scan_token text) as [t|] eqn:Hs; [|by left].
  destruct (zig_check t ring age nonce w) as [[c|]| |] eqn:Hc; cbn [mbind exec_bind]; [|by left|done|by apply zig_check_returns in Hc].
  case_decide; [by left|].
  destruct (zig_last_counter path w) as [[last|]| |] eqn:Hl; cbn [mbind exec_bind]; [|by left|done|by apply zig_last_returns in Hl].
  destruct (Z.leb_spec c last); [by left|].
  destruct (create_state path w) as [[[p|] w1]| |] eqn:Ho; cbn [mbind exec_bind];
    [|by left; rewrite (create_state_refused _ _ _ Ho)|done|by apply create_state_returns in Ho].
  destruct (create_state_spec _ _ _ _ Ho) as (Hf & u & md & ->).
  change (w_fails (put _ _ _)) with (w_fails w).
  rewrite (write_text_lookup _ _ _ _ _ _ (put_lookup _ _ _)), put_put.
  destruct (w_fails w "write" p) eqn:Hwr; cbn [mbind exec_bind]; right;
    exists text, t, c, last, p, u, md; split_and!; auto.
Qed.

Lemma zig_step token ring age nonce path w r w' :
  quiet path w -> zig_validate_attestation_token token ring age nonce path w = Done (r, w') ->
  quiet path w' /\
  (r = 1%Z /\ (last_counter path w < last_counter path w')%Z \/
   r = 0%Z /\ last_counter path w' = last_counter path w).
Proof.
  intros [Hw Ha Hst] Hv. pose proof (zig_runs token ring age nonce path w) as Hrun. rewrite Hv in Hrun.
  destruct Hrun as [[-> ->]|(text & t & c & last & p & u & md & Hs & Hc & Hl & Hlt & Ho & _ & Hend)]; [by split; [|right]|].
  destruct Hend as [[-> ->]|(_ & Hwr & _)]; [|by rewrite Hw in Hwr].
  rewrite zig_last_agrees in Hl by done. injection Hl as <-.
  destruct (create_state_ready _ _ _ _ Hst Ho) as (-> & md' & Hput & Hm).
  assert (NFile "" u md = NFile "" (w_euid w) md') as [= -> ->].
  { pose proof (put_lookup path (NFile "" u md) w) as E1. rewrite Hput, put_lookup in E1. congruence. }
  apply zig_check_spec, ac_counter, (zig_scan_token_range _ _ Hs) in Hc.
  destruct (quiet_recorded path c md' w) as [? Hlast]; try done. rewrite Hlast. auto.
Qed.

Lemma zig_frame token ring age nonce path w r w' :
  zig_validate_attestation_token token ring age nonce path w = Done (r, w') ->
  w_fails w' = w_fails w /\
  forall q, follow MAX_LINKS w path <> Some q -> w_nodes w' !! q = w_nodes w !! q.
Proof.
  intros Hv. pose proof (zig_runs token ring age nonce path w) as Hrun. rewrite Hv in Hrun.
  destruct Hrun as [[_ ->]|(text & t & c & last & p & u & md & _ & _ & _ & _ & _ & Hf & Hend)]; [done|].
  rewrite Hf. destruct Hend as [[_ ->]|(_ & _ & ->)]; (split; [done|]); intros q Hq; apply put_other; congruence.
Qed.

#[export] Instance zig_validator_laws : ValidatorLaws zig_validator.
Proof.
  split; simpl.
  - intros * Hv. pose proof (zig_runs token ring age nonce path w) as Hrun. by rewrite Hv in Hrun.
  - apply accepted_zig.
  - intros * Hv. by apply (zig_frame _ _ _ _ _ _ _ _ Hv).
  - intros * Hv. by apply (zig_frame _ _ _ _ _ _ _ _ Hv).
  - apply zig_step.
  - intros * [Hw Hp Hst] [Ht (fs & mode & now & Hf & Hm & Hfs & Hnow & Hfits & Hacc)] Hlt.
    destruct (zig_outcome token path fs ring age now mode nonce w Hw Ht Hp Hf Hm Hfs Hst Hnow Hfits)
      as (r & w' & Hv & Ho).
    destruct (outcome_progress _ _ _ _ _ _ _ _ _ _ Ho Hacc Hlt) as [-> ?]. eauto.
Qed.

(** ** A host over time *)

(** Validations that share a replay state, by any implementations in any order, from
    one world to another with the counters accepted.  Between them anything may
    change that leaves the state quiet and its counter what it was. *)
Inductive service (path : string) : World -> list Z -> World -> Prop :=
  | sv_done w : service path w [] w
  | sv_elsewhere w w1 cs w2 :
      quiet path w1 -> last_counter path w1 = last_counter path w -> service path w1 cs w2 ->
      service path w cs w2
  | sv_accept (V : Validator) (L : ValidatorLaws V) w token ring age nonce w1 cs w2 :
      validate token ring age nonce path w = Done (1%Z, w1) -> service path w1 cs w2 ->
      service path w (last_counter path w1 :: cs) w2
  | sv_reject (V : Validator) (L : ValidatorLaws V) w token ring age nonce r w1 cs w2 :
      validate token ring age nonce path w = Done (r, w1) -> r <> 1%Z -> service path w1 cs w2 ->
      service path w cs w2.

Lemma service_invariant path w cs w' :
  service path w cs w' -> quiet path w ->
  quiet path w' /\ StronglySorted Z.lt (last_counter path w :: cs) /\
  last_counter path w' = default (last_counter path w) (last cs).
Proof.
  induction 1 as [w|w w1 cs w2 Hq1 Hl _ IH|V L w token ring age nonce w1 cs w2 Hv _ IH
    |V L w token ring age nonce r w1 cs w2 Hv Hr _ IH]; intros Hq.
  - split; [done|]. split; [|done]. repeat constructor.
  - rewrite <- Hl. by apply IH.
  - destruct (law_step _ _ _ _ _ _ _ _ Hq Hv) as [Hq1 [[_ Hlt]|[? _]]]; [|done].
    destruct (IH Hq1) as (? & Hs & ->). split; [done|]. split; [|rewrite last_cons; by destruct (last cs)].
    constructor; [done|]. constructor; [done|]. apply StronglySorted_inv in Hs as [_ Hall].
    eapply Forall_impl; [exact Hall|]. simpl. lia.
  - destruct (law_step _ _ _ _ _ _ _ _ Hq Hv) as [Hq1 [[? _]|[_ Hl]]]; [done|]. rewrite <- Hl. by apply IH.
Qed.

Lemma service_app path w cs w1 cs' w2 :
  service path w cs w1 -> service path w1 cs' w2 -> service path w (cs ++ cs')%list w2.
Proof. induction 1; intros Hs; simpl; [done|eapply sv_elsewhere|eapply sv_accept|eapply sv_reject]; eauto. Qed.

(** C24. The replay protection never locks anyone out, and never lets a token in
    twice.  Whatever validations a quiet replay state has been through, accepted or
    refused, by either implementation in any order, the accepted counters strictly
    increase from the recorded one and the state is quiet again; and from there
    every implementation accepts at once every presentable token whose counter is
    larger than the last one accepted, and is ready for the next. *)
Theorem validators_live path w cs w' :
  quiet path w -> service path w cs w' ->
  StronglySorted Z.lt (last_counter path w :: cs) /\
  forall (V : Validator), ValidatorLaws V -> forall token ring age nonce c,
    presentable token ring age nonce w' c -> (default (last_counter path w) (last cs) < c)%Z ->
    exists w'', validate token ring age nonce path w' = Done (1%Z, w'') /\
      last_counter path w'' = c /\ quiet path w'' /\ service path w (cs ++ [c])%list w''.
Proof.
  intros Hq Hs. destruct (service_invariant _ _ _ _ Hs Hq) as (Hq' & Hsort & Hl). split; [done|].
  intros V L token ring age nonce c Hp Hlt. rewrite <- Hl in Hlt.
  destruct (law_progress _ _ _ _ _ _ _ Hq' Hp Hlt) as (w'' & Hv & Hc). exists w''.
  destruct (law_step _ _ _ _ _ _ _ _ Hq' Hv) as [Hq'' _]. split_and!; try done.
  eapply service_app; [done|]. rewrite <- Hc. by eapply sv_accept; [..|constructor].
Qed.

(** ** Examples *)

(** A state with counter 8: the C validator takes token 9, the Zig one refuses it
    afterwards, and takes 10 with no more ado. *)
Definition two_tokens : World :=
  zig_world [("/nine", private (token_text (sample_fields 9))); ("/ten", private (token_text (sample_fields 10)));
             ("/state", private (counter_text 8))].
Definition by_c (token : string) (w : World) : exec (Z * World) :=
  validate (Validator := c_validator) token (-1) 300 (Some "n1") "/state" w.
Definition by_zig (token : string) (w : World) : exec (Z * World) :=
  validate (Validator := zig_validator) token (-1) 300 (Some "n1") "/state" w.
Definition world_after (x : exec (Z * World)) (w : World) : World :=
  match x with Done (_, w') => w' | _ => w end.

Lemma answer_after x r w : answer x = Done r -> x = Done (r, world_after x w).
Proof. by destruct x as [[r' w']| |]; intros [= <-]. Qed.

Lemma sample_quiet : quiet "/state" two_tokens.
Proof.
  split; [done..|]. right. exists (counter_text 8), mode_600. split; [done|]. split; [done|]. right. exists 8%Z.
  split; [done|]. unfold in_i64, i64_min, i64_max. lia.
Qed.

Lemma validators_live_witness :
  let w1 := world_after (by_c "/nine" two_tokens) two_tokens in
  let w2 := world_after (by_zig "/nine" w1) w1 in
  service "/state" two_tokens [9%Z] w2 /\
  exists w3, by_zig "/ten" w2 = Done (1%Z, w3) /\ last_counter "/state" w3 = 10%Z.
Proof.
  set (w1 := world_after (by_c "/nine" two_tokens) two_tokens).
  set (w2 := world_after (by_zig "/nine" w1) w1). simpl.
  assert (service "/state" two_tokens [9%Z] w2) as Hs.
  { assert (last_counter "/state" w1 = 9%Z) as <- by (vm_compute; reflexivity).
    eapply (sv_accept _ c_validator _ _ "/nine" (-1) 300 (Some "n1")).
    - apply (answer_after (by_c "/nine" two_tokens)). vm_compute. reflexivity.
    - eapply (sv_reject _ zig_validator _ _ "/nine" (-1) 300 (Some "n1") 0%Z); [|discriminate|constructor].
      apply (answer_after (by_zig "/nine" w1)). vm_compute. reflexivity. }
  split; [exact Hs|].
  destruct (proj2 (validators_live "/state" two_tokens [9%Z] w2 sample_quiet Hs) zig_validator zig_validator_laws
    "/ten" (-1)%Z 300%Z (Some "n1") 10%Z) as (w3 & Hv & Hl & _).
  - split; [reflexivity|]. exists (sample_fields 10), mode_600, 1700000100%Z.
    split; [vm_compute; reflexivity|]. split; [reflexivity|].
    split; [apply sample_fields_ok; unfold in_i64, i64_min, i64_max; lia|]. split; [vm_compute; reflexivity|].
    split; [intros ts [= <-]; unfold in_i64, i64_min, i64_max; lia|].
    split; try reflexivity; [discriminate|by intros n [= <-]|]. exists 1700000000%Z. split; [reflexivity|lia].
  - simpl. lia.
  - exists w3. split; assumption.
Defined.

(** The last counter: once 2^63 - 1 is recorded nothing more is accepted. *)
Lemma exhausted (V : Validator) (L : ValidatorLaws V) token ring age nonce path w r w' :
  quiet path w -> last_counter path w = i64_max ->
  validate token ring age nonce path w = Done (r, w') -> r = 0%Z.
Proof.
  intros Hq Hmax Hv. destruct (law_step _ _ _ _ _ _ _ _ Hq Hv) as [Hq' [[_ Hlt]|[-> _]]]; [|done].
  rewrite Hmax in Hlt. destruct (last_counter_range path w') as [_ Hle]. lia.
Qed.
