(* ===== verification/Build.v ===== *)
(** * Build: which validator the build script links

    [build.rs] of the analyzer: the backend asked for by [SKV_ATTESTATION_IMPL], the
    test for a Zig compiler and the fall back to C.  The environment, the programs
    it starts and the [cc] crate are outside the repository: the class [BuildHost]
    names what the script asks of them.  The outcome is the implementation of
    [skv_validate_attestation_token] the analyzer runs with, and the lines printed
    for cargo. *)

From S2P Require Import Prelude Text Smt Gate Fs Bridge Zig Validator.
From stdpp Require Import base gmap list strings.
From Stdlib Require Import Ascii ZArith.
#[local] Open Scope string_scope.

(** ** The outside *)

(** A variable that is unset or not Unicode is [None]; so is the status of a program
    that cannot be started. *)
Class BuildHost := {
  env_var : string -> option string;
  command_status : list string -> option bool;
  cc_compile : string -> string -> string -> bool
}.

Inductive Backend := BackendC | BackendZig.
#[export] Instance Backend_eq_dec : EqDecision Backend.
Proof. solve_decision. Defined.

Definition eq_ignore_ascii_case (a b : string) : bool :=
  bool_decide (to_ascii_lowercase a = to_ascii_lowercase b).

(** [PathBuf::join] with a relative name *)
Definition path_join (dir name : string) : string :=
  if bool_decide (dir = "") || ends_with "/" dir then dir +:+ name else dir +:+ "/" +:+ name.

(** ** The script *)

Section script.
Context `{BuildHost}.

Definition has_zig : bool := bool_decide (command_status ["zig"; "version"] = Some true).

Definition compile_c : exec unit :=
  if cc_compile "src/c/attestation_bridge.c" "src/c" "attestation_bridge" then Done tt else Panic.

Definition zig_command (lib_path : string) : list string :=
  ["zig"; "build-lib"; "-static"; "-O"; "ReleaseSafe"; "-femit-bin"; lib_path; "src/zig/attestation_bridge.zig"].
Definition link_lines (out_dir : string) : list string :=
  ["cargo:rustc-link-search=native=" +:+ out_dir; "cargo:rustc-link-lib=static=attestation_bridge"].

Definition compile_zig : exec (list string) :=
  let! out_dir := expect (env_var "OUT_DIR") in
  let lib_path := path_join out_dir "libattestation_bridge.a" in
  let! success := expect (command_status (zig_command lib_path)) in
  if success : bool then Done (link_lines out_dir) else Panic.

Definition rerun_lines : list string :=
  ["cargo:rerun-if-env-changed=SKV_ATTESTATION_IMPL";
   "cargo:rerun-if-changed=src/c/attestation_bridge.c";
   "cargo:rerun-if-changed=src/c/attestation_bridge.h";
   "cargo:rerun-if-changed=src/zig/attestation_bridge.zig"].
Definition fallback_warning : string :=
  "cargo:warning=SKV_ATTESTATION_IMPL=zig requested, but `zig` not found; falling back to C backend".

Definition zig_requested : bool :=
  eq_ignore_ascii_case (default "c" (env_var "SKV_ATTESTATION_IMPL")) "zig".

Definition build_main : exec (Backend * list string) :=
  if zig_requested then
    if has_zig then
      let! linked := compile_zig in
      Done (BackendZig, rerun_lines ++ linked)%list
    else
      let! _ := compile_c in
      Done (BackendC, rerun_lines ++ [fallback_warning])%list
  else
    let! _ := compile_c in
    Done (BackendC, rerun_lines).
End script.

(** ** The implementation that is linked *)

Definition validator_of (b : Backend) : Validator :=
  match b with BackendC => c_validator | BackendZig => zig_validator end.

(** Whatever the script chose meets the contract of the ring policy. *)
#[export] Instance validator_of_laws b : ValidatorLaws (validator_of b).
Proof. destruct b; apply _. Qed.

Lemma not_rerun : fallback_warning ∉ rerun_lines.
Proof. by apply (bool_decide_unpack _). Qed.
Lemma not_linked dir : fallback_warning ∉ link_lines dir.
Proof. unfold link_lines, fallback_warning. by intros [?|[?|?%elem_of_nil]%elem_of_cons]%elem_of_cons. Qed.

(** The choice: Zig exactly when it was asked for and there is a compiler; a request
    that falls back to C is reported; the script stops only where the chosen
    compiler fails. *)
Theorem build_selects `{BuildHost} :
  match build_main with
  | Diverge => False
  | Panic =>
      if zig_requested && has_zig
      then forall out_dir, env_var "OUT_DIR" = Some out_dir ->
             command_status (zig_command (path_join out_dir "libattestation_bridge.a")) <> Some true
      else compile_c = Panic
  | Done (b, out) =>
      (b = BackendZig <-> zig_requested = true /\ has_zig = true) /\
      (fallback_warning ∈ out <-> zig_requested = true /\ b = BackendC) /\
      (b = BackendC -> compile_c = Done tt)
  end.
Proof.
  unfold build_main, compile_c. destruct zig_requested; [destruct has_zig|]; cbn [andb].
  - unfold compile_zig. destruct (env_var "OUT_DIR") as [dir|]; cbn [expect mbind exec_bind]; [|done].
    destruct (command_status _) as [[]|] eqn:Hc; cbn [expect mbind exec_bind]; [|naive_solver..].
    split; [done|]. split; [|done]. rewrite elem_of_app. split; [|naive_solver].
    by intros [?%not_rerun|?%not_linked].
  - destruct (cc_compile _ _ _); cbn [mbind exec_bind]; [|done].
    split; [naive_solver|]. split; [|done]. split; [done|]. intros _. apply elem_of_app. right. by constructor.
  - destruct (cc_compile _ _ _); cbn [mbind exec_bind]; [|done].
    split; [naive_solver|]. split; [|done]. split; [by intros ?%not_rerun|naive_solver].
Qed.

(** ** Examples *)

(** A machine with a C compiler, and with or without Zig *)
Definition machine (impl : option string) (zig : option bool) : BuildHost := {|
  env_var v := if bool_decide (v = "OUT_DIR") then Some "/target/out" else impl;
  command_status _ := zig;
  cc_compile _ _ _ := true
|}.
Definition built (impl : option string) (zig : option bool) : exec (Backend * list string) :=
  @build_main (machine impl zig).

Example builds :
  built None (Some true) = Done (BackendC, rerun_lines) /\
  built (Some "ZIG") (Some true) = Done (BackendZig, rerun_lines ++ link_lines "/target/out")%list /\
  built (Some "zig") None = Done (BackendC, rerun_lines ++ [fallback_warning])%list /\
  built (Some "zig") (Some false) = Done (BackendC, rerun_lines ++ [fallback_warning])%list /\
  built (Some "rust") (Some true) = Done (BackendC, rerun_lines).
Proof. by vm_compute. Qed.
