(* ===== verification/Attest.v ===== *)
(** * Attest: ring policy and signatures of [main.rs]

    [RingMode], [normalize_fingerprint], [verify_attestation_signature] and
    [apply_ring_policy].  Base64, Ed25519, SHA-256 and hex encoding come from
    crates outside the repository: the class [Crypto] names the functions called,
    nothing is assumed of them.  The token validator is the one linked at build
    time, a [Validator]; it may stop the process.  Paths are valid UTF-8, so their lossy text is
    themselves. *)

From S2P Require Import Prelude Text Smt Gate Fs Bridge Zig Validator.
From stdpp Require Import base gmap list strings pretty.
From Stdlib Require Import Ascii ZArith Lia.
#[local] Open Scope string_scope.

(** ** Rings *)

Inductive RingMode := Ring0 | RingM1 | RingM2.
#[export] Instance RingMode_eq_dec : EqDecision RingMode.
Proof. solve_decision. Defined.

Definition RingMode_label (r : RingMode) : string :=
  match r with Ring0 => "Ring 0" | RingM1 => "Ring -1" | RingM2 => "Ring -2" end.
Definition token_ring (r : RingMode) : option Z :=
  match r with Ring0 => None | RingM1 => Some (-1)%Z | RingM2 => Some (-2)%Z end.

(** ** Signatures *)

Class Crypto := {
  base64_decode : string -> option string;
  ed25519_key_valid : string -> bool;
  ed25519_verify : string -> string -> string -> bool;
  sha256_digest : string -> string;
  hex_encode : string -> string
}.

Definition normalize_fingerprint (value : string) : result string :=
  let fp := to_ascii_lowercase (str_trim value) in
  if negb (String.length fp =? 64)%nat || negb (str_all is_hexdigit fp)
  then Err "fingerprint must be exactly 64 hex characters"
  else Ok fp.

Record SignatureMeta := mk_SignatureMeta { meta_key_fingerprint : string; meta_token_sha256 : string }.

Definition ok_or {A} (e : string) (o : option A) : result A :=
  match o with Some a => Ok a | None => Err e end.
Definition ensure (b : bool) (e : string) : result unit := if b then Ok tt else Err e.

Section attest.
Context `{CR : Crypto} `{VA : Validator}.

Definition verify_attestation_signature (token_path pubkey_path signature_path
    expected_key_fingerprint : string) (w : World) : result SignatureMeta :=
  _ ← ensure_secure_owned_file pubkey_path "attestation pubkey" w;
  _ ← ensure_secure_owned_file signature_path "attestation signature" w;
  token ← with_context ("Failed reading attestation token: " +:+ token_path) (fs_read token_path w);
  pubkey_b64 ← with_context ("Failed reading attestation pubkey: " +:+ pubkey_path)
                 (fs_read_to_string pubkey_path w);
  sig_b64 ← with_context ("Failed reading attestation signature: " +:+ signature_path)
              (fs_read_to_string signature_path w);
  pubkey_raw ← ok_or "Failed decoding base64 attestation pubkey" (base64_decode (str_trim pubkey_b64));
  sig_raw ← ok_or "Failed decoding base64 attestation signature" (base64_decode (str_trim sig_b64));
  _ ← ensure (String.length pubkey_raw =? 32)%nat "attestation pubkey must decode to 32 bytes";
  _ ← ensure (String.length sig_raw =? 64)%nat "attestation signature must decode to 64 bytes";
  _ ← ensure (ed25519_key_valid pubkey_raw) "invalid ed25519 pubkey";
  _ ← ensure (ed25519_verify pubkey_raw token sig_raw) "ed25519 signature verification failed";
  let key_fp := hex_encode (sha256_digest pubkey_raw) in
  expected_norm ← normalize_fingerprint expected_key_fingerprint;
  _ ← ensure (bool_decide (key_fp = expected_norm)) "attestation key fingerprint mismatch";
  Ok (mk_SignatureMeta key_fp (hex_encode (sha256_digest token))).

(** ** The ring policy *)

(** The attestation arguments of the command line *)
Record Attestation := mk_Attestation {
  attestation_token : option string;
  attestation_max_age_sec : Z;
  attestation_nonce : option string;
  attestation_replay_state : option string;
  attestation_pubkey : option string;
  attestation_signature : option string;
  attestation_key_fingerprint : option string;
  ring2_root_pubkey : option string;
  ring2_root_signature : option string;
  ring2_root_key_fingerprint : option string
}.

(** The outcome of the checks: the metadata known so far, and a failure if one
    was met. *)
Definition Checks : Type := (option string * option string) * option string.

(** The signature of ring -2's independent root *)
Definition check_root (at_ : Attestation) (token_path : string) (w : World) : option string :=
  let? root_pub := ring2_root_pubkey at_
    else Some "Ring -2 requires --ring2-root-pubkey for independent root attestation" in
  let? root_sig := ring2_root_signature at_
    else Some "Ring -2 requires --ring2-root-signature for independent root attestation" in
  let? root_fp := ring2_root_key_fingerprint at_
    else Some "Ring -2 requires --ring2-root-key-fingerprint for root key pinning" in
  match verify_attestation_signature token_path root_pub root_sig root_fp w with
  | Ok _ => None
  | Err e => Some ("Ring -2 root signature invalid: " +:+ e)
  end.

(** The age limit, the nonce, the replay path and the call of the validator *)
Definition check_freshness (ring : RingMode) (required_ring : Z) (at_ : Attestation)
    (token_path : string) (w : World) : exec (option string * World) :=
  let failed msg := Done (Some msg, w) in
  let max_age := attestation_max_age_sec at_ in
  if (max_age =? 0)%Z then failed "attestation max age must be > 0"
  else if (i64_max <? max_age)%Z then failed "attestation max age is too large"
  else
    let? nonce := attestation_nonce at_
      else failed (RingMode_label ring +:+ " requires --attestation-nonce for anti-replay binding") in
    if has_nul nonce then failed "attestation nonce contains NUL byte" else
    let? replay_path := attestation_replay_state at_
      else failed (RingMode_label ring
                   +:+ " requires --attestation-replay-state for replay protection") in
    if has_nul replay_path then failed "attestation replay state path contains NUL byte" else
    let! (ok, w) := validate token_path required_ring max_age (Some nonce) replay_path w in
    Done (if (ok =? 1)%Z then None
          else Some (RingMode_label ring +:+ " attestation token validation failed"), w).

Definition check_attestation (ring : RingMode) (required_ring : Z) (at_ : Attestation) (w : World)
    : exec (Checks * World) :=
  let label := RingMode_label ring in
  let failed msg := Done (((None, None), Some msg), w) in
  let? token_path := attestation_token at_
    else failed (label +:+ " requires C-validated attestation token (--attestation-token <path>)") in
  if has_nul token_path then failed "Attestation token path contains NUL byte" else
  let? pubkey_path := attestation_pubkey at_
    else failed (label +:+ " requires --attestation-pubkey for signature verification") in
  let? sig_path := attestation_signature at_
    else failed (label +:+ " requires --attestation-signature for signature verification") in
  let? expected_fp := attestation_key_fingerprint at_
    else failed (label +:+ " requires --attestation-key-fingerprint for key pinning") in
  match verify_attestation_signature token_path pubkey_path sig_path expected_fp w with
  | Err e => failed (label +:+ " attestation signature invalid: " +:+ e)
  | Ok meta =>
      let known := (Some (meta_key_fingerprint meta), Some (meta_token_sha256 meta)) in
      match (if decide (ring = RingM2) then check_root at_ token_path w else None) with
      | Some msg => Done ((known, Some msg), w)
      | None => let! (r, w) := check_freshness ring required_ring at_ token_path w in Done ((known, r), w)
      end
  end.

(** Strict rings do not accept an unresolved proof. *)
Definition strict_result (ring : RingMode) (r : AnalysisResult) : AnalysisResult :=
  match ring, r with
  | Ring0, r => r
  | RingM1, AUnknown reason | RingM2, AUnknown reason =>
      AFail (RingMode_label ring +:+ " strict policy rejected unresolved proof: " +:+ reason)
  | _, r => r
  end.

Definition apply_ring_policy (r : AnalysisResult) (ring : RingMode) (at_ : Attestation) (w : World)
    : exec ((AnalysisResult * option string * option string) * World) :=
  match token_ring ring with
  | None => Done ((strict_result ring r, None, None), w)
  | Some required_ring =>
      let! ((fp, sha), failure, w) := check_attestation ring required_ring at_ w in
      match failure with
      | Some msg => Done ((AFail msg, fp, sha), w)
      | None => Done ((strict_result ring r, fp, sha), w)
      end
  end.

(** ** What a verified signature means *)

Record signed (token_path pubkey_path signature_path fp : string) (w : World)
    (meta : SignatureMeta) : Prop := {
  sg_pubkey_secure : secure_file w pubkey_path;
  sg_signature_secure : secure_file w signature_path;
  sg_verified : exists token pk_text sig_text pk sig,
    fs_read token_path w = Ok token /\
    fs_read_to_string pubkey_path w = Ok pk_text /\ base64_decode (str_trim pk_text) = Some pk /\
    fs_read_to_string signature_path w = Ok sig_text /\ base64_decode (str_trim sig_text) = Some sig /\
    String.length pk = 32 /\ String.length sig = 64 /\
    ed25519_key_valid pk = true /\ ed25519_verify pk token sig = true /\
    normalize_fingerprint fp = Ok (hex_encode (sha256_digest pk)) /\
    meta = mk_SignatureMeta (hex_encode (sha256_digest pk)) (hex_encode (sha256_digest token))
}.

Lemma ensure_ok b e u : ensure b e = Ok u <-> b = true.
Proof. destruct b, u; naive_solver. Qed.
Lemma ok_or_ok {A} e (o : option A) a : ok_or e o = Ok a <-> o = Some a.
Proof. destruct o; naive_solver. Qed.

Lemma verify_signed token pk sg fp w meta :
  verify_attestation_signature token pk sg fp w = Ok meta -> signed token pk sg fp w meta.
Proof.
  unfold verify_attestation_signature. intros Hv. inv_ok.
  repeat match goal with
  | H : ensure _ _ = Ok _ |- _ => apply ensure_ok in H
  | H : ok_or _ _ = Ok _ |- _ => apply ok_or_ok in H
  | H : ensure_secure_owned_file _ _ _ = Ok ?u |- _ => destruct u; apply ensure_secure_ok in H as [_ H]
  | H : (_ =? _)%nat = true |- _ => apply Nat.eqb_eq in H
  | H : bool_decide _ = true |- _ => apply bool_decide_eq_true in H
  end.
  simplify_eq. split; [done..|]. do 5 eexists. by split_and!.
Qed.

Lemma signed_verify token pk sg fp w meta :
  w_fails w "lstat" pk = false -> w_fails w "lstat" sg = false ->
  signed token pk sg fp w meta -> verify_attestation_signature token pk sg fp w = Ok meta.
Proof.
  intros Hpk Hsg [H1 H2 (tok & pt & st & k & s & Ht & Hp & Hbp & Hs & Hbs & Hlk & Hls & Hkv & Hv & Hn & ->)].
  unfold verify_attestation_signature.
  rewrite (proj2 (ensure_secure_ok pk _ w) (conj Hpk H1)), (proj2 (ensure_secure_ok sg _ w) (conj Hsg H2)).
  simpl. rewrite Ht, Hp, Hs. simpl. rewrite Hbp, Hbs. simpl. rewrite Hlk, Hls. simpl.
  rewrite Hkv, Hv. simpl. rewrite Hn. simpl. by rewrite bool_decide_eq_true_2.
Qed.

(** ** What a strict ring demands *)

Record attested (ring : RingMode) (at_ : Attestation) (w w' : World) (meta : SignatureMeta)
    (token nonce replay : string) : Prop := {
  at_token : attestation_token at_ = Some token;
  at_token_nul : has_nul token = false;
  at_signed : exists pk sg fp, attestation_pubkey at_ = Some pk /\ attestation_signature at_ = Some sg /\
    attestation_key_fingerprint at_ = Some fp /\ signed token pk sg fp w meta;
  at_root_signed : ring = RingM2 -> exists pk sg fp m, ring2_root_pubkey at_ = Some pk /\
    ring2_root_signature at_ = Some sg /\ ring2_root_key_fingerprint at_ = Some fp /\
    signed token pk sg fp w m;
  at_age : (0 < attestation_max_age_sec at_ <= i64_max)%Z;
  at_nonce : attestation_nonce at_ = Some nonce;
  at_nonce_nul : has_nul nonce = false;
  at_replay : attestation_replay_state at_ = Some replay;
  at_replay_nul : has_nul replay = false;
  at_validated : exists n, token_ring ring = Some n /\
    validate token n (attestation_max_age_sec at_) (Some nonce) replay w = Done (1%Z, w')
}.

Lemma check_root_ok at_ token w :
  check_root at_ token w = None ->
  exists pk sg fp m, ring2_root_pubkey at_ = Some pk /\ ring2_root_signature at_ = Some sg /\
    ring2_root_key_fingerprint at_ = Some fp /\ signed token pk sg fp w m.
Proof.
  unfold check_root. intros H. repeat case_match; try done.
  do 4 eexists. split_and!; [done..|]. by apply verify_signed.
Qed.

(** The validator's call: what every way through [check_freshness] amounts to *)
Inductive freshness (n : Z) (at_ : Attestation) (token : string) (w : World)
    : exec (option string * World) -> Prop :=
  | fr_refused msg : freshness n at_ token w (Done (Some msg, w))
  | fr_called nonce replay msg :
      (attestation_max_age_sec at_ <> 0)%Z -> (attestation_max_age_sec at_ <= i64_max)%Z ->
      attestation_nonce at_ = Some nonce -> has_nul nonce = false ->
      attestation_replay_state at_ = Some replay -> has_nul replay = false ->
      freshness n at_ token w
        (let! (ok, w) := validate token n (attestation_max_age_sec at_) (Some nonce) replay w in
         Done (if (ok =? 1)%Z then None else Some msg, w)).

Lemma check_freshness_cases ring n at_ token w : freshness n at_ token w (check_freshness ring n at_ token w).
Proof.
  unfold check_freshness. destruct (Z.eqb_spec (attestation_max_age_sec at_) 0); [constructor|].
  destruct (Z.ltb_spec i64_max (attestation_max_age_sec at_)); [constructor|].
  destruct (attestation_nonce at_) as [nonce|] eqn:En; [|constructor]. case_match; [constructor|].
  destruct (attestation_replay_state at_) as [replay|] eqn:Er; [|constructor]. case_match; [constructor|].
  by constructor.
Qed.

Lemma check_freshness_ok ring n at_ token w w' :
  (0 <= attestation_max_age_sec at_)%Z -> check_freshness ring n at_ token w = Done (None, w') ->
  (0 < attestation_max_age_sec at_ <= i64_max)%Z /\
  exists nonce replay, attestation_nonce at_ = Some nonce /\ has_nul nonce = false /\
    attestation_replay_state at_ = Some replay /\ has_nul replay = false /\
    validate token n (attestation_max_age_sec at_) (Some nonce) replay w = Done (1%Z, w').
Proof.
  intros H0. destruct (check_freshness_cases ring n at_ token w) as [|nonce replay msg]; [done|].
  intros ([ok w1] & Hv & Hok)%exec_bind_done. destruct (Z.eqb_spec ok 1) as [->|]; [|done].
  injection Hok as <-. split; [lia|]. eauto 10.
Qed.

(** What a step of the policy may do: change the replay state only, or stop where the
    validator does *)
Definition validator_stops (n : Z) (at_ : Attestation) (w : World) : Prop :=
  exists token nonce replay, attestation_token at_ = Some token /\ attestation_nonce at_ = Some nonce /\
    attestation_replay_state at_ = Some replay /\
    validate token n (attestation_max_age_sec at_) (Some nonce) replay w = Panic.
Definition keeps {A} (n : Z) (at_ : Attestation) (w : World) (x : exec (A * World)) : Prop :=
  match x with
  | Diverge => False
  | Panic => validator_stops n at_ w
  | Done (_, w') =>
      w_fails w' = w_fails w /\
      forall q, (forall replay, attestation_replay_state at_ = Some replay -> follow MAX_LINKS w replay <> Some q) ->
        w_nodes w' !! q = w_nodes w !! q
  end.

Lemma keeps_here {A} n at_ w (a : A) : keeps n at_ w (Done (a, w)).
Proof. done. Qed.
Lemma outcome_keeps_bind {A B} n at_ w (x : exec (A * World)) (k : A -> B) :
  keeps n at_ w x -> keeps n at_ w (let! (a, w) := x in Done (k a, w)).
Proof. by destruct x as [[]| |]. Qed.
#[local] Hint Resolve keeps_here : core.

Context {VL : ValidatorLaws VA}.

Lemma check_freshness_keeps ring n at_ token w :
  attestation_token at_ = Some token -> keeps n at_ w (check_freshness ring n at_ token w).
Proof using VL.
  intros Ht. destruct (check_freshness_cases ring n at_ token w) as [|nonce replay msg _ _ Hn _ Hr _]; [done|].
  apply (outcome_keeps_bind _ _ _ _ (fun ok => if (ok =? 1)%Z then None else Some msg)).
  destruct (validate token n _ _ replay w) as [[ok w1]| |] eqn:Hv; simpl.
  - split; [by eapply law_fails|]. intros q Hq. eapply law_frame; [done|]. by apply Hq.
  - by exists token, nonce, replay.
  - by apply law_returns in Hv.
Qed.

Lemma check_attestation_ok ring n at_ w fp sha w' :
  (0 <= attestation_max_age_sec at_)%Z -> token_ring ring = Some n ->
  check_attestation ring n at_ w = Done (((fp, sha), None), w') ->
  exists meta token nonce replay, attested ring at_ w w' meta token nonce replay /\
    fp = Some (meta_key_fingerprint meta) /\ sha = Some (meta_token_sha256 meta).
Proof using.
  unfold check_attestation. intros H0 Hn. destruct (attestation_token at_) as [token|] eqn:Et; [|done].
  destruct (has_nul token) eqn:En; [done|]. destruct (attestation_pubkey at_) as [pk|] eqn:Ep; [|done].
  destruct (attestation_signature at_) as [sg|] eqn:Es; [|done].
  destruct (attestation_key_fingerprint at_) as [kf|] eqn:Ek; [|done].
  destruct (verify_attestation_signature token pk sg kf w) as [meta|] eqn:Hv; [|done].
  destruct (if decide (ring = RingM2) then _ else _) as [msg|] eqn:Hr; [done|].
  intros ([r w1] & Hf & [= <- <- -> <-])%exec_bind_done.
  destruct (check_freshness_ok _ _ _ _ _ _ H0 Hf) as (Hage & nonce & replay & ? & ? & ? & ? & ?).
  exists meta, token, nonce, replay. split; [|done]. split; try done.
  - do 3 eexists. split_and!; [done..|]. by apply verify_signed.
  - intros ->. rewrite decide_True in Hr by done. by apply check_root_ok.
  - eauto.
Qed.

Lemma check_attestation_keeps ring n at_ w : keeps n at_ w (check_attestation ring n at_ w).
Proof using VL.
  unfold check_attestation. destruct (attestation_token at_) as [token|] eqn:Et; [|done].
  do 4 (case_match; try done). case_match; [|done]. case_match; [done|].
  apply (outcome_keeps_bind _ _ _ _ (fun r => (_, r))). by apply check_freshness_keeps.
Qed.

Lemma strict_severity ring r : severity r <= severity (strict_result ring r).
Proof. destruct ring, r; simpl; lia. Qed.
Lemma strict_pass ring r : strict_result ring r = APass <-> r = APass.
Proof. destruct ring, r; simpl; naive_solver. Qed.
End attest.

(** A Pass of a strict ring is an attested Pass of the analysis. *)
Lemma ring_policy_pass `{Crypto, Validator} r ring at_ w fp sha w' :
  (0 <= attestation_max_age_sec at_)%Z -> apply_ring_policy r ring at_ w = Done ((APass, fp, sha), w') ->
  r = APass /\ (ring <> Ring0 -> exists meta token nonce replay,
    attested ring at_ w w' meta token nonce replay /\
    fp = Some (meta_key_fingerprint meta) /\ sha = Some (meta_token_sha256 meta)).
Proof.
  intros Hage. unfold apply_ring_policy. destruct (token_ring ring) as [n|] eqn:Hn.
  - intros ([[[fp' sha'] [msg|]] w1] & Hc & Hd)%exec_bind_done; [done|].
    injection Hd as Hp <- <- <-. apply strict_pass in Hp. split; [done|]. intros _.
    by apply (check_attestation_ok _ _ _ _ _ _ _ Hage Hn Hc).
  - intros [= Hp _ _ _]. apply strict_pass in Hp. split; [done|]. by destruct ring.
Qed.

Lemma ring_policy_keeps `{Crypto, ValidatorLaws} r ring at_ w :
  match token_ring ring with
  | Some n => keeps n at_ w (apply_ring_policy r ring at_ w)
  | None => apply_ring_policy r ring at_ w = Done ((r, None, None), w)
  end.
Proof.
  unfold apply_ring_policy. destruct (token_ring ring) as [n|] eqn:Hn; [|by destruct ring].
  pose proof (check_attestation_keeps ring n at_ w) as Hk.
  destruct (check_attestation ring n at_ w) as [[[[fp sha] [msg|]] w1]| |]; exact Hk.
Qed.

Lemma ring_policy_fails `{Crypto, ValidatorLaws} r ring at_ w res w' :
  apply_ring_policy r ring at_ w = Done (res, w') -> w_fails w' = w_fails w.
Proof.
  intros Ha. pose proof (ring_policy_keeps r ring at_ w) as Hk. rewrite Ha in Hk.
  destruct (token_ring ring); [by destruct Hk|by injection Hk as -> <-].
Qed.

(** The verdict of the policy, when it returns *)
Lemma ring_policy_verdict `{Crypto, Validator} r ring at_ w r' fp sha w' :
  apply_ring_policy r ring at_ w = Done ((r', fp, sha), w') ->
  severity r <= severity r' /\ (ring <> Ring0 -> forall reason, r' <> AUnknown reason).
Proof.
  unfold apply_ring_policy. destruct (token_ring ring) as [n|] eqn:Hn.
  - intros ([[[fp' sha'] [msg|]] w1] & _ & [= <- _ _ _])%exec_bind_done.
    + split; [destruct r; simpl; lia|done].
    + split; [apply strict_severity|]. by destruct ring, r.
  - intros [= <- _ _ _]. split; [apply strict_severity|]. by destruct ring.
Qed.

(** ** Theorems *)

(** C13. Signature verification accepts exactly a token whose detached signature
    verifies: key and signature come from secure files, decode to 32 and 64
    bytes, the key is a valid Ed25519 key that verifies the signature over the
    token's bytes, and the key's SHA-256 is the pinned fingerprint; the metadata
    it returns are that fingerprint and the token's digest. *)
Theorem signature_verification_correct `{Crypto} token pk sg fp w meta :
  w_fails w "lstat" pk = false -> w_fails w "lstat" sg = false ->
  verify_attestation_signature token pk sg fp w = Ok meta <-> signed token pk sg fp w meta.
Proof. intros Hpk Hsg. split; [apply verify_signed|by apply signed_verify]. Qed.

(** C8. The ring policy never makes a verdict milder.  Ring 0 changes nothing.
    On rings -1 and -2 there is no Unknown any more, and a Pass means that the
    analysis passed and the attestation holds: the pinned key signed the token
    (on ring -2 the root key did too), the age limit is a positive [i64], nonce
    and replay state are given and the validator, whichever was linked, accepted
    the token, which says what is asked of it; the verdict's metadata are those of
    the verified signature.  No file but the replay state is touched, whatever the
    outcome, and only the validator can stop the process. *)
Theorem ring_policy_correct `{Crypto, ValidatorLaws} r ring at_ w :
  (0 <= attestation_max_age_sec at_)%Z ->
  match apply_ring_policy r ring at_ w with
  | Diverge => False
  | Panic => exists n, token_ring ring = Some n /\ validator_stops n at_ w
  | Done ((r', fp, sha), w') =>
      severity r <= severity r' /\
      (ring = Ring0 -> (r', fp, sha, w') = (r, None, None, w)) /\
      (ring <> Ring0 ->
         (forall reason, r' <> AUnknown reason) /\
         (r' = APass -> r = APass /\ exists meta token nonce replay n,
            attested ring at_ w w' meta token nonce replay /\ token_ring ring = Some n /\
            accepted token n (attestation_max_age_sec at_) (Some nonce) replay w w' /\
            fp = Some (meta_key_fingerprint meta) /\ sha = Some (meta_token_sha256 meta))) /\
      (forall q, (forall replay, attestation_replay_state at_ = Some replay -> follow MAX_LINKS w replay <> Some q) ->
         w_nodes w' !! q = w_nodes w !! q)
  end.
Proof.
  intros Hage. pose proof (ring_policy_keeps r ring at_ w) as Hk.
  destruct (apply_ring_policy r ring at_ w) as [[[[r' fp] sha] w']| |] eqn:Ha;
    [|by destruct (token_ring ring); [eauto|]|by destruct (token_ring ring)].
  destruct (ring_policy_verdict _ _ _ _ _ _ _ _ Ha) as [Hsev Hnu]. split; [done|]. split; [|split].
  - intros ->. by injection Hk as -> -> -> ->.
  - intros Hr. split; [by apply Hnu|]. intros ->.
    destruct (ring_policy_pass _ _ _ _ _ _ _ Hage Ha) as [Hq Ht]. split; [done|].
    destruct (Ht Hr) as (meta & token & nonce & replay & Hat & Hmeta).
    destruct (at_validated _ _ _ _ _ _ _ _ Hat) as (n & Hn & Hv).
    exists meta, token, nonce, replay, n. split_and!; try done; [by apply law_accepts|by destruct Hmeta..].
  - destruct (token_ring ring); [by destruct Hk|by injection Hk as -> -> -> ->].
Qed.

(** ** Fingerprints *)

Lemma hexdigit_not_ws1 a : is_hexdigit a = true -> ws1 a = false.
Proof. destruct a as [[] [] [] [] [] [] [] []]; vm_compute; done. Qed.
Lemma hexdigit_lower a : is_hexdigit (to_lower a) = is_hexdigit a.
Proof. destruct a as [[] [] [] [] [] [] [] []]; vm_compute; done. Qed.
Lemma to_lower_idemp a : to_lower (to_lower a) = to_lower a.
Proof. destruct a as [[] [] [] [] [] [] [] []]; vm_compute; done. Qed.
Lemma str_lower_idemp s : to_ascii_lowercase (to_ascii_lowercase s) = to_ascii_lowercase s.
Proof. induction s as [|a s IH]; [done|]. unfold to_ascii_lowercase in *. simpl. by rewrite to_lower_idemp, IH. Qed.
Lemma str_lower_length s : String.length (to_ascii_lowercase s) = String.length s.
Proof. induction s as [|a s IH]; [done|]. simpl. f_equal. exact IH. Qed.

Lemma str_all_rev p s : str_all p (String.rev s) = str_all p s.
Proof.
  unfold String.rev. assert (forall t, str_all p (String.rev_app s t) = str_all p s && str_all p t) as H.
  { induction s as [|a s IH]; intros t; [done|]. simpl. rewrite IH. simpl. by rewrite andb_assoc, (andb_comm (str_all p s)). }
  rewrite H. simpl. apply andb_true_r.
Qed.

(** No hex digit is part of an encoded space. *)
Lemma hexdigit_no_ws a b c :
  is_hexdigit a = true -> is_hexdigit b = true -> is_hexdigit c = true ->
  ws1 a = false /\ ws2 a b = false /\ ws2 b a = false /\ ws3 a b c = false /\ ws3 c b a = false.
Proof.
  unfold is_hexdigit, ws1, ws2, ws3. generalize (byte_of a) (byte_of b) (byte_of c). intros x y z.
  rewrite !orb_true_iff, !andb_true_iff, !N.leb_le. intros Hx Hy Hz.
  rewrite !orb_false_iff, !andb_false_iff, !orb_false_iff, !andb_false_iff,
    !N.leb_gt, !N.eqb_neq. lia.
Qed.

Lemma hex_trim_start s : str_all is_hexdigit s = true -> str_trim_start s = s.
Proof.
  destruct s as [|a [|b [|c s]]]; simpl; [done|intros Hs; repeat (apply andb_true_iff in Hs as [? Hs])..].
  - destruct (hexdigit_no_ws a a a) as (-> & _); done.
  - destruct (hexdigit_no_ws a b a) as (-> & -> & _); done.
  - destruct (hexdigit_no_ws a b c) as (-> & -> & _ & -> & _); done.
Qed.
Lemma hex_trim_rev s : str_all is_hexdigit s = true -> str_trim_rev s = s.
Proof.
  destruct s as [|a [|b [|c s]]]; simpl; [done|intros Hs; repeat (apply andb_true_iff in Hs as [? Hs])..].
  - destruct (hexdigit_no_ws a a a) as (-> & _); done.
  - destruct (hexdigit_no_ws a b a) as (-> & _ & -> & _); done.
  - destruct (hexdigit_no_ws a b c) as (-> & _ & -> & _ & ->); done.
Qed.
Lemma hex_trim s : str_all is_hexdigit s = true -> str_trim s = s.
Proof.
  intros Hs. unfold str_trim, str_trim_end. rewrite hex_trim_start by done.
  rewrite hex_trim_rev by (by rewrite str_all_rev). apply str_rev_involutive.
Qed.

Lemma normalize_ok v f :
  normalize_fingerprint v = Ok f <->
  f = to_ascii_lowercase (str_trim v) /\ String.length f = 64 /\ str_all is_hexdigit f = true.
Proof.
  unfold normalize_fingerprint. generalize (to_ascii_lowercase (str_trim v)). intros g.
  destruct (Nat.eqb_spec (String.length g) 64), (str_all is_hexdigit g) eqn:E; simpl;
    (split; [try done; by intros [= <-]|intros (-> & ? & ?); congruence]).
Qed.

(** A normalised fingerprint is canonical: 64 lower-case hex digits, which
    normalise to themselves; so comparing it with the hex digest of a key
    compares the keys' digests up to case and surrounding space. *)
Theorem fingerprint_canonical v f :
  normalize_fingerprint v = Ok f ->
  String.length f = 64 /\ str_all is_hexdigit f = true /\ to_ascii_lowercase f = f /\
  normalize_fingerprint f = Ok f /\
  (forall v', normalize_fingerprint v' = Ok f
     <-> to_ascii_lowercase (str_trim v') = to_ascii_lowercase (str_trim v)).
Proof.
  intros Hn. apply normalize_ok in Hn as (Hf & Hl & Hh).
  assert (to_ascii_lowercase f = f) as Hlow by (by rewrite Hf, str_lower_idemp).
  split_and!; [done..| |].
  - apply normalize_ok. by rewrite (hex_trim f Hh), Hlow.
  - intros v'. rewrite normalize_ok, <- Hf. split; [by intros [-> _]|by intros ->].
Qed.

(** ** A toy instance: texts are their own encodings, and the signature of a
    token is the key twice *)

Definition hex_char (n : N) : ascii := default "0"%char (String.get (N.to_nat n) "0123456789abcdef").
Fixpoint toy_hex (s : string) : string :=
  match s with
  | "" => ""
  | String a s' => String (hex_char (byte_of a / 16)) (String (hex_char (byte_of a mod 16)) (toy_hex s'))
  end.
Definition toy_crypto : Crypto := {|
  base64_decode s := Some s;
  ed25519_key_valid _ := true;
  ed25519_verify pk _ sig := String.eqb sig (pk +:+ pk);
  sha256_digest s := String.substring 0 32 (s +:+ "................................");
  hex_encode := toy_hex
|}.

Definition toy_key : string := "abcdefghijklmnopabcdefghijklmnop".
Definition toy_world (counter : string) : World :=
  world_of [("token", sample_token counter); ("key", toy_key +:+ chr nl);
            ("sig", toy_key +:+ toy_key +:+ chr nl)] 1700000100.
Definition toy_attestation : Attestation :=
  mk_Attestation (Some "token") 300 (Some "n1") (Some "state") (Some "key") (Some "sig")
    (Some (" " +:+ toy_hex toy_key)) None None None.

Lemma signature_verification_correct_witness :
  w_fails (toy_world "7") "lstat" "key" = false /\ w_fails (toy_world "7") "lstat" "sig" = false /\
  exists meta, signed (CR := toy_crypto) "token" "key" "sig" (toy_hex toy_key) (toy_world "7") meta.
Proof.
  split; [reflexivity|]. split; [reflexivity|].
  exists (mk_SignatureMeta (toy_hex toy_key) (toy_hex (String.substring 0 32 (sample_token "7")))).
  apply (proj1 (@signature_verification_correct toy_crypto "token" "key" "sig" (toy_hex toy_key)
    (toy_world "7") _ eq_refl eq_refl)).
  vm_compute. reflexivity.
Defined.

(** Ring -1 accepts the sample token, and refuses it the second time. *)
Definition toy_policy (w : World) : exec ((AnalysisResult * option string * option string) * World) :=
  apply_ring_policy (CR := toy_crypto) (VA := c_validator) APass RingM1 toy_attestation w.

Example ring_policy_accepts :
  match toy_policy (toy_world "7") with
  | Done ((r, fp, _), w) =>
      r = APass /\ fp = Some (toy_hex toy_key) /\
      match toy_policy w with
      | Done ((r, _, _), _) => r = AFail "Ring -1 attestation token validation failed"
      | _ => False
      end
  | _ => False
  end.
Proof. by vm_compute. Qed.

Lemma ring_policy_correct_witness :
  (0 <= attestation_max_age_sec toy_attestation)%Z /\
  exists w' meta token nonce replay,
    attested (CR := toy_crypto) (VA := c_validator) RingM1 toy_attestation (toy_world "7") w' meta token nonce replay.
Proof.
  split; [simpl; lia|].
  pose proof (@ring_policy_correct toy_crypto c_validator c_validator_laws APass RingM1 toy_attestation (toy_world "7")
    ltac:(simpl; lia)) as H.
  assert (match toy_policy (toy_world "7") with Done ((r, _, _), _) => r = APass | _ => False end) as Hp
    by (vm_compute; reflexivity).
  unfold toy_policy in Hp. destruct (apply_ring_policy _ _ _ _) as [[[[r' fp] sha] w']| |]; [|contradiction..].
  destruct H as (_ & _ & H & _). destruct (H ltac:(discriminate)) as [_ H'].
  destruct (H' Hp) as (_ & meta & token & nonce & replay & n & Hat & _).
  exists w', meta, token, nonce, replay. exact Hat.
Defined.

Lemma fingerprint_canonical_witness :
  normalize_fingerprint (" " +:+ toy_hex toy_key) = Ok (toy_hex toy_key) /\
  normalize_fingerprint (toy_hex toy_key) = Ok (toy_hex toy_key).
Proof.
  assert (normalize_fingerprint (" " +:+ toy_hex toy_key) = Ok (toy_hex toy_key)) as H
    by (vm_compute; reflexivity).
  split; [exact H|]. exact (proj1 (proj2 (proj2 (proj2 (fingerprint_canonical _ _ H))))).
Defined.
