(* ===== verification/Json.v ===== *)
(** * Json: a reference reader for the machine-readable outputs

    The program prints JSON by hand.  This file is the other side: a value type,
    a renderer, and a reader for compact JSON that decodes the three escapes the
    program can produce and refuses raw control characters in strings, as RFC 8259
    demands.  [json_round_trip] says the reader recovers every rendered value; the
    components show that what they print are renderings. *)

From S2P Require Import Prelude Text Gate.
From stdpp Require Import base gmap sets list strings pretty.
From Stdlib Require Import Ascii ZArith Lia.
#[local] Open Scope string_scope.
#[local] Arguments String.append : simpl nomatch.

Inductive json :=
  | JNull
  | JBool (b : bool)
  | JNum (n : Z)
  | JStr (s : string)
  | JArr (l : list json)
  | JObj (l : list (string * json)).

(** ** Rendering *)

Definition is_control (a : ascii) : bool := (byte_of a <? 32)%N.

Definition esc_char (a : ascii) : string :=
  if Ascii.eqb a backslash then chr backslash +:+ chr backslash
  else if Ascii.eqb a dquote then chr backslash +:+ chr dquote
  else if Ascii.eqb a nl then chr backslash +:+ "n"
  else chr a.
Fixpoint esc (s : string) : string :=
  match s with "" => "" | String a s' => esc_char a +:+ esc s' end.

Fixpoint render (j : json) : string :=
  match j with
  | JNull => "null"
  | JBool b => if b then "true" else "false"
  | JNum n => pretty n
  | JStr s => json_string (esc s)
  | JArr l => "[" +:+ comma_join (map render l) +:+ "]"
  | JObj l => "{" +:+ comma_join (map (fun p => json_field (esc p.1) (render p.2)) l) +:+ "}"
  end.

(** ** Reading *)

(** The rest of a string after its opening quote *)
Fixpoint read_string (s : string) : option (string * string) :=
  match s with
  | "" => None
  | String a s' =>
      if Ascii.eqb a dquote then Some ("", s')
      else if Ascii.eqb a backslash then
        match s' with
        | String b s'' =>
            let? c := (if Ascii.eqb b dquote then Some dquote
                       else if Ascii.eqb b backslash then Some backslash
                       else if Ascii.eqb b "n" then Some nl else None) else None in
            let? (t, r) := read_string s'' else None in Some (String c t, r)
        | "" => None
        end
      else if is_control a then None
      else let? (t, r) := read_string s' else None in Some (String a t, r)
  end.

(** The longest run of digits, and what follows *)
Fixpoint span_digits (s : string) : string * string :=
  match s with
  | String a s' => if is_digit a then let '(d, r) := span_digits s' in (String a d, r) else ("", s)
  | "" => ("", "")
  end.
Definition read_nat (s : string) : option (Z * string) :=
  let '(d, r) := span_digits s in
  if decide (d = "") then None else let? n := digits_value 0 d else None in Some (n, r).
Definition read_number (s : string) : option (Z * string) :=
  match s with
  | String a s' => if Ascii.eqb a "-" then let? (n, r) := read_nat s' else None in Some ((- n)%Z, r)
                   else read_nat s
  | "" => None
  end.

Definition eat (c : ascii) (s : string) : option string :=
  match s with String a s' => if Ascii.eqb a c then Some s' else None | "" => None end.

Fixpoint read (fuel : nat) (s : string) : option (json * string) :=
  match fuel with
  | O => None
  | S f =>
      match Text.strip_prefix "null" s, Text.strip_prefix "true" s, Text.strip_prefix "false" s with
      | Some r, _, _ => Some (JNull, r)
      | _, Some r, _ => Some (JBool true, r)
      | _, _, Some r => Some (JBool false, r)
      | None, None, None =>
          match eat dquote s, eat "[" s, eat "{" s with
          | Some r, _, _ => let? (t, r) := read_string r else None in Some (JStr t, r)
          | _, Some r, _ =>
              match eat "]" r with
              | Some r => Some (JArr [], r)
              | None => let? (l, r) := read_items f r else None in Some (JArr l, r)
              end
          | _, _, Some r =>
              match eat "}" r with
              | Some r => Some (JObj [], r)
              | None => let? (l, r) := read_members f r else None in Some (JObj l, r)
              end
          | None, None, None => let? (n, r) := read_number s else None in Some (JNum n, r)
          end
      end
  end
with read_items (fuel : nat) (s : string) : option (list json * string) :=
  match fuel with
  | O => None
  | S f =>
      let? (v, r) := read f s else None in
      match eat "," r, eat "]" r with
      | Some r, _ => let? (l, r) := read_items f r else None in Some (v :: l, r)
      | _, Some r => Some ([v], r)
      | None, None => None
      end
  end
with read_members (fuel : nat) (s : string) : option (list (string * json) * string) :=
  match fuel with
  | O => None
  | S f =>
      let? r := eat dquote s else None in
      let? (k, r) := read_string r else None in
      let? r := eat ":" r else None in
      let? (v, r) := read f r else None in
      match eat "," r, eat "}" r with
      | Some r, _ => let? (l, r) := read_members f r else None in Some ((k, v) :: l, r)
      | _, Some r => Some ([(k, v)], r)
      | None, None => None
      end
  end.

(** A text is a value and trailing space.  Every call consumes a character, so
    the length bounds the depth. *)
Definition json_parse (s : string) : option json :=
  let? (j, r) := read (S (String.length s)) s else None in
  if str_all ws1 r then Some j else None.

(** ** The round trip *)

(** No control character but the line feed *)
Definition clean (s : string) : bool := str_all (fun a => negb (is_control a) || Ascii.eqb a nl) s.

Fixpoint json_clean (j : json) : bool :=
  match j with
  | JStr s => clean s
  | JArr l => forallb json_clean l
  | JObj l => forallb (fun p => clean p.1 && json_clean p.2) l
  | _ => true
  end.

Fixpoint json_size (j : json) : nat :=
  match j with
  | JArr l => S (sum_list_with (fun j => S (json_size j)) l)
  | JObj l => S (sum_list_with (fun p => S (json_size p.2)) l)
  | _ => 1
  end.

Lemma read_string_esc s rest :
  clean s = true -> read_string (esc s +:+ String dquote rest) = Some (s, rest).
Proof.
  induction s as [|a s IH]; [done|]. simpl. intros [Ha Hs]%andb_true_iff. specialize (IH Hs).
  unfold esc_char. destruct (Ascii.eqb_spec a backslash) as [->|Hb]; [simpl; by rewrite IH|].
  destruct (Ascii.eqb_spec a dquote) as [->|Hd]; [simpl; by rewrite IH|].
  destruct (Ascii.eqb_spec a nl) as [->|Hn]; [simpl; by rewrite IH|].
  simpl. rewrite (proj2 (Ascii.eqb_neq _ _) Hd), (proj2 (Ascii.eqb_neq _ _) Hb), IH.
  rewrite orb_false_r in Ha. by destruct (is_control a).
Qed.

Definition number_head (a : ascii) : bool := is_digit a || Ascii.eqb a "-".
Definition ends (rest : string) : Prop :=
  match rest with String a _ => is_digit a = false | "" => True end.

Lemma number_head_neq a c : number_head a = true -> number_head c = false -> Ascii.eqb a c = false /\ Ascii.eqb c a = false.
Proof. intros Ha Hc. split; apply Ascii.eqb_neq; congruence. Qed.

Lemma span_digits_app d rest :
  str_all is_digit d = true -> ends rest -> span_digits (d +:+ rest) = (d, rest).
Proof.
  intros Hd Hr. induction d as [|a d IH]; simpl in *.
  - destruct rest as [|b rest]; [done|]. simpl in *. by rewrite Hr.
  - apply andb_true_iff in Hd as [-> Hd]. by rewrite IH.
Qed.

Lemma read_nat_pretty (n : N) rest : ends rest -> read_nat (pretty n +:+ rest) = Some (Z.of_N n, rest).
Proof.
  intros Hr. unfold read_nat. rewrite span_digits_app by (try apply pretty_N_digits; done).
  rewrite decide_False by apply pretty_N_nonempty. by rewrite digits_value_pretty.
Qed.

Lemma pretty_N_head (n : N) : exists a t, pretty n = String a t /\ is_digit a = true.
Proof.
  pose proof (pretty_N_digits n) as Hd. pose proof (pretty_N_nonempty n) as Hn.
  destruct (pretty n) as [|a t]; [done|]. apply andb_true_iff in Hd as [? _]. eauto.
Qed.

Lemma read_number_pretty (z : Z) rest : ends rest -> read_number (pretty z +:+ rest) = Some (z, rest).
Proof.
  intros Hr. assert (forall n : N, read_number (pretty n +:+ rest) = Some (Z.of_N n, rest)) as HN.
  { intros n. rewrite <- (read_nat_pretty n rest Hr). destruct (pretty_N_head n) as (a & t & -> & Ha).
    simpl. destruct (Ascii.eqb_spec a "-") as [->|]; done. }
  destruct z as [|p|p]; [exact (HN 0%N)|exact (HN (N.pos p))|].
  change (pretty (Z.neg p)) with (String "-" (pretty (N.pos p))). simpl.
  by rewrite (read_nat_pretty (N.pos p) rest Hr).
Qed.

Lemma pretty_Z_head (z : Z) : exists a t, pretty z = String a t /\ number_head a = true.
Proof.
  destruct z as [|p|p].
  - by exists "0"%char, "".
  - destruct (pretty_N_head (N.pos p)) as (a & t & E & Ha). exists a, t.
    split; [exact E|]. unfold number_head. by rewrite Ha.
  - by exists "-"%char, (pretty (N.pos p)).
Qed.

(** What a rendering may begin with: never a closing bracket *)
Lemma render_head j : exists a t, render j = String a t /\ Ascii.eqb a "]" = false /\ Ascii.eqb a "}" = false.
Proof.
  destruct j as [|[]|n|s|l|l]; try by do 2 eexists.
  destruct (pretty_Z_head n) as (a & t & E & Ha). exists a, t. split; [exact E|].
  split; by apply (fun c H => proj1 (number_head_neq a c Ha H)).
Qed.

Lemma comma_join_cons x l : l <> [] -> comma_join (x :: l) = x +:+ "," +:+ comma_join l.
Proof. by destruct l. Qed.

Section round_trip.
Variable n : nat.
Hypothesis IH : forall j fuel rest, json_size j <= n -> json_size j <= fuel -> json_clean j = true ->
  ends rest -> read fuel (render j +:+ rest) = Some (j, rest).

Lemma read_items_render l fuel rest :
  l <> [] -> sum_list_with (fun j => S (json_size j)) l <= n ->
  sum_list_with (fun j => S (json_size j)) l <= fuel -> forallb json_clean l = true ->
  read_items fuel (comma_join (map render l) +:+ String "]" rest) = Some (l, rest).
Proof using IH.
  revert fuel. induction l as [|j l IHl]; [done|]. intros [|fuel] _ Hn Hf Hc; simpl in Hn, Hf; [lia|].
  apply andb_true_iff in Hc as [Hj Hl]. destruct l as [|j' l].
  - simpl. by rewrite (IH j) by (simpl; done || lia).
  - change (map render (j :: j' :: l)) with (render j :: map render (j' :: l)).
    rewrite comma_join_cons, !str_app_assoc by done. cbn [read_items].
    rewrite (IH j) by (simpl; done || lia). cbn [eat String.append].
    change (Ascii.eqb "," ",") with true. cbv iota.
    by rewrite IHl by (done || (simpl in *; lia)).
Qed.

Lemma read_members_render l fuel rest :
  l <> [] -> sum_list_with (fun p => S (json_size p.2)) l <= n ->
  sum_list_with (fun p => S (json_size p.2)) l <= fuel ->
  forallb (fun p => clean p.1 && json_clean p.2) l = true ->
  read_members fuel (comma_join (map (fun p => json_field (esc p.1) (render p.2)) l) +:+ String "}" rest)
  = Some (l, rest).
Proof using IH.
  revert fuel. induction l as [|[k j] l IHl]; [done|].
  intros [|fuel] _ Hn Hf Hc; simpl in Hn, Hf; [lia|].
  apply andb_true_iff in Hc as [[Hk Hj]%andb_true_iff Hl]. simpl in Hk, Hj.
  assert (forall tail, read_members (S fuel) (json_field (esc k) (render j) +:+ tail)
    = let? (v, r) := read fuel (render j +:+ tail) else None in
      match eat "," r, eat "}" r with
      | Some r, _ => let? (l, r) := read_members fuel r else None in Some ((k, v) :: l, r)
      | _, Some r => Some ([(k, v)], r)
      | None, None => None
      end) as Hstep.
  { intros tail. unfold json_field, json_string. rewrite !str_app_assoc. simpl.
    by rewrite read_string_esc. }
  destruct l as [|kj l].
  - simpl map. simpl comma_join. rewrite Hstep, (IH j) by (simpl; done || lia). done.
  - change (map (fun p => json_field (esc p.1) (render p.2)) ((k, j) :: kj :: l))
      with (json_field (esc k) (render j) :: map (fun p => json_field (esc p.1) (render p.2)) (kj :: l)).
    rewrite comma_join_cons, !str_app_assoc by done.
    rewrite Hstep, (IH j) by (simpl; done || lia). cbn [eat String.append].
    change (Ascii.eqb "," ",") with true. cbv iota.
    by rewrite IHl by (done || (simpl in *; lia)).
Qed.
End round_trip.

Lemma eat_head a s c : Ascii.eqb a c = false -> eat c (String a s) = None.
Proof. intros H. simpl. by rewrite H. Qed.

Lemma read_render n j fuel rest :
  json_size j <= n -> json_size j <= fuel -> json_clean j = true -> ends rest ->
  read fuel (render j +:+ rest) = Some (j, rest).
Proof.
  revert j fuel rest. induction n as [|n IH]; intros j fuel rest Hn Hf Hc Hr; [destruct j; simpl in Hn; lia|].
  destruct fuel as [|fuel]; [destruct j; simpl in Hf; lia|].
  destruct j as [|[]|z|s|l|l]; [done..| | | |].
  - simpl render. pose proof (read_number_pretty z rest Hr) as Hz.
    destruct (pretty_Z_head z) as (a & t & E & Ha). rewrite E in *.
    assert (forall c, number_head c = false -> Ascii.eqb a c = false /\ Ascii.eqb c a = false) as Hne
      by (intros c; by apply number_head_neq).
    cbn [read String.append Text.strip_prefix eat].
    rewrite (proj2 (Hne "n"%char eq_refl)), (proj2 (Hne "t"%char eq_refl)), (proj2 (Hne "f"%char eq_refl)).
    rewrite (proj1 (Hne dquote eq_refl)), (proj1 (Hne "["%char eq_refl)), (proj1 (Hne "{"%char eq_refl)).
    change (String a (t +:+ rest)) with (String a t +:+ rest). by rewrite Hz.
  - simpl render. unfold json_string. rewrite !str_app_assoc. simpl. by rewrite read_string_esc.
  - destruct l as [|j l]; [done|]. set (l' := j :: l) in *.
    change (render (JArr l')) with ("[" +:+ comma_join (map render l') +:+ "]"). subst l'.
    rewrite !str_app_assoc. simpl in Hn, Hf, Hc. cbn [read].
    assert (eat "]" (comma_join (map render (j :: l)) +:+ "]" +:+ rest) = None) as He.
    { destruct (render_head j) as (a & t & E & Ha & _). simpl map.
      destruct l; [simpl comma_join|rewrite comma_join_cons by done]; rewrite E; by apply eat_head. }
    cbn [String.append Text.strip_prefix eat]. cbv [Ascii.eqb Bool.eqb]. cbv iota.
    cbn [String.append] in He. rewrite He.
    by rewrite (read_items_render n) by (done || (simpl in *; lia)).
  - destruct l as [|[k j] l]; [done|]. set (l' := (k, j) :: l) in *.
    change (render (JObj l')) with
      ("{" +:+ comma_join (map (fun p => json_field (esc p.1) (render p.2)) l') +:+ "}"). subst l'.
    rewrite !str_app_assoc. simpl in Hn, Hf, Hc. cbn [read].
    assert (eat "}" (comma_join (map (fun p => json_field (esc p.1) (render p.2)) ((k, j) :: l)) +:+ "}" +:+ rest)
      = None) as He.
    { simpl map. unfold json_field at 1, json_string at 1.
      destruct l; [simpl comma_join|rewrite comma_join_cons by done]; rewrite !str_app_assoc; by apply eat_head. }
    cbn [String.append Text.strip_prefix eat]. cbv [Ascii.eqb Bool.eqb]. cbv iota.
    cbn [String.append] in He. rewrite He.
    by rewrite (read_members_render n) by (done || (simpl in *; lia)).
Qed.

(** The rendering is at least as long as the value is deep. *)
Lemma comma_join_length {A} (f : A -> string) (g : A -> nat) l :
  (forall x, x ∈ l -> g x <= String.length (f x)) ->
  sum_list_with (fun x => S (g x)) l <= S (String.length (comma_join (map f l))).
Proof.
  induction l as [|x l IH]; intros Hl; [simpl; lia|].
  assert (g x <= String.length (f x)) by (apply Hl; set_solver).
  assert (sum_list_with (fun x => S (g x)) l <= S (String.length (comma_join (map f l))))
    by (apply IH; intros; apply Hl; set_solver).
  destruct l as [|y l]; [simpl in *; lia|].
  change (map f (x :: y :: l)) with (f x :: map f (y :: l)).
  rewrite comma_join_cons, !str_length_app by done. change (String.length ",") with 1.
  cbn [sum_list_with] in *. lia.
Qed.

Lemma json_size_length j : json_size j <= String.length (render j).
Proof.
  enough (forall n j, json_size j <= n -> json_size j <= String.length (render j)) by eauto.
  clear j. induction n as [|n IH]; intros j Hn; [destruct j; simpl in Hn; lia|].
  assert (forall {A} (k : A -> nat) x l, x ∈ l -> k x <= sum_list_with k l) as Hin.
  { intros A k x l. induction 1; simpl; lia. }
  destruct j as [|[]|z|s|l|l]; simpl in *; [lia..| | | |].
  - destruct (pretty_Z_head z) as (a & t & -> & _). simpl. lia.
  - unfold json_string. rewrite !str_length_app. simpl. lia.
  - rewrite str_length_app. simpl String.length.
    assert (sum_list_with (fun j => S (json_size j)) l <= S (String.length (comma_join (map render l)))); [|lia].
    apply comma_join_length. intros j Hj. apply IH.
    pose proof (Hin _ (fun j => S (json_size j)) j l Hj). simpl in *. lia.
  - rewrite str_length_app. simpl String.length.
    assert (sum_list_with (fun p => S (json_size p.2)) l
      <= S (String.length (comma_join (map (fun p => json_field (esc p.1) (render p.2)) l)))); [|lia].
    apply (comma_join_length _ (fun p => json_size p.2)). intros p Hp. unfold json_field.
    rewrite !str_length_app. pose proof (Hin _ (fun p => S (json_size p.2)) p l Hp). simpl in *.
    pose proof (IH p.2 ltac:(lia)). lia.
Qed.

(** The reader recovers every value whose strings hold no control character but
    line feeds, with or without a final line feed. *)
Lemma json_round_trip j rest :
  json_clean j = true -> str_all ws1 rest = true -> json_parse (render j +:+ rest) = Some j.
Proof.
  intros Hc Hr. unfold json_parse. pose proof (json_size_length j).
  rewrite (read_render (json_size j)), Hr; [done|lia|rewrite str_length_app; lia|done|].
  destruct rest as [|a rest]; [done|]. simpl in *. apply andb_true_iff in Hr as [Hr _].
  destruct (is_digit a) eqn:Ha; [|done]. revert Hr Ha. unfold ws1, is_digit. generalize (byte_of a). intros b.
  rewrite orb_true_iff, !andb_true_iff, !N.leb_le, N.eqb_eq. lia.
Qed.

(** ** The program's escaping *)

Lemma str_replace_app c b s t : str_replace c b (s +:+ t) = str_replace c b s +:+ str_replace c b t.
Proof. induction s as [|a s IH]; [done|]. simpl. by rewrite IH, str_app_assoc. Qed.

(** Three replacements in sequence are one escaping pass. *)
Lemma replace_esc s :
  str_replace nl (chr backslash +:+ "n") (json_escape s) = esc s.
Proof.
  unfold json_escape. induction s as [|a s IH]; [done|]. cbn [str_replace esc].
  rewrite !str_replace_app, IH. f_equal. unfold esc_char. destruct (Ascii.eqb_spec a backslash) as [->|Hb]; [done|].
  simpl. destruct (Ascii.eqb_spec a dquote) as [->|Hd]; [done|].
  simpl. by destruct (Ascii.eqb_spec a nl) as [->|Hn].
Qed.

Lemma str_replace_absent c b s : str_mem c s = false -> str_replace c b s = s.
Proof. induction s as [|a s IH]; simpl; [done|]. intros [-> Hs]%orb_false_iff. by rewrite IH. Qed.

(** Without line feeds the two replacements do. *)
Lemma escape_esc s : str_mem nl s = false -> json_escape s = esc s.
Proof.
  unfold json_escape. induction s as [|a s IH]; [done|]. intros [Ha Hs]%orb_false_iff.
  cbn [str_replace esc]. rewrite str_replace_app, (IH Hs). f_equal. unfold esc_char.
  destruct (Ascii.eqb_spec a backslash) as [->|Hb]; [done|].
  simpl. destruct (Ascii.eqb_spec a dquote) as [->|Hd]; [done|]. simpl. by rewrite Ha.
Qed.

(** Text that needs no escaping *)
Definition plain (s : string) : bool :=
  str_all (fun a => negb (is_control a || Ascii.eqb a dquote || Ascii.eqb a backslash)) s.

Lemma plain_esc s : plain s = true -> esc s = s.
Proof.
  induction s as [|a s IH]; [done|]. simpl. intros [Ha Hs]%andb_true_iff. rewrite (IH Hs).
  unfold esc_char. destruct (Ascii.eqb_spec a backslash) as [->|]; [done|].
  destruct (Ascii.eqb_spec a dquote) as [->|]; [done|].
  destruct (Ascii.eqb_spec a nl) as [->|]; done.
Qed.
Lemma plain_clean s : plain s = true -> clean s = true.
Proof.
  unfold plain, clean. induction s as [|a s IH]; [done|]. simpl. intros [Ha Hs]%andb_true_iff.
  rewrite (IH Hs). by destruct (is_control a).
Qed.

Lemma pretty_Z_of_nat (n : nat) : pretty (Z.of_nat n) = pretty n.
Proof.
  destruct n as [|n]; [done|].
  change (pretty (Z.of_nat (S n))) with (pretty (N.pos (Pos.of_succ_nat n))). done.
Qed.

(** What [hitl_vcs_json] prints *)
Definition vcs_value (g : HitlGate) : json :=
  let strings l := JArr (map JStr l) in
  let seen := sort_dedup (gate_seen g) in
  let blocked := sort_dedup (gate_blocked g) in
  let seen_classes := sort_dedup (gate_seen_classes g) in
  let blocked_classes := sort_dedup (gate_blocked_classes g) in
  JObj [("hitl_mode", JStr (HitlMode_label (gate_mode g)));
        ("seen_count", JNum (Z.of_nat (length seen))); ("blocked_count", JNum (Z.of_nat (length blocked)));
        ("seen_class_count", JNum (Z.of_nat (length seen_classes)));
        ("blocked_class_count", JNum (Z.of_nat (length blocked_classes)));
        ("seen_vcs", strings seen); ("blocked_vcs", strings blocked);
        ("seen_classes", strings seen_classes); ("blocked_classes", strings blocked_classes)].

Definition id_ok (s : string) : bool := clean s && negb (str_mem nl s).

Lemma json_array_render l :
  Forall (fun s => id_ok s = true) l -> json_array l = render (JArr (map JStr l)).
Proof.
  intros Hl. unfold json_array. simpl render. do 2 f_equal. f_equal. rewrite map_map.
  apply map_ext_Forall. eapply Forall_impl; [exact Hl|]. unfold id_ok. intros s Hs.
  simpl. f_equal. apply escape_esc. by destruct (str_mem nl s), (clean s).
Qed.

Lemma ids_clean l : Forall (fun s => id_ok s = true) l -> json_clean (JArr (map JStr l)) = true.
Proof.
  intros Hl. simpl. apply forallb_forall. intros j. rewrite in_map_iff. intros (s & <- & Hs).
  apply list_elem_of_In in Hs. rewrite Forall_forall in Hl. specialize (Hl s Hs).
  unfold id_ok in Hl. simpl. by destruct (clean s).
Qed.

Lemma sort_dedup_Forall (P : string -> Prop) l : Forall P l -> Forall P (sort_dedup l).
Proof. rewrite !Forall_forall. intros H x Hx. apply H. by apply sort_dedup_elem. Qed.


