(* ===== verification/Verdict.v ===== *)
(** * Verdict: the machine-readable verdict of [main.rs]

    [Verdict], its [to_json] and [verdict_from_result], and that a consumer of the
    JSON gets back the result the policies decided on. *)

From S2P Require Import Prelude Text Gate Json.
From stdpp Require Import base gmap list strings pretty.
From Stdlib Require Import Ascii ZArith Lia.
#[local] Open Scope string_scope.

Record Verdict := mk_Verdict {
  v_status : string;
  v_code : Z;
  v_message : string;
  v_key_fingerprint : option string;
  v_token_sha256 : option string;
  v_runtime_fallback : string;
  v_hitl_mode : string;
  v_hitl_seen_vcs : nat;
  v_hitl_blocked_vcs : nat;
  v_hitl_seen_classes : nat;
  v_hitl_blocked_classes : nat;
  v_inline_asm_vcs : nat;
  v_dma_vcs : nat;
  v_irq_race_vcs : nat
}.

Definition opt_json_string (o : option string) : string :=
  match o with Some s => json_string s | None => "null" end.

Definition to_json (v : Verdict) : string :=
  let msg := str_replace nl (chr backslash +:+ "n") (json_escape (v_message v)) in
  "{" +:+ comma_join
    [json_field "status" (json_string (v_status v));
     json_field "code" (pretty (v_code v));
     json_field "message" (json_string msg);
     json_field "key_fingerprint" (opt_json_string (v_key_fingerprint v));
     json_field "token_sha256" (opt_json_string (v_token_sha256 v));
     json_field "runtime_fallback" (json_string (v_runtime_fallback v));
     json_field "hitl_mode" (json_string (v_hitl_mode v));
     json_field "hitl_seen_vcs" (pretty (v_hitl_seen_vcs v));
     json_field "hitl_blocked_vcs" (pretty (v_hitl_blocked_vcs v));
     json_field "hitl_seen_classes" (pretty (v_hitl_seen_classes v));
     json_field "hitl_blocked_classes" (pretty (v_hitl_blocked_classes v));
     json_field "inline_asm_vcs" (pretty (v_inline_asm_vcs v));
     json_field "dma_vcs" (pretty (v_dma_vcs v));
     json_field "irq_race_vcs" (pretty (v_irq_race_vcs v))]
  +:+ "}".

(** The three branches differ in the first three fields. *)
Definition verdict_from_result (result : AnalysisResult) (key_fingerprint token_sha256 : option string)
    (runtime_fallback hitl_mode : string)
    (hitl_seen_vcs hitl_blocked_vcs hitl_seen_classes hitl_blocked_classes
     inline_asm_vcs dma_vcs irq_race_vcs : nat) : Verdict :=
  let verdict status code message :=
    mk_Verdict status code message key_fingerprint token_sha256 runtime_fallback hitl_mode
      hitl_seen_vcs hitl_blocked_vcs hitl_seen_classes hitl_blocked_classes
      inline_asm_vcs dma_vcs irq_race_vcs in
  match result with
  | APass => verdict "pass" 0%Z "Proved safe for all checked accesses."
  | AFail msg => verdict "fail" 10%Z msg
  | AUnknown reason => verdict "unknown" 20%Z reason
  end.

(** ** What a consumer reads *)

Definition opt_value (o : option string) : json :=
  match o with Some s => JStr s | None => JNull end.
Definition verdict_value (v : Verdict) : json :=
  JObj [("status", JStr (v_status v)); ("code", JNum (v_code v)); ("message", JStr (v_message v));
        ("key_fingerprint", opt_value (v_key_fingerprint v));
        ("token_sha256", opt_value (v_token_sha256 v));
        ("runtime_fallback", JStr (v_runtime_fallback v)); ("hitl_mode", JStr (v_hitl_mode v));
        ("hitl_seen_vcs", JNum (Z.of_nat (v_hitl_seen_vcs v)));
        ("hitl_blocked_vcs", JNum (Z.of_nat (v_hitl_blocked_vcs v)));
        ("hitl_seen_classes", JNum (Z.of_nat (v_hitl_seen_classes v)));
        ("hitl_blocked_classes", JNum (Z.of_nat (v_hitl_blocked_classes v)));
        ("inline_asm_vcs", JNum (Z.of_nat (v_inline_asm_vcs v)));
        ("dma_vcs", JNum (Z.of_nat (v_dma_vcs v)));
        ("irq_race_vcs", JNum (Z.of_nat (v_irq_race_vcs v)))].

(** The result as a consumer reconstructs it from status, code and message. *)
Definition read_result (j : json) : option AnalysisResult :=
  match j with
  | JObj (("status", JStr status) :: ("code", JNum code) :: ("message", JStr msg) :: _) =>
      if bool_decide (status = "pass" /\ code = 0%Z) then Some APass
      else if bool_decide (status = "fail" /\ code = 10%Z) then Some (AFail msg)
      else if bool_decide (status = "unknown" /\ code = 20%Z) then Some (AUnknown msg)
      else None
  | _ => None
  end.

Definition opt_plain (o : option string) : bool := match o with Some s => plain s | None => true end.

(** The texts the verdict does not escape need no escaping. *)
Definition verdict_plain (v : Verdict) : bool :=
  plain (v_status v) && opt_plain (v_key_fingerprint v) && opt_plain (v_token_sha256 v)
  && plain (v_runtime_fallback v) && plain (v_hitl_mode v) && clean (v_message v).

Lemma opt_json_render o : opt_plain o = true -> opt_json_string o = render (opt_value o).
Proof. destruct o as [s|]; [|done]. intros H. simpl. by rewrite plain_esc. Qed.
Lemma opt_json_clean o : opt_plain o = true -> json_clean (opt_value o) = true.
Proof. destruct o as [s|]; [|done]. apply plain_clean. Qed.

Lemma to_json_render v : verdict_plain v = true -> to_json v = render (verdict_value v).
Proof.
  unfold verdict_plain. intros H. repeat (apply andb_true_iff in H as [H ?]).
  unfold to_json, verdict_value. cbn [render map fst snd].
  rewrite replace_esc, !pretty_Z_of_nat, !opt_json_render, (plain_esc (v_status v)),
    (plain_esc (v_runtime_fallback v)), (plain_esc (v_hitl_mode v)) by done. done.
Qed.

Lemma verdict_clean v : verdict_plain v = true -> json_clean (verdict_value v) = true.
Proof.
  unfold verdict_plain. intros H. repeat (apply andb_true_iff in H as [H ?]).
  unfold verdict_value. cbn [json_clean forallb fst snd].
  rewrite !opt_json_clean, (plain_clean (v_status v)), (plain_clean (v_runtime_fallback v)),
    (plain_clean (v_hitl_mode v)) by done. by destruct (clean (v_message v)).
Qed.

Lemma verdict_json_reads v rest :
  verdict_plain v = true -> str_all ws1 rest = true ->
  json_parse (to_json v +:+ rest) = Some (verdict_value v).
Proof.
  intros Hv Hr. rewrite to_json_render by done. apply json_round_trip; [by apply verdict_clean|done].
Qed.

(** The message of a result *)
Definition result_message (r : AnalysisResult) : string :=
  match r with APass => "" | AFail m | AUnknown m => m end.

(** C17. The verdict's JSON is faithful: whatever the metadata and counters, a
    reader of the printed or written text recovers every field, and from status,
    code and message exactly the result the policies decided, message included;
    it is a pass with code 0 only for a Pass.  The message may hold quotes,
    backslashes and line feeds, the other texts are written as they are. *)
Theorem verdict_faithful r fp sha rf hm n1 n2 n3 n4 n5 n6 n7 rest :
  let v := verdict_from_result r fp sha rf hm n1 n2 n3 n4 n5 n6 n7 in
  clean (result_message r) = true -> opt_plain fp = true -> opt_plain sha = true ->
  plain rf = true -> plain hm = true -> str_all ws1 rest = true ->
  json_parse (to_json v +:+ rest) = Some (verdict_value v) /\
  read_result (verdict_value v) = Some r /\
  (v_code v = 0%Z <-> r = APass).
Proof.
  intros v Hm Hfp Hsha Hrf Hhm Hr. split_and!.
  - apply verdict_json_reads; [|done]. unfold verdict_plain, v.
    destruct r; simpl in *; by rewrite Hfp, Hsha, Hrf, Hhm, ?Hm.
  - by destruct r.
  - by destruct r.
Qed.

Lemma verdict_faithful_witness :
  let msg := "out of bounds" +:+ chr nl +:+ chr dquote +:+ "f" +:+ chr dquote in
  let v := verdict_from_result (AFail msg) None (Some "00ff") "integritag" "off" 3 0 1 0 0 2 0 in
  clean msg = true /\ json_parse (to_json v +:+ chr nl) = Some (verdict_value v).
Proof.
  split; [reflexivity|].
  exact (proj1 (verdict_faithful (AFail ("out of bounds" +:+ chr nl +:+ chr dquote +:+ "f" +:+ chr dquote))
    None (Some "00ff") "integritag" "off" 3 0 1 0 0 2 0 (chr nl)
    eq_refl eq_refl eq_refl eq_refl eq_refl eq_refl)).
Defined.

(** Other control characters are printed raw: with a tab in a message the text is
    no longer JSON. *)
Example tab_not_escaped :
  json_parse (to_json (verdict_from_result (AFail (chr (ascii_of_N 9))) None None "integritag" "off" 0 0 0 0 0 0 0))
  = None.
Proof. by vm_compute. Qed.
