(* ===== verification/Console.v ===== *)
(** * Console: the terminal commands of [main.rs]

    The feature catalogue, [run_doctor], [print_token_template] and the interactive
    menu [run_tui], over a [Host]: the [World] of [Fs], the text printed so far and
    the lines still to be read.  What the build and the machine decide (target,
    whether [zig version] succeeds) is a [Platform].  Writing to standard output
    does not fail here except where the code flushes it. *)

From S2P Require Import Prelude Text Smt Gate Fs Bridge Attest Json.
From stdpp Require Import base gmap list strings pretty.
From Stdlib Require Import Ascii ZArith Lia.
#[local] Open Scope string_scope.

(** ** The host and computations on it *)

Record Host := mk_Host { h_world : World; h_stdout : string; h_stdin : list string }.

(** Computations that may panic, run forever, or return a value or an error *)
Definition cmd (A : Type) : Type := Host -> exec (result A * Host).
Definition cmd_ret {A} (a : A) : cmd A := fun h => Done (Ok a, h).
Definition cmd_fail {A} (e : string) : cmd A := fun h => Done (Err e, h).
Definition cmd_bind {A B} (m : cmd A) (k : A -> cmd B) : cmd B := fun h =>
  let! (r, h') := m h in
  match r with Ok a => k a h' | Err e => Done (Err e, h') end.
Definition cmd_io {A} (m : io A) : cmd A := fun h =>
  let '(r, w) := m (h_world h) in Done (r, mk_Host w (h_stdout h) (h_stdin h)).
Definition cmd_read {A} (f : World -> result A) : cmd A := fun h => Done (f (h_world h), h).
Notation "'let&' x ':=' m 'in' k" := (cmd_bind m (fun x => k))
  (at level 10, x pattern, m at level 100, k at level 200) : skv_scope.

Definition print (s : string) : cmd unit := fun h =>
  Done (Ok tt, mk_Host (h_world h) (h_stdout h +:+ s) (h_stdin h)).
Definition println (s : string) : cmd unit := print (s +:+ chr nl).
Fixpoint print_lines (l : list string) : cmd unit :=
  match l with [] => cmd_ret tt | s :: l' => let& _ := println s in print_lines l' end.

(** [io::stdout().flush().context(..)?] *)
Definition flush : cmd unit := cmd_read (fun w =>
  if w_fails w "flush" "stdout" then Err "Failed to flush stdout" else Ok tt).

(** [io::stdin().read_line(..)]: the next line with its terminator, nothing at the
    end of the input; the text must be UTF-8. *)
Definition read_line (ctx : string) : cmd string := fun h =>
  if w_fails (h_world h) "read" "stdin" then Done (Err ctx, h) else
  match h_stdin h with
  | [] => Done (Ok "", h)
  | l :: rest =>
      let h' := mk_Host (h_world h) (h_stdout h) rest in
      if utf8_valid l then Done (Ok l, h') else Done (Err ctx, h')
  end.

Record Platform := mk_Platform {
  target_arch : string;
  target_linux : bool;
  zig_ok : bool
}.

(** ** Features *)

Definition catalog_lines : list string := [
  "SKV Analyzer - Full Feature Inventory";
  "";
  "1) Core LLVM/Z3 memory safety analysis";
  "- kmalloc/kzalloc/kcalloc allocation tracking";
  "- Bounds checks for load/store/memcpy/memset";
  "- Use-after-free and double-free detection via kfree tracking";
  "- Pointer provenance through GEP, bitcast, ptrtoint/inttoptr, add/sub";
  "- Conservative UNKNOWN semantics for unsupported patterns";
  "";
  "2) Ring policy enforcement";
  "- ring0: standard analysis verdict flow";
  "- ring-1: strict mode (UNKNOWN promoted to FAIL)";
  "- ring-2: strict mode + independent root trust requirements";
  "";
  "3) Attestation validation (C or Zig backend)";
  "- Token field validation: ring, attested, timestamp, nonce, counter";
  "- ring-2 extra token requirement: root_attested:true";
  "- Freshness enforcement with max token age";
  "- Nonce challenge binding";
  "- Replay protection with monotonic counter state";
  "- Atomic replay-state update with file lock + fsync";
  "- Secure file checks: regular file, owner UID match, safe permissions";
  "";
  "4) Cryptographic trust";
  "- Detached Ed25519 signature verification over token bytes";
  "- Pinned SHA-256 fingerprint check for attestation key";
  "- ring-2 independent root signature + root key pinning";
  "";
  "5) Operational output and CI integration";
  "- Human-readable PASS/FAIL/UNKNOWN output";
  "- --json machine-readable verdict output";
  "- --verdict-out file emission for SIEM/pipeline ingestion";
  "- Stable exit codes: 0(pass), 10(fail), 20(unknown), 1(error)";
  "- Panic-safe LLVM parse path (fail closed instead of process crash)";
  "";
  "6) HITL verification gate";
  "- --hitl-mode off|require";
  "- --hitl-approvals <path> newline-delimited approved VC IDs";
  "- --hitl-class-approvals <path> newline-delimited approved VC class IDs";
  "- require mode needs at least one approval source (VC IDs or class IDs)";
  "- --emit-vcs <path> emits seen/blocked VC IDs for human review";
  "- Class approvals allow reviewer to approve families of similar VCs";
  "- Solver is never executed for unapproved VCs in require mode";
  "";
  "7) Runtime fallback policy";
  "- --runtime-fallback auto|arm-mte|integritag|software-targeted";
  "- auto resolves to arm-mte on aarch64, integritag on x86_64, software-targeted otherwise";
  "- Runtime fallback policy is included in verdict output";
  "- IntegriTag supports Intel TME-MK hardware cryptographic memory tagging";
  "";
  "8) Proof-Carrying Code (PCC)";
  "- --emit-proof <path> outputs formal proof trace for memory safety";
  "- --proof-format lfsc|rup selects trace format (LFSC/RUP)";
  "";
  "9) Build/runtime backends";
  "- Default C attestation backend";
  "- Optional Zig backend via SKV_ATTESTATION_IMPL=zig";
  "- Automatic fallback to C when Zig is unavailable";
  "";
  "10) Production output hardening";
  "- Verdict and VC emission files are written with secure 0600 permissions";
  "- Existing output files must be regular files, owner-matched, and safe-mode";
  "- Output file writes use explicit sync_all() for durability";
  "";
  "11) Inline assembly detection";
  "- --inline-asm-policy conservative|trap";
  "- Conservative mode: emit UNKNOWN VC for opaque inline asm (promoted to FAIL under Ring -1/-2)";
  "- Trap mode: always FAIL on any inline assembly";
  "- Inline asm VC count included in verdict JSON output";
  "";
  "12) DMA allocation verification";
  "- --dma-policy verify|require-iommu|ignore";
  "- Tracks dma_alloc_coherent as DMA allocation source";
  "- Bounds-checks dma_map_single against allocation size";
  "- require-iommu: FAIL if DMA allocation has no paired iommu_map call";
  "- DMA VC count included in verdict JSON output";
  "";
  "13) Interrupt sequentialization";
  "- Pre-scans module for request_irq handler registrations";
  "- Identifies handlers that call kfree on tracked allocations";
  "- Emits irq_race VCs for accesses that could race with interrupt-triggered frees";
  "- Conservative over-approximation: sound but may produce false positives";
  "- IRQ race VC count included in verdict JSON output";
  "";
  "14) VC equivalence class grouping";
  "- --emit-equiv-summary <path> outputs grouped VC classes for HITL review";
  "- VC classes group structurally equivalent access patterns";
  "- Class-level approval via --hitl-class-approvals prevents reviewer fatigue";
  "- Equivalence summary includes per-class counts and member VC lists"].

Definition print_feature_catalog : cmd unit := print_lines catalog_lines.

Definition features : list string := [
  "Core LLVM/Z3 memory safety analysis";
  "kmalloc/kzalloc/kcalloc allocation tracking";
  "Bounds checks for load/store/memcpy/memset";
  "Use-after-free and double-free detection via kfree tracking";
  "Pointer provenance through GEP, bitcast, ptrtoint/inttoptr, add/sub";
  "Conservative UNKNOWN semantics for unsupported patterns";
  "Ring policy: ring0/ring-1/ring-2";
  "Ring-2 independent root trust requirements";
  "Attestation fields: ring, attested, timestamp, nonce, counter";
  "Ring-2 token requirement: root_attested:true";
  "Freshness max-age enforcement";
  "Nonce challenge binding";
  "Replay protection with monotonic counter state";
  "Atomic replay-state locking + fsync";
  "Secure file checks: regular, owner UID, safe permissions";
  "Detached Ed25519 signature verification";
  "Pinned SHA-256 key fingerprint checks";
  "Ring-2 independent root signature + key pinning";
  "Machine-readable verdict JSON (--json)";
  "Verdict file output (--verdict-out)";
  "Stable exit codes: 0/10/20/1";
  "Panic-safe LLVM parse rejection";
  "HITL gate: --hitl-mode off|require";
  "HITL approvals file: --hitl-approvals";
  "HITL class approvals: --hitl-class-approvals";
  "HITL require mode requires VC or class approvals";
  "VC emission for human review: --emit-vcs";
  "HITL require mode fail-closed on blocked VCs";
  "Runtime fallback policy: --runtime-fallback auto|arm-mte|integritag|software-targeted";
  "IntegriTag Intel TME-MK hardware support";
  "Proof-Carrying Code emission: --emit-proof <path>";
  "Supported PCC formats: LFSC and RUP";
  "Secure output writing: 0600 + sync_all + owner/mode checks";
  "Backends: C default, Zig optional, C fallback";
  "Inline asm detection: --inline-asm-policy conservative|trap";
  "Opaque inline asm VC emission with HITL gate integration";
  "DMA allocation tracking: dma_alloc_coherent/dma_map_single";
  "DMA bounds verification: --dma-policy verify|require-iommu|ignore";
  "Interrupt sequentialization via request_irq pre-scan";
  "IRQ race VC emission for handler-induced frees";
  "VC equivalence class grouping: --emit-equiv-summary";
  "Structural VC class approval to prevent reviewer fatigue";
  "Stack-spill pointer tracking through alloca/store/load chains"].

Definition feature_catalog_json : string :=
  "{" +:+ comma_join
    [json_field "name" (json_string "SKV Analyzer");
     json_field "features" (json_array features)]
  +:+ "}".

(** ** Doctor *)

Definition bool_text (b : bool) : string := if b then "true" else "false".

(** One of the checks: name, result, whether it is required, detail *)
Record Diagnostic := mk_Diagnostic { d_name : string; d_ok : bool; d_required : bool; d_detail : string }.

Definition required_checks (p : Platform) : list Diagnostic :=
  [mk_Diagnostic "os_supported" (target_linux p) true "linux";
   mk_Diagnostic "ffi_symbol_linked" true true "attestation bridge linked"].
Definition optional_checks (p : Platform) : list Diagnostic :=
  [mk_Diagnostic "zig_available" (zig_ok p) false (if zig_ok p then "yes" else "no")].

Definition diagnostic_json (d : Diagnostic) : string :=
  "{" +:+ comma_join
    [json_field "check" (json_string (d_name d)); json_field "ok" (bool_text (d_ok d));
     json_field "required" (bool_text (d_required d));
     json_field "detail" (json_string (json_escape (d_detail d)))]
  +:+ "}".
Definition diagnostic_line (d : Diagnostic) : string :=
  "- " +:+ d_name d +:+ ": " +:+
  (if d_ok d then "OK" else if d_required d then "FAIL" else "WARN") +:+
  (if d_required d then " [required] (" else " [optional] (") +:+ d_detail d +:+ ")".

Definition run_doctor (p : Platform) (json : bool) : cmd bool :=
  let all_ok := forallb d_ok (required_checks p) in
  let checks := (required_checks p ++ optional_checks p)%list in
  let& _ :=
    (if json then
       println ("{" +:+ comma_join
         [json_field "doctor" ("[" +:+ comma_join (map diagnostic_json checks) +:+ "]");
          json_field "all_ok" (bool_text all_ok)] +:+ "}")
     else print_lines (("SKV Analyzer Doctor" :: map diagnostic_line checks)
                       ++ ["overall: " +:+ (if all_ok then "OK" else "FAIL")])%list) in
  cmd_ret all_ok.

(** ** Token templates *)

(** The non-JSON template, without the final line feeds *)
Definition template_lines (ring : RingMode) : list string :=
  let ring_num := default 0%Z (token_ring ring) in
  (["ring:" +:+ pretty ring_num; "attested:true"]
   ++ (if decide (ring = RingM2) then ["root_attested:true"] else [])
   ++ ["timestamp:1700000000"; "nonce:<nonce>"; "counter:1"])%list.
Definition template_json (ring : RingMode) : string :=
  let ring_num := default 0%Z (token_ring ring) in
  "{" +:+ comma_join
    ([json_field "ring" (pretty ring_num); json_field "attested" "true"]
     ++ (if decide (ring = RingM2) then [json_field "root_attested" "true"] else [])
     ++ [json_field "timestamp" "1700000000"; json_field "nonce" (json_string "<nonce>");
         json_field "counter" "1"])%list
  +:+ "}".
Definition print_token_template (ring : RingMode) (json : bool) : cmd unit :=
  if json then println (template_json ring) else print_lines (template_lines ring).

(** ** The interactive menu *)

Definition color (code s : string) : string :=
  chr (ascii_of_N 27) +:+ code +:+ s +:+ chr (ascii_of_N 27) +:+ "[0m".
Definition head_color : string -> string := color "[1;36m".
Definition section_color : string -> string := color "[1;34m".
Definition prompt_color : string -> string := color "[1;33m".
Definition ok_color : string -> string := color "[1;32m".
Definition warn_color : string -> string := color "[1;31m".
Definition clear_screen : string := chr (ascii_of_N 27) +:+ "[2J" +:+ chr (ascii_of_N 27) +:+ "[H".

Definition menu_lines : list string := [
  head_color "╔══════════════════════════════════════════════════════════╗";
  head_color "║                    SKV ANALYZER CONSOLE                 ║";
  head_color "╠══════════════════════════════════════════════════════════╣";
  section_color "║ Security Operations                                     ║";
  "║   1) Doctor diagnostics                                 ║";
  "║   2) Features catalog (text)   [shortcut: f]            ║";
  "║   3) Features catalog (json)                            ║";
  "║                                                          ║";
  section_color "║ Attestation Utilities                                    ║";
  "║   4) Token template (ring-1)                            ║";
  "║   5) Token template (ring-2)   [shortcut: j]            ║";
  "║                                                          ║";
  section_color "║ Session                                                  ║";
  "║   0) Exit                     [shortcut: q]             ║";
  "║   d) Doctor                   [shortcut: d]             ║";
  head_color "╚══════════════════════════════════════════════════════════╝"].

Inductive Choice := CDoctor | CFeatures | CFeaturesJson | CTemplate (ring : RingMode) | CExit | CInvalid.

Definition choice_of (input : string) : Choice :=
  let c := to_ascii_lowercase (str_trim input) in
  if bool_decide (c ∈ ["1"; "d"]) then CDoctor
  else if bool_decide (c ∈ ["2"; "f"]) then CFeatures
  else if bool_decide (c = "3") then CFeaturesJson
  else if bool_decide (c = "4") then CTemplate RingM1
  else if bool_decide (c ∈ ["5"; "j"]) then CTemplate RingM2
  else if bool_decide (c ∈ ["0"; "q"]) then CExit
  else CInvalid.

Definition pause_tui : cmd unit :=
  let& _ := print "Press Enter to continue..." in
  let& _ := flush in
  let& _ := read_line "Failed to read pause input" in
  cmd_ret tt.

(** The body of a choice other than leaving *)
Definition run_choice (p : Platform) (c : Choice) : cmd unit :=
  let& _ := println "" in
  match c with
  | CDoctor =>
      let& ok := run_doctor p false in
      let& _ := println "" in
      println (if ok then ok_color "Doctor status code: 0" else warn_color "Doctor status code: 12")
  | CFeatures => let& _ := print_feature_catalog in println ""
  | CFeaturesJson => let& _ := println feature_catalog_json in println ""
  | CTemplate ring => let& _ := print_token_template ring false in println ""
  | _ => println (warn_color "Invalid selection." +:+ " Choose 0-5 or d/f/j/q.")
  end.

(** The menu and the line typed *)
Definition ask : cmd string :=
  let& _ := print clear_screen in
  let& _ := print_lines menu_lines in
  let& _ := print (prompt_color "Select action [0-5 | d/f/j/q]: ") in
  let& _ := flush in
  read_line "Failed to read TUI input".

(** [loop]: [fuel] bounds the number of rounds. *)
Fixpoint run_tui (fuel : nat) (p : Platform) : cmd Z :=
  match fuel with
  | O => fun _ => Diverge
  | S f =>
      let& input := ask in
      match choice_of input with
      | CExit => cmd_ret 0%Z
      | c => let& _ := run_choice p c in
             let& _ := pause_tui in
             run_tui f p
      end
  end.

(** ** Printing changes the output only *)

(** A computation that always returns, leaves files and input alone and appends to
    the output. *)
Definition prints {A} (m : cmd A) (a : A) : Prop :=
  forall h, exists s, m h = Done (Ok a, mk_Host (h_world h) (h_stdout h +:+ s) (h_stdin h)).

Lemma prints_print s : prints (print s) tt.
Proof. intros h. by exists s. Qed.
Lemma prints_ret {A} (a : A) : prints (cmd_ret a) a.
Proof. intros [w o i]. exists "". unfold cmd_ret. simpl. by rewrite str_app_nil_r. Qed.
Lemma prints_bind {A B} (m : cmd A) (k : A -> cmd B) a b :
  prints m a -> prints (k a) b -> prints (cmd_bind m k) b.
Proof.
  intros Hm Hk h. destruct (Hm h) as [s Hs]. unfold cmd_bind. rewrite Hs. simpl.
  destruct (Hk (mk_Host (h_world h) (h_stdout h +:+ s) (h_stdin h))) as [t Ht]. simpl in Ht.
  exists (s +:+ t). by rewrite Ht, str_app_assoc.
Qed.
Lemma prints_lines l : prints (print_lines l) tt.
Proof.
  induction l as [|s l IH]; [apply prints_ret|]. simpl. eapply prints_bind; [apply prints_print|exact IH].
Qed.
Lemma prints_println s : prints (println s) tt.
Proof. apply prints_print. Qed.
Lemma prints_catalog : prints print_feature_catalog tt.
Proof. apply prints_lines. Qed.
#[export] Hint Resolve prints_print prints_println prints_ret prints_lines prints_catalog : skv.

Lemma prints_doctor p json : prints (run_doctor p json) (forallb d_ok (required_checks p)).
Proof.
  unfold run_doctor. eapply prints_bind; [|apply prints_ret]. destruct json; [apply prints_print|apply prints_lines].
Qed.
Lemma prints_template ring json : prints (print_token_template ring json) tt.
Proof. unfold print_token_template. destruct json; [apply prints_print|apply prints_lines]. Qed.
#[export] Hint Resolve prints_doctor prints_template : skv.

Lemma prints_choice p c : prints (run_choice p c) tt.
Proof.
  unfold run_choice. eapply prints_bind; [apply prints_print|].
  destruct c; repeat (eapply prints_bind; [by eauto with skv|]); apply prints_print.
Qed.

(** ** When the menu returns *)

(** Neither flushing nor reading the terminal fails. *)
Definition terminal_ok (h : Host) : Prop :=
  w_fails (h_world h) "flush" "stdout" = false /\ w_fails (h_world h) "read" "stdin" = false /\
  Forall (fun l => utf8_valid l = true) (h_stdin h).

(** The host after some lines were read and something was printed. *)
Definition host_at (h : Host) (i : list string) (h' : Host) : Prop :=
  h_world h' = h_world h /\ h_stdin h' = i.

(** The line [read_line] yields, and what is left. *)
Definition next_line (i : list string) : string * list string :=
  match i with [] => ("", []) | l :: i' => (l, i') end.

Lemma read_line_ok ctx h :
  terminal_ok h -> exists h', read_line ctx h = Done (Ok (next_line (h_stdin h)).1, h') /\
    host_at h (next_line (h_stdin h)).2 h' /\ terminal_ok h'.
Proof.
  destruct h as [w o i]. intros (Hf & Hr & Hu). unfold read_line. simpl in *. rewrite Hr.
  destruct i as [|l i]; [by eexists|]. apply Forall_cons in Hu as [Hl Hu]. rewrite Hl. by eexists.
Qed.

Lemma flush_ok h : terminal_ok h -> flush h = Done (Ok tt, h).
Proof. intros (Hf & _). unfold flush, cmd_read. by rewrite Hf. Qed.

Lemma cmd_bind_done {A B} (m : cmd A) (k : A -> cmd B) h a h' :
  m h = Done (Ok a, h') -> cmd_bind m k h = k a h'.
Proof. intros H. unfold cmd_bind. by rewrite H. Qed.

Lemma prints_ok {A} (m : cmd A) a h :
  prints m a -> terminal_ok h ->
  exists h', m h = Done (Ok a, h') /\ host_at h (h_stdin h) h' /\ terminal_ok h'.
Proof. intros Hm Ht. destruct (Hm h) as [s Hs]. eexists. split; [exact Hs|]. by split. Qed.

Lemma ask_ok h :
  terminal_ok h -> exists h', ask h = Done (Ok (next_line (h_stdin h)).1, h') /\
    host_at h (next_line (h_stdin h)).2 h' /\ terminal_ok h'.
Proof.
  intros Ht. unfold ask.
  destruct (prints_ok _ _ h (prints_print clear_screen) Ht) as (h1 & E1 & [W1 I1] & T1).
  destruct (prints_ok _ _ h1 (prints_lines menu_lines) T1) as (h2 & E2 & [W2 I2] & T2).
  destruct (prints_ok _ _ h2 (prints_print (prompt_color "Select action [0-5 | d/f/j/q]: ")) T2)
    as (h3 & E3 & [W3 I3] & T3).
  rewrite (cmd_bind_done _ _ _ _ _ E1), (cmd_bind_done _ _ _ _ _ E2), (cmd_bind_done _ _ _ _ _ E3).
  rewrite (cmd_bind_done _ _ _ _ _ (flush_ok _ T3)).
  destruct (read_line_ok "Failed to read TUI input" h3 T3) as (h4 & -> & [W4 I4] & T4).
  rewrite I3, I2, I1 in *. exists h4. split; [done|]. split; [|done]. split; congruence.
Qed.

Lemma pause_ok h :
  terminal_ok h -> exists h', pause_tui h = Done (Ok tt, h') /\
    host_at h (next_line (h_stdin h)).2 h' /\ terminal_ok h'.
Proof.
  intros Ht. unfold pause_tui.
  destruct (prints_ok _ _ h (prints_print "Press Enter to continue...") Ht) as (h1 & E1 & [W1 I1] & T1).
  rewrite (cmd_bind_done _ _ _ _ _ E1). rewrite (cmd_bind_done _ _ _ _ _ (flush_ok _ T1)).
  destruct (read_line_ok "Failed to read pause input" h1 T1) as (h2 & Hr & [W2 I2] & T2).
  rewrite (cmd_bind_done _ _ _ _ _ Hr). rewrite I1 in *. exists h2. split; [done|]. split; [|done].
  split; congruence.
Qed.

(** The line the [n]-th round reads: rounds and pauses take turns. *)
Definition menu_line (i : list string) (n : nat) : string := default "" (i !! (2 * n)).

Lemma tui_round p f h :
  terminal_ok h ->
  (choice_of (menu_line (h_stdin h) 0) = CExit ->
     exists h', run_tui (S f) p h = Done (Ok 0%Z, h') /\ h_world h' = h_world h) /\
  (choice_of (menu_line (h_stdin h) 0) <> CExit ->
     exists h', run_tui (S f) p h = run_tui f p h' /\ terminal_ok h' /\ h_world h' = h_world h /\
       h_stdin h' = drop 2 (h_stdin h)).
Proof.
  intros Ht. destruct (ask_ok h Ht) as (h1 & Ha & [W1 I1] & T1).
  assert ((next_line (h_stdin h)).1 = menu_line (h_stdin h) 0) as Hl by (by destruct (h_stdin h)).
  rewrite Hl in Ha. cbn [run_tui]. rewrite (cmd_bind_done _ _ _ _ _ Ha).
  split; intros Hc.
  - rewrite Hc. eexists. split; [done|]. congruence.
  - destruct (prints_ok _ _ h1 (prints_choice p (choice_of (menu_line (h_stdin h) 0))) T1)
      as (h2 & Hs & [W2 I2] & T2).
    destruct (pause_ok h2 T2) as (h3 & Hp & [W3 I3] & T3).
    exists h3. split; [|split; [done|split; [congruence|]]].
    + destruct (choice_of (menu_line (h_stdin h) 0)); first [
        rewrite (cmd_bind_done _ _ _ _ _ Hs), (cmd_bind_done _ _ _ _ _ Hp); reflexivity
      | exfalso; apply Hc; reflexivity].
    + rewrite I3, I2, I1. by destruct (h_stdin h) as [|? [|? ?]].
Qed.

Lemma menu_line_drop i n : menu_line (drop 2 i) n = menu_line i (S n).
Proof. unfold menu_line. rewrite lookup_drop. do 2 f_equal. lia. Qed.

Lemma tui_returns p n h :
  terminal_ok h -> choice_of (menu_line (h_stdin h) n) = CExit ->
  (forall k, k < n -> choice_of (menu_line (h_stdin h) k) <> CExit) ->
  exists h', run_tui (S n) p h = Done (Ok 0%Z, h') /\ h_world h' = h_world h.
Proof.
  revert h. induction n as [|n IH]; intros h Ht He Hb.
  - by apply (proj1 (tui_round p 0 h Ht)).
  - destruct (proj2 (tui_round p (S n) h Ht) (Hb 0 ltac:(lia))) as (h1 & -> & T1 & W1 & I1).
    destruct (IH h1 T1) as (h2 & Hr & W2).
    + by rewrite I1, menu_line_drop.
    + intros k Hk. rewrite I1, menu_line_drop. apply Hb. lia.
    + exists h2. split; [done|congruence].
Qed.

Lemma tui_loops p fuel h :
  terminal_ok h -> (forall n, n < fuel -> choice_of (menu_line (h_stdin h) n) <> CExit) ->
  run_tui fuel p h = Diverge.
Proof.
  revert h. induction fuel as [|f IH]; intros h Ht Hn; [done|].
  destruct (proj2 (tui_round p f h Ht) (Hn 0 ltac:(lia))) as (h1 & -> & T1 & W1 & I1).
  apply IH; [done|]. intros n Hlt. rewrite I1, menu_line_drop. apply Hn. lia.
Qed.

(** C27. The interactive menu, on a terminal that can be read and written: if
    some round, the [n]-th, is the first whose line chooses to leave, the menu
    returns with code 0 after [n + 1] rounds and has touched no file; if no round
    does, it never returns.  The end of the input does not leave the menu. *)
Theorem tui_returns_iff_asked p h :
  terminal_ok h ->
  (forall n, choice_of (menu_line (h_stdin h) n) = CExit ->
     (forall k, k < n -> choice_of (menu_line (h_stdin h) k) <> CExit) ->
     exists h', run_tui (S n) p h = Done (Ok 0%Z, h') /\ h_world h' = h_world h) /\
  ((forall n, choice_of (menu_line (h_stdin h) n) <> CExit) ->
     forall fuel, run_tui fuel p h = Diverge) /\
  (forall n, length (h_stdin h) <= 2 * n -> choice_of (menu_line (h_stdin h) n) <> CExit).
Proof.
  intros Ht. split_and!.
  - intros n. by apply tui_returns.
  - intros Hn fuel. apply tui_loops; auto.
  - intros n Hn. unfold menu_line. rewrite lookup_ge_None_2 by lia. done.
Qed.

Definition linux_box : Platform := mk_Platform "x86_64" true false.
Definition typed (l : list string) : Host := mk_Host (world_of [] 0) "" (map (fun s => s +:+ chr nl) l).

Lemma tui_returns_iff_asked_witness :
  terminal_ok (typed ["d"; ""; " Q "]) /\
  exists h', run_tui 2 linux_box (typed ["d"; ""; " Q "]) = Done (Ok 0%Z, h') /\
    h_world h' = world_of [] 0.
Proof.
  assert (terminal_ok (typed ["d"; ""; " Q "])) as Ht by (by repeat constructor).
  split; [exact Ht|].
  apply (proj1 (tui_returns_iff_asked linux_box (typed ["d"; ""; " Q "]) Ht) 1).
  - reflexivity.
  - intros [|k] Hk; [discriminate|lia].
Defined.

(** At the end of the input the menu loops: every bound on the rounds is reached. *)
Example tui_end_of_input : run_tui 25 linux_box (typed ["d"]) = Diverge.
Proof. by vm_compute. Qed.

(** ** The templates are what the validator reads *)

Lemma print_lines_text l h :
  print_lines l h = Done (Ok tt, mk_Host (h_world h) (h_stdout h +:+ lines_text l) (h_stdin h)).
Proof.
  revert h. induction l as [|s l IH]; intros [w o i].
  - unfold lines_text. simpl. unfold cmd_ret. by rewrite str_app_nil_r.
  - simpl. unfold println, print, cmd_bind. simpl. rewrite IH. simpl.
    unfold lines_text. simpl. by rewrite !str_app_assoc.
Qed.

(** The fields of a printed template *)
Definition template_token (ring : RingMode) : Token :=
  mk_Token (token_ring ring) (Some true) (Some 1700000000%Z) (Some "<nonce>") (Some 1%Z)
    (if decide (ring = RingM2) then Some true else None).

Lemma template_scan ring :
  ring <> Ring0 -> scan_token (lines_text (template_lines ring)) = template_token ring.
Proof. by destruct ring; vm_compute. Qed.

(** C28. The token template of a strict ring is a token the validator accepts:
    the text printed, taken as a token, passes every check for its ring, with the
    nonce it shows, at any time from its timestamp to the age limit, and its
    counter is 1. *)
Theorem template_accepted ring n age now h w :
  token_ring ring = Some n -> (0 < age)%Z -> w_now w = Some now ->
  (1700000000 <= now <= 1700000000 + age)%Z -> (now <= i64_max)%Z ->
  exists text,
    print_token_template ring false h
      = Done (Ok tt, mk_Host (h_world h) (h_stdout h +:+ text) (h_stdin h)) /\
    check_token (scan_token text) n age (Some "<nonce>") w = Some 1%Z.
Proof.
  intros Hr Hage Hnow Hin Hmax. exists (lines_text (template_lines ring)).
  split; [apply print_lines_text|].
  rewrite template_scan by (by destruct ring). unfold check_token, template_token. simpl. rewrite Hr, Hnow.
  rewrite Z.eqb_refl. simpl.
  assert ((n =? -2)%Z && negb (default false (if decide (ring = RingM2) then Some true else None)) = false)
    as -> by (destruct ring; naive_solver).
  rewrite (proj2 (Z.leb_gt age 0)) by lia. rewrite (proj2 (Z.ltb_ge now 1700000000)) by lia.
  unfold sub_i64. rewrite decide_True by (unfold in_i64, i64_min, i64_max in *; lia).
  by rewrite (proj2 (Z.ltb_ge age (now - 1700000000))) by lia.
Qed.

Lemma template_accepted_witness :
  exists text,
    print_token_template RingM2 false (typed []) = Done (Ok tt, mk_Host (world_of [] 0) text []) /\
    check_token (scan_token text) (-2) 300 (Some "<nonce>") (world_of [] 1700000100) = Some 1%Z.
Proof.
  exact (template_accepted RingM2 (-2) 300 1700000100 (typed []) (world_of [] 1700000100)
    eq_refl ltac:(lia) eq_refl ltac:(lia) ltac:(unfold i64_max; lia)).
Defined.

(** ** The JSON of the commands reads back *)

Example catalog_readable :
  json_parse feature_catalog_json
  = Some (JObj [("name", JStr "SKV Analyzer"); ("features", JArr (map JStr features))]).
Proof. by vm_compute. Qed.

Definition diagnostic_value (d : Diagnostic) : json :=
  JObj [("check", JStr (d_name d)); ("ok", JBool (d_ok d)); ("required", JBool (d_required d));
        ("detail", JStr (d_detail d))].

(** [doctor --json]: the diagnostics, and exit status from the required ones only *)
Example doctor_readable :
  Forall (fun p =>
    match run_doctor p true (typed []) with
    | Done (Ok ok, h) =>
        ok = target_linux p /\
        json_parse (h_stdout h)
        = Some (JObj [("doctor", JArr (map diagnostic_value (required_checks p ++ optional_checks p)%list));
                      ("all_ok", JBool (target_linux p))])
    | _ => False
    end)
    [mk_Platform "x86_64" true true; mk_Platform "x86_64" true false;
     mk_Platform "aarch64" false true; mk_Platform "aarch64" false false].
Proof. by repeat constructor; vm_compute. Qed.

Example templates_readable :
  json_parse (template_json RingM1)
    = Some (JObj [("ring", JNum (-1)); ("attested", JBool true); ("timestamp", JNum 1700000000);
                  ("nonce", JStr "<nonce>"); ("counter", JNum 1)]) /\
  json_parse (template_json RingM2)
    = Some (JObj [("ring", JNum (-2)); ("attested", JBool true); ("root_attested", JBool true);
                  ("timestamp", JNum 1700000000); ("nonce", JStr "<nonce>"); ("counter", JNum 1)]).
Proof. by vm_compute. Qed.
