(* ===== verification/Cli.v ===== *)
(** * Cli: [Args], [run] and [main] of [main.rs]

    The arguments as [clap] delivers them, the subcommands, and the analysis
    command from the IR file to the exit code.  The loader of IR files is a
    parameter that may fail or panic; [Load] instantiates it. *)

From S2P Require Import Prelude Text Types Instr Smt Gate Analyzer Samples AnalyzerInv MemSafety MemSound Fs Bridge Zig Validator Attest Json Verdict Console.
From stdpp Require Import base gmap list strings pretty.
From Stdlib Require Import Ascii ZArith Lia.
#[local] Open Scope string_scope.

Inductive Commands :=
  | Features
  | Doctor
  | TokenTemplate (ring : RingMode)
  | Tui
  | AttestCheck.

Inductive ProofFormat := Lfsc | Rup.
Definition ProofFormat_label (f : ProofFormat) : string :=
  match f with Lfsc => "lfsc" | Rup => "rup" end.

Inductive RuntimeFallbackPolicy := FbAuto | ArmMte | IntegriTag | SoftwareTargeted.
Definition resolved (p : Platform) (r : RuntimeFallbackPolicy) : string :=
  match r with
  | FbAuto =>
      if bool_decide (target_arch p = "aarch64") then "arm-mte"
      else if bool_decide (target_arch p = "x86_64") then "integritag"
      else "software-targeted"
  | ArmMte => "arm-mte"
  | IntegriTag => "integritag"
  | SoftwareTargeted => "software-targeted"
  end.

(** The attestation options are the fields of [ar_attestation]. *)
Record Args := mk_Args {
  ar_ir_path : option string;
  ar_ring : RingMode;
  ar_attestation : Attestation;
  ar_json : bool;
  ar_verdict_out : option string;
  ar_hitl_mode : HitlMode;
  ar_hitl_approvals : option string;
  ar_hitl_class_approvals : option string;
  ar_emit_vcs : option string;
  ar_runtime_fallback : RuntimeFallbackPolicy;
  ar_proof_format : ProofFormat;
  ar_emit_proof : option string;
  ar_inline_asm_policy : InlineAsmPolicy;
  ar_dma_policy : DmaPolicy;
  ar_emit_equiv_summary : option string;
  ar_command : option Commands
}.

Definition LLVM_PANIC : string :=
  "LLVM IR parser panicked on input; possible LLVM producer/consumer mismatch (this binary expects LLVM 19 IR). Use `attest-check` for trust-only validation or provide LLVM 19-compatible IR".
Definition NO_APPROVALS : string :=
  "--hitl-mode require needs at least one approval source: --hitl-approvals or --hitl-class-approvals".

Definition count_text (v : Verdict) : string :=
  "[INFO] HITL mode: " +:+ v_hitl_mode v +:+ " (seen_vcs=" +:+ pretty (v_hitl_seen_vcs v)
  +:+ ", blocked_vcs=" +:+ pretty (v_hitl_blocked_vcs v)
  +:+ ", seen_classes=" +:+ pretty (v_hitl_seen_classes v)
  +:+ ", blocked_classes=" +:+ pretty (v_hitl_blocked_classes v) +:+ ")".

Definition status_line (v : Verdict) : string :=
  (if bool_decide (v_status v = "pass") then "[PASS] "
   else if bool_decide (v_status v = "fail") then "[FAIL] " else "[UNKNOWN] ") +:+ v_message v.

(** Printing the verdict *)
Definition report (args : Args) (v : Verdict) : cmd unit :=
  if ar_json args then println (to_json v)
  else print_lines [status_line v; "[INFO] runtime fallback policy: " +:+ v_runtime_fallback v;
                    count_text v].

(** [if let Some(path) = .. { write_output_file(path, content).with_context(..)? }] *)
Definition write_to (what : string) (path : option string) (content : string) : cmd unit :=
  match path with
  | None => cmd_ret tt
  | Some path => cmd_io (io_context ("Failed to write " +:+ what +:+ " file: " +:+ path)
                           (write_output_file path content))
  end.

Definition proof_text (p : Platform) (f : ProofFormat) (v : Verdict) : string :=
  lines_text [";; Sentinel-KV Z3 Proof Trace (Format: " +:+ ProofFormat_label f +:+ ")";
              ";; Verdict Status: " +:+ v_status v;
              ";; Target Arch: " +:+ target_arch p;
              "(proof-trace-placeholder)"].

(** [verdict.code as u8] *)
Definition exit_code (v : Verdict) : Z := (v_code v mod 256)%Z.

Section run.
Context `{SmtSolver} `{CR : Crypto} `{VA : Validator} (dbg : bool) (fuel rounds : nat).
Context (hash_order : gset nat -> list nat) (p : Platform).
Context (from_ir_path : string -> World -> exec (result Module_)).

Definition cmd_ring_policy (args : Args) (r : AnalysisResult)
    : cmd (AnalysisResult * option string * option string) := fun h =>
  let! (res, w) := apply_ring_policy r (ar_ring args) (ar_attestation args) (h_world h) in
  Done (Ok res, mk_Host w (h_stdout h) (h_stdin h)).

(** The [attest-check] command *)
Definition run_attest_check (args : Args) : cmd Z :=
  let runtime_fallback := resolved p (ar_runtime_fallback args) in
  let& (result, fp, sha) := cmd_ring_policy args APass in
  let verdict := verdict_from_result result fp sha runtime_fallback
                   (HitlMode_label (ar_hitl_mode args)) 0 0 0 0 0 0 0 in
  let& _ := report args verdict in
  let& _ := write_to "verdict" (ar_verdict_out args) (to_json verdict +:+ chr nl) in
  cmd_ret (exit_code verdict).

(** [catch_unwind(|| Module::from_ir_path(ir_path))] *)
Definition load_module (ir_path : string) : cmd Module_ := fun h =>
  match from_ir_path ir_path (h_world h) with
  | Diverge => Diverge
  | Panic => Done (Err LLVM_PANIC, h)
  | Done (Err e) => Done (Err ("Failed to parse LLVM IR: " +:+ e), h)
  | Done (Ok m) => Done (Ok m, h)
  end.

Definition load_opt (path : option string) : cmd (gset string) :=
  match path with Some path => cmd_read (load_hitl_approvals path) | None => cmd_ret ∅ end.

(** The gate from the arguments *)
Definition make_gate (args : Args) : cmd HitlGate :=
  let mode := ar_hitl_mode args in
  if bool_decide (mode = HitlRequire) && bool_decide (ar_hitl_approvals args = None)
     && bool_decide (ar_hitl_class_approvals args = None)
  then cmd_fail NO_APPROVALS
  else
    let& approved := load_opt (ar_hitl_approvals args) in
    let& approved_classes := (match mode with
                              | HitlOff => cmd_ret ∅
                              | HitlRequire => load_opt (ar_hitl_class_approvals args)
                              end) in
    cmd_ret (mk_HitlGate mode approved approved_classes [] [] [] []).

Definition cmd_analyze (args : Args) (m : Module_) (g : HitlGate) : cmd (AnalysisOutcome * HitlGate) :=
  fun h => let! r := analyze dbg fuel hash_order m (ar_inline_asm_policy args) (ar_dma_policy args) g in
           Done (Ok r, h).

(** Without a subcommand: from the IR file to the exit code *)
Definition run_analysis (args : Args) : cmd Z :=
  let? ir_path := ar_ir_path args
    else cmd_fail "IR_PATH is required unless using `features` command" in
  let& m := load_module ir_path in
  let& g := make_gate args in
  let& (analysis, g) := cmd_analyze args m g in
  let& _ := (match ar_emit_vcs args with
             | Some path => cmd_io (emit_hitl_vcs path g)
             | None => cmd_ret tt
             end) in
  let analysis_result := enforce_hitl_policy (out_result analysis) (ar_hitl_mode args)
                           (out_hitl_blocked_vcs analysis) in
  let runtime_fallback := resolved p (ar_runtime_fallback args) in
  let& (result, fp, sha) := cmd_ring_policy args analysis_result in
  let verdict := verdict_from_result result fp sha runtime_fallback
                   (HitlMode_label (ar_hitl_mode args))
                   (out_hitl_seen_vcs analysis) (out_hitl_blocked_vcs analysis)
                   (out_hitl_seen_classes analysis) (out_hitl_blocked_classes analysis)
                   (out_inline_asm_vcs analysis) (out_dma_vcs analysis)
                   (out_irq_race_vcs analysis) in
  let& _ := report args verdict in
  let& _ := write_to "verdict" (ar_verdict_out args) (to_json verdict +:+ chr nl) in
  let& _ := write_to "proof trace" (ar_emit_proof args)
              (proof_text p (ar_proof_format args) verdict) in
  cmd_ret (exit_code verdict).

Definition run (args : Args) : cmd Z :=
  match ar_command args with
  | Some Features =>
      let& _ := (if ar_json args then println feature_catalog_json else print_feature_catalog) in
      cmd_ret 0%Z
  | Some Doctor => let& ok := run_doctor p (ar_json args) in cmd_ret (if ok then 0 else 12)%Z
  | Some (TokenTemplate ring) => let& _ := print_token_template ring (ar_json args) in cmd_ret 0%Z
  | Some Tui => run_tui rounds p
  | Some AttestCheck => run_attest_check args
  | None => run_analysis args
  end.

(** The exit code; an error goes to standard error and is code 1. *)
Definition main (args : Args) (h : Host) : exec (Z * Host) :=
  let! (r, h') := run args h in
  Done (match r with Ok code => code | Err _ => 1%Z end, h').
End run.

(** ** Stages *)

Lemma cmd_bind_ok {A B} (m : cmd A) (k : A -> cmd B) h b h' :
  cmd_bind m k h = Done (Ok b, h') -> exists a h1, m h = Done (Ok a, h1) /\ k a h1 = Done (Ok b, h').
Proof.
  unfold cmd_bind. intros H. apply exec_bind_done in H as ([[a|e] h1] & Hm & Hk); [eauto|done].
Qed.

(** Take a command's success apart, first stage by first stage. *)
Tactic Notation "stage" hyp(H) "as" simple_intropattern(pa) simple_intropattern(ph) simple_intropattern(pe) :=
  apply cmd_bind_ok in H as (pa & ph & pe & H).

Definition report_text (args : Args) (v : Verdict) : string :=
  if ar_json args then to_json v +:+ chr nl
  else lines_text [status_line v; "[INFO] runtime fallback policy: " +:+ v_runtime_fallback v; count_text v].

Lemma report_prints args v h :
  report args v h = Done (Ok tt, mk_Host (h_world h) (h_stdout h +:+ report_text args v) (h_stdin h)).
Proof. unfold report, report_text. destruct (ar_json args); [done|apply print_lines_text]. Qed.

(** The effect on the files of an optional write that succeeded *)
Definition written (path : option string) (content : string) (w w' : World) : Prop :=
  match path with
  | None => w' = w
  | Some path => write_output_file path content w = (Ok tt, w')
  end.

Lemma write_to_ok what path content h h' :
  write_to what path content h = Done (Ok tt, h') ->
  written path content (h_world h) (h_world h') /\ h_stdout h' = h_stdout h /\ h_stdin h' = h_stdin h.
Proof.
  unfold write_to, written, cmd_io, io_context. destruct path as [path|]; [|by intros [= <-]].
  destruct (write_output_file path content (h_world h)) as [[[]|e] w]; [|done]. by intros [= <-].
Qed.

Lemma load_opt_same path h s h1 : load_opt path h = Done (Ok s, h1) -> h1 = h.
Proof. destruct path; [|by intros [= _ <-]]. unfold load_opt, cmd_read. by intros [= _ <-]. Qed.

Lemma make_gate_ok args h g h1 :
  make_gate args h = Done (Ok g, h1) -> h1 = h /\ gate_fresh g /\ gate_mode g = ar_hitl_mode args.
Proof.
  unfold make_gate. destruct (_ && _); [done|]. intros H.
  stage H as approved h2 Ha. apply load_opt_same in Ha as ->.
  stage H as classes h3 Hc. injection H as <- <-.
  assert (h3 = h) as -> by (destruct (ar_hitl_mode args); [by injection Hc|by apply load_opt_same in Hc]).
  by split_and!.
Qed.

(** The emission of the conditions *)
Definition emitted (args : Args) (g : HitlGate) (w w' : World) : Prop :=
  written (ar_emit_vcs args) (hitl_vcs_json g) w w'.

(** The verdict of an analysis *)
Definition analysis_verdict (p : Platform) (args : Args) (r : AnalysisResult) (fp sha : option string)
    (out : AnalysisOutcome) : Verdict :=
  verdict_from_result r fp sha (resolved p (ar_runtime_fallback args)) (HitlMode_label (ar_hitl_mode args))
    (out_hitl_seen_vcs out) (out_hitl_blocked_vcs out) (out_hitl_seen_classes out)
    (out_hitl_blocked_classes out) (out_inline_asm_vcs out) (out_dma_vcs out) (out_irq_race_vcs out).

Section stages.
Context `{SmtSolver} `{CR : Crypto} `{VA : Validator} (dbg : bool) (fuel rounds : nat).
Context (order : gset nat -> list nat) (p : Platform).
Context (load : string -> World -> exec (result Module_)).

(** What an analysis that reached its exit code went through. *)
Definition analysed (args : Args) (h h' : Host) (code : Z) : Prop :=
  exists path m g out g' w1 r fp sha w2 w3,
    ar_ir_path args = Some path /\ load path (h_world h) = Done (Ok m) /\
    make_gate args h = Done (Ok g, h) /\
    analyze dbg fuel order m (ar_inline_asm_policy args) (ar_dma_policy args) g = Done (out, g') /\
    emitted args g' (h_world h) w1 /\
    apply_ring_policy (enforce_hitl_policy (out_result out) (ar_hitl_mode args) (out_hitl_blocked_vcs out))
      (ar_ring args) (ar_attestation args) w1 = Done ((r, fp, sha), w2) /\
    code = exit_code (analysis_verdict p args r fp sha out) /\
    h_stdout h' = h_stdout h +:+ report_text args (analysis_verdict p args r fp sha out) /\
    written (ar_verdict_out args) (to_json (analysis_verdict p args r fp sha out) +:+ chr nl) w2 w3 /\
    written (ar_emit_proof args)
      (proof_text p (ar_proof_format args) (analysis_verdict p args r fp sha out)) w3 (h_world h').

Lemma run_analysis_ok args h h' code :
  run_analysis dbg fuel order p load args h = Done (Ok code, h') -> analysed args h h' code.
Proof.
  unfold run_analysis. destruct (ar_ir_path args) as [path|] eqn:Hpath; [|done]. intros H0.
  stage H0 as m h1 Hm. unfold load_module in Hm.
  destruct (load path (h_world h)) as [[m'|e]| |] eqn:Hl; try done. injection Hm as -> <-.
  stage H0 as g h2 Hg. destruct (make_gate_ok _ _ _ _ Hg) as [-> _].
  stage H0 as [out g'] h3 Ha. unfold cmd_analyze in Ha.
  apply exec_bind_done in Ha as (r & Ha & Hr). injection Hr as -> <-.
  stage H0 as [] h4 He.
  assert (emitted args g' (h_world h) (h_world h4) /\ h_stdout h4 = h_stdout h) as [Hem Hout].
  { unfold emitted, written. destruct (ar_emit_vcs args) as [vp|]; [|by injection He as <-].
    unfold cmd_io, emit_hitl_vcs, io_context in He.
    destruct (write_output_file vp _ (h_world h)) as [[[]|e] w]; [|done]. by injection He as <-. }
  stage H0 as [[r fp] sha] h5 Hp. unfold cmd_ring_policy in Hp.
  apply exec_bind_done in Hp as ([res w2] & Hring & Hp). injection Hp as -> <-.
  stage H0 as [] h6 Hrep. rewrite report_prints in Hrep. injection Hrep as <-.
  stage H0 as [] h7 Hw1. apply write_to_ok in Hw1 as (Hv & Ho1 & _).
  stage H0 as [] h8 Hw2. apply write_to_ok in Hw2 as (Hpf & Ho2 & _). injection H0 as <- <-.
  exists path, m, g, out, g', (h_world h4), r, fp, sha, w2, (h_world h7).
  split_and!; try done. rewrite Ho2, Ho1. simpl. by rewrite Hout.
Qed.

Lemma main_analysed args h h' code :
  ar_command args = None ->
  main dbg fuel rounds order p load args h = Done (code, h') ->
  code = 1%Z \/ analysed args h h' code.
Proof.
  unfold main, run. intros -> Hm. apply exec_bind_done in Hm as ([[c|e] h1] & Hr & Hc); simplify_eq/=; [|by left].
  right. by apply run_analysis_ok.
Qed.
End stages.

Lemma exit_code_cases p args r fp sha out :
  exit_code (analysis_verdict p args r fp sha out)
  = match r with APass => 0 | AFail _ => 10 | AUnknown _ => 20 end%Z.
Proof. by destruct r. Qed.

(** ** Theorems *)

(** The stages of an analysis command that exits with 0 *)
Lemma exit_zero_stages `{SmtSolver} `{Crypto, ValidatorLaws} dbg fuel rounds order p load args h h' :
  ar_command args = None -> (0 <= attestation_max_age_sec (ar_attestation args))%Z ->
  main dbg fuel rounds order p load args h = Done (0%Z, h') ->
  exists path m g s,
    ar_ir_path args = Some path /\ load path (h_world h) = Done (Ok m) /\
    make_gate args h = Done (Ok g, h) /\
    analyze_state dbg fuel order m (ar_inline_asm_policy args) (ar_dma_policy args) g = Done s /\
    gate_fresh g /\ final_result s = APass /\
    (ar_hitl_mode args = HitlRequire ->
       Forall (fun vc => vc.1 ∈ gate_approved g \/ vc.2 ∈ gate_approved_classes g)
         (zip (gate_seen (gate s)) (gate_seen_classes (gate s)))) /\
    (ar_ring args <> Ring0 -> exists w1 w2 meta token nonce replay n,
       emitted args (gate s) (h_world h) w1 /\
       attested (ar_ring args) (ar_attestation args) w1 w2 meta token nonce replay /\
       token_ring (ar_ring args) = Some n /\
       accepted token n (attestation_max_age_sec (ar_attestation args)) (Some nonce) replay w1 w2).
Proof.
  intros Hcmd Hage Hm.
  destruct (main_analysed _ _ _ _ _ _ _ _ _ _ Hcmd Hm)
    as [?|(path & m & g & out & g' & w1 & r & fp & sha & w2 & w3 & Hpath & Hl & Hg & Ha & He & Hr & Hc & _)];
    [done|].
  assert (r = APass) as -> by (rewrite exit_code_cases in Hc; by destruct r).
  destruct (ring_policy_pass _ _ _ _ _ _ _ Hage Hr) as [Henf Hatt].
  destruct (make_gate_ok _ _ _ _ Hg) as (_ & Hfresh & Hmode). rewrite <- Hmode in *.
  pose proof (fun Hq => require_mode_approved _ _ _ _ _ _ _ _ _ Hfresh Hq Ha Henf) as Happ.
  destruct (analyze_done _ _ _ _ _ _ _ _ _ Ha) as (s & Hs & -> & ->).
  assert (final_result s = APass) as Hp.
  { destruct (gate_mode g) eqn:Hmg; [exact Henf|]. by destruct (Happ eq_refl). }
  exists path, m, g, s. split_and!; try done.
  - intros Hq. by destruct (Happ Hq).
  - intros Hring. destruct (Hatt Hring) as (meta & token & nonce & replay & Hat & _).
    destruct (at_validated _ _ _ _ _ _ _ _ Hat) as (n & Hn & Hv).
    exists w1, w2, meta, token, nonce, replay, n. split_and!; [done..|]. by apply law_accepts.
Qed.

(** C2. Exit code 0 of the analysis command is a proof.  The IR file was read and
    its module analysed to Pass; in require mode every verification condition
    logged had been approved in the reviewer's files; on rings -1 and -2 the
    attestation held, signature, freshness and replay included, and the validator,
    whichever was linked, accepted a token that says so; and, for a sound
    solver, every execution of every function of the module, loops included, is
    memory safe, if the module has the shape the soundness argument covers. *)
Theorem exit_zero_is_proof `{SoundSolver} `{Crypto, ValidatorLaws} dbg fuel rounds order p load args h h' :
  ar_command args = None -> (0 <= attestation_max_age_sec (ar_attestation args))%Z ->
  main dbg fuel rounds order p load args h = Done (0%Z, h') ->
  let asm := ar_inline_asm_policy args in
  let dma := ar_dma_policy args in
  exists path m g s,
    ar_ir_path args = Some path /\ load path (h_world h) = Done (Ok m) /\
    make_gate args h = Done (Ok g, h) /\ analyze_state dbg fuel order m asm dma g = Done s /\
    final_result s = APass /\
    (ar_hitl_mode args = HitlRequire ->
       Forall (fun vc => vc.1 ∈ gate_approved g \/ vc.2 ∈ gate_approved_classes g)
         (zip (gate_seen (gate s)) (gate_seen_classes (gate s)))) /\
    (ar_ring args <> Ring0 -> exists w1 w2 meta token nonce replay n,
       emitted args (gate s) (h_world h) w1 /\
       attested (ar_ring args) (ar_attestation args) w1 w2 meta token nonce replay /\
       token_ring (ar_ring args) = Some n /\
       accepted token n (attestation_max_age_sec (ar_attestation args)) (Some nonce) replay w1 w2) /\
    (types_ok (mod_types m) -> cov_module dbg fuel m asm dma g s = true ->
       forall f cfg evs cfg', f ∈ mod_functions m -> starts f cfg ->
         execution f cfg evs cfg' -> Forall safe_event evs).
Proof.
  intros Hcmd Hage Hm asm dma.
  destruct (exit_zero_stages _ _ _ _ _ _ _ _ _ Hcmd Hage Hm)
    as (path & m & g & s & Hpath & Hl & Hg & Hs & Hfresh & Hp & Happ & Hatt).
  exists path, m, g, s. split_and!; try done. intros HT Hcov f cfg evs cfg' Hf Hst Hex.
  by apply (pass_executions_safe dbg fuel order m asm dma g s f cfg evs cfg').
Qed.

Lemma written_put path content w w' :
  written (Some path) content w w' -> w_fails w "lstat" path = false ->
  exists u, w' = put path (NFile content u mode_600) w.
Proof.
  unfold written. intros Hw Hf. pose proof (write_output_file_spec path content w Hf) as Hs.
  rewrite Hw in Hs. destruct Hs as [_ ->]. eauto.
Qed.

(** A later write to another path leaves a file as it is. *)
Lemma written_other path path' content w w' :
  written path' content w w' -> path' <> Some path -> (forall q, w_fails w "lstat" q = false) ->
  w_nodes w' !! path = w_nodes w !! path.
Proof.
  intros Hw Hne Hf. destruct path' as [q|]; [|by rewrite Hw].
  destruct (written_put _ _ _ _ Hw (Hf q)) as [u ->]. apply put_other. congruence.
Qed.

Lemma written_fails path content w w' :
  written path content w w' -> (forall q, w_fails w "lstat" q = false) -> w_fails w' = w_fails w.
Proof.
  intros Hw Hf. destruct path as [q|]; [|by rewrite Hw].
  by destruct (written_put _ _ _ _ Hw (Hf q)) as [u ->].
Qed.

(** C16. Exit code, console and verdict file of the analysis command agree: unless
    the command ends in an error (code 1) there is one verdict whose code, 0 for
    pass, 10 for fail, 20 for unknown, is the exit code, which is what was
    printed, as JSON or in three lines, and whose JSON is the content of the
    verdict file, with mode 0600. *)
Theorem verdict_reported `{SmtSolver} `{Crypto, ValidatorLaws} dbg fuel rounds order p load args h code h' :
  ar_command args = None -> (forall q, w_fails (h_world h) "lstat" q = false) ->
  main dbg fuel rounds order p load args h = Done (code, h') ->
  code = 1%Z \/
  exists r fp sha out,
    let v := analysis_verdict p args r fp sha out in
    code = match r with APass => 0 | AFail _ => 10 | AUnknown _ => 20 end%Z /\
    v_status v = match r with APass => "pass" | AFail _ => "fail" | AUnknown _ => "unknown" end /\
    h_stdout h' = h_stdout h +:+ report_text args v /\
    forall path, ar_verdict_out args = Some path -> ar_emit_proof args <> Some path ->
      exists u, w_nodes (h_world h') !! path = Some (NFile (to_json v +:+ chr nl) u mode_600).
Proof.
  intros Hcmd Hf Hm.
  destruct (main_analysed _ _ _ _ _ _ _ _ _ _ Hcmd Hm)
    as [?|(path & m & g & out & g' & w1 & r & fp & sha & w2 & w3 & _ & _ & _ & _ & He & Hr & Hc & Ho & Hv & Hp)];
    [by left|right]. exists r, fp, sha, out. rewrite exit_code_cases in Hc.
  split_and!; [done|by destruct r|done|]. intros vp Hvp Hne. rewrite Hvp in Hv.
  assert (w_fails w2 = w_fails (h_world h)) as Hf2.
  { rewrite (ring_policy_fails _ _ _ _ _ _ Hr). exact (written_fails _ _ _ _ He Hf). }
  destruct (written_put _ _ _ _ Hv ltac:(by rewrite Hf2)) as [u ->]. exists u.
  rewrite (written_other vp _ _ _ _ Hp Hne); [apply put_lookup|]. simpl. by rewrite Hf2.
Qed.

(** C19. The [attest-check] command exits with 0 only on ring 0 or when the
    attestation of its ring holds on the files as they were, and never reports
    unknown. *)
Theorem attest_check_exit `{SmtSolver} `{Crypto, ValidatorLaws} dbg fuel rounds order p load args h code h' :
  ar_command args = Some AttestCheck -> (0 <= attestation_max_age_sec (ar_attestation args))%Z ->
  main dbg fuel rounds order p load args h = Done (code, h') ->
  (code = 0 \/ code = 10 \/ code = 1)%Z /\
  (code = 0%Z -> ar_ring args = Ring0 \/ exists w meta token nonce replay,
     attested (ar_ring args) (ar_attestation args) (h_world h) w meta token nonce replay).
Proof.
  unfold main, run. intros -> Hage Hm.
  apply exec_bind_done in Hm as ([[c|e] h1] & Hr & Hc); [|by injection Hc as <- <-; split; [auto|]].
  injection Hc as <- <-. unfold run_attest_check in Hr.
  stage Hr as [[r fp] sha] h2 Hp. unfold cmd_ring_policy in Hp.
  apply exec_bind_done in Hp as ([res w] & Hring & Hp). injection Hp as -> <-.
  stage Hr as [] h3 Hrep. stage Hr as [] h4 Hw. injection Hr as <- <-.
  assert (forall reason, r <> AUnknown reason) as Hnu.
  { intros reason ->. destruct (decide (ar_ring args = Ring0)) as [Hr0|Hne].
    - unfold apply_ring_policy in Hring. rewrite Hr0 in Hring. done.
    - by destruct (ring_policy_verdict _ _ _ _ _ _ _ _ Hring) as [_ Hu]; destruct (Hu Hne reason). }
  destruct r as [|msg|reason]; [split; [auto|]|split; [auto|done]|by destruct (Hnu reason)].
  intros _. destruct (decide (ar_ring args = Ring0)) as [|Hne]; [by left|right].
  destruct (ring_policy_pass _ _ _ _ _ _ _ Hage Hring) as [_ Hat].
  destruct (Hat Hne) as (meta & token & nonce & replay & Hatt & _). eauto 10.
Qed.

(** In require mode without any approval file the command stops with code 1,
    whatever the module: nothing is analysed, printed or written. *)
Theorem require_needs_approvals `{SmtSolver} `{Crypto, Validator} dbg fuel rounds order p load args h path m :
  ar_command args = None -> ar_hitl_mode args = HitlRequire ->
  ar_hitl_approvals args = None -> ar_hitl_class_approvals args = None ->
  ar_ir_path args = Some path -> load path (h_world h) = Done (Ok m) ->
  main dbg fuel rounds order p load args h = Done (1%Z, h).
Proof.
  intros Hc Hm Ha Hca Hp Hl. unfold main, run. rewrite Hc. unfold run_analysis. rewrite Hp.
  unfold cmd_bind at 1, load_module. rewrite Hl. simpl.
  unfold cmd_bind, make_gate. by rewrite Hm, Ha, Hca.
Qed.

(** ** A run *)

(** The module is what the file names it; any other path is an error. *)
Definition sample_load (path : string) (w : World) : exec (result Module_) :=
  if bool_decide (path = "driver.bc") then Done (Ok (modl [looping])) else Done (Err "no such module").

Definition sample_host : Host :=
  mk_Host (world_of [("token", sample_token "7"); ("key", toy_key +:+ chr nl);
                     ("sig", toy_key +:+ toy_key +:+ chr nl);
                     ("approvals", lines_text ["# reviewed"; "f::bb1::i1::store"; "f::bb2::i1::store"; "f::bb2::i3::memset"]);
                     ("classes", lines_text ["class::load::size8"])]
             1700000100) "" [].

(** Ring -1, require mode, every output requested *)
Definition sample_args (cmd : option Commands) (approvals : option string) : Args :=
  mk_Args (Some "driver.bc") RingM1 toy_attestation true (Some "verdict.json") HitlRequire
    approvals (match approvals with Some _ => Some "classes" | None => None end) (Some "vcs.json") FbAuto Lfsc
    (Some "proof") Conservative Verify None cmd.

Definition sample_main (args : Args) (h : Host) : exec (Z * Host) :=
  @main eval_solver toy_crypto c_validator true 8 100 elements linux_box sample_load args h.
(** The exit code of a run *)
Definition sample_code (args : Args) (h : Host) : option Z :=
  match sample_main args h with Done (c, _) => Some c | _ => None end.

(** Proved, approved, attested: 0.  The same token again: 10.  A condition not
    approved: 10.  No approvals: 1. *)
Example sample_codes :
  sample_code (sample_args None (Some "approvals")) sample_host = Some 0%Z /\
  match sample_main (sample_args None (Some "approvals")) sample_host with
  | Done (_, h) => sample_code (sample_args None (Some "approvals")) h = Some 10%Z
  | _ => False
  end /\
  sample_code (sample_args None (Some "classes")) sample_host = Some 10%Z /\
  sample_code (sample_args (Some AttestCheck) None) sample_host = Some 0%Z.
Proof. by vm_compute. Qed.

Lemma sample_main_code args h c :
  sample_code args h = Some c -> exists h', sample_main args h = Done (c, h').
Proof. unfold sample_code. destruct (sample_main args h) as [[c' h']| |]; naive_solver. Qed.

Lemma exit_zero_is_proof_witness :
  let args := sample_args None (Some "approvals") in
  (exists h', sample_main args sample_host = Done (0%Z, h')) /\
  exists path m g s, ar_ir_path args = Some path /\ sample_load path (h_world sample_host) = Done (Ok m) /\
    @analyze_state eval_solver true 8 elements m Conservative Verify g = Done s /\
    final_result s = APass /\
    exists w1 w2 meta token nonce replay,
      emitted args (gate s) (h_world sample_host) w1 /\
      attested (CR := toy_crypto) (VA := c_validator) RingM1 toy_attestation w1 w2 meta token nonce replay.
Proof.
  assert (exists h', sample_main (sample_args None (Some "approvals")) sample_host = Done (0%Z, h')) as [h' Hm].
  { apply sample_main_code. vm_compute. reflexivity. }
  split; [exists h'; exact Hm|]. unfold sample_main in Hm.
  destruct (@exit_zero_is_proof eval_solver eval_solver_sound toy_crypto c_validator c_validator_laws true 8 100 elements linux_box
    sample_load (sample_args None (Some "approvals")) sample_host h' eq_refl ltac:(simpl; lia) Hm)
    as (path & m & g & s & Hp & Hl & Hg & Hs & Hf & _ & Hat & _).
  exists path, m, g, s. split; [exact Hp|]. split; [exact Hl|]. split; [exact Hs|]. split; [exact Hf|].
  destruct (Hat ltac:(discriminate)) as (w1 & w2 & meta & token & nonce & replay & n & He & Ha & _).
  exists w1, w2, meta, token, nonce, replay. split; [exact He|exact Ha].
Defined.

Lemma verdict_reported_witness :
  let args := sample_args None (Some "approvals") in
  exists h' v u, sample_main args sample_host = Done (0%Z, h') /\
    w_nodes (h_world h') !! "verdict.json" = Some (NFile (to_json v +:+ chr nl) u mode_600).
Proof.
  assert (exists h', sample_main (sample_args None (Some "approvals")) sample_host = Done (0%Z, h')) as [h' Hm].
  { apply sample_main_code. vm_compute. reflexivity. }
  pose proof Hm as Hm'. unfold sample_main in Hm'.
  destruct (@verdict_reported eval_solver toy_crypto c_validator c_validator_laws true 8 100 elements linux_box sample_load
    (sample_args None (Some "approvals")) sample_host 0%Z h' eq_refl (fun _ => eq_refl) Hm')
    as [Hc|(r & fp & sha & out & _ & _ & _ & Hv)]; [discriminate|].
  destruct (Hv "verdict.json" eq_refl ltac:(discriminate)) as [u Hu].
  exists h', (analysis_verdict linux_box (sample_args None (Some "approvals")) r fp sha out), u.
  split; [exact Hm|exact Hu].
Defined.

Lemma attest_check_exit_witness :
  exists w meta token nonce replay,
    attested (CR := toy_crypto) (VA := c_validator) RingM1 toy_attestation (h_world sample_host) w meta token nonce replay.
Proof.
  assert (exists h', sample_main (sample_args (Some AttestCheck) None) sample_host = Done (0%Z, h')) as [h' Hm].
  { apply sample_main_code. vm_compute. reflexivity. }
  unfold sample_main in Hm.
  destruct (@attest_check_exit eval_solver toy_crypto c_validator c_validator_laws true 8 100 elements linux_box sample_load
    (sample_args (Some AttestCheck) None) sample_host 0%Z h' eq_refl ltac:(simpl; lia) Hm) as [_ H].
  destruct (H eq_refl) as [Hr|Hat]; [discriminate|exact Hat].
Defined.
