(* ===== verification/Load.v ===== *)
(** * Load: from an IR file to a verdict

    [Module::from_ir_path] and its relatives of [module.rs]: reading the file into
    a buffer, parsing the buffer with LLVM, and reading the module LLVM built.
    With it the command line of [Cli] is complete from the file to the exit code. *)

From S2P Require Import Prelude Text Types Layout Constants Instr Llvm ReadSamples ReadTypes ReadConst ReadAttr ReadInstr ReadModule ReadNames ReadRefs ReadInv ReadTotal Smt Gate Analyzer Samples AnalyzerInv MemSafety MemSound Fs Bridge Zig Validator Build Attest Json Verdict Console Cli.
From stdpp Require Import base gmap list strings pretty.
From Stdlib Require Import Ascii ZArith Lia.
#[local] Open Scope string_scope.

(** ** LLVM's parsers *)

(** A buffer is its content.  Parsing yields the message of an error, or a module
    together with the API of the context that owns it. *)
Class LLVMParsers := {
  LLVMCreateMemoryBufferWithContentsOfFile : string -> World -> string + string;
  LLVMParseIRInContext : string -> string + LLVM * ModuleRef;
  LLVMParseBitcodeInContext2 : string -> option (LLVM * ModuleRef)
}.

Section load.
Context `{LLVMParsers, Bounds} (debug_assertions : bool).

(** ** Parsing *)

Definition parse_ir (mem_buf : string) : exec (result (LLVM * ModuleRef)) :=
  match LLVMParseIRInContext mem_buf with
  | inr out_module => Done (Ok out_module)
  | inl err_string =>
      let! s := raw_to_string err_string in Done (Err ("Failed to parse IR: " +:+ s))
  end.
Definition parse_bc (mem_buf : string) : exec (result (LLVM * ModuleRef)) :=
  Done match LLVMParseBitcodeInContext2 mem_buf with
       | Some out_module => Ok out_module
       | None => Err "Failed to parse bitcode"
       end.

(** ** Modules from buffers, files and strings *)

Definition from_buffer (memory_buffer : string) (parse : string -> exec (result (LLVM * ModuleRef)))
    : exec (result Module_) :=
  let! parsed := parse memory_buffer in
  match parsed with
  | Err e => Done (Err e)
  | Ok (api, m) => let! M := @Module_from_llvm_ref api _ debug_assertions m in Done (Ok M)
  end.

(** A path that is not UTF-8, or has a NUL in it, stops the reader. *)
Definition from_path (path : string) (parse : string -> exec (result (LLVM * ModuleRef))) (w : World)
    : exec (result Module_) :=
  if negb (utf8_valid path) then Panic else
  if has_nul path then Panic else
  match LLVMCreateMemoryBufferWithContentsOfFile path w with
  | inl err_string => let! s := raw_to_string err_string in Done (Err s)
  | inr memory_buffer => from_buffer memory_buffer parse
  end.

Definition from_ir_path (path : string) (w : World) : exec (result Module_) := from_path path parse_ir w.
Definition from_bc_path (path : string) (w : World) : exec (result Module_) := from_path path parse_bc w.
Definition from_ir_str (str : string) : exec (result Module_) := from_buffer str parse_ir.

(** ** What a successful load has done *)

Lemma from_ir_path_done path w M :
  from_ir_path path w = Done (Ok M) ->
  exists buf api m, LLVMCreateMemoryBufferWithContentsOfFile path w = inr buf /\
    LLVMParseIRInContext buf = inr (api, m) /\ @Module_from_llvm_ref api _ debug_assertions m = Done M.
Proof.
  unfold from_ir_path, from_path, from_buffer, parse_ir. do 2 (case_match; [done|]). case_match.
  { unfold raw_to_string. by case_match. }
  destruct (LLVMParseIRInContext _) as [e|[api m]] eqn:Ep; simpl.
  { unfold raw_to_string. by case_match. }
  intros (M' & HM & [= <-])%exec_bind_done. eauto 10.
Qed.

(** Where LLVM reads and parses the file into a well-formed module, loading succeeds. *)
Lemma from_ir_path_total path w buf api m :
  utf8_valid path = true -> has_nul path = false ->
  LLVMCreateMemoryBufferWithContentsOfFile path w = inr buf -> LLVMParseIRInContext buf = inr (api, m) ->
  @module_ok api _ m -> exists M, from_ir_path path w = Done (Ok M).
Proof.
  intros Hu Hn Hb Hp Hm. destruct (@module_reads api _ m Hm) as (M & HM & _). exists M.
  unfold from_ir_path, from_path, from_buffer, parse_ir. rewrite Hu, Hn, Hb. cbn [negb]. rewrite Hp.
  cbn [mbind exec_bind]. by rewrite HM.
Qed.
End load.

(** ** From the file to the verdict *)

(** C40. The analyzer from its build and the file to the exit code.  If the build
    script ends, with the Zig validator if that was asked for and can be built and
    the C one otherwise, and the command exits with 0,
    LLVM read the file and parsed it, the module analysed to Pass is the one the
    readers made of what LLVM parsed, with one function for each defined function
    of LLVM; its type tables are well formed; every function of it refers only to
    its own values and blocks; covered functions execute memory safely; and on
    rings -1 and -2 the linked validator accepted a token that says what is asked. *)
Theorem exit_zero_end_to_end `{SoundSolver} `{Crypto} `{LLVMParsers, Bounds} `{BuildHost}
    backend cargo dbg fuel rounds order p args h h' :
  build_main = Done (backend, cargo) ->
  ar_command args = None -> (0 <= attestation_max_age_sec (ar_attestation args))%Z ->
  main (VA := validator_of backend) dbg fuel rounds order p (from_ir_path dbg) args h = Done (0%Z, h') ->
  let asm := ar_inline_asm_policy args in
  let dma := ar_dma_policy args in
  (backend = BackendZig <-> zig_requested = true /\ has_zig = true) /\
  exists path buf (api : LLVM) m defined M g s,
    ar_ir_path args = Some path /\
    LLVMCreateMemoryBufferWithContentsOfFile path (h_world h) = inr buf /\
    LLVMParseIRInContext buf = inr (api, m) /\
    Module_from_llvm_ref dbg m = Done M /\ types_ok (mod_types M) /\
    get_defined_functions m = Done defined /\
    Forall2 (fun func f => function_ok (LLVMIsAFunction func) -> Forall (block_closed f) (func_basic_blocks f))
      defined (mod_functions M) /\
    analyze_state dbg fuel order M asm dma g = Done s /\ final_result s = APass /\
    (cov_module dbg fuel M asm dma g s = true ->
       forall f cfg evs cfg', f ∈ mod_functions M -> starts f cfg ->
         execution f cfg evs cfg' -> Forall safe_event evs) /\
    (ar_ring args <> Ring0 -> exists w1 w2 token nonce replay n,
       emitted args (gate s) (h_world h) w1 /\ token_ring (ar_ring args) = Some n /\
       accepted (H := validator_of backend) token n (attestation_max_age_sec (ar_attestation args)) (Some nonce)
         replay w1 w2).
Proof.
  intros Hbuild Hcmd Hage Hm asm dma. pose proof build_selects as Hsel. rewrite Hbuild in Hsel.
  split; [apply Hsel|].
  destruct (exit_zero_stages (V := validator_of backend) _ _ _ _ _ _ _ _ _ Hcmd Hage Hm)
    as (path & M & g & s & Hpath & Hl & _ & Hs & Hfresh & Hp & _ & Hatt).
  destruct (from_ir_path_done _ _ _ _ Hl) as (buf & api & m & Hbuf & Hparse & HM).
  destruct (module_read _ _ _ HM) as (gn & defined & _ & Hdef & HT & Hfs).
  exists path, buf, api, m, defined, M, g, s. split_and!; try done.
  - eapply Forall2_impl; [exact Hfs|]. intros func f (ctx & ctx' & _ & Hf) Hok.
    by eapply function_closed.
  - intros Hcov f cfg evs cfg' Hf Hst Hex.
    by apply (pass_executions_safe dbg fuel order M asm dma g s f cfg evs cfg').
  - intros Hring. destruct (Hatt Hring) as (w1 & w2 & meta & token & nonce & replay & n & He & _ & Hn & Hacc).
    by exists w1, w2, token, nonce, replay, n.
Qed.

(** ** A run: the file [driver.bc] holds the IR of [k_sample] *)

Definition sample_parsers : LLVMParsers := {|
  LLVMCreateMemoryBufferWithContentsOfFile path w :=
    if bool_decide (path = "driver.bc") then inr "define void @f()" else inl "No such file or directory";
  LLVMParseIRInContext buf :=
    if bool_decide (buf = "define void @f()") then inr (sample_llvm k_sample, 1%N)
    else inl "expected top-level entity";
  LLVMParseBitcodeInContext2 _ := None
|}.

Definition loaded_main (args : Args) (h : Host) : exec (Z * Host) :=
  @main eval_solver toy_crypto (validator_of BackendC) true 8 100 elements linux_box (@from_ir_path sample_parsers sample_bounds true) args h.

Example errors_reported :
  @from_ir_path sample_parsers sample_bounds true "other.bc" (h_world sample_host)
  = Done (Err "No such file or directory") /\
  @from_ir_str sample_parsers sample_bounds true "int main" = Done (Err "Failed to parse IR: expected top-level entity") /\
  @from_bc_path sample_parsers sample_bounds true "driver.bc" (h_world sample_host) = Done (Err "Failed to parse bitcode").
Proof. by vm_compute. Qed.

(** The host of [Cli] with an approval for the store of [f] *)
Definition loaded_host : Host :=
  mk_Host (put "approvals" (NFile (lines_text ["f::bb0::i1::store"]) (w_euid (h_world sample_host)) mode_600)
             (h_world sample_host)) "" [].
Definition loaded_args : Args := sample_args None (Some "approvals").

Lemma exit_zero_end_to_end_witness :
  (exists h', loaded_main loaded_args loaded_host = Done (0%Z, h')) /\
  exists (api : LLVM) m M g s f, @LLVMParseIRInContext sample_parsers "define void @f()" = inr (api, m) /\
    @Module_from_llvm_ref api sample_bounds true m = Done M /\ types_ok (mod_types M) /\
    mod_functions M = [f] /\ Forall (block_closed f) (func_basic_blocks f) /\
    @analyze_state eval_solver true 8 elements M Conservative Verify g = Done s /\ final_result s = APass.
Proof.
  assert (exists h', loaded_main loaded_args loaded_host = Done (0%Z, h')) as [h' Hm].
  { assert (match loaded_main loaded_args loaded_host with Done (c, _) => c = 0%Z | _ => False end) as Hc
      by (vm_compute; reflexivity).
    destruct (loaded_main _ _) as [[c h']| |]; [|done..]. exists h'. by rewrite Hc. }
  split; [exists h'; exact Hm|]. unfold loaded_main in Hm.
  destruct (@exit_zero_end_to_end eval_solver eval_solver_sound toy_crypto sample_parsers sample_bounds
    (machine None None) BackendC rerun_lines true 8 100 elements linux_box loaded_args loaded_host h' eq_refl eq_refl ltac:(simpl; lia) Hm)
    as (_ & path & buf & api & m & defined & M & g & s & Hpath & Hbuf & Hp & HM & HT & Hd & Hfs & Hs & Hpass & _).
  injection Hpath as <-. injection Hbuf as <-. pose proof Hp as Hp'. injection Hp' as <- <-.
  assert (defined = [10%N]) as -> by (vm_compute in Hd; congruence).
  inversion Hfs as [|? f ? fs Hf Hfs' E1 E2]. inversion Hfs'; subst.
  exists (sample_llvm k_sample), 1%N, M, g, s, f. split; [exact Hp|]. split; [exact HM|]. split; [exact HT|].
  split; [done|]. split; [|split; [exact Hs|exact Hpass]].
  apply Hf. split; [|decide_closed]. repeat constructor; vm_compute; done.
Defined.
